(** * smb2fs: a shallow embedding of the SMB2 file system handler

    The development follows the layout of the repository:

    - [Marshalling]: the pointer/handle registry declared in
      [marshalling.h] (generational slot map);
    - [PathNorm]: the segment-by-segment computation of the root
      directory at the end of [smb2fs_init] (main.c);
    - [Fs]: the file system operations of main.c, written in a small
      monad that threads the process-wide state ([fsd], the
      configuration flags, the incarnation counter), the answers of
      the external collaborators (libsmb2, the requesters, the C
      library) and the trace of the calls made to them;
    - [Startup]: the start of the handler, [smb2fs_main], with the
      treatment of the startup string (main.c);
    - [StatfsFill]: the figures that [smb2fs_statfs] stores (main.c);
    - [FsMore] and [PathStack]: the vocabulary of the properties of
      the operations and of the root directory.

    Integers are [Z] with the wrap-around of the C types written out;
    the target is the 32-bit AmigaOS build ([size_t], [int] and
    pointers are 32 bits wide). *)

From Stdlib Require Import ZArith Lia Ascii.
From Stdlib Require String.
From stdpp Require Import base option list strings gmap.

Open Scope Z_scope.

(** ** Machine integers *)

Definition wrap32 (z : Z) : Z := z mod 2 ^ 32.

(** Conversion of an unsigned 32-bit pattern to [int]. *)
Definition to_int (z : Z) : Z :=
  let u := wrap32 z in if u <? 2 ^ 31 then u else u - 2 ^ 32.

(** * The handle registry (marshalling.h) *)

Module Marshalling.

Definition GROWSIZE : nat := 1024.
Definition INCARNATION_BITS : Z := 10.
Definition INDEX_BITS : Z := 22.
Definition MAX_INDEX : Z := (1 ≪ INDEX_BITS) - 1.

(** [struct PointerHandleRegistry].  The array [pointers] has
    [capacity] cells; a cell is either empty or holds a reference.
    The linked list of [FreeIndexNode]s is the list of its indices,
    head first. *)
Record PointerHandleRegistry := mkRegistry {
  pointers : list (option Z);
  size : nat;
  capacity : nat;
  incarnation : Z;
  freeHead : list nat
}.

(** Modelled from the spec: the value of a handle, "an incarnation
    field (upper bits) and an index+1 field (lower bits)", that is
    [(incarnation << INDEX_BITS) | (index + 1)], computed in
    [uint32_t]. *)
Definition handle_of (inc : Z) (index : nat) : Z :=
  wrap32 (Z.lor (inc ≪ INDEX_BITS) (Z.of_nat index + 1)).

(** Modelled from the spec: the two fields of a handle. *)
Definition handle_index1 (handle : Z) : Z := Z.land handle MAX_INDEX.
Definition handle_incarnation (handle : Z) : Z := handle ≫ INDEX_BITS.

(** Modelled from the spec: the incarnation of a registry as it
    appears in the incarnation field of its handles; the field is
    [INCARNATION_BITS] wide and wraps. *)
Definition incarnation_field (inc : Z) : Z :=
  Z.land inc (Z.ones INCARNATION_BITS).

(** Modelled from the spec: [AllocateNewRegistry] (marshalling.c is not
    part of the sources at hand).  "Create(incarnation) -> Registry:
    empty slot array, zero capacity, free list empty."  The result is
    [None] when memory cannot be obtained. *)
Definition AllocateNewRegistry (mem_ok : bool) (inc : Z)
  : option PointerHandleRegistry :=
  if mem_ok
  then Some {| pointers := []; size := 0; capacity := 0;
               incarnation := inc; freeHead := [] |}
  else None.

(** Modelled from the spec: whether the next allocation has to enlarge
    the array. *)
Definition needs_growth (r : PointerHandleRegistry) : bool :=
  match freeHead r with
  | [] => bool_decide (Z.of_nat (size r) < MAX_INDEX)
          && bool_decide (size r = capacity r)
  | _ :: _ => false
  end.

(** Modelled from the spec: [AllocateHandleForPointer].  "Allocate(ref)
    -> handle|0: pops a free index if available, else appends (growing
    capacity by a fixed increment if full, up to a hard ceiling on
    addressable indices); fails with 0 if the ceiling is exceeded or
    memory cannot be obtained."  [mem_ok] tells whether the enlargement
    of the array, when one is needed, obtains its memory. *)
Definition AllocateHandleForPointer (mem_ok : bool)
    (r : PointerHandleRegistry) (ptr : Z) : Z * PointerHandleRegistry :=
  match freeHead r with
  | index :: rest =>
      (handle_of (incarnation r) index,
       {| pointers := <[index := Some ptr]> (pointers r);
          size := size r; capacity := capacity r;
          incarnation := incarnation r; freeHead := rest |})
  | [] =>
      if bool_decide (Z.of_nat (size r) < MAX_INDEX) then
        if bool_decide (size r = capacity r) then
          if mem_ok then
            (handle_of (incarnation r) (size r),
             {| pointers :=
                  <[size r := Some ptr]>
                    (pointers r ++ replicate GROWSIZE None);
                size := S (size r);
                capacity := (capacity r + GROWSIZE)%nat;
                incarnation := incarnation r; freeHead := [] |})
          else (0, r)
        else
          (handle_of (incarnation r) (size r),
           {| pointers := <[size r := Some ptr]> (pointers r);
              size := S (size r); capacity := capacity r;
              incarnation := incarnation r; freeHead := [] |})
      else (0, r)
  end.

(** Modelled from the spec: the slot a handle designates in a
    registry, when its incarnation field matches and its index is in
    range. *)
Definition handle_slot (r : PointerHandleRegistry) (handle : Z)
  : option nat :=
  let i1 := handle_index1 handle in
  if bool_decide (i1 = 0) then None
  else if bool_decide (handle_incarnation handle
                       = incarnation_field (incarnation r))
  then
    let index := Z.to_nat (i1 - 1) in
    if bool_decide (index < size r)%nat then Some index else None
  else None.

(** Modelled from the spec: [HandleToPointer].  "Resolve(handle) ->
    ref|not-found: decodes incarnation and index; mismatch on either,
    or an empty slot, yields not-found." *)
Definition HandleToPointer (r : PointerHandleRegistry) (handle : Z)
  : option Z :=
  match handle_slot r handle with
  | Some index => mjoin (pointers r !! index)
  | None => None
  end.

(** Modelled from the spec: [RemoveHandle].  "Release(handle): marks
    the slot empty and pushes its index to the free list; idempotent
    misuse (double release) must be rejected as not-found on the second
    call." *)
Definition RemoveHandle (r : PointerHandleRegistry) (handle : Z)
  : PointerHandleRegistry :=
  match handle_slot r handle with
  | Some index =>
      match mjoin (pointers r !! index) with
      | Some _ =>
          {| pointers := <[index := None]> (pointers r);
             size := size r; capacity := capacity r;
             incarnation := incarnation r;
             freeHead := index :: freeHead r |}
      | None => r
      end
  | None => r
  end.

(** An interleaving of allocations and releases. *)
Inductive registry_op :=
| OpAllocate (mem_ok : bool) (ptr : Z)
| OpRelease (handle : Z).

Definition run_op (r : PointerHandleRegistry) (o : registry_op)
  : PointerHandleRegistry :=
  match o with
  | OpAllocate mem_ok ptr => snd (AllocateHandleForPointer mem_ok r ptr)
  | OpRelease handle => RemoveHandle r handle
  end.

Definition run_ops (r : PointerHandleRegistry) (os : list registry_op)
  : PointerHandleRegistry := foldl run_op r os.

(** The shape every registry built by the functions above has. *)
Record wf (r : PointerHandleRegistry) : Prop := {
  wf_length : length (pointers r) = capacity r;
  wf_size : (size r <= capacity r)%nat;
  wf_ceiling : Z.of_nat (size r) <= MAX_INDEX;
  wf_incarnation : 0 <= incarnation r < 2 ^ 32;
  wf_free : ∀ i, i ∈ freeHead r → (i < size r)%nat ∧ pointers r !! i = Some None;
  wf_nodup : NoDup (freeHead r)
}.

(** [handle] designates a slot of [r] that holds [ptr]. *)
Definition live (r : PointerHandleRegistry) (handle ptr : Z) : Prop :=
  ∃ index, handle_slot r handle = Some index
           ∧ pointers r !! index = Some (Some ptr).

End Marshalling.

(** * The root directory of the mount (main.c, end of [smb2fs_init]) *)

Module PathNorm.

(** [MAXPATHLEN] of [<sys/param.h>]. *)
Definition MAXPATHLEN : nat := 1024.

(** The size of [namebuf]. *)
Definition NAMEBUF_SIZE : nat := 256.

Definition slash : ascii := "/"%char.

(** Index of the first, and of the last, occurrence of a character. *)
Fixpoint index_of (c : ascii) (s : string) : option nat :=
  match s with
  | EmptyString => None
  | String a s' => if Ascii.eqb a c then Some 0%nat else S <$> index_of c s'
  end.

Fixpoint rindex_of (c : ascii) (s : string) : option nat :=
  match s with
  | EmptyString => None
  | String a s' =>
      match rindex_of c s' with
      | Some i => Some (S i)
      | None => if Ascii.eqb a c then Some 0%nat else None
      end
  end.

(** The string from position [n] on. *)
Definition string_drop (n : nat) (s : string) : string :=
  String.substring n (String.length s - n) s.

(** [strlcpy] and [strlcat] of the C library, for a destination buffer
    of [size] bytes: the result always fits the buffer with its
    terminating NUL. *)
Definition strlcpy (src : string) (size : nat) : string :=
  String.substring 0 (size - 1) src.

Definition strlcat (dst src : string) (size : nat) : string :=
  if (size <=? String.length dst)%nat then dst
  else dst +:+ String.substring 0 (size - 1 - String.length dst) src.

(** [SplitName] of dos.library, after its autodoc: the piece of [name]
    from [oldpos] up to the next separator is copied to the buffer,
    truncated to [size - 1] characters; the result is the position
    after the separator, the position of the separator when the piece
    did not fit, and [-1] when no separator is left. *)
Definition SplitName (name : string) (sep : ascii) (oldpos size : nat)
  : string * Z :=
  let rest := string_drop oldpos name in
  match index_of sep rest with
  | Some k =>
      if (k <=? size - 1)%nat
      then (String.substring 0 k rest, Z.of_nat (oldpos + k + 1))
      else (String.substring 0 (size - 1) rest, Z.of_nat (oldpos + k))
  | None => (String.substring 0 (size - 1) rest, -1)
  end.

(** One turn of the [do ... while (pos != -1)] loop, main.c:368-394. *)
Definition normalize_step (patharg : string) (pos : nat) (pathbuf : string)
  : string * Z :=
  let '(namebuf, pos') := SplitName patharg slash pos NAMEBUF_SIZE in
  if String.eqb namebuf "" then (pathbuf, pos')
  else if String.eqb namebuf "." then (pathbuf, pos')
  else
    let append :=
      strlcat (strlcat pathbuf "/" MAXPATHLEN) namebuf MAXPATHLEN in
    if String.eqb namebuf ".." then
      (* If not already at root, go up one level *)
      match rindex_of slash pathbuf with
      | Some p => (String.substring 0 p pathbuf, pos')
      | None => (append, pos')
      end
    else (append, pos').

Fixpoint normalize_loop (fuel : nat) (patharg : string) (pos : nat)
    (pathbuf : string) : string :=
  match fuel with
  | O => pathbuf
  | S fuel' =>
      let '(pathbuf', pos') := normalize_step patharg pos pathbuf in
      if pos' =? -1 then pathbuf'
      else normalize_loop fuel' patharg (Z.to_nat pos') pathbuf'
  end.

(** The contents of [pathbuf] after the loop; every turn moves [pos]
    forward, so the length of the argument bounds the number of
    turns (lemma [normalize_loop_fuel]). *)
Definition normalize_path (patharg : string) : string :=
  normalize_loop (S (String.length patharg)) patharg 0 "".

(** The value given to [fsd->rootdir] (main.c:359-407); [None] is
    [NULL]. *)
Definition rootdir_of (url_path : option string) : option string :=
  match url_path with
  | None => None
  | Some patharg =>
      if String.eqb patharg "" then None
      else
        let pathbuf := normalize_path patharg in
        if negb (String.eqb pathbuf "") && negb (String.eqb pathbuf "/")
        then Some pathbuf else None
  end.

(** The components of a path, and whether one of them is [".."]. *)
Fixpoint components_aux (s : string) (cur : string) : list string :=
  match s with
  | EmptyString => [cur]
  | String a s' =>
      if Ascii.eqb a slash then cur :: components_aux s' ""
      else components_aux s' (cur +:+ String a "")
  end.

Definition components (s : string) : list string := components_aux s "".

Definition has_dotdot (s : string) : bool :=
  bool_decide (".." ∈ components s).

End PathNorm.


(** * The file system operations (main.c) *)

Module Fs.

Import Marshalling PathNorm.

(** ** Constants of the C library and of libsmb2 *)

(** [<errno.h>]. *)
Definition ENOENT : Z := 2.
Definition EIO : Z := 5.
Definition ENOMEM : Z := 12.
Definition ENODEV : Z := 19.
Definition EINVAL : Z := 22.
Definition EROFS : Z := 30.
Definition ENOTEMPTY : Z := 66.

(** [<fcntl.h>]. *)
Definition O_RDONLY : Z := 0.
Definition O_RDWR : Z := 2.
Definition O_ACCMODE : Z := 3.
Definition O_CREAT : Z := 512.
Definition O_EXCL : Z := 2048.

(** [SMB2_STATUS_CANCELLED] of libsmb2's smb2.h. *)
Definition SMB2_STATUS_CANCELLED : Z := 0xC0000120.

(** [r2 == -1 || r2 == SMB2_STATUS_CANCELLED], with [r2] an [int] and
    the constant an [unsigned int]: the comparison is made on the
    32-bit pattern of [r2]. *)
Definition is_fault_r2 (r2 : Z) : bool :=
  (r2 =? -1) || (wrap32 r2 =? SMB2_STATUS_CANCELLED).

(** ** Data *)

(** [struct smb2_url] of libsmb2; [None] is a [NULL] field. *)
Record smb2_url := mkUrl {
  url_domain : option string;
  url_user : option string;
  url_password : option string;
  url_server : string;
  url_share : string;
  url_path : option string
}.

(** [struct smb2fs_mount_data]: the arguments read with [cmd_template].
    [parsed_url] is what [smb2_parse_url] makes of [ARG_URL] when it
    succeeds. *)
Record smb2fs_mount_data := mkMount {
  ARG_URL : string;
  ARG_USER : option string;
  ARG_PASSWORD : option string;
  ARG_VOLUME : option string;
  ARG_DOMAIN : option string;
  ARG_READONLY : bool;
  ARG_NOPASSWORDREQ : bool;
  ARG_NO_HANDLES_RCV : bool;
  ARG_RECONNECT_REQ : bool;
  parsed_url : smb2_url
}.

(** [struct smb2fs].  Pointers are numbers, [0] is [NULL]. *)
Record smb2fs := mkFs {
  smb2 : Z;
  phr : option PointerHandleRegistry;
  rdonly : bool;
  connected : bool;
  rootdir : option string
}.

(** The calls made to the collaborators: libsmb2, the requesters of
    smb2fs.h, dos.library, the C library, and the two registry
    functions that obtain and release memory.  The debug output
    ([KPrintF]) itself is left out; the calls made to compute its
    arguments ([time], [smb2_get_domain], [smb2_get_error]) are
    kept. *)
Inductive call :=
| c_calloc
| c_free_fsd
| c_free_rootdir
| c_strdup (s : string)
| c_time
| c_Delay (ticks : Z)
| c_setsockopt (fd : Z)
| c_request_error
| c_request_password
| c_request_reconnect (server : string)
| c_set_volume_name (name : string)
| c_filler (name : string)
| c_AllocateNewRegistry (inc : Z)
| c_FreeRegistry (inc : Z)
| c_registry_grow
| c_smb2_init_context
| c_smb2_destroy_context (ctx : Z)
| c_smb2_parse_url (ctx : Z) (url : string)
| c_smb2_destroy_url
| c_smb2_set_security_mode (ctx : Z)
| c_smb2_set_domain (ctx : Z) (domain : string)
| c_smb2_set_password (ctx : Z)
| c_smb2_get_domain (ctx : Z)
| c_smb2_set_timeout (ctx : Z) (seconds : Z)
| c_smb2_connect_share (ctx : Z) (server share : string) (user : option string)
| c_smb2_disconnect_share (ctx : Z)
| c_smb2_get_fd (ctx : Z)
| c_smb2_get_error (ctx : Z)
| c_smb2_statvfs (ctx : Z) (path : string)
| c_smb2_stat (ctx : Z) (path : string)
| c_smb2_fstat (ctx fh : Z)
| c_smb2_mkdir (ctx : Z) (path : string)
| c_smb2_opendir_r2 (ctx : Z) (path : string)
| c_smb2_readdir (ctx dir : Z)
| c_smb2_closedir (ctx dir : Z)
| c_smb2_open_r2 (ctx : Z) (path : string) (flags : Z)
| c_smb2_close (ctx fh : Z)
| c_smb2_lseek (ctx fh offset : Z)
| c_smb2_get_max_read_size (ctx : Z)
| c_smb2_get_max_write_size (ctx : Z)
| c_smb2_read (ctx fh buffer_ref count : Z)
| c_smb2_write (ctx fh buffer_ref count : Z)
| c_smb2_service (ctx : Z)
| c_smb2_echo (ctx : Z)
| c_smb2_truncate (ctx : Z) (path : string) (length : Z)
| c_smb2_ftruncate (ctx fh length : Z)
| c_smb2_utimens (ctx : Z) (path : string)
| c_smb2_unlink (ctx : Z) (path : string)
| c_smb2_rmdir (ctx : Z) (path : string)
| c_smb2_readlink (ctx : Z) (path : string)
| c_smb2_rename (ctx : Z) (srcpath dstpath : string).

(** What a collaborator answers: a number (an [int], a size or a
    pointer), a pointer together with the status stored through the
    [r2] argument of [smb2_open_r2] and [smb2_opendir_r2], or a
    directory entry. *)
Inductive answer :=
| Int (z : Z)
| PtrR2 (ptr r2 : Z)
| Dirent (name : string).

(** The state of the process and of its environment: the globals of
    main.c, the private data of the fuse context, the answers the
    collaborators are going to give, in the order of the calls, and
    the calls made so far. *)
Record world := mkWorld {
  fsd : option smb2fs;
  phr_incarnation : Z;
  cfg_reconnect_req : bool;
  cfg_handles_rcv : bool;
  last_server : string;
  private_data : smb2fs_mount_data;
  script : list answer;
  log : list call
}.

Definition set_fsd (v : option smb2fs) (w : world) : world :=
  mkWorld v (phr_incarnation w) (cfg_reconnect_req w) (cfg_handles_rcv w)
          (last_server w) (private_data w) (script w) (log w).
Definition set_phr_incarnation (v : Z) (w : world) : world :=
  mkWorld (fsd w) v (cfg_reconnect_req w) (cfg_handles_rcv w)
          (last_server w) (private_data w) (script w) (log w).
Definition set_cfg_reconnect_req (v : bool) (w : world) : world :=
  mkWorld (fsd w) (phr_incarnation w) v (cfg_handles_rcv w)
          (last_server w) (private_data w) (script w) (log w).
Definition set_cfg_handles_rcv (v : bool) (w : world) : world :=
  mkWorld (fsd w) (phr_incarnation w) (cfg_reconnect_req w) v
          (last_server w) (private_data w) (script w) (log w).
Definition set_last_server (v : string) (w : world) : world :=
  mkWorld (fsd w) (phr_incarnation w) (cfg_reconnect_req w)
          (cfg_handles_rcv w) v (private_data w) (script w) (log w).
(** The world after a call: the call is recorded, the script is what
    remains of it. *)
Definition called (c : call) (rest : list answer) (w : world) : world :=
  mkWorld (fsd w) (phr_incarnation w) (cfg_reconnect_req w)
          (cfg_handles_rcv w) (last_server w) (private_data w)
          rest (log w ++ [c]).

(** The world after a call whose result is not used. *)
Definition logged (c : call) (w : world) : world :=
  mkWorld (fsd w) (phr_incarnation w) (cfg_reconnect_req w)
          (cfg_handles_rcv w) (last_server w) (private_data w)
          (script w) (log w ++ [c]).

Definition set_smb2 (v : Z) (s : smb2fs) : smb2fs :=
  mkFs v (phr s) (rdonly s) (connected s) (rootdir s).
Definition set_phr (v : option PointerHandleRegistry) (s : smb2fs) : smb2fs :=
  mkFs (smb2 s) v (rdonly s) (connected s) (rootdir s).
Definition set_rdonly (v : bool) (s : smb2fs) : smb2fs :=
  mkFs (smb2 s) (phr s) v (connected s) (rootdir s).
Definition set_connected (v : bool) (s : smb2fs) : smb2fs :=
  mkFs (smb2 s) (phr s) (rdonly s) v (rootdir s).
Definition set_rootdir (v : option string) (s : smb2fs) : smb2fs :=
  mkFs (smb2 s) (phr s) (rdonly s) (connected s) v.

(** ** The monad *)

(** A computation ends with a value and a world, or does not end in
    the model: the script has no answer left for a call, the answer
    has the wrong shape, or the C code dereferences [NULL]. *)
Inductive failure := OutOfScript | BadAnswer | NullDeref.

Inductive result (A : Type) :=
| Ret (a : A) (w : world)
| Fail (f : failure).
Arguments Ret {A} a w.
Arguments Fail {A} f.

Definition M (A : Type) : Type := world → result A.

Definition ret {A} (a : A) : M A := λ w, Ret a w.

Definition bind {A B} (m : M A) (k : A → M B) : M B :=
  λ w, match m w with
       | Ret a w' => k a w'
       | Fail f => Fail f
       end.

Definition fail {A} (f : failure) : M A := λ _, Fail f.

Notation "'let*' x ':=' m 'in' k" := (bind m (λ x, k))
  (at level 10, x pattern, m at level 100, k at level 200).
Notation "m ';;' k" := (bind m (λ _, k))
  (at level 100, k at level 200, right associativity).

Definition get : M world := λ w, Ret w w.
Definition modify (f : world → world) : M unit := λ w, Ret tt (f w).

(** [fsd], dereferenced. *)
Definition get_fsd : M smb2fs :=
  λ w, match fsd w with
       | Some s => Ret s w
       | None => Fail NullDeref
       end.

Definition put_fsd (s : smb2fs) : M unit := modify (set_fsd (Some s)).

(** A call whose result is used. *)
Definition ext (c : call) : M answer :=
  λ w, match script w with
       | [] => Fail OutOfScript
       | a :: rest => Ret a (called c rest w)
       end.

Definition ext_int (c : call) : M Z :=
  let* a := ext c in
  match a with Int z => ret z | _ => fail BadAnswer end.

Definition ext_ptr_r2 (c : call) : M (Z * Z) :=
  let* a := ext c in
  match a with PtrR2 p r2 => ret (p, r2) | _ => fail BadAnswer end.

(** [None] is the [NULL] entry. *)
Definition ext_dirent (c : call) : M (option string) :=
  let* a := ext c in
  match a with
  | Dirent name => ret (Some name)
  | Int 0 => ret None
  | _ => fail BadAnswer
  end.

(** A call whose result is not used. *)
Definition ext_void (c : call) : M unit := modify (logged c).

(** ** Loops *)

(** What a turn of a loop body decides: another turn, the end of the
    loop, or the [return] of the enclosing function. *)
Inductive flow (R St : Type) :=
| Continue (s : St)
| Break (s : St)
| Return (r : R).
Arguments Continue {R St} s.
Arguments Break {R St} s.
Arguments Return {R St} r.

Fixpoint loop_fuel {R St} (fuel : nat) (body : St → M (flow R St)) (s : St)
  : M (R + St) :=
  match fuel with
  | O => fail OutOfScript
  | S fuel' =>
      let* f := body s in
      match f with
      | Continue s' => loop_fuel fuel' body s'
      | Break s' => ret (inr s')
      | Return r => ret (inl r)
      end
  end.

(** Every turn of every loop of main.c makes at least one call whose
    result it uses, so a loop cannot make more turns than the script
    has answers (lemma [loop_unfold]). *)
Definition loop {R St} (body : St → M (flow R St)) (s : St) : M (R + St) :=
  λ w, loop_fuel (S (length (script w))) body s w.

(** ** Session set-up and tear-down *)

Definition update_fsd (f : smb2fs → smb2fs) : M unit :=
  let* s := get_fsd in put_fsd (f s).

(** [smb2fs_destroy], main.c:428-470.  The fields cleared before
    [free(fsd)] are not kept: the structure is gone afterwards. *)
Definition smb2fs_destroy : M unit :=
  let* w := get in
  match fsd w with
  | None => ret tt
  | Some s =>
      (if negb (smb2 s =? 0) then
         (if connected s then ext_void (c_smb2_disconnect_share (smb2 s))
          else ret tt);;
         ext_void (c_smb2_destroy_context (smb2 s))
       else ret tt);;
      (match rootdir s with
       | Some _ => ext_void c_free_rootdir
       | None => ret tt
       end);;
      (match phr s with
       | Some r => ext_void (c_FreeRegistry (incarnation r))
       | None => ret tt
       end);;
      ext_void c_free_fsd;;
      modify (set_fsd None)
  end.

(** The socket recovery of main.c:236-309, entered with
    [initial_fd <= 2]; the result is the value of [initial_fd] at
    main.c:311.  Each [c_time] is the [time(NULL)] in the arguments of
    the [KPrintF] of the line given beside it.  At main.c:300 the
    arguments are [time(NULL)] and [smb2_get_error(fsd->smb2)]; C
    leaves the order of the two calls open, they are logged in the
    order of the arguments. *)
Definition fd_recovery (url : smb2_url) (username : option string)
    (initial_fd : Z) : M Z :=
  ext_void c_time;;                                        (* 237 *)
  ext_void c_time;;                                        (* 238 *)
  ext_void c_time;;                                        (* 241 *)
  ext_void c_time;;                                        (* 244 *)
  ext_void c_time;;                                        (* 245 *)
  ext_void c_time;;                                        (* 253 *)
  let* s := get_fsd in
  (if negb (smb2 s =? 0) then
     ext_void (c_smb2_destroy_context (smb2 s));;
     update_fsd (set_smb2 0)
   else ret tt);;
  ext_void c_time;;                                        (* 260 *)
  let* ctx := ext_int c_smb2_init_context in
  update_fsd (set_smb2 ctx);;
  let* initial_fd :=
    (if ctx =? 0 then
       ext_void c_time;;                                   (* 263 *)
       ret initial_fd
     else
       ext_void c_time;;                                   (* 268 *)
       ext_void (c_smb2_set_timeout ctx 0);;
       ext_void c_time;;                                   (* 272 *)
       let* connect_result :=
         ext_int (c_smb2_connect_share ctx "192.168.1.52" "AmigaShare"
                                       (Some "Davide")) in
       ext_void c_time;;                                   (* 274 *)
       if connect_result =? 0 then
         let* fd := ext_int (c_smb2_get_fd ctx) in
         ext_void c_time;;                                 (* 278 *)
         if 2 <? fd then
           ext_void c_time;;                               (* 280 *)
           ret fd
         else
           ext_void c_time;;                               (* 285 *)
           ret fd
       else
         ext_void c_time;;                                 (* 285 *)
         ret initial_fd) in
  (* recovery_complete: *)
  if initial_fd <=? 2 then
    ext_void c_time;;                                      (* 291 *)
    ext_void (c_smb2_disconnect_share ctx);;
    ext_void (c_Delay 5);;
    ext_void c_time;;                                      (* 298 *)
    let* connect_result :=
      ext_int (c_smb2_connect_share ctx (url_server url) (url_share url)
                                    username) in
    if connect_result <? 0 then
      ext_void c_time;;                                    (* 300 *)
      ext_void (c_smb2_get_error ctx);;                    (* 300 *)
      ret initial_fd
    else
      let* fresh_fd := ext_int (c_smb2_get_fd ctx) in
      ext_void c_time;;                                    (* 303 *)
      if 2 <? fresh_fd then
        ext_void c_time;;                                  (* 305 *)
        ret fresh_fd
      else ret initial_fd
  else ret initial_fd.

(** [smb2fs_init], main.c:109-426.  [fci] tells whether the argument
    is not [NULL].  The result is the pointer returned: [0] for [NULL],
    the address of [fsd], or [-ENODEV] where the C code returns that
    number from this pointer-valued function.  The calls in the
    arguments of the debug output are made as the C code makes them:
    [smb2_get_domain] once, and once more when its answer is not
    [NULL] (main.c:212), and [time(NULL)] at main.c:229, 231 and
    312. *)
Definition smb2fs_init (fci : bool) : M Z :=
  let* w0 := get in
  let md := private_data w0 in
  (if ARG_RECONNECT_REQ md then modify (set_cfg_reconnect_req true)
   else ret tt);;
  (if ARG_NO_HANDLES_RCV md then modify (set_cfg_handles_rcv false)
   else ret tt);;
  let* p := ext_int c_calloc in
  if p =? 0 then
    modify (set_fsd None);; ext_void c_request_error;; ret 0
  else
  put_fsd (mkFs 0 None false false None);;
  let inc := phr_incarnation w0 in
  modify (set_phr_incarnation (wrap32 (inc + 1)));;
  let* mem := ext_int (c_AllocateNewRegistry inc) in
  match AllocateNewRegistry (negb (mem =? 0)) inc with
  | None =>
      ext_void c_request_error;; ext_void c_free_fsd;;
      modify (set_fsd None);; ret 0
  | Some r =>
  update_fsd (set_phr (Some r));;
  (if ARG_READONLY md then update_fsd (set_rdonly true) else ret tt);;
  let* ctx := ext_int c_smb2_init_context in
  update_fsd (set_smb2 ctx);;
  if ctx =? 0 then ext_void c_request_error;; smb2fs_destroy;; ret 0
  else
  let* parsed := ext_int (c_smb2_parse_url ctx (ARG_URL md)) in
  if parsed =? 0 then ext_void c_request_error;; smb2fs_destroy;; ret 0
  else
  let url := parsed_url md in
  modify (set_last_server (strlcpy (url_server url) 128));;
  let username :=
    match ARG_USER md with Some u => Some u | None => url_user url end in
  let password :=
    match ARG_PASSWORD md with
    | Some pw => Some pw
    | None => url_password url
    end in
  let domain :=
    match ARG_DOMAIN md with Some d => Some d | None => url_domain url end in
  let* prompted :=
    (if bool_decide (password = None) && negb (ARG_NOPASSWORDREQ md)
     then let* pw := ext_int c_request_password in ret (pw =? 0)
     else ret false) in
  if (prompted : bool) then
    ext_void c_request_error;; smb2fs_destroy;; ret 0
  else
  ext_void (c_smb2_set_security_mode ctx);;
  (match domain with
   | Some d => ext_void (c_smb2_set_domain ctx d)
   | None => ret tt
   end);;
  ext_void (c_smb2_set_password ctx);;
  let* dom := ext_int (c_smb2_get_domain ctx) in           (* 212 *)
  (if dom =? 0 then ret tt
   else ext_void (c_smb2_get_domain ctx));;                (* 212 *)
  let* connect_result :=
    ext_int (c_smb2_connect_share ctx (url_server url) (url_share url)
                                  username) in
  if connect_result <? 0 then
    ext_void (c_smb2_get_error ctx);; ext_void c_request_error;;
    ext_void c_smb2_destroy_url;; smb2fs_destroy;; ret 0
  else
  ext_void c_time;;                                        (* 229 *)
  let* initial_fd := ext_int (c_smb2_get_fd ctx) in
  ext_void c_time;;                                        (* 231 *)
  let* initial_fd :=
    (if initial_fd <=? 2 then fd_recovery url username initial_fd
     else ret initial_fd) in
  if initial_fd <=? 2 then
    ext_void c_time;;                                      (* 312 *)
    ret (- ENODEV)
  else
  let* s := get_fsd in
  ext_void (c_smb2_set_timeout (smb2 s) 0);;
  let* sock_fd := ext_int (c_smb2_get_fd (smb2 s)) in
  if (0 <=? sock_fd) && (sock_fd <=? 2) then ret (- ENODEV)
  else
  (if 0 <=? sock_fd then
     ext_void (c_setsockopt sock_fd);; ext_void (c_setsockopt sock_fd)
   else ret tt);;
  update_fsd (set_connected true);;
  let finish : M Z :=
    (if fci then
       ext_void (c_set_volume_name
                   (match ARG_VOLUME md with
                    | Some v => v
                    | None => url_server url +:+ "-" +:+ url_share url
                    end))
     else ret tt);;
    ext_void c_smb2_destroy_url;;
    ret p in
  match rootdir_of (url_path url) with
  | Some pathbuf =>
      let* copy := ext_int (c_strdup pathbuf) in
      if copy =? 0 then
        ext_void c_request_error;; ext_void c_smb2_destroy_url;;
        smb2fs_destroy;; ret 0
      else update_fsd (set_rootdir (Some pathbuf));; finish
  | None => finish
  end
  end.

(** The loop at the end of [handle_connection_fault],
    main.c:527-533. *)
Definition reconnect_loop : M bool :=
  let* r :=
    loop (λ _ : unit,
            let* w := get in
            let* again := ext_int (c_request_reconnect (last_server w)) in
            if again =? 0 then ret (Break tt)
            else
              let* p := smb2fs_init false in
              if p =? 0 then ret (Continue tt) else ret (Return true))
         tt in
  match r with
  | inl b => ret b
  | inr _ => ret false
  end.

(** [handle_connection_fault], main.c:507-534. *)
Definition handle_connection_fault : M bool :=
  let* s := get_fsd in
  ext_void (c_smb2_get_error (smb2 s));;
  ext_void c_request_error;;
  ext_void (c_smb2_destroy_context (smb2 s));;
  (match rootdir s with
   | Some _ => ext_void c_free_rootdir
   | None => ret tt
   end);;
  ext_void c_free_fsd;;
  modify (set_fsd None);;
  let* w := get in
  if negb (cfg_reconnect_req w) then ret false else reconnect_loop.

(** The world in which [handle_connection_fault] looks at
    [cfg_reconnect_req], when it was called in the session [s]. *)
Definition torn_down (s : smb2fs) (w : world) : world :=
  mkWorld None (phr_incarnation w) (cfg_reconnect_req w)
          (cfg_handles_rcv w) (last_server w) (private_data w) (script w)
          (log w
           ++ [c_smb2_get_error (smb2 s); c_request_error;
               c_smb2_destroy_context (smb2 s)]
           ++ (match rootdir s with
               | Some _ => [c_free_rootdir]
               | None => []
               end)
           ++ [c_free_fsd]).

(** The block at the head of every operation but [statfs], e.g.
    main.c:655-664: with no session, ask (when [RECONNECTREQ] is set)
    and connect.  [false] stands for [return -ENODEV]. *)
Definition session_prologue : M bool :=
  let* w := get in
  match fsd w with
  | Some _ => ret true
  | None =>
      if cfg_reconnect_req w then
        let* again := ext_int (c_request_reconnect (last_server w)) in
        if again =? 0 then ret false
        else let* p := smb2fs_init false in ret (negb (p =? 0))
      else let* p := smb2fs_init false in ret (negb (p =? 0))
  end.

(** The path handed to libsmb2: prefixed with [fsd->rootdir], without
    its initial slash. *)
Definition remote_path (s : smb2fs) (path : string) : string :=
  let path :=
    match rootdir s with
    | Some root => strlcat (strlcpy root MAXPATHLEN) path MAXPATHLEN
    | None => path
    end in
  match path with
  | String "/" rest => rest
  | _ => path
  end.

(** ** The registry of the session *)

(** [HandleToPointer(fsd->phr, (uint32_t) fi->fh)]; [0] is [NULL]. *)
Definition resolve (fh : Z) : M Z :=
  let* s := get_fsd in
  match phr s with
  | Some r => ret (default 0 (HandleToPointer r (wrap32 fh)))
  | None => fail NullDeref
  end.

(** [AllocateHandleForPointer(fsd->phr, ptr)]. *)
Definition allocate (ptr : Z) : M Z :=
  let* s := get_fsd in
  match phr s with
  | Some r =>
      let* mem :=
        (if needs_growth r then ext_int c_registry_grow else ret 1) in
      let '(handle, r') :=
        AllocateHandleForPointer (negb (mem =? 0)) r ptr in
      put_fsd (set_phr (Some r') s);;
      ret handle
  | None => fail NullDeref
  end.

(** [RemoveHandle(fsd->phr, (uint32_t) fi->fh)]. *)
Definition remove (fh : Z) : M unit :=
  let* s := get_fsd in
  match phr s with
  | Some r => put_fsd (set_phr (Some (RemoveHandle r (wrap32 fh))) s)
  | None => fail NullDeref
  end.

(** ** The retry loops *)

(** The loop around a call that returns an [int], e.g.
    main.c:675-688:
<<
    do {
        rc = smb2_stat(fsd->smb2, path, &smb2_st);
        if (rc < -1) return rc;
        else if (rc < 0) { if (!handle_connection_fault()) return -ENODEV; }
    } while (rc < 0);
>>
    together with the [return 0] every caller ends with when the loop
    is left. *)
Definition retry_rc (remote : Z → call) : M Z :=
  let* r :=
    loop (λ _ : unit,
            let* s := get_fsd in
            let* rc := ext_int (remote (smb2 s)) in
            if rc <? -1 then ret (Return rc)
            else if rc <? 0 then
              let* ok := handle_connection_fault in
              if ok then ret (Continue tt) else ret (Return (- ENODEV))
            else ret (Break tt))
         tt in
  match r with
  | inl v => ret v
  | inr _ => ret 0
  end.

(** The loop around [smb2_opendir_r2], main.c:810-822 and 1587-1599;
    [inr dir] is the end of the loop with the directory open. *)
Definition retry_opendir (path : string) : M (Z + Z) :=
  loop (λ _ : Z,
          let* s := get_fsd in
          let* (smb2dir, r2) := ext_ptr_r2 (c_smb2_opendir_r2 (smb2 s) path) in
          if smb2dir =? 0 then
            if is_fault_r2 r2 then
              let* ok := handle_connection_fault in
              if ok then ret (Continue 0) else ret (Return (- ENODEV))
            else ret (Return (- ENOENT))
          else ret (Break smb2dir))
       0.

(** The loop around [smb2_open_r2], main.c:939-947 and 1007-1015;
    [inr smb2fh] is the end of the loop. *)
Definition retry_open (path : string) (flags : Z) : M (Z + Z) :=
  loop (λ _ : Z,
          let* s := get_fsd in
          let* (smb2fh, r2) :=
            ext_ptr_r2 (c_smb2_open_r2 (smb2 s) path flags) in
          if is_fault_r2 r2 then
            let* ok := handle_connection_fault in
            if ok then ret (Continue smb2fh) else ret (Return (- ENODEV))
          else ret (Break smb2fh))
       0.

(** ** Operations on paths *)

(** [if (path == NULL || path[0] == '\0') path = "/";] *)
Definition statfs_path (path : option string) : string :=
  match path with
  | None => "/"
  | Some p => if String.eqb p "" then "/" else p
  end.

(** [smb2fs_statfs], main.c:537-616 ([None] is a [NULL] path).  The
    contents of [*sfs] are not modelled. *)
Definition smb2fs_statfs (path : option string) : M Z :=
  let* w := get in
  match fsd w with
  | None => ret (- ENODEV)
  | Some s =>
      let path := statfs_path path in
      let path := remote_path s path in
      retry_rc (λ ctx, c_smb2_statvfs ctx path)
  end.

(** [smb2fs_getattr], main.c:648-693. *)
Definition smb2fs_getattr (path : string) : M Z :=
  let* ok := session_prologue in
  if negb ok then ret (- ENODEV)
  else
    let* s := get_fsd in
    let path := remote_path s path in
    retry_rc (λ ctx, c_smb2_stat ctx path).

(** [smb2fs_mkdir], main.c:738-781. *)
Definition smb2fs_mkdir (path : string) : M Z :=
  let* ok := session_prologue in
  if negb ok then ret (- ENODEV)
  else
    let* s := get_fsd in
    if rdonly s then ret (- EROFS)
    else
      let path := remote_path s path in
      retry_rc (λ ctx, c_smb2_mkdir ctx path).

(** [smb2fs_truncate], main.c:1364-1407. *)
Definition smb2fs_truncate (path : string) (size : Z) : M Z :=
  let* ok := session_prologue in
  if negb ok then ret (- ENODEV)
  else
    let* s := get_fsd in
    if rdonly s then ret (- EROFS)
    else
      let path := remote_path s path in
      retry_rc (λ ctx, c_smb2_truncate ctx path size).

(** [smb2fs_utimens], main.c:1470-1505: no loop, every negative
    result is returned as it is. *)
Definition smb2fs_utimens (path : string) : M Z :=
  let* ok := session_prologue in
  if negb ok then ret (- ENODEV)
  else
    let* s := get_fsd in
    if rdonly s then ret (- EROFS)
    else
      let path := remote_path s path in
      let* rc := ext_int (c_smb2_utimens (smb2 s) path) in
      if rc <? 0 then ret rc else ret 0.

(** [smb2fs_unlink], main.c:1507-1550. *)
Definition smb2fs_unlink (path : string) : M Z :=
  let* ok := session_prologue in
  if negb ok then ret (- ENODEV)
  else
    let* s := get_fsd in
    if rdonly s then ret (- EROFS)
    else
      let path := remote_path s path in
      retry_rc (λ ctx, c_smb2_unlink ctx path).

(** The loop of [smb2fs_rmdir] that looks for an entry other than
    ["."] and [".."], main.c:1602-1609; the result is [notempty]. *)
Definition rmdir_scan (smb2dir : Z) : M bool :=
  let* r :=
    loop (λ _ : unit,
            let* s := get_fsd in
            let* ent := ext_dirent (c_smb2_readdir (smb2 s) smb2dir) in
            match ent with
            | None => ret (Break tt)
            | Some name =>
                if negb (String.eqb name ".") && negb (String.eqb name "..")
                then ret (Return true)
                else ret (Continue tt)
            end)
         tt in
  match r with
  | inl notempty => ret notempty
  | inr _ => ret false
  end.

(** [smb2fs_rmdir], main.c:1552-1631. *)
Definition smb2fs_rmdir (path : string) : M Z :=
  let* ok := session_prologue in
  if negb ok then ret (- ENODEV)
  else
    let* s := get_fsd in
    if rdonly s then ret (- EROFS)
    else
      let path := remote_path s path in
      let* d := retry_opendir path in
      match d with
      | inl v => ret v
      | inr smb2dir =>
          let* notempty := rmdir_scan smb2dir in
          let* s' := get_fsd in
          ext_void (c_smb2_closedir (smb2 s') smb2dir);;
          if notempty then ret (- ENOTEMPTY)
          else
            retry_rc (λ ctx, c_smb2_rmdir ctx path)
      end.

(** [smb2fs_readlink], main.c:1633-1673. *)
Definition smb2fs_readlink (path : string) : M Z :=
  let* ok := session_prologue in
  if negb ok then ret (- ENODEV)
  else
    let* s := get_fsd in
    let path := remote_path s path in
    retry_rc (λ ctx, c_smb2_readlink ctx path).

(** [smb2fs_rename], main.c:1675-1723. *)
Definition smb2fs_rename (srcpath dstpath : string) : M Z :=
  let* ok := session_prologue in
  if negb ok then ret (- ENODEV)
  else
    let* s := get_fsd in
    if rdonly s then ret (- EROFS)
    else
      let srcpath := remote_path s srcpath in
      let dstpath := remote_path s dstpath in
      retry_rc (λ ctx, c_smb2_rename ctx srcpath dstpath).

(** [smb2fs_relabel], main.c:1725-1730. *)
Definition smb2fs_relabel : M Z := ret 0.

(** ** Operations on handles

    An operation that receives a [struct fuse_file_info *fi] takes the
    value of [fi->fh] and gives back, with its result, the value
    [fi->fh] has when it returns. *)

(** [smb2fs_fgetattr], main.c:695-736. *)
Definition smb2fs_fgetattr (fh : Z) : M Z :=
  let* ok := session_prologue in
  if negb ok then ret (- ENODEV)
  else
    let* r :=
      loop (λ _ : unit,
              let* smb2fh := resolve fh in
              if smb2fh =? 0 then ret (Return (- EINVAL))
              else
                let* s := get_fsd in
                let* rc := ext_int (c_smb2_fstat (smb2 s) smb2fh) in
                if rc <? -1 then ret (Return rc)
                else if rc <? 0 then
                  let* ok := handle_connection_fault in
                  if ok then ret (Continue tt) else ret (Return (- ENODEV))
                else ret (Break tt))
           tt in
    match r with
    | inl v => ret v
    | inr _ => ret 0
    end.

(** The loop of [smb2fs_opendir] and what follows it,
    main.c:810-836. *)
Definition opendir_attempt (path : string) (fh : Z) : M (Z * Z) :=
  let* d := retry_opendir path in
  match d with
  | inl v => ret (v, fh)
  | inr smb2dir =>
      let* handle := allocate smb2dir in
      if handle =? 0 then ret (- ENOMEM, handle) else ret (0, handle)
  end.

(** [smb2fs_opendir], main.c:783-837. *)
Definition smb2fs_opendir (path : string) (fh : Z) : M (Z * Z) :=
  let* ok := session_prologue in
  if negb ok then ret (- ENODEV, fh)
  else
    let* s := get_fsd in
    opendir_attempt (remote_path s path) fh.

(** [smb2fs_releasedir], main.c:839-867. *)
Definition smb2fs_releasedir (fh : Z) : M (Z * Z) :=
  let* ok := session_prologue in
  if negb ok then ret (- ENODEV, fh)
  else
    let* smb2dir := resolve fh in
    if smb2dir =? 0 then ret (- EINVAL, fh)
    else
      let* s := get_fsd in
      ext_void (c_smb2_closedir (smb2 s) smb2dir);;
      remove fh;;
      ret (0, 0).

(** [smb2fs_readdir], main.c:869-905; [None] is a [NULL] [fi]. *)
Definition smb2fs_readdir (fi : option Z) : M Z :=
  let* ok := session_prologue in
  if negb ok then ret (- ENODEV)
  else
    match fi with
    | None => ret (- EINVAL)
    | Some fh =>
        let* smb2dir := resolve fh in
        if smb2dir =? 0 then ret (- EINVAL)
        else
          let* _ :=
            loop (R := Z)
                 (λ _ : unit,
                    let* s := get_fsd in
                    let* ent := ext_dirent (c_smb2_readdir (smb2 s) smb2dir) in
                    match ent with
                    | None => ret (Break tt)
                    | Some name => ext_void (c_filler name);; ret (Continue tt)
                    end)
                 tt in
          ret 0
    end.

(** [smb2fs_open], main.c:907-972.  The state of the [for (;;)] is
    [flags] and [smb2fh]; the loop comes back once with [O_RDONLY]
    when [O_RDWR] did not open the file. *)
Definition smb2fs_open (path : string) (fh : Z) : M (Z * Z) :=
  let* ok := session_prologue in
  if negb ok then ret (- ENODEV, fh)
  else
    let* s := get_fsd in
    let path := remote_path s path in
    let flags := if rdonly s then O_RDONLY else O_RDWR in
    let* r :=
      loop (λ st : Z * Z,
              let flags := fst st in
              let* r := retry_open path flags in
              match r with
              | inl v => ret (Return (v, fh))
              | inr smb2fh =>
                  if negb (smb2fh =? 0) then ret (Break (flags, smb2fh))
                  else if Z.land flags O_ACCMODE =? O_RDWR then
                    (* If O_RDWR failed, try O_RDONLY *)
                    ret (Continue
                           (Z.lor (Z.land flags (Z.lnot O_ACCMODE)) O_RDONLY,
                            smb2fh))
                  else ret (Return (- ENOENT, fh))
              end)
           (flags, 0) in
    match r with
    | inl v => ret v
    | inr (_, smb2fh) =>
        let* handle := allocate smb2fh in
        if handle =? 0 then ret (- ENOMEM, handle) else ret (0, handle)
    end.

(** [smb2fs_create], main.c:974-1029. *)
Definition smb2fs_create (path : string) (fh : Z) : M (Z * Z) :=
  let* ok := session_prologue in
  if negb ok then ret (- ENODEV, fh)
  else
    let* s := get_fsd in
    if rdonly s then ret (- EROFS, fh)
    else
      let path := remote_path s path in
      let flags := Z.lor (Z.lor O_CREAT O_EXCL) O_RDWR in
      let* r := retry_open path flags in
      match r with
      | inl v => ret (v, fh)
      | inr smb2fh =>
          if negb (smb2fh =? 0) then
            let* handle := allocate smb2fh in
            if handle =? 0 then ret (- ENOMEM, handle) else ret (0, handle)
          else ret (-1, fh)
      end.

(** [smb2fs_release], main.c:1031-1059. *)
Definition smb2fs_release (fh : Z) : M (Z * Z) :=
  let* ok := session_prologue in
  if negb ok then ret (- ENODEV, fh)
  else
    let* smb2fh := resolve fh in
    if smb2fh =? 0 then ret (- EINVAL, fh)
    else
      let* s := get_fsd in
      ext_void (c_smb2_close (smb2 s) smb2fh);;
      remove fh;;
      ret (0, 0).

(** ** Streams *)

(** The block at the head of [smb2fs_read], [smb2fs_write] and
    [smb2fs_ftruncate], e.g. main.c:1074-1090: the prologue of the other
    operations and, when it made a session, the recovery of the handle.
    [inl] is a [return]. *)
Definition stream_prologue (path : string) (fh : Z) : M (Z * Z + Z) :=
  let* w := get in
  match fsd w with
  | Some _ => ret (inr fh)
  | None =>
      let* ok := session_prologue in
      if negb ok then ret (inl (- ENODEV, fh))
      else
        let* w' := get in
        if cfg_handles_rcv w' then
          let* (rc_open, fh') := smb2fs_open path fh in
          if rc_open <? 0 then ret (inl (- EIO, fh')) else ret (inr fh')
        else ret (inr fh)
  end.

(** What follows a connection fault inside the three stream
    operations, e.g. main.c:1138-1151.  [inl] is a [return], [inr] the
    value of [fi->fh] with which the operation goes on. *)
Definition stream_recovery (path : string) (fh : Z) : M (Z * Z + Z) :=
  let* ok := handle_connection_fault in
  if negb ok then ret (inl (- ENODEV, fh))
  else
    let* w := get in
    if cfg_handles_rcv w then
      let* (rc_open, fh') := smb2fs_open path fh in
      if rc_open <? 0 then ret (inl (- EIO, fh')) else ret (inr fh')
    else
      (* even if connection has reestablished, we do not have a handle
         recovery for now and need to fail the op *)
      ret (inl (- EIO, fh)).

(** [do { serv = smb2_service(fsd->smb2, 0); } while (serv > 0);] *)
Definition service_drain : M unit :=
  let* _ :=
    loop (R := Z)
         (λ _ : unit,
            let* s := get_fsd in
            let* serv := ext_int (c_smb2_service (smb2 s)) in
            if 0 <? serv then ret (Continue tt) else ret (Break tt))
         tt in
  ret tt.

(** The counters of the batching, main.c:1109-1119 and 1252-1262. *)
Record batch := mkBatch {
  service_counter : Z;
  bytes_since_service : Z;
  last_echo : Z
}.

(** The accounting of a successful transfer of [rc] bytes,
    main.c:1155-1174 and 1314-1334. *)
Definition account (rc : Z) (b : batch) : M batch :=
  let service_counter := wrap32 (service_counter b + 1) in
  let bytes_since_service := wrap32 (bytes_since_service b + rc) in
  (* Service every 4 chunks OR every 256KB to prevent stalls *)
  if (4 <=? service_counter) || (262144 <=? bytes_since_service) then
    service_drain;;
    (* Check for SMB2 echo keep-alive (every 20 seconds) *)
    let* current_time := ext_int c_time in
    if 20 <=? current_time - last_echo b then
      let* s := get_fsd in
      ext_void (c_smb2_echo (smb2 s));;
      ret (mkBatch 0 0 current_time)
    else ret (mkBatch 0 0 (last_echo b))
  else ret (mkBatch service_counter bytes_since_service (last_echo b)).

(** The variables of the [while (size > 0)] loop of [smb2fs_read]. *)
Record read_state := mkRead {
  rd_fh : Z;
  rd_size : Z;
  rd_buffer_ref : Z;
  rd_result : Z;
  rd_rc : Z;
  rd_batch : batch
}.

(** One turn of the [while (size > 0)] loop of [smb2fs_read],
    main.c:1121-1180.  [buffer_ref] is counted from [buffer]. *)
Definition read_body (path : string) (smb2fh max_read_size : Z)
    (st : read_state) : M (flow (Z * Z) read_state) :=
  if negb (0 <? rd_size st) then ret (Break st)
  else
    let count :=
      if max_read_size <? rd_size st then max_read_size else rd_size st in
    let* s := get_fsd in
    let* rc :=
      ext_int (c_smb2_read (smb2 s) smb2fh (rd_buffer_ref st) count) in
    let advance (fh : Z) (b : batch) : read_state :=
      mkRead fh (wrap32 (rd_size st - rc)) (rd_buffer_ref st + rc)
             (to_int (rd_result st + rc)) rc b in
    if rc =? 0 then
      ret (Break (mkRead (rd_fh st) (rd_size st) (rd_buffer_ref st)
                         (rd_result st) rc (rd_batch st)))
    else if rc <? -1 then ret (Return (rc, rd_fh st))
    else if rc <? 0 then
      let* r := stream_recovery path (rd_fh st) in
      match r with
      | inl v => ret (Return v)
      | inr fh' => ret (Continue (advance fh' (rd_batch st)))
      end
    else
      let* b := account rc (rd_batch st) in
      ret (Continue (advance (rd_fh st) b)).

(** The variables that live across the turns of the outer
    [do ... while (rc < 0)] of [smb2fs_read] and [smb2fs_write]. *)
Record stream_state := mkStream {
  st_fh : Z;
  st_size : Z;
  st_rc : Z;
  st_result : Z
}.

(** One turn of the outer loop of [smb2fs_read], main.c:1092-1189. *)
Definition read_pass (path : string) (offset : Z) (o : stream_state)
  : M (flow (Z * Z) stream_state) :=
  let* smb2fh := resolve (st_fh o) in
  if smb2fh =? 0 then ret (Return (- EINVAL, st_fh o))
  else
    let* s := get_fsd in
    let* new_offset := ext_int (c_smb2_lseek (smb2 s) smb2fh offset) in
    if new_offset <? 0 then ret (Return (to_int new_offset, st_fh o))
    else
      let* max_read_size := ext_int (c_smb2_get_max_read_size (smb2 s)) in
      let* current_time := ext_int c_time in
      let* r :=
        loop (read_body path smb2fh max_read_size)
             (mkRead (st_fh o) (st_size o) 0 0 (st_rc o)
                     (mkBatch 0 0 current_time)) in
      match r with
      | inl v => ret (Return v)
      | inr st =>
          (* Final service drain after read loop completion *)
          service_drain;;
          let o' := mkStream (rd_fh st) (rd_size st) (rd_rc st)
                             (rd_result st) in
          if rd_rc st <? 0 then ret (Continue o') else ret (Break o')
      end.

(** [smb2fs_read], main.c:1062-1192. *)
Definition smb2fs_read (path : string) (size offset : Z) (fh : Z)
  : M (Z * Z) :=
  let* p := stream_prologue path fh in
  match p with
  | inl v => ret v
  | inr fh =>
      let* r := loop (read_pass path offset) (mkStream fh size 0 0) in
      match r with
      | inl v => ret v
      | inr o => ret (st_result o, st_fh o)
      end
  end.

(** The variables of the [while (size > 0)] loop of [smb2fs_write]. *)
Record write_state := mkWrite {
  wr_fh : Z;
  wr_size : Z;
  wr_buffer_ref : Z;
  wr_result : Z;
  wr_rc : Z;
  wr_batch : batch;
  chunk_size : Z;
  success_count : Z
}.

Definition INITIAL_CHUNK : Z := 65536.
Definition SUCCESS_THRESHOLD : Z := 4.

(** The success counter and the growth of the chunk after a successful
    write, main.c:1336-1344; the result is the new [chunk_size] and the
    new [success_count]. *)
Definition grow_chunk (max_write_size chunk_size success_count : Z)
  : Z * Z :=
  (* Increment success counter and potentially grow chunk size *)
  let success := wrap32 (success_count + 1) in
  if SUCCESS_THRESHOLD <=? success then
    (* Double chunk size, capped by max_write_size *)
    let doubled := wrap32 (chunk_size * 2) in
    ((if max_write_size <? doubled then max_write_size else doubled), 0)
  else (chunk_size, success).

(** One turn of the [while (size > 0)] loop of [smb2fs_write],
    main.c:1276-1350. *)
Definition write_body (path : string) (smb2fh max_write_size : Z)
    (st : write_state) : M (flow (Z * Z) write_state) :=
  if negb (0 <? wr_size st) then ret (Break st)
  else
    let count :=
      if chunk_size st <? wr_size st then chunk_size st else wr_size st in
    let* _ := ext_int c_time in
    let* s := get_fsd in
    let* rc :=
      ext_int (c_smb2_write (smb2 s) smb2fh (wr_buffer_ref st) count) in
    let* _ := ext_int c_time in
    let advance (fh : Z) (b : batch) (chunk success : Z) : write_state :=
      mkWrite fh (wrap32 (wr_size st - rc)) (wr_buffer_ref st + rc)
              (to_int (wr_result st + rc)) rc b chunk success in
    if rc <? 0 then
      (* Connection fault - try to recover *)
      let* r := stream_recovery path (wr_fh st) in
      match r with
      | inl v => ret (Return v)
      | inr fh' =>
          ret (Continue (advance fh' (wr_batch st) (chunk_size st)
                                 (success_count st)))
      end
    else if 0 <? rc then
      let* b := account rc (wr_batch st) in
      let (chunk, success) :=
        grow_chunk max_write_size (chunk_size st) (success_count st) in
      ret (Continue (advance (wr_fh st) b chunk success))
    else
      ret (Continue (advance (wr_fh st) (wr_batch st) (chunk_size st)
                             (success_count st))).

(** The chunk size a transfer starts with, main.c:1244-1247. *)
Definition initial_chunk (max_write_size : Z) : Z :=
  if max_write_size <? INITIAL_CHUNK then max_write_size else INITIAL_CHUNK.

(** One turn of the outer loop of [smb2fs_write], main.c:1227-1359. *)
Definition write_pass (path : string) (offset : Z) (o : stream_state)
  : M (flow (Z * Z) stream_state) :=
  let* smb2fh := resolve (st_fh o) in
  if smb2fh =? 0 then ret (Return (- EINVAL, st_fh o))
  else
    let* s := get_fsd in
    let* new_offset := ext_int (c_smb2_lseek (smb2 s) smb2fh offset) in
    if new_offset <? 0 then ret (Return (to_int new_offset, st_fh o))
    else
      let* max_write_size := ext_int (c_smb2_get_max_write_size (smb2 s)) in
      let* current_time := ext_int c_time in
      let* write_sock_fd := ext_int (c_smb2_get_fd (smb2 s)) in
      if write_sock_fd <=? 2 then ret (Return (- ENODEV, st_fh o))
      else
        let* r :=
          loop (write_body path smb2fh max_write_size)
               (mkWrite (st_fh o) (st_size o) 0 0 (st_rc o)
                        (mkBatch 0 0 current_time)
                        (initial_chunk max_write_size) 0) in
        match r with
        | inl v => ret (Return v)
        | inr st =>
            (* Final service drain after write loop completion *)
            service_drain;;
            let o' := mkStream (wr_fh st) (wr_size st) (wr_rc st)
                               (wr_result st) in
            if wr_rc st <? 0 then ret (Continue o') else ret (Break o')
        end.

(** [smb2fs_write], main.c:1194-1362. *)
Definition smb2fs_write (path : string) (size offset : Z) (fh : Z)
  : M (Z * Z) :=
  let* p := stream_prologue path fh in
  match p with
  | inl v => ret v
  | inr fh =>
      let* s := get_fsd in
      if rdonly s then ret (- EROFS, fh)
      else
        let* r := loop (write_pass path offset) (mkStream fh size 0 0) in
        match r with
        | inl v => ret v
        | inr o => ret (st_result o, st_fh o)
        end
  end.

(** One turn of the loop of [smb2fs_ftruncate], main.c:1438-1465; the
    state is [fi->fh]. *)
Definition ftruncate_body (path : string) (size : Z) (fh : Z)
  : M (flow (Z * Z) Z) :=
  let* smb2fh := resolve fh in
  if smb2fh =? 0 then ret (Return (- EINVAL, fh))
  else
    let* s := get_fsd in
    let* rc := ext_int (c_smb2_ftruncate (smb2 s) smb2fh size) in
    if rc <? -1 then ret (Return (rc, fh))
    else if rc <? 0 then
      let* r := stream_recovery path fh in
      match r with
      | inl v => ret (Return v)
      | inr fh' => ret (Continue fh')
      end
    else ret (Break fh).

(** [smb2fs_ftruncate], main.c:1409-1468. *)
Definition smb2fs_ftruncate (path : string) (size : Z) (fh : Z)
  : M (Z * Z) :=
  let* p := stream_prologue path fh in
  match p with
  | inl v => ret v
  | inr fh =>
      let* s := get_fsd in
      if rdonly s then ret (- EROFS, fh)
      else
        let* r := loop (ftruncate_body path size) fh in
        match r with
        | inl v => ret v
        | inr fh' => ret (0, fh')
        end
  end.

(** ** The table of operations

    The operations of [smb2fs_ops] that the host calls on a mounted
    file system, with their arguments. *)
Inductive operation :=
| op_statfs (path : option string)
| op_getattr (path : string)
| op_fgetattr (fh : Z)
| op_mkdir (path : string)
| op_opendir (path : string) (fh : Z)
| op_releasedir (fh : Z)
| op_readdir (fi : option Z)
| op_open (path : string) (fh : Z)
| op_create (path : string) (fh : Z)
| op_release (fh : Z)
| op_read (path : string) (size offset fh : Z)
| op_write (path : string) (size offset fh : Z)
| op_truncate (path : string) (size : Z)
| op_ftruncate (path : string) (size fh : Z)
| op_utimens (path : string)
| op_unlink (path : string)
| op_rmdir (path : string)
| op_readlink (path : string)
| op_rename (srcpath dstpath : string).

(** The result of an operation. *)
Definition run (o : operation) : M Z :=
  match o with
  | op_statfs path => smb2fs_statfs path
  | op_getattr path => smb2fs_getattr path
  | op_fgetattr fh => smb2fs_fgetattr fh
  | op_mkdir path => smb2fs_mkdir path
  | op_opendir path fh => let* r := smb2fs_opendir path fh in ret (fst r)
  | op_releasedir fh => let* r := smb2fs_releasedir fh in ret (fst r)
  | op_readdir fi => smb2fs_readdir fi
  | op_open path fh => let* r := smb2fs_open path fh in ret (fst r)
  | op_create path fh => let* r := smb2fs_create path fh in ret (fst r)
  | op_release fh => let* r := smb2fs_release fh in ret (fst r)
  | op_read path size offset fh =>
      let* r := smb2fs_read path size offset fh in ret (fst r)
  | op_write path size offset fh =>
      let* r := smb2fs_write path size offset fh in ret (fst r)
  | op_truncate path size => smb2fs_truncate path size
  | op_ftruncate path size fh =>
      let* r := smb2fs_ftruncate path size fh in ret (fst r)
  | op_utimens path => smb2fs_utimens path
  | op_unlink path => smb2fs_unlink path
  | op_rmdir path => smb2fs_rmdir path
  | op_readlink path => smb2fs_readlink path
  | op_rename srcpath dstpath => smb2fs_rename srcpath dstpath
  end.

(** ** The operations around [retry_rc]

    For the operations that consist of the head block, the read-only
    check and the loop [retry_rc]: the call the loop makes in the
    session [s], as a function of the libsmb2 context.  [None] for the
    other operations, and for a modifying operation on a read-only
    mount. *)
Definition rc_remote (o : operation) (s : smb2fs) : option (Z → call) :=
  match o with
  | op_statfs path =>
      Some (λ ctx, c_smb2_statvfs ctx (remote_path s (statfs_path path)))
  | op_getattr path => Some (λ ctx, c_smb2_stat ctx (remote_path s path))
  | op_readlink path =>
      Some (λ ctx, c_smb2_readlink ctx (remote_path s path))
  | op_mkdir path =>
      if rdonly s then None
      else Some (λ ctx, c_smb2_mkdir ctx (remote_path s path))
  | op_truncate path size =>
      if rdonly s then None
      else Some (λ ctx, c_smb2_truncate ctx (remote_path s path) size)
  | op_unlink path =>
      if rdonly s then None
      else Some (λ ctx, c_smb2_unlink ctx (remote_path s path))
  | op_rename srcpath dstpath =>
      if rdonly s then None
      else Some (λ ctx, c_smb2_rename ctx (remote_path s srcpath)
                                      (remote_path s dstpath))
  | _ => None
  end.

(** ** A mount

    The share [smb://server/share/sub], mounted with a password and
    with [RECONNECTREQ]; the session it gives; the answers of a
    connection that succeeds on a socket with descriptor [5]. *)
Definition example_url : smb2_url :=
  mkUrl None (Some "guest") None "server" "share" (Some "sub").

Definition example_mount (reconnect handles : bool) : smb2fs_mount_data :=
  mkMount "smb://guest@server/share/sub" None (Some "secret") None None
          false false (negb handles) reconnect example_url.

Definition example_session : smb2fs :=
  mkFs 2000 (Some (mkRegistry [] 0 0 1 [])) false true (Some "/sub").

(** A world with the session, the two switches and a script. *)
Definition example_world (reconnect handles : bool) (answers : list answer)
  : world :=
  mkWorld (Some example_session) 2 reconnect handles "server"
          (example_mount reconnect handles) answers [].

(** The same with no session. *)
Definition example_offline (reconnect handles : bool)
    (answers : list answer) : world :=
  mkWorld None 2 reconnect handles "server"
          (example_mount reconnect handles) answers [].

(** [calloc], the registry, the context, the URL, the domain (none),
    the connection, the descriptor (twice) and [strdup]. *)
Definition connect_answers (ctx : Z) : list answer :=
  [Int 1000; Int 1; Int ctx; Int 1; Int 0; Int 0; Int 5; Int 5; Int 1].

(** ** A transfer across a fault

    The calls that transfer data or set the size of a file. *)
Definition is_transfer (c : call) : bool :=
  match c with
  | c_smb2_read _ _ _ _ | c_smb2_write _ _ _ _ | c_smb2_ftruncate _ _ _ => true
  | _ => false
  end.

(** The user agrees to reconnect, the connection succeeds with the
    context [3000], and the file is opened again, as [888]. *)
Definition recovery_answers : list answer :=
  Int 1 :: connect_answers 3000 ++ [PtrR2 888 0; Int 1].

(** The file is opened as [777]; then a transfer of ten bytes meets a
    fault at its first call and, after the recovery, the server takes
    the eleven bytes it is asked for. *)
Definition read_script : list answer :=
  [PtrR2 777 0; Int 1]
  ++ [Int 0; Int 65536; Int 100; Int (-1)]
  ++ recovery_answers ++ [Int 11; Int 0].

Definition write_script : list answer :=
  [PtrR2 777 0; Int 1]
  ++ [Int 0; Int 65536; Int 100; Int 5; Int 100; Int (-1); Int 100]
  ++ recovery_answers ++ [Int 100; Int 11; Int 100; Int 0].

Definition ftruncate_script : list answer :=
  [PtrR2 777 0; Int 1] ++ [Int (-1)] ++ recovery_answers ++ [Int 0].

(** A write of 393216 bytes in blocks that the server takes whole,
    with a maximum of 1 MiB. *)
Definition grow_script : list answer :=
  [PtrR2 777 0; Int 1]
  ++ [Int 0; Int 1048576; Int 100; Int 5]
  ++ [Int 100; Int 65536; Int 100]
  ++ [Int 100; Int 65536; Int 100]
  ++ [Int 100; Int 65536; Int 100]
  ++ [Int 100; Int 65536; Int 100; Int 0; Int 100]
  ++ [Int 100; Int 131072; Int 100]
  ++ [Int 0].

(** ** Use of the script *)

(** A computation never gives answers back to the script, or takes at
    least one, or takes at least one whenever it asks for another turn
    of the loop it is the body of. *)
Definition shrinks {A} (m : M A) : Prop :=
  ∀ w a w', m w = Ret a w' → (length (script w') ≤ length (script w))%nat.

Definition consumes {A} (m : M A) : Prop :=
  ∀ w a w', m w = Ret a w' → (length (script w') < length (script w))%nat.

Definition progresses {R St} (m : M (flow R St)) : Prop :=
  ∀ w s' w',
    m w = Ret (Continue s') w' → (length (script w') < length (script w))%nat.

(** ** Use of the log *)

(** Every call a computation makes has the property [P]. *)
Definition logs {A} (P : call → Prop) (m : M A) : Prop :=
  ∀ w a w', m w = Ret a w' → ∃ l, log w' = log w ++ l ∧ Forall P l.

(** The calls that ask the user whether to reconnect. *)
Definition is_reconnect_prompt (c : call) : bool :=
  match c with
  | c_request_reconnect _ => true
  | _ => false
  end.

Definition silent (c : call) : Prop := is_reconnect_prompt c = false.

(** The call every run of [smb2fs_init] begins with. *)
Definition is_init (c : call) : bool :=
  match c with
  | c_calloc => true
  | _ => false
  end.

(** The calls of a reconnection: the prompt, the start of
    [smb2fs_init], the connection to the share. *)
Definition is_reconnection (c : call) : bool :=
  match c with
  | c_request_reconnect _ | c_calloc | c_smb2_connect_share _ _ _ _ => true
  | _ => false
  end.

Definition count_calls (f : call → bool) (l : list call) : nat :=
  length (List.filter f l).

Definition is_statfs (o : operation) : bool :=
  match o with
  | op_statfs _ => true
  | _ => false
  end.

(** The call an operation other than [statfs] begins with when there
    is no session. *)
Definition first_call (w : world) : call :=
  if cfg_reconnect_req w then c_request_reconnect (last_server w)
  else c_calloc.

(** With no session, a computation begins with that call. *)
Definition starts_offline {A} (m : M A) : Prop :=
  ∀ w a w',
    fsd w = None → m w = Ret a w' →
    ∃ l, log w' = log w ++ first_call w :: l.

(** ** Triples *)

(** Started in a world of [P], a computation that returns does so with
    a result and a world of [Q]. *)
Definition triple {A} (P : world → Prop) (m : M A) (Q : A → world → Prop)
  : Prop :=
  ∀ w a w', P w → m w = Ret a w' → Q a w'.

(** An assertion that the calls do not disturb. *)
Definition stable (I : world → Prop) : Prop :=
  (∀ w c rest, I w → I (called c rest w)) ∧ (∀ w c, I w → I (logged c w)).

(** ** The assertions of [smb2fs_init] *)

Section init.

Context (md : smb2fs_mount_data) (reconnect handles : bool) (inc : Z).

(** The frame: what no step of [smb2fs_init] changes once the two
    switches are set. *)
Definition init_frame (w : world) : Prop :=
  private_data w = md
  ∧ cfg_reconnect_req w = reconnect
  ∧ cfg_handles_rcv w = handles.

(** The session under construction. *)
Definition init_session (w : world) : Prop :=
  init_frame w
  ∧ ∃ s, fsd w = Some s
         ∧ phr s = Some (mkRegistry [] 0 0 inc [])
         ∧ rdonly s = ARG_READONLY md.

Definition init_failed (w : world) : Prop := init_frame w ∧ fsd w = None.

(** What [smb2fs_init] leaves when it returns [p]. *)
Definition init_post (p : Z) (w : world) : Prop :=
  init_frame w
  ∧ (p = 0 → fsd w = None)
  ∧ (p ≠ 0 →
     ∃ s, fsd w = Some s
          ∧ phr s = Some (mkRegistry [] 0 0 inc [])
          ∧ rdonly s = ARG_READONLY md).

End init.

(** ** Sessions and faults *)

(** Reconnection is disabled: the switch is off and the mount does not
    ask for it. *)
Definition quiet (w : world) : Prop :=
  cfg_reconnect_req w = false ∧ ARG_RECONNECT_REQ (private_data w) = false.

(** A world with a session and reconnection disabled. *)
Definition online (w : world) : Prop := is_Some (fsd w) ∧ quiet w.

(** A call that neither begins a connection nor asks whether to
    reconnect. *)
Definition plain (c : call) : Prop :=
  is_init c = false ∧ is_reconnect_prompt c = false.

(** Started in such a world, a computation makes plain calls only, and
    ends in such a world, or ends with no session and a result in
    [Q]. *)
Definition fault_exit {A} (Q : A → Prop) (m : M A) : Prop :=
  ∀ w a w',
    online w → m w = Ret a w' →
    (∃ l, log w' = log w ++ l ∧ Forall plain l)
    ∧ (online w' ∨ (fsd w' = None ∧ quiet w' ∧ Q a)).

(** A computation that only returns a result in [Q]. *)
Definition returns {A} (Q : A → Prop) (m : M A) : Prop :=
  ∀ w a w', m w = Ret a w' → w' = w ∧ Q a.

(** The result is the device-unavailable error. *)
Abbreviation unavailable := (λ v : Z, v = - ENODEV).
Abbreviation unavailable_fi := (λ r : Z * Z, r.1 = - ENODEV).

(** Started with no session and reconnection disabled, a computation
    runs [smb2fs_init], with the result [p]; it returns [failed] at once
    when [p] is [NULL]; the calls that follow [calloc] are plain; and
    when [p] is not [NULL] it ends with a session, or with none and a
    result in [Q]. *)
Definition offline_start {A} (failed : A) (Q : A → Prop) (m : M A) : Prop :=
  ∀ w a w',
    fsd w = None → quiet w → m w = Ret a w' →
    ∃ p w1 l,
      smb2fs_init false w = Ret p w1
      ∧ (log w' = log w ++ c_calloc :: l ∧ Forall plain l)
      ∧ (p = 0 → a = failed ∧ w' = w1)
      ∧ (p ≠ 0 → online w' ∨ (fsd w' = None ∧ quiet w' ∧ Q a)).

(** Started with no session and reconnection disabled, a computation
    returns [failed] as soon as [smb2fs_init] has returned [NULL]. *)
Definition fails_offline {A} (failed : A) (m : M A) : Prop :=
  ∀ w w1,
    fsd w = None → cfg_reconnect_req w = false →
    smb2fs_init false w = Ret 0 w1 → m w = Ret failed w1.

(** A session whose registry has just been made. *)
Definition fresh_session (w : world) : Prop :=
  ∃ s inc, fsd w = Some s ∧ phr s = Some (mkRegistry [] 0 0 inc []).

(** The loop with the body [body] has gone from the state [s], in the
    world [w], to the state [s'] in the world [w'], through turns each
    of which asked for another. *)
Inductive turns {R St} (body : St → M (flow R St))
  : St → world → St → world → Prop :=
| turns_none s w : turns body s w s w
| turns_more s w s1 w1 s' w' :
    body s w = Ret (Continue s1) w1 →
    turns body s1 w1 s' w' →
    turns body s w s' w'.

(** The polls of [smb2_service]. *)
Definition is_service (c : call) : bool :=
  match c with
  | c_smb2_service _ => true
  | _ => false
  end.

End Fs.

(** * The start of the handler (main.c, [smb2fs_main]) *)

Module Startup.

(** ** The startup string *)

(** [isspace] of [<ctype.h>] in the "C" locale. *)
Definition isspace (c : ascii) : bool :=
  match c with
  | " " | "009" | "010" | "011" | "012" | "013" => true
  | _ => false
  end%char.

(** The double quote. *)
Definition dquote : ascii := "034"%char.

(** A test on the character at position [p] of a C string; the
    terminating NUL, where the list ends, passes none of the tests
    made. *)
Definition at_pos (s : list ascii) (p : nat) (test : ascii → bool) : bool :=
  match s !! p with
  | Some c => test c
  | None => false
  end.

(** [while (isspace(start[0])) start++;], main.c:1767-1770: the
    number of characters [start] moves over. *)
Fixpoint leading_spaces (s : list ascii) : nat :=
  match s with
  | c :: s' => if isspace c then S (leading_spaces s') else O
  | [] => O
  end.

(** [while (end > start && isspace(end[-1])) end--;],
    main.c:1773-1776: the final value of [end], as an index. *)
Fixpoint strip_trailing (s : list ascii) (start end_ : nat) : nat :=
  match end_ with
  | O => O
  | S e =>
      if (start <? S e)%nat && at_pos s e isspace
      then strip_trailing s start e
      else S e
  end.

(** The values of [start] and [end], as indices into [argstr], when
    [remove_double_quotes] computes [len], main.c:1764-1791. *)
Definition quoted_span (argstr : list ascii) : nat * nat :=
  let start := leading_spaces argstr in
  (* Strip trailing white space characters *)
  let end_ := strip_trailing argstr start (length argstr) in
  (* Remove opening quote ... *)
  if at_pos argstr start (Ascii.eqb dquote) then
    let start := S start in
    (* ... and closing quote *)
    if (start <? end_)%nat && at_pos argstr (end_ - 1) (Ascii.eqb dquote)
    then (start, (end_ - 1)%nat)
    else (start, end_)
  else (start, end_).

(** [len = end - start], an [int]. *)
Definition quoted_len (argstr : list ascii) : Z :=
  Z.of_nat (quoted_span argstr).2 - Z.of_nat (quoted_span argstr).1.

(** [remove_double_quotes], main.c:1758-1792: the contents of [argstr]
    after [memmove(argstr, start, len); argstr[len] = '\0';]. *)
Definition remove_double_quotes (argstr : list ascii) : list ascii :=
  take (Z.to_nat (quoted_len argstr)) (drop (quoted_span argstr).1 argstr).

(** ** The system around the handler

    The calls made to the C library, dos.library and
    filesysbox.library; the answers to the calls that have a result,
    in the order of the calls; the trace of the calls made. *)
Inductive scall :=
| s_strdup
| s_malloc (size : nat)
| s_SetIoErr (code : Z)
| s_AllocDosObject
| s_ReadArgs (source : list ascii)
| s_FreeDosObject
| s_FreeArgs
| s_free_argstr
| s_IoErr
| s_FbxSetupFS
| s_FbxEventLoop
| s_FbxCleanupFS
| s_ReplyPkt (res error : Z)
| s_free_device.

Record sys := mkSys {
  answers : list Z;
  trace : list scall
}.

(** A call with a result: [None] when no answer is left. *)
Definition ask (c : scall) (s : sys) : option (Z * sys) :=
  match answers s with
  | a :: rest => Some (a, mkSys rest (trace s ++ [c]))
  | [] => None
  end.

(** A call whose result is not used. *)
Definition tell (c : scall) (s : sys) : sys :=
  mkSys (answers s) (trace s ++ [c]).

Definition tell_if (b : bool) (c : scall) (s : sys) : sys :=
  if b then tell c s else s.

(** [<dos/dos.h>]. *)
Definition RETURN_OK : Z := 0.
Definition RETURN_ERROR : Z := 10.
Definition DOSFALSE : Z := 0.
Definition ERROR_NO_FREE_STORE : Z := 103.

(** [read_startup_args], main.c:1794-1834; the result is the pointer
    returned, [0] for [NULL]. *)
Definition read_startup_args (startup : list ascii) (s : sys)
  : option (Z * sys) :=
  '(argstr, s) ← ask (s_malloc (length startup + 2)) s;
  if argstr =? 0 then Some (0, tell (s_SetIoErr ERROR_NO_FREE_STORE) s)
  else
    let argstr := remove_double_quotes startup ++ ["010"%char] in
    '(rda, s) ← ask s_AllocDosObject s;
    '(result, s) ←
      (if rda =? 0 then Some (0, s)
       else
         '(result, s) ← ask (s_ReadArgs argstr) s;
         if result =? 0 then Some (0, tell s_FreeDosObject s)
         else Some (result, s));
    Some (result, tell s_free_argstr s).

(** [free_startup_args], main.c:1836-1843. *)
Definition free_startup_args (rda : Z) (s : sys) : sys :=
  if rda =? 0 then s else tell s_FreeDosObject (tell s_FreeArgs s).

(** The code after the label [cleanup], main.c:1921-1948; [pkt] tells
    whether the packet is still to be replied. *)
Definition cleanup (fs : Z) (pkt : bool) (error rda device rc : Z)
    (s : sys) : Z * sys :=
  let s := tell_if (negb (fs =? 0)) s_FbxCleanupFS s in
  let s := tell_if pkt (s_ReplyPkt DOSFALSE error) s in
  let s := free_startup_args rda s in
  let s := tell_if (negb (device =? 0)) s_free_device s in
  (rc, s).

(** [smb2fs_main], main.c:1845-1949. *)
Definition smb2fs_main (startup : list ascii) (s : sys) : option (Z * sys) :=
  '(device, s) ← ask s_strdup s;
  if device =? 0 then
    Some (cleanup 0 true ERROR_NO_FREE_STORE 0 device RETURN_ERROR s)
  else
    '(rda, s) ← read_startup_args startup s;
    if rda =? 0 then
      '(error, s) ← ask s_IoErr s;
      Some (cleanup 0 true error rda device RETURN_ERROR s)
    else
      '(fs, s) ← ask s_FbxSetupFS s;
      (* Set to NULL so we don't reply the message twice *)
      if negb (fs =? 0) then
        Some (cleanup fs false 0 rda device RETURN_OK (tell s_FbxEventLoop s))
      else Some (cleanup fs false 0 rda device RETURN_ERROR s).

(** The calls of a kind in a trace. *)
Definition is_ReplyPkt (c : scall) : bool :=
  match c with s_ReplyPkt _ _ => true | _ => false end.
Definition is_FbxSetupFS (c : scall) : bool :=
  match c with s_FbxSetupFS => true | _ => false end.
Definition is_FbxEventLoop (c : scall) : bool :=
  match c with s_FbxEventLoop => true | _ => false end.
Definition is_FbxCleanupFS (c : scall) : bool :=
  match c with s_FbxCleanupFS => true | _ => false end.
Definition is_malloc (c : scall) : bool :=
  match c with s_malloc _ => true | _ => false end.
Definition is_free_argstr (c : scall) : bool :=
  match c with s_free_argstr => true | _ => false end.
Definition is_free_device (c : scall) : bool :=
  match c with s_free_device => true | _ => false end.
Definition is_FreeDosObject (c : scall) : bool :=
  match c with s_FreeDosObject => true | _ => false end.
Definition is_FreeArgs (c : scall) : bool :=
  match c with s_FreeArgs => true | _ => false end.
Definition is_AllocDosObject (c : scall) : bool :=
  match c with s_AllocDosObject => true | _ => false end.
Definition is_ReadArgs (c : scall) : bool :=
  match c with s_ReadArgs _ => true | _ => false end.

Definition calls (f : scall → bool) (s : sys) : nat :=
  length (List.filter f (trace s)).

End Startup.

(** * The figures of [statfs] (main.c, end of [smb2fs_statfs]) *)

Module StatfsFill.

(** [<stdint.h>] and [<sys/statvfs.h>]. *)
Definition INT32_MAX : Z := 2 ^ 31 - 1.
Definition ST_RDONLY : Z := 1.

(** [struct smb2_statvfs] of libsmb2, as filled by [smb2_statvfs]. *)
Record smb2_statvfs := mkSmb2Statvfs {
  f_bsize : Z;
  f_frsize : Z;
  f_blocks : Z;
  f_bfree : Z;
  f_bavail : Z;
  f_files : Z;
  f_ffree : Z;
  f_favail : Z;
  f_fsid : Z;
  f_namemax : Z
}.

(** The values assigned to the fields of [*sfs]. *)
Record statvfs := mkStatvfs {
  sfs_bsize : Z;
  sfs_frsize : Z;
  sfs_blocks : Z;
  sfs_bfree : Z;
  sfs_bavail : Z;
  sfs_files : Z;
  sfs_ffree : Z;
  sfs_favail : Z;
  sfs_fsid : Z;
  sfs_namemax : Z;
  sfs_flag : Z
}.

(** The loop of main.c:587-593 on [frsize] (a [uint32_t]) and
    [blocks], [bfree], [bavail] (each a [uint64_t]):
<<
    while (blocks > INT32_MAX)
    { frsize <<= 1; blocks >>= 1; bfree >>= 1; bavail >>= 1; }
>>
    A [uint64_t] is halved at most 64 times before it is [0], so the
    fuel is never used up (lemma [scale_blocks_shift]). *)
Fixpoint scale_blocks (fuel : nat) (frsize blocks bfree bavail : Z)
  : Z * Z * Z * Z :=
  match fuel with
  | O => (frsize, blocks, bfree, bavail)
  | S fuel' =>
      if INT32_MAX <? blocks then
        scale_blocks fuel' (wrap32 (frsize ≪ 1)) (blocks ≫ 1) (bfree ≫ 1)
                     (bavail ≫ 1)
      else (frsize, blocks, bfree, bavail)
  end.

(** What [smb2fs_statfs] stores in [*sfs] once [smb2_statvfs] has
    succeeded, main.c:583-613. *)
Definition statfs_fill (rdonly : bool) (smb2_sfs : smb2_statvfs) : statvfs :=
  let '(frsize, blocks, bfree, bavail) :=
    scale_blocks 64 (f_frsize smb2_sfs) (f_blocks smb2_sfs)
                 (f_bfree smb2_sfs) (f_bavail smb2_sfs) in
  {| sfs_bsize := f_bsize smb2_sfs;
     sfs_frsize := frsize;
     sfs_blocks := blocks;
     sfs_bfree := bfree;
     sfs_bavail := bavail;
     sfs_files := f_files smb2_sfs;
     sfs_ffree := f_ffree smb2_sfs;
     sfs_favail := f_favail smb2_sfs;
     sfs_fsid := f_fsid smb2_sfs;
     sfs_namemax :=
       if 255 <? f_namemax smb2_sfs then 255 else f_namemax smb2_sfs;
     (* SMB protocol is case insensitive even if host fs is not *)
     sfs_flag := if rdonly then Z.lor 0 ST_RDONLY else 0 |}.

End StatfsFill.

(** * More about the operations *)

Module FsMore.

Import Marshalling PathNorm Fs.

(** The operations that begin with [if (fsd->rdonly) return -EROFS;]. *)
Definition modifies (o : operation) : bool :=
  match o with
  | op_mkdir _ | op_create _ _ | op_write _ _ _ _ | op_truncate _ _
  | op_ftruncate _ _ _ | op_utimens _ | op_unlink _ | op_rmdir _
  | op_rename _ _ => true
  | _ => false
  end.

(** The answers an allocation takes: one, when the array has to be
    enlarged. *)
Definition allocation (r : PointerHandleRegistry) (mem : Z)
    (rest : list answer) : list answer :=
  if needs_growth r then Int mem :: rest else rest.

(** The name of an entry that [smb2fs_rmdir] does not count,
    main.c:1604. *)
Definition is_dot (name : string) : bool :=
  String.eqb name "." || String.eqb name "..".

(** The bytes of a sequence of transfers. *)
Definition total (rcs : list Z) : Z := foldr Z.add 0 rcs.

(** The calls of the loop of [smb2fs_read] when the server gives the
    blocks [rcs] and then reports the end of the file: every call asks
    for what is left, at most [max] bytes, at the position the
    transfers before it have reached. *)
Fixpoint read_requests (ctx smb2fh max pos size : Z) (rcs : list Z)
  : list call :=
  c_smb2_read ctx smb2fh pos (if max <? size then max else size)
  :: match rcs with
     | [] => []
     | rc :: rcs => read_requests ctx smb2fh max (pos + rc) (size - rc) rcs
     end.

(** The calls of the loop of [smb2fs_write] when the server takes the
    blocks [rcs]: every call offers what is left, at most [chunk]
    bytes, at the position the transfers before it have reached, with
    [time] before and after it. *)
Fixpoint write_requests (ctx smb2fh chunk pos size : Z) (rcs : list Z)
  : list call :=
  match rcs with
  | [] => []
  | rc :: rcs =>
      c_time
      :: c_smb2_write ctx smb2fh pos (if chunk <? size then chunk else size)
      :: c_time
      :: write_requests ctx smb2fh chunk (pos + rc) (size - rc) rcs
  end.

(** The answers to these calls: the time, the bytes taken, the
    time. *)
Definition write_answers (chunks : list (Z * Z * Z)) : list answer :=
  flat_map (λ c : Z * Z * Z, [Int c.1.1; Int c.1.2; Int c.2]) chunks.

Definition written (chunks : list (Z * Z * Z)) : list Z :=
  map (λ c : Z * Z * Z, c.1.2) chunks.

(** The calls of [smb2_fstat]. *)
Definition is_fstat (c : call) : bool :=
  match c with
  | c_smb2_fstat _ _ => true
  | _ => false
  end.

(** The readings of the clock, [time(NULL)]. *)
Definition is_time (c : call) : bool :=
  match c with
  | c_time => true
  | _ => false
  end.

(** [if (path[0] == '/') path++;], e.g. main.c:673. *)
Definition skip_slash (path : string) : string :=
  match path with
  | String "/" rest => rest
  | _ => path
  end.

End FsMore.


(** * The root directory as a stack of names

    What the loop of main.c:368-394 computes, told on the list of the
    pieces between the slashes of the path of the URL. *)

Module PathStack.

Import PathNorm.

(** The pieces, with a slash between two of them. *)
Fixpoint join (segs : list string) : string :=
  match segs with
  | [] => ""
  | seg :: segs' =>
      match segs' with
      | [] => seg
      | _ :: _ => seg +:+ "/" +:+ join segs'
      end
  end.

(** The names retained, each after a slash. *)
Fixpoint render (stack : list string) : string :=
  match stack with
  | [] => ""
  | seg :: stack' => "/" +:+ seg +:+ render stack'
  end.

(** What a piece does to the names retained: an empty piece and [.]
    nothing; [..] removes the last name, and is itself retained when
    there is none; any other piece is retained. *)
Definition keep (stack : list string) (seg : string) : list string :=
  if String.eqb seg "" then stack
  else if String.eqb seg "." then stack
  else if String.eqb seg ".." then
    match stack with
    | [] => [seg]
    | _ :: _ => removelast stack
    end
  else stack ++ [seg].

(** A piece has no slash and fits [namebuf]. *)
Definition piece (seg : string) : Prop :=
  index_of slash seg = None ∧ (String.length seg < NAMEBUF_SIZE)%nat.

End PathStack.

(** * Properties *)

Import Marshalling PathNorm Fs.

Lemma wrap32_range z : 0 <= wrap32 z < 2 ^ 32.
Proof. unfold wrap32. apply Z.mod_pos_bound. lia. Qed.

Lemma wrap32_small z : 0 <= z < 2 ^ 32 → wrap32 z = z.
Proof. intros H. unfold wrap32. apply Z.mod_small. lia. Qed.

(** ** The monad and its loops *)

Section monad_facts.

Context {A B : Type}.

Lemma bind_Ret (m : M A) (k : A → M B) w a w' :
  m w = Ret a w' → bind m k w = k a w'.
Proof. intros H. unfold bind. by rewrite H. Qed.

Lemma bind_Fail (m : M A) (k : A → M B) w f :
  m w = Fail f → bind m k w = Fail f.
Proof. intros H. unfold bind. by rewrite H. Qed.

Lemma bind_inv (m : M A) (k : A → M B) w b w' :
  bind m k w = Ret b w' → ∃ a w1, m w = Ret a w1 ∧ k a w1 = Ret b w'.
Proof. unfold bind. destruct (m w) as [a w1|]; [eauto | done]. Qed.

Lemma shrinks_ret (a : A) : shrinks (ret a).
Proof. intros w a' w' [= _ <-]. done. Qed.

Lemma shrinks_fail f : shrinks (fail (A := A) f).
Proof. intros w a w' [=]. Qed.

Lemma consumes_shrinks (m : M A) : consumes m → shrinks m.
Proof. intros H w a w' Hm. apply H in Hm. lia. Qed.

Lemma shrinks_bind (m : M A) (k : A → M B) :
  shrinks m → (∀ a, shrinks (k a)) → shrinks (bind m k).
Proof.
  intros Hm Hk w b w' (a & w1 & H1 & H2)%bind_inv.
  apply Hm in H1. apply Hk in H2. lia.
Qed.

Lemma consumes_bind_l (m : M A) (k : A → M B) :
  consumes m → (∀ a, shrinks (k a)) → consumes (bind m k).
Proof.
  intros Hm Hk w b w' (a & w1 & H1 & H2)%bind_inv.
  apply Hm in H1. apply Hk in H2. lia.
Qed.

Lemma consumes_bind_r (m : M A) (k : A → M B) :
  shrinks m → (∀ a, consumes (k a)) → consumes (bind m k).
Proof.
  intros Hm Hk w b w' (a & w1 & H1 & H2)%bind_inv.
  apply Hm in H1. apply Hk in H2. lia.
Qed.

End monad_facts.

Lemma shrinks_get : shrinks get.
Proof. intros w a w' [= _ <-]. done. Qed.

Lemma shrinks_get_fsd : shrinks get_fsd.
Proof.
  intros w a w'. unfold get_fsd. destruct (fsd w); [|done].
  intros [= _ <-]. done.
Qed.

Lemma shrinks_modify f :
  (∀ w, script (f w) = script w) → shrinks (modify f).
Proof. intros Hf w a w' [= _ <-]. by rewrite Hf. Qed.

Lemma shrinks_ext_void c : shrinks (ext_void c).
Proof. by apply shrinks_modify. Qed.

Lemma consumes_ext c : consumes (ext c).
Proof.
  intros w a w'. unfold ext. destruct (script w) as [|x rest]; [done|].
  intros [= _ <-]. simpl. lia.
Qed.

Lemma consumes_ext_int c : consumes (ext_int c).
Proof.
  apply consumes_bind_l; [apply consumes_ext|].
  intros []; first [apply shrinks_ret | apply shrinks_fail].
Qed.

Lemma consumes_ext_ptr_r2 c : consumes (ext_ptr_r2 c).
Proof.
  apply consumes_bind_l; [apply consumes_ext|].
  intros []; first [apply shrinks_ret | apply shrinks_fail].
Qed.

Lemma consumes_ext_dirent c : consumes (ext_dirent c).
Proof.
  apply consumes_bind_l; [apply consumes_ext|].
  intros [[]| |]; first [apply shrinks_ret | apply shrinks_fail].
Qed.

Section loop_facts.

Context {R St : Type} (body : St → M (flow R St)).
Hypothesis body_progresses : ∀ s, progresses (body s).

(** Fuel beyond the length of the script makes no difference. *)
Lemma loop_fuel_enough n m s w :
  (length (script w) < n)%nat → (length (script w) < m)%nat →
  loop_fuel n body s w = loop_fuel m body s w.
Proof.
  revert m s w. induction n as [|n IH]; intros m s w Hn Hm; [lia|].
  destruct m as [|m]; [lia|]. simpl. unfold bind.
  destruct (body s w) as [[s'|s'|r] w'|] eqn:Hb; try done.
  apply body_progresses in Hb. apply IH; lia.
Qed.

(** The loop is the fixed point of its body. *)
Lemma loop_unfold s w :
  loop body s w =
  (let* f := body s in
   match f with
   | Continue s' => loop body s'
   | Break s' => ret (inr s')
   | Return r => ret (inl r)
   end) w.
Proof.
  unfold loop at 1. simpl. unfold bind.
  destruct (body s w) as [[s'|s'|r] w'|] eqn:Hb; try done.
  pose proof (body_progresses _ _ _ _ Hb).
  unfold loop. apply loop_fuel_enough; lia.
Qed.

Lemma shrinks_loop s : (∀ s, shrinks (body s)) → shrinks (loop body s).
Proof.
  intros Hs w. unfold loop.
  generalize (S (length (script w))) as n. intros n. revert s w.
  induction n as [|n IH]; intros s w a w'; [done|].
  simpl. intros (f & w1 & H1 & H2)%bind_inv.
  apply Hs in H1. destruct f as [s1|s1|r].
  - apply IH in H2. lia.
  - injection H2 as _ <-. done.
  - injection H2 as _ <-. done.
Qed.

End loop_facts.

Section progress_facts.

Context {R St A : Type}.

Lemma progresses_consumes (m : M (flow R St)) : consumes m → progresses m.
Proof. intros H w s' w' Hm. by apply H in Hm. Qed.

Lemma progresses_Break (s : St) : progresses (ret (Break (R := R) s)).
Proof. intros w s' w' [=]. Qed.

Lemma progresses_Return (r : R) : progresses (ret (Return (St := St) r)).
Proof. intros w s' w' [=]. Qed.

Lemma progresses_bind (m : M A) (k : A → M (flow R St)) :
  shrinks m → (∀ a, progresses (k a)) → progresses (bind m k).
Proof.
  intros Hm Hk w s' w' (a & w1 & H1 & H2)%bind_inv.
  apply Hm in H1. apply Hk in H2. lia.
Qed.

End progress_facts.

Create HintDb script_use discriminated.

#[local] Hint Resolve shrinks_ret shrinks_fail shrinks_get shrinks_get_fsd
  shrinks_ext_void consumes_ext_int consumes_ext_ptr_r2 consumes_ext_dirent
  consumes_ext progresses_Break progresses_Return : script_use.

(** The three judgements are settled along the structure of the
    computation. *)
Ltac script_use :=
  repeat first
    [ solve [eauto 2 with script_use]
    | solve [apply consumes_shrinks; eauto 2 with script_use]
    | solve [apply shrinks_modify; done]
    | match goal with
      | |- shrinks (if ?b then _ else _) => destruct b
      | |- consumes (if ?b then _ else _) => destruct b
      | |- progresses (if ?b then _ else _) => destruct b
      | |- shrinks (match ?x with _ => _ end) => destruct x
      | |- consumes (match ?x with _ => _ end) => destruct x
      | |- progresses (match ?x with _ => _ end) => destruct x
      | |- shrinks (bind _ _) => apply shrinks_bind; [|intros ?]
      | |- consumes (bind _ _) =>
          first [ apply consumes_bind_l;
                  [solve [eauto 2 with script_use]|intros ?]
                | apply consumes_bind_r;
                  [solve [script_use]|intros ?] ]
      | |- progresses (bind _ _) =>
          first [ apply progresses_consumes, consumes_bind_l;
                  [solve [eauto 2 with script_use]|intros ?]
                | apply progresses_bind; [|intros ?] ]
      end ].

Lemma shrinks_put_fsd s : shrinks (put_fsd s).
Proof. script_use. Qed.
#[local] Hint Resolve shrinks_put_fsd : script_use.

Lemma shrinks_update_fsd f : shrinks (update_fsd f).
Proof. unfold update_fsd. script_use. Qed.
#[local] Hint Resolve shrinks_update_fsd : script_use.

Lemma shrinks_smb2fs_destroy : shrinks smb2fs_destroy.
Proof. unfold smb2fs_destroy. script_use. Qed.
#[local] Hint Resolve shrinks_smb2fs_destroy : script_use.

Lemma shrinks_fd_recovery url username fd :
  shrinks (fd_recovery url username fd).
Proof. unfold fd_recovery. script_use. Qed.
#[local] Hint Resolve shrinks_fd_recovery : script_use.

Lemma shrinks_smb2fs_init fci : shrinks (smb2fs_init fci).
Proof. unfold smb2fs_init. script_use. Qed.
#[local] Hint Resolve shrinks_smb2fs_init : script_use.

Ltac script_use_loops :=
  repeat first
    [ progress script_use
    | match goal with
      | |- shrinks (loop _ _) => apply shrinks_loop; intros ?
      end ].

Lemma shrinks_reconnect_loop : shrinks reconnect_loop.
Proof. unfold reconnect_loop. script_use_loops. Qed.
#[local] Hint Resolve shrinks_reconnect_loop : script_use.

Lemma shrinks_handle_connection_fault : shrinks handle_connection_fault.
Proof. unfold handle_connection_fault. script_use_loops. Qed.
#[local] Hint Resolve shrinks_handle_connection_fault : script_use.

Lemma shrinks_session_prologue : shrinks session_prologue.
Proof. unfold session_prologue. script_use. Qed.
#[local] Hint Resolve shrinks_session_prologue : script_use.

Lemma shrinks_resolve fh : shrinks (resolve fh).
Proof. unfold resolve. script_use. Qed.

Lemma shrinks_allocate ptr : shrinks (allocate ptr).
Proof. unfold allocate. script_use. Qed.

Lemma shrinks_remove fh : shrinks (remove fh).
Proof. unfold remove. script_use. Qed.
#[local] Hint Resolve shrinks_resolve shrinks_allocate shrinks_remove
  : script_use.

(** The bodies of the retry loops. *)
Lemma progresses_retry_rc_body (remote : Z → call) (u : unit) :
  progresses
    (let* s := get_fsd in
     let* rc := ext_int (remote (smb2 s)) in
     if rc <? -1 then ret (Return rc)
     else if rc <? 0 then
       let* ok := handle_connection_fault in
       if ok then ret (Continue tt) else ret (Return (- ENODEV))
     else ret (Break tt)).
Proof. script_use. Qed.

Lemma shrinks_retry_rc remote : shrinks (retry_rc remote).
Proof. unfold retry_rc. script_use_loops. Qed.

Lemma shrinks_retry_opendir path : shrinks (retry_opendir path).
Proof. unfold retry_opendir. script_use_loops. Qed.

Lemma shrinks_retry_open path flags : shrinks (retry_open path flags).
Proof. unfold retry_open. script_use_loops. Qed.

#[local] Hint Resolve shrinks_retry_rc shrinks_retry_opendir
  shrinks_retry_open : script_use.

Lemma consumes_loop {R St} (body : St → M (flow R St)) s :
  (∀ s, consumes (body s)) → consumes (loop body s).
Proof.
  intros Hc w a w'.
  rewrite loop_unfold by (intros s0; apply progresses_consumes, Hc).
  revert w a w'. apply consumes_bind_l; [apply Hc|].
  intros [s'|s'|r]; [|apply shrinks_ret..].
  apply shrinks_loop; intros s0;
    first [apply progresses_consumes, Hc | apply consumes_shrinks, Hc].
Qed.

Lemma consumes_retry_open path flags : consumes (retry_open path flags).
Proof. unfold retry_open. apply consumes_loop. intros s. script_use. Qed.

Lemma shrinks_smb2fs_open path fh : shrinks (smb2fs_open path fh).
Proof.
  unfold smb2fs_open. script_use_loops.
Qed.
#[local] Hint Resolve shrinks_smb2fs_open : script_use.

Lemma shrinks_stream_prologue path fh : shrinks (stream_prologue path fh).
Proof. unfold stream_prologue. script_use. Qed.

Lemma shrinks_stream_recovery path fh : shrinks (stream_recovery path fh).
Proof. unfold stream_recovery. script_use. Qed.

Lemma shrinks_service_drain : shrinks service_drain.
Proof. unfold service_drain. script_use_loops. Qed.
#[local] Hint Resolve shrinks_stream_prologue shrinks_stream_recovery
  shrinks_service_drain : script_use.

Lemma shrinks_account rc b : shrinks (account rc b).
Proof. unfold account. script_use. Qed.
#[local] Hint Resolve shrinks_account : script_use.

Lemma progresses_read_body path smb2fh max st :
  progresses (read_body path smb2fh max st).
Proof. unfold read_body. script_use. Qed.

Lemma shrinks_read_body path smb2fh max st :
  shrinks (read_body path smb2fh max st).
Proof. unfold read_body. script_use. Qed.

Lemma progresses_write_body path smb2fh max st :
  progresses (write_body path smb2fh max st).
Proof. unfold write_body. script_use. Qed.

Lemma shrinks_write_body path smb2fh max st :
  shrinks (write_body path smb2fh max st).
Proof. unfold write_body. script_use. Qed.
#[local] Hint Resolve progresses_read_body shrinks_read_body
  progresses_write_body shrinks_write_body : script_use.

Lemma progresses_read_pass path offset o :
  progresses (read_pass path offset o).
Proof. unfold read_pass. script_use_loops. Qed.

Lemma progresses_write_pass path offset o :
  progresses (write_pass path offset o).
Proof. unfold write_pass. script_use_loops. Qed.

Lemma progresses_ftruncate_body path size fh :
  progresses (ftruncate_body path size fh).
Proof. unfold ftruncate_body. script_use_loops. Qed.
#[local] Hint Resolve progresses_read_pass progresses_write_pass
  progresses_ftruncate_body : script_use.

(** ** The handle registry *)

Lemma GROWSIZE_val : GROWSIZE = 1024%nat.
Proof. reflexivity. Qed.

#[local] Opaque GROWSIZE.

Lemma MAX_INDEX_val : MAX_INDEX = 4194303.
Proof. reflexivity. Qed.

Lemma MAX_INDEX_eq : MAX_INDEX = Z.ones INDEX_BITS.
Proof. reflexivity. Qed.

Lemma handle_index1_mod h : handle_index1 h = h mod 2 ^ 22.
Proof.
  unfold handle_index1. rewrite MAX_INDEX_eq.
  rewrite Z.land_ones by done. reflexivity.
Qed.

Lemma handle_incarnation_div h : handle_incarnation h = h / 2 ^ 22.
Proof.
  unfold handle_incarnation. rewrite Z.shiftr_div_pow2 by done. reflexivity.
Qed.

Lemma incarnation_field_mod inc : incarnation_field inc = inc mod 2 ^ 10.
Proof.
  unfold incarnation_field. rewrite Z.land_ones by done. reflexivity.
Qed.

(** The two fields do not overlap: the handle is a sum. *)
Lemma handle_of_sum inc index :
  0 <= inc → Z.of_nat index + 1 <= MAX_INDEX →
  handle_of inc index =
  (inc mod 2 ^ 10) * 2 ^ 22 + (Z.of_nat index + 1).
Proof.
  intros Hinc Hidx. unfold handle_of, wrap32.
  assert (Hk : 0 <= Z.of_nat index + 1 < 2 ^ 22)
    by (rewrite MAX_INDEX_val in Hidx; lia).
  rewrite <- Z.add_nocarry_lor.
  - rewrite Z.shiftl_mul_pow2 by done. unfold INDEX_BITS.
    assert (Hdm := Z.div_mod inc (2 ^ 10)).
    assert (Hr := Z.mod_pos_bound inc (2 ^ 10)).
    symmetry. apply Z.mod_unique_pos with (q := inc / 2 ^ 10); [lia|].
    lia.
  - apply Z.bits_inj'. intros n Hn. rewrite Z.land_spec, Z.bits_0.
    destruct (Z.lt_ge_cases n INDEX_BITS) as [Hlt|Hge].
    + rewrite Z.shiftl_spec_low by done. done.
    + rewrite andb_comm.
      rewrite (Z.bits_above_log2 (Z.of_nat index + 1) n); [done|lia|].
      apply Z.log2_lt_pow2; [lia|].
      unfold INDEX_BITS in Hge.
      eapply Z.lt_le_trans; [apply Hk|]. apply Z.pow_le_mono_r; lia.
Qed.

Lemma handle_of_index1 inc index :
  0 <= inc → Z.of_nat index + 1 <= MAX_INDEX →
  handle_index1 (handle_of inc index) = Z.of_nat index + 1.
Proof.
  intros Hinc Hidx. rewrite handle_index1_mod, handle_of_sum by done.
  rewrite MAX_INDEX_val in Hidx.
  rewrite Z.add_comm, Z.mod_add by lia. apply Z.mod_small. lia.
Qed.

Lemma handle_of_incarnation inc index :
  0 <= inc → Z.of_nat index + 1 <= MAX_INDEX →
  handle_incarnation (handle_of inc index) = incarnation_field inc.
Proof.
  intros Hinc Hidx.
  rewrite handle_incarnation_div, incarnation_field_mod, handle_of_sum by done.
  rewrite MAX_INDEX_val in Hidx.
  rewrite Z.add_comm, Z.div_add by lia.
  rewrite Z.div_small by lia. lia.
Qed.

Lemma handle_of_nonzero inc index :
  0 <= inc → Z.of_nat index + 1 <= MAX_INDEX → handle_of inc index ≠ 0.
Proof.
  intros Hinc Hidx. rewrite handle_of_sum by done.
  assert (Hr := Z.mod_pos_bound inc (2 ^ 10)). lia.
Qed.


(** Two handles with the same fields are the same number. *)
Lemma handle_fields_inj h h' :
  handle_index1 h = handle_index1 h' →
  handle_incarnation h = handle_incarnation h' → h = h'.
Proof.
  rewrite !handle_index1_mod, !handle_incarnation_div. intros Hm Hd.
  rewrite (Z.div_mod h (2 ^ 22)), (Z.div_mod h' (2 ^ 22)) by lia.
  by rewrite Hm, Hd.
Qed.

Lemma handle_slot_Some r h index :
  handle_slot r h = Some index →
  handle_index1 h = Z.of_nat index + 1
  ∧ handle_incarnation h = incarnation_field (incarnation r)
  ∧ (index < size r)%nat.
Proof.
  unfold handle_slot. intros H.
  assert (0 <= handle_index1 h).
  { rewrite handle_index1_mod. apply Z.mod_pos_bound. lia. }
  repeat case_bool_decide; simplify_eq. split_and!; [lia|done|done].
Qed.

Lemma handle_slot_inj r h h' index :
  handle_slot r h = Some index → handle_slot r h' = Some index → h = h'.
Proof.
  intros (H1 & H2 & _)%handle_slot_Some (H1' & H2' & _)%handle_slot_Some.
  apply handle_fields_inj; congruence.
Qed.

Lemma handle_slot_handle_of r index :
  wf r → (index < size r)%nat →
  handle_slot r (handle_of (incarnation r) index) = Some index.
Proof.
  intros Hwf Hlt.
  assert (Z.of_nat index + 1 <= MAX_INDEX) by (pose proof (wf_ceiling r Hwf); lia).
  assert (0 <= incarnation r) by (pose proof (wf_incarnation r Hwf); lia).
  unfold handle_slot.
  rewrite handle_of_index1, handle_of_incarnation by done.
  repeat case_bool_decide; try lia; try done.
  f_equal. lia.
Qed.

Lemma HandleToPointer_0 r : HandleToPointer r 0 = None.
Proof. reflexivity. Qed.

(** *** The invariant *)

Lemma wf_AllocateNewRegistry mem_ok inc r :
  0 <= inc < 2 ^ 32 → AllocateNewRegistry mem_ok inc = Some r → wf r.
Proof.
  unfold AllocateNewRegistry. intros Hinc. destruct mem_ok; [|done].
  intros [= <-]. split; simpl; try done.
  - intros i Hi. by apply elem_of_nil in Hi.
  - constructor.
Qed.

Ltac reg_simpl := cbn [fst snd pointers size capacity incarnation freeHead].

Ltac wf_close :=
  first
    [ done
    | lia
    | rewrite ?length_insert, ?length_app, ?length_replicate;
      rewrite ?GROWSIZE_val; lia
    | by intros ? ?%elem_of_nil
    | by constructor ].

Lemma wf_AllocateHandleForPointer mem_ok r ptr :
  wf r → wf (AllocateHandleForPointer mem_ok r ptr).2.
Proof.
  intros Hwf. pose proof Hwf as [Hlen Hsize Hceil Hinc Hfree Hnodup].
  unfold AllocateHandleForPointer.
  destruct (freeHead r) as [|index rest] eqn:Hfh.
  - repeat case_bool_decide; [destruct mem_ok|..]; reg_simpl;
      try done; split; reg_simpl; wf_close.
  - apply NoDup_cons in Hnodup as [Hnotin Hnodup].
    split; reg_simpl; try wf_close.
    intros i Hi. destruct (Hfree i) as [Hlt Hnone]; [by right|].
    split; [done|]. rewrite list_lookup_insert_ne; [done|].
    intros ->. done.
Qed.

Lemma wf_RemoveHandle r h : wf r → wf (RemoveHandle r h).
Proof.
  intros Hwf. pose proof Hwf as [Hlen Hsize Hceil Hinc Hfree Hnodup].
  unfold RemoveHandle.
  destruct (handle_slot r h) as [index|] eqn:Hslot; [|done].
  destruct (mjoin (pointers r !! index)) as [p|] eqn:Hp; [|done].
  apply handle_slot_Some in Hslot as (_ & _ & Hlt).
  assert (Hnotin : index ∉ freeHead r).
  { intros Hin. apply Hfree in Hin as [_ Hnone]. by rewrite Hnone in Hp. }
  split; reg_simpl; try wf_close.
  intros i [->|Hi]%elem_of_cons.
  - split; [done|]. apply list_lookup_insert_eq. lia.
  - destruct (Hfree i Hi) as [Hlt' Hnone]. split; [done|].
    rewrite list_lookup_insert_ne; [done|]. intros ->. done.
Qed.

Lemma wf_run_op r o : wf r → wf (run_op r o).
Proof.
  intros Hwf. destruct o; unfold run_op;
    [by apply wf_AllocateHandleForPointer | by apply wf_RemoveHandle].
Qed.

Lemma wf_run_ops r os : wf r → wf (run_ops r os).
Proof.
  revert r. induction os as [|o os IH]; intros r Hwf; [done|].
  unfold run_ops. cbn [foldl]. apply IH, wf_run_op, Hwf.
Qed.

(** *** Live handles *)

Lemma live_HandleToPointer r handle ptr :
  live r handle ptr → HandleToPointer r handle = Some ptr.
Proof.
  intros (index & Hslot & Hp). unfold HandleToPointer.
  by rewrite Hslot, Hp.
Qed.

Lemma handle_slot_frame r r' h index :
  incarnation r' = incarnation r → (size r <= size r')%nat →
  handle_slot r h = Some index → handle_slot r' h = Some index.
Proof.
  intros Hinc Hsize. unfold handle_slot. rewrite Hinc.
  repeat case_bool_decide; try done. lia.
Qed.

(** What a successful allocation gives. *)
Lemma AllocateHandleForPointer_live mem_ok r ptr handle r' :
  wf r → AllocateHandleForPointer mem_ok r ptr = (handle, r') →
  handle ≠ 0 →
  ∃ index, handle = handle_of (incarnation r) index
           ∧ handle_slot r' handle = Some index
           ∧ pointers r' !! index = Some (Some ptr).
Proof.
  intros Hwf Halloc Hnz.
  pose proof (wf_AllocateHandleForPointer mem_ok r ptr Hwf) as Hwf'.
  rewrite Halloc in Hwf'. cbn [snd] in Hwf'.
  pose proof Hwf as [Hlen Hsize Hceil Hinc Hfree Hnodup].
  revert Halloc. unfold AllocateHandleForPointer.
  destruct (freeHead r) as [|index rest] eqn:Hfh.
  - repeat case_bool_decide; [destruct mem_ok|..]; intros [= <- <-];
      try done; exists (size r).
    + split; [done|]. split.
      * apply (handle_slot_handle_of _ _ Hwf'). reg_simpl. lia.
      * reg_simpl. apply list_lookup_insert_eq.
        rewrite length_app, length_replicate. rewrite ?GROWSIZE_val; lia.
    + split; [done|]. split.
      * apply (handle_slot_handle_of _ _ Hwf'). reg_simpl. lia.
      * reg_simpl. apply list_lookup_insert_eq. lia.
  - intros [= <- <-]. exists index.
    destruct (Hfree index) as [Hlt _]; [by left|].
    split; [done|]. split.
    + by apply (handle_slot_handle_of _ _ Hwf').
    + reg_simpl. apply list_lookup_insert_eq. lia.
Qed.

(** A live handle stays live through an allocation, and through the
    release of another handle. *)
Lemma live_AllocateHandleForPointer mem_ok r ptr' handle ptr :
  wf r → live r handle ptr →
  live (AllocateHandleForPointer mem_ok r ptr').2 handle ptr.
Proof.
  intros [Hlen Hsize Hceil Hinc Hfree Hnodup] (index & Hslot & Hp).
  pose proof (handle_slot_Some _ _ _ Hslot) as (_ & _ & Hlt).
  exists index. unfold AllocateHandleForPointer.
  destruct (freeHead r) as [|j rest] eqn:Hfh.
  - repeat case_bool_decide; [destruct mem_ok|..]; reg_simpl;
      try done; (split; [eapply handle_slot_frame; [..|done]; reg_simpl; done || lia|]).
    + rewrite list_lookup_insert_ne by lia.
      rewrite lookup_app_l by lia. done.
    + rewrite list_lookup_insert_ne by lia. done.
  - reg_simpl. split; [eapply handle_slot_frame; [..|done]; done|].
    destruct (Hfree j) as [_ Hnone]; [by left|].
    rewrite list_lookup_insert_ne; [done|]. intros ->.
    rewrite Hnone in Hp. done.
Qed.

Lemma live_RemoveHandle r handle' handle ptr :
  handle' ≠ handle → live r handle ptr → live (RemoveHandle r handle') handle ptr.
Proof.
  intros Hne (index & Hslot & Hp). exists index. unfold RemoveHandle.
  destruct (handle_slot r handle') as [j|] eqn:Hslot'; [|done].
  destruct (mjoin (pointers r !! j)) as [p|] eqn:Hj; [|done].
  split; [eapply handle_slot_frame; [..|done]; done|]. reg_simpl.
  rewrite list_lookup_insert_ne; [done|]. intros ->.
  apply Hne. eapply handle_slot_inj; done.
Qed.

Lemma live_run_ops r os handle ptr :
  wf r → live r handle ptr → OpRelease handle ∉ os →
  live (run_ops r os) handle ptr.
Proof.
  revert r. induction os as [|o os IH]; intros r Hwf Hlive Hnot; [done|].
  apply not_elem_of_cons in Hnot as [Hne Hnot].
  unfold run_ops. cbn [foldl].
  apply IH; [by apply wf_run_op| |done].
  destruct o as [mem_ok ptr'|handle']; unfold run_op.
  - by apply live_AllocateHandleForPointer.
  - apply live_RemoveHandle; [congruence|done].
Qed.

Lemma incarnation_run_op r o : incarnation (run_op r o) = incarnation r.
Proof.
  destruct o as [mem_ok ptr|h]; unfold run_op.
  - unfold AllocateHandleForPointer.
    destruct (freeHead r); repeat case_bool_decide; try destruct mem_ok; done.
  - unfold RemoveHandle. destruct (handle_slot r h) as [i|]; [|done].
    by destruct (mjoin (pointers r !! i)).
Qed.

Lemma incarnation_run_ops r os : incarnation (run_ops r os) = incarnation r.
Proof.
  revert r. induction os as [|o os IH]; intros r; [done|].
  unfold run_ops. cbn [foldl]. fold (run_ops (run_op r o) os).
  rewrite IH. apply incarnation_run_op.
Qed.

(** C2: every successful allocation returns
    [(incarnation << INDEX_BITS) | (index + 1)] (in [uint32_t]) for the
    slot [index] it fills, which is never [0]; the handle [0] never
    resolves; and a handle returned by an allocation resolves to the
    reference it was allocated for after every interleaving of
    allocations and releases that does not release it. *)
Theorem registry_handles_resolve
    (inc : Z) (before after : list registry_op) (mem_ok mem_ok' : bool)
    (ptr : Z) (r0 : PointerHandleRegistry) :
  0 <= inc < 2 ^ 32 →
  AllocateNewRegistry mem_ok' inc = Some r0 →
  let r := run_ops r0 before in
  let handle := (AllocateHandleForPointer mem_ok r ptr).1 in
  let r' := (AllocateHandleForPointer mem_ok r ptr).2 in
  (∀ r'', HandleToPointer r'' 0 = None)
  ∧ (handle ≠ 0 →
     (∃ index : nat,
        handle = wrap32 (Z.lor (inc ≪ INDEX_BITS) (Z.of_nat index + 1))
        ∧ Z.of_nat index + 1 <= MAX_INDEX
        ∧ pointers r' !! index = Some (Some ptr))
     ∧ HandleToPointer r' handle = Some ptr
     ∧ (OpRelease handle ∉ after →
        HandleToPointer (run_ops r' after) handle = Some ptr)).
Proof.
  intros Hinc Hnew r handle r'.
  split; [apply HandleToPointer_0|]. intros Hnz.
  assert (Hwf : wf r) by (eapply wf_run_ops, wf_AllocateNewRegistry; done).
  assert (Hincr : incarnation r = inc).
  { subst r. rewrite incarnation_run_ops.
    unfold AllocateNewRegistry in Hnew. destruct mem_ok'; [|done].
    by injection Hnew as <-. }
  assert (Hwf' : wf r') by apply wf_AllocateHandleForPointer, Hwf.
  destruct (AllocateHandleForPointer_live mem_ok r ptr handle r' Hwf)
    as (index & Hh & Hslot & Hp); [by apply surjective_pairing|done|].
  assert (Hlive : live r' handle ptr) by (by exists index).
  split_and!.
  - exists index. rewrite Hincr in Hh. split; [done|].
    apply handle_slot_Some in Hslot as (_ & _ & Hlt).
    pose proof (wf_ceiling r' Hwf'). split; [lia|done].
  - by apply live_HandleToPointer.
  - intros Hnot. by apply live_HandleToPointer, live_run_ops.
Qed.

(** A registry, two allocations, the release of the first handle and a
    third allocation in its slot: the second handle still resolves. *)
Lemma registry_handles_resolve_witness :
  let r0 := mkRegistry [] 0 0 7 [] in
  let r := run_ops r0 [OpAllocate true 100] in
  let handle := (AllocateHandleForPointer true r 200).1 in
  let r' := (AllocateHandleForPointer true r 200).2 in
  handle = 7 * 2 ^ 22 + 2
  ∧ HandleToPointer
      (run_ops r' [OpRelease (7 * 2 ^ 22 + 1); OpAllocate true 300])
      handle = Some 200.
Proof.
  intros r0 r handle r'.
  assert (H7 : 0 <= 7 < 2 ^ 32) by lia.
  destruct (registry_handles_resolve 7
              [OpAllocate true 100]
              [OpRelease (7 * 2 ^ 22 + 1); OpAllocate true 300]
              true true 200 r0 H7 eq_refl) as [_ H].
  split; [vm_compute; reflexivity|].
  apply H.
  - vm_compute. discriminate.
  - vm_compute. intros Hin.
    repeat (apply elem_of_cons in Hin as [Hin|Hin]; [discriminate Hin|]).
    by apply elem_of_nil in Hin.
Defined.

(** ** The root directory *)

Lemma length_substring_le n m s :
  (String.length (String.substring n m s) ≤ String.length s - n)%nat.
Proof.
  revert n m. induction s as [|a s IH]; intros n m.
  - by destruct n, m.
  - destruct n as [|n]; simpl.
    + destruct m as [|m]; simpl; [lia|]. specialize (IH 0%nat m). lia.
    + apply IH.
Qed.

Lemma index_of_lt c s k :
  index_of c s = Some k → (k < String.length s)%nat.
Proof.
  revert k. induction s as [|a s IH]; intros k; simpl; [done|].
  destruct (Ascii.eqb a c); [intros [= <-]; lia|].
  destruct (index_of c s) as [k'|]; simpl; [|done].
  intros [= <-]. specialize (IH k' eq_refl). lia.
Qed.

(** [SplitName] moves forward, within the name. *)
Lemma SplitName_pos name sep oldpos size buf newpos :
  SplitName name sep oldpos size = (buf, newpos) →
  newpos = -1
  ∨ Z.of_nat oldpos < newpos <= Z.of_nat (String.length name).
Proof.
  unfold SplitName.
  destruct (index_of sep (string_drop oldpos name)) as [k|] eqn:Hk;
    [|intros [= _ <-]; by left].
  apply index_of_lt in Hk.
  pose proof (length_substring_le oldpos (String.length name - oldpos) name).
  unfold string_drop in Hk.
  destruct (k <=? size - 1)%nat eqn:Hfit; intros [= _ <-]; right.
  - lia.
  - apply Nat.leb_gt in Hfit. lia.
Qed.

Lemma normalize_step_pos patharg pos pathbuf pathbuf' pos' :
  normalize_step patharg pos pathbuf = (pathbuf', pos') →
  pos' = -1
  ∨ Z.of_nat pos < pos' <= Z.of_nat (String.length patharg).
Proof.
  unfold normalize_step.
  destruct (SplitName patharg slash pos NAMEBUF_SIZE) as [namebuf p] eqn:Hs.
  apply SplitName_pos in Hs. intros H.
  assert (pos' = p); [|by subst].
  repeat match type of H with
         | (if ?b then _ else _) = _ => destruct b
         | match ?x with _ => _ end = _ => destruct x
         end; by injection H.
Qed.

(** The loop has come to its end before the fuel of [normalize_path]
    is used up: more fuel gives the same result. *)
Lemma normalize_loop_fuel n m patharg pos pathbuf :
  (String.length patharg - pos < n)%nat →
  (String.length patharg - pos < m)%nat →
  normalize_loop n patharg pos pathbuf = normalize_loop m patharg pos pathbuf.
Proof.
  revert m pos pathbuf. induction n as [|n IH]; intros m pos pathbuf Hn Hm;
    [lia|].
  destruct m as [|m]; [lia|]. simpl.
  destruct (normalize_step patharg pos pathbuf) as [pathbuf' pos'] eqn:Hstep.
  apply normalize_step_pos in Hstep as [->|Hpos]; [done|].
  destruct (pos' =? -1); [done|]. apply IH; lia.
Qed.

Lemma normalize_path_fuel patharg n :
  (String.length patharg < n)%nat →
  normalize_loop n patharg 0 "" = normalize_path patharg.
Proof. intros Hn. apply normalize_loop_fuel; lia. Qed.

(** C9, at the path [".."]: with nothing to remove, the segment is
    appended, and the root directory of the mount is ["/.."], above
    the share root. *)
Theorem normalize_dotdot_escapes :
  normalize_path ".." = "/.."
  ∧ rootdir_of (Some "..") = Some "/.."
  ∧ has_dotdot (normalize_path "..") = true
  ∧ normalize_path "a/../../b" = "/../b".
Proof. repeat split; vm_compute; reflexivity. Qed.

(** ** Running the operations *)

Lemma get_fsd_Some w s : fsd w = Some s → get_fsd w = Ret s w.
Proof. intros H. unfold get_fsd. by rewrite H. Qed.

Lemma ext_int_Int c w z rest :
  script w = Int z :: rest → ext_int c w = Ret z (called c rest w).
Proof. intros H. unfold ext_int, bind, ext. by rewrite H. Qed.

Lemma ext_ptr_r2_PtrR2 c w p r2 rest :
  script w = PtrR2 p r2 :: rest →
  ext_ptr_r2 c w = Ret (p, r2) (called c rest w).
Proof. intros H. unfold ext_ptr_r2, bind, ext. by rewrite H. Qed.

Lemma session_prologue_Some w s :
  fsd w = Some s → session_prologue w = Ret true w.
Proof. intros H. unfold session_prologue, bind, get. by rewrite H. Qed.

Lemma bind_bind {A B C} (m : M A) (k1 : A → M B) (k2 : B → M C) w :
  bind (bind m k1) k2 w = bind m (λ a, bind (k1 a) k2) w.
Proof. unfold bind. by destruct (m w). Qed.

Lemma bind_ret {A B} (a : A) (k : A → M B) w : bind (ret a) k w = k a w.
Proof. reflexivity. Qed.

Lemma bind_modify {B} f (k : unit → M B) w :
  bind (modify f) k w = k tt (f w).
Proof. reflexivity. Qed.

Lemma bind_ext_void {B} c (k : unit → M B) w :
  bind (ext_void c) k w = k tt (logged c w).
Proof. reflexivity. Qed.

Lemma bind_get {B} (k : world → M B) w : bind get k w = k w w.
Proof. reflexivity. Qed.

(** Symbolic execution: a computation is run on a world, call by
    call, with what is known of the session and of the script. *)
Ltac mrun_side :=
  first
    [ eassumption
    | apply get_fsd_Some; cbn; eassumption
    | apply ext_int_Int; cbn; first [eassumption | reflexivity]
    | apply ext_ptr_r2_PtrR2; cbn; first [eassumption | reflexivity]
    | eapply session_prologue_Some; cbn; eassumption ].

Ltac mrun :=
  repeat first
    [ rewrite bind_bind
    | rewrite bind_ret
    | rewrite bind_get
    | rewrite bind_modify
    | rewrite bind_ext_void
    | erewrite bind_Ret by mrun_side ].

(** One turn of the loop around a call that returns an [int]. *)
Lemma retry_rc_step remote w s rc rest :
  fsd w = Some s → script w = Int rc :: rest →
  retry_rc remote w =
  (if rc <? -1 then ret rc
   else if rc <? 0 then
     let* ok := handle_connection_fault in
     if ok then retry_rc remote else ret (- ENODEV)
   else ret 0) (called (remote (smb2 s)) rest w).
Proof.
  intros Hfsd Hscript. unfold retry_rc at 1. unfold bind at 1.
  rewrite loop_unfold by (intros; script_use).
  mrun. destruct (rc <? -1); [reflexivity|].
  destruct (rc <? 0); [|reflexivity].
  mrun. unfold retry_rc, bind.
  destruct (handle_connection_fault _) as [[] w'|]; reflexivity.
Qed.

(** One turn of the loop around [smb2_opendir_r2]. *)
Lemma opendir_attempt_step path fh w s smb2dir r2 rest :
  fsd w = Some s → script w = PtrR2 smb2dir r2 :: rest →
  opendir_attempt path fh w =
  (if smb2dir =? 0 then
     if is_fault_r2 r2 then
       let* ok := handle_connection_fault in
       if ok then opendir_attempt path fh else ret (- ENODEV, fh)
     else ret (- ENOENT, fh)
   else
     let* handle := allocate smb2dir in
     if handle =? 0 then ret (- ENOMEM, handle) else ret (0, handle))
    (called (c_smb2_opendir_r2 (smb2 s) path) rest w).
Proof.
  intros Hfsd Hscript. unfold opendir_attempt at 1, retry_opendir.
  unfold bind at 1. rewrite loop_unfold by (intros; script_use).
  mrun. cbn beta iota. destruct (smb2dir =? 0); [|reflexivity].
  destruct (is_fault_r2 r2); [|reflexivity].
  mrun. unfold opendir_attempt, retry_opendir, bind.
  destruct (handle_connection_fault _) as [[] w'|]; reflexivity.
Qed.

(** With a session, an operation around [retry_rc] is that loop. *)
Lemma run_rc_remote o w s remote :
  fsd w = Some s → rc_remote o s = Some remote →
  run o w = retry_rc remote w.
Proof.
  intros Hfsd Hremote.
  destruct o; simpl in Hremote; try done;
    try (destruct (rdonly s) eqn:Hro; [done|]);
    injection Hremote as <-; cbn [run];
    unfold smb2fs_statfs, smb2fs_getattr, smb2fs_mkdir, smb2fs_truncate,
      smb2fs_unlink, smb2fs_readlink, smb2fs_rename;
    mrun; rewrite ?Hfsd, ?Hro; cbn [negb]; mrun; rewrite ?Hro; done.
Qed.

(** C1, amended: the operations around [retry_rc] (statfs, getattr,
    mkdir, truncate, unlink, readlink, rename) return a result below
    [-1] of the remote call as it is, with the session untouched and
    no second call; on [-1] they take the connection-fault path, make
    the call again when it succeeds and return [-ENODEV] when it fails.
    [smb2fs_opendir] treats a failed open whose status is [-1] or
    [SMB2_STATUS_CANCELLED] in the same way, and returns [-ENOENT] for
    every other failure, with the session untouched and no second
    call. *)
Theorem fault_classification :
  (∀ o w s remote rc rest,
     fsd w = Some s → rc_remote o s = Some remote →
     script w = Int rc :: rest →
     let w1 := called (remote (smb2 s)) rest w in
     run o w = retry_rc remote w
     ∧ (rc < -1 →
        retry_rc remote w = Ret rc w1
        ∧ fsd w1 = Some s ∧ log w1 = log w ++ [remote (smb2 s)])
     ∧ (0 <= rc → retry_rc remote w = Ret 0 w1)
     ∧ (rc = -1 → ∀ w2,
        handle_connection_fault w1 = Ret false w2 →
        retry_rc remote w = Ret (- ENODEV) w2)
     ∧ (rc = -1 → ∀ w2,
        handle_connection_fault w1 = Ret true w2 →
        retry_rc remote w = retry_rc remote w2))
  ∧ (∀ w s path fh r2 rest,
       fsd w = Some s → script w = PtrR2 0 r2 :: rest →
       let p := remote_path s path in
       let w1 := called (c_smb2_opendir_r2 (smb2 s) p) rest w in
       smb2fs_opendir path fh w = opendir_attempt p fh w
       ∧ (is_fault_r2 r2 = false →
          opendir_attempt p fh w = Ret (- ENOENT, fh) w1
          ∧ fsd w1 = Some s
          ∧ log w1 = log w ++ [c_smb2_opendir_r2 (smb2 s) p])
       ∧ (is_fault_r2 r2 = true → ∀ w2,
          handle_connection_fault w1 = Ret false w2 →
          opendir_attempt p fh w = Ret (- ENODEV, fh) w2)
       ∧ (is_fault_r2 r2 = true → ∀ w2,
          handle_connection_fault w1 = Ret true w2 →
          opendir_attempt p fh w = opendir_attempt p fh w2)).
Proof.
  split.
  - intros o w s remote rc rest Hfsd Hremote Hscript w1.
    split; [by apply (run_rc_remote o w s)|].
    rewrite (retry_rc_step remote w s rc rest) by done. fold w1.
    split_and!.
    + intros Hrc. apply Z.ltb_lt in Hrc. by rewrite Hrc.
    + intros Hrc.
      destruct (rc <? -1) eqn:H1; [apply Z.ltb_lt in H1; lia|].
      destruct (rc <? 0) eqn:H2; [apply Z.ltb_lt in H2; lia|]. done.
    + intros -> w2 Hw2. change (-1 <? -1) with false.
      change (-1 <? 0) with true. cbn iota. unfold bind. by rewrite Hw2.
    + intros -> w2 Hw2. change (-1 <? -1) with false.
      change (-1 <? 0) with true. cbn iota. unfold bind. by rewrite Hw2.
  - intros w s path fh r2 rest Hfsd Hscript p w1.
    split.
    { unfold smb2fs_opendir. mrun. cbn [negb]. mrun. done. }
    rewrite (opendir_attempt_step p fh w s 0 r2 rest) by done. fold w1.
    change (0 =? 0) with true. cbn iota. split_and!.
    + intros ->. done.
    + intros -> w2 Hw2. unfold bind. by rewrite Hw2.
    + intros -> w2 Hw2. unfold bind. by rewrite Hw2.
Qed.

(** [getattr] on the mount of the example: the server answers
    [-13]. *)
Lemma fault_classification_witness :
  run (op_getattr "/x") (example_world true true [Int (-13)])
  = Ret (-13)
        (called (c_smb2_stat 2000 "sub/x") []
                (example_world true true [Int (-13)])).
Proof.
  destruct (proj1 fault_classification (op_getattr "/x")
              (example_world true true [Int (-13)]) example_session
              (λ ctx, c_smb2_stat ctx "sub/x") (-13) []
              eq_refl eq_refl eq_refl) as (Hrun & Hlt & _).
  rewrite Hrun. apply Hlt. lia.
Defined.

(** C1 as it stands fails for [smb2fs_opendir]: a failure of the
    remote call with a status below [-1] that is no transport fault
    is not returned as it is. *)
Lemma opendir_outcome_not_verbatim :
  ¬ (∀ w s path fh r2 rest,
       fsd w = Some s → script w = PtrR2 0 r2 :: rest →
       r2 < -1 → is_fault_r2 r2 = false →
       ∃ w', smb2fs_opendir path fh w = Ret (r2, fh) w').
Proof.
  intros H.
  destruct (H (example_world true true [PtrR2 0 (-13)]) example_session
              "/dir" 0 (-13) [] eq_refl eq_refl ltac:(lia) eq_refl)
    as [w' Hw'].
  vm_compute in Hw'. discriminate Hw'.
Qed.

(** ** The connection fault *)

(** [handle_connection_fault] up to its test of [cfg_reconnect_req]. *)
Lemma handle_connection_fault_eq w s :
  fsd w = Some s →
  handle_connection_fault w =
  (if cfg_reconnect_req w then reconnect_loop else ret false)
    (torn_down s w).
Proof.
  intros Hfsd. unfold handle_connection_fault. mrun.
  unfold torn_down.
  destruct (rootdir s) eqn:Hroot; mrun;
    unfold set_fsd, logged; cbn [fsd phr_incarnation cfg_reconnect_req
      cfg_handles_rcv last_server private_data script log];
    rewrite <- !app_assoc; cbn [app];
    by destruct (cfg_reconnect_req w).
Qed.

(** C4, at a fault in the session of the example with reconnection
    disabled: the context is destroyed, the root directory and [fsd]
    are freed, and [FreeRegistry] is not called for the registry of
    the session, which [smb2fs_destroy] does call before it frees
    [fsd]. *)
Theorem fault_leaves_registry_unfreed :
  let w := example_world false true [] in
  (∃ w', handle_connection_fault w = Ret false w'
         ∧ fsd w' = None
         ∧ log w' = [c_smb2_get_error 2000; c_request_error;
                     c_smb2_destroy_context 2000; c_free_rootdir;
                     c_free_fsd])
  ∧ (∃ w', smb2fs_destroy w = Ret tt w'
           ∧ fsd w' = None
           ∧ log w' = [c_smb2_disconnect_share 2000;
                       c_smb2_destroy_context 2000; c_free_rootdir;
                       c_FreeRegistry 1; c_free_fsd]).
Proof. split; eexists; (split; [vm_compute; reflexivity|by split]). Qed.

(** ** What is written to the log *)

Section logs_facts.

Context {A B : Type} (P : call → Prop).

Lemma logs_ret (a : A) : logs P (ret a).
Proof. intros w a' w' [= _ <-]. exists []. by rewrite app_nil_r. Qed.

Lemma logs_fail f : logs P (fail (A := A) f).
Proof. intros w a w' [=]. Qed.

Lemma logs_bind (m : M A) (k : A → M B) :
  logs P m → (∀ a, logs P (k a)) → logs P (bind m k).
Proof.
  intros Hm Hk w b w' (a & w1 & H1 & H2)%bind_inv.
  apply Hm in H1 as (l1 & Hw1 & Hl1). apply Hk in H2 as (l2 & Hw' & Hl2).
  exists (l1 ++ l2). rewrite Hw', Hw1, app_assoc. split; [done|].
  by apply Forall_app.
Qed.

Lemma logs_weaken (Q : call → Prop) (m : M A) :
  (∀ c, Q c → P c) → logs Q m → logs P m.
Proof.
  intros HQ Hm w a w' (l & Hw' & Hl)%Hm. exists l. split; [done|].
  eapply Forall_impl; done.
Qed.

End logs_facts.

Lemma logs_get P : logs P get.
Proof. intros w a w' [= _ <-]. exists []. by rewrite app_nil_r. Qed.

Lemma logs_get_fsd P : logs P get_fsd.
Proof.
  intros w a w'. unfold get_fsd. destruct (fsd w); [|done].
  intros [= _ <-]. exists []. by rewrite app_nil_r.
Qed.

Lemma logs_modify P f : (∀ w, log (f w) = log w) → logs P (modify f).
Proof.
  intros Hf w a w' [= _ <-]. exists []. by rewrite app_nil_r, Hf.
Qed.

Lemma logs_ext_void (P : call → Prop) c : P c → logs P (ext_void c).
Proof. intros Hc w a w' [= _ <-]. exists [c]. split; [done|]. by constructor. Qed.

Lemma logs_ext (P : call → Prop) c : P c → logs P (ext c).
Proof.
  intros Hc w a w'. unfold ext. destruct (script w) as [|x rest]; [done|].
  intros [= _ <-]. exists [c]. split; [done|]. by constructor.
Qed.

Lemma logs_ext_int (P : call → Prop) c : P c → logs P (ext_int c).
Proof.
  intros Hc. apply logs_bind; [by apply logs_ext|].
  intros []; first [apply logs_ret | apply logs_fail].
Qed.

Lemma logs_ext_ptr_r2 (P : call → Prop) c : P c → logs P (ext_ptr_r2 c).
Proof.
  intros Hc. apply logs_bind; [by apply logs_ext|].
  intros []; first [apply logs_ret | apply logs_fail].
Qed.

Lemma logs_ext_dirent (P : call → Prop) c : P c → logs P (ext_dirent c).
Proof.
  intros Hc. apply logs_bind; [by apply logs_ext|].
  intros [[]| |]; first [apply logs_ret | apply logs_fail].
Qed.

Lemma logs_loop {R St} P (body : St → M (flow R St)) s :
  (∀ s, logs P (body s)) → logs P (loop body s).
Proof.
  intros Hs w. unfold loop.
  generalize (S (length (script w))) as n. intros n. revert s w.
  induction n as [|n IH]; intros s w a w'; [done|].
  simpl. intros (f & w1 & H1 & H2)%bind_inv.
  apply Hs in H1 as (l1 & Hl1 & HP1). destruct f as [s1|s1|r].
  - apply IH in H2 as (l2 & Hl2 & HP2). exists (l1 ++ l2).
    rewrite Hl2, Hl1, app_assoc. split; [done|]. by apply Forall_app.
  - injection H2 as _ <-. by exists l1.
  - injection H2 as _ <-. by exists l1.
Qed.

(** The judgement is settled along the structure of the computation;
    what is left is [P c] for the calls made. *)
Ltac logs_use :=
  repeat first
    [ apply logs_ret | apply logs_fail | apply logs_get | apply logs_get_fsd
    | solve [apply logs_modify; done]
    | solve [eauto 2 with logs_use]
    | apply logs_ext_void | apply logs_ext_int | apply logs_ext_ptr_r2
    | apply logs_ext_dirent | apply logs_ext
    | apply logs_loop; intros ?
    | match goal with
      | |- logs _ (if ?b then _ else _) => destruct b
      | |- logs _ (match ?x with _ => _ end) => destruct x
      | |- logs _ (bind _ _) => apply logs_bind; [|intros ?]
      end ].

Create HintDb logs_use discriminated.

Lemma logs_put_fsd P s : logs P (put_fsd s).
Proof. logs_use. Qed.

Lemma logs_update_fsd P f : logs P (update_fsd f).
Proof. unfold update_fsd. logs_use. Qed.
#[local] Hint Resolve logs_put_fsd logs_update_fsd : logs_use.

Lemma logs_smb2fs_destroy : logs silent smb2fs_destroy.
Proof. unfold smb2fs_destroy. logs_use; done. Qed.
#[local] Hint Extern 0 (logs silent smb2fs_destroy) =>
  exact logs_smb2fs_destroy : logs_use.

Lemma logs_fd_recovery url username fd :
  logs silent (fd_recovery url username fd).
Proof. unfold fd_recovery. logs_use; done. Qed.
#[local] Hint Resolve logs_fd_recovery : logs_use.

(** [smb2fs_init] does not ask whether to reconnect. *)
Lemma logs_smb2fs_init fci : logs silent (smb2fs_init fci).
Proof. unfold smb2fs_init. logs_use; done. Qed.

(** The log only grows. *)
Abbreviation grows m := (logs (λ _, True) m).

Lemma grows_of_logs {A} P (m : M A) : logs P m → grows m.
Proof. apply logs_weaken. done. Qed.

Ltac grows_use := logs_use; try exact I.

#[local] Hint Extern 0 (grows smb2fs_destroy) =>
  exact (grows_of_logs _ _ logs_smb2fs_destroy) : logs_use.
#[local] Hint Extern 0 (grows (smb2fs_init _)) =>
  exact (grows_of_logs _ _ (logs_smb2fs_init _)) : logs_use.
#[local] Hint Extern 0 (grows (fd_recovery _ _ _)) =>
  exact (grows_of_logs _ _ (logs_fd_recovery _ _ _)) : logs_use.

Lemma grows_reconnect_loop : grows reconnect_loop.
Proof. unfold reconnect_loop. grows_use. Qed.
#[local] Hint Extern 0 (grows reconnect_loop) =>
  exact grows_reconnect_loop : logs_use.

Lemma grows_handle_connection_fault : grows handle_connection_fault.
Proof. unfold handle_connection_fault. grows_use. Qed.
#[local] Hint Extern 0 (grows handle_connection_fault) =>
  exact grows_handle_connection_fault : logs_use.

Lemma grows_session_prologue : grows session_prologue.
Proof. unfold session_prologue. grows_use. Qed.
#[local] Hint Extern 0 (grows session_prologue) =>
  exact grows_session_prologue : logs_use.

Lemma grows_resolve fh : grows (resolve fh).
Proof. unfold resolve. grows_use. Qed.

Lemma grows_allocate ptr : grows (allocate ptr).
Proof. unfold allocate. grows_use. Qed.

Lemma grows_remove fh : grows (remove fh).
Proof. unfold remove. grows_use. Qed.

Lemma grows_retry_rc remote : grows (retry_rc remote).
Proof. unfold retry_rc. grows_use. Qed.

Lemma grows_retry_opendir path : grows (retry_opendir path).
Proof. unfold retry_opendir. grows_use. Qed.

Lemma grows_retry_open path flags : grows (retry_open path flags).
Proof. unfold retry_open. grows_use. Qed.
#[local] Hint Resolve grows_resolve grows_allocate grows_remove
  grows_retry_rc grows_retry_opendir grows_retry_open : logs_use.

Lemma grows_opendir_attempt path fh : grows (opendir_attempt path fh).
Proof. unfold opendir_attempt. grows_use. Qed.

Lemma grows_rmdir_scan smb2dir : grows (rmdir_scan smb2dir).
Proof. unfold rmdir_scan. grows_use. Qed.

Lemma grows_smb2fs_open path fh : grows (smb2fs_open path fh).
Proof. unfold smb2fs_open. grows_use. Qed.
#[local] Hint Resolve grows_opendir_attempt grows_rmdir_scan
  grows_smb2fs_open : logs_use.

Lemma grows_stream_prologue path fh : grows (stream_prologue path fh).
Proof. unfold stream_prologue. grows_use. Qed.

Lemma grows_stream_recovery path fh : grows (stream_recovery path fh).
Proof. unfold stream_recovery. grows_use. Qed.

Lemma grows_service_drain : grows service_drain.
Proof. unfold service_drain. grows_use. Qed.
#[local] Hint Resolve grows_stream_prologue grows_stream_recovery
  : logs_use.
#[local] Hint Extern 0 (grows service_drain) =>
  exact grows_service_drain : logs_use.

Lemma grows_account rc b : grows (account rc b).
Proof. unfold account. grows_use. Qed.
#[local] Hint Resolve grows_account : logs_use.

Lemma grows_read_body path smb2fh max st :
  grows (read_body path smb2fh max st).
Proof. unfold read_body. grows_use. Qed.

Lemma grows_write_body path smb2fh max st :
  grows (write_body path smb2fh max st).
Proof. unfold write_body. grows_use. Qed.
#[local] Hint Resolve grows_read_body grows_write_body : logs_use.

Lemma grows_read_pass path offset o : grows (read_pass path offset o).
Proof. unfold read_pass. grows_use. Qed.

Lemma grows_write_pass path offset o : grows (write_pass path offset o).
Proof. unfold write_pass. grows_use. Qed.

Lemma grows_ftruncate_body path size fh :
  grows (ftruncate_body path size fh).
Proof. unfold ftruncate_body. grows_use. Qed.
#[local] Hint Resolve grows_read_pass grows_write_pass
  grows_ftruncate_body : logs_use.

(** *** The first call of an operation that finds no session *)

Lemma starts_offline_bind {A B} (m : M A) (k : A → M B) :
  starts_offline m → (∀ a, grows (k a)) → starts_offline (bind m k).
Proof.
  intros Hm Hk w b w' Hfsd (a & w1 & H1 & H2)%bind_inv.
  apply Hm in H1 as (l1 & Hl1); [|done].
  apply Hk in H2 as (l2 & Hl2 & _).
  exists (l1 ++ l2). rewrite Hl2, Hl1, <- app_assoc. done.
Qed.

(** What is known of a computation that has returned, from its
    first step. *)
Ltac minv H :=
  let a := fresh "a" in
  let w := fresh "w" in
  let H1 := fresh H in
  apply bind_inv in H as (a & w & H1 & H).

Lemma ext_int_inv c w z w' :
  ext_int c w = Ret z w' →
  ∃ rest, script w = Int z :: rest ∧ w' = called c rest w.
Proof.
  unfold ext_int, bind, ext.
  destruct (script w) as [|[z'| |] rest]; try done.
  intros [= <- <-]. by exists rest.
Qed.

Lemma smb2fs_init_first_call fci w a w' :
  smb2fs_init fci w = Ret a w' → ∃ l, log w' = log w ++ c_calloc :: l.
Proof.
  unfold smb2fs_init. intros H.
  minv H. injection H0 as <- <-.
  minv H. minv H.
  assert (log w1 = log w) as Hlog.
  { destruct (ARG_RECONNECT_REQ _); injection H0 as _ <-;
      destruct (ARG_NO_HANDLES_RCV _); injection H1 as _ <-; done. }
  minv H. apply ext_int_inv in H2 as (rest & _ & ->).
  match type of H with
  | ?m _ = _ => assert (grows m) as Hm by grows_use
  end.
  apply Hm in H as (l & Hl & _). exists l.
  rewrite Hl. cbn [log called]. by rewrite Hlog, <- app_assoc.
Qed.

Lemma starts_offline_session_prologue : starts_offline session_prologue.
Proof.
  intros w ok w' Hfsd. unfold session_prologue, first_call.
  rewrite bind_get, Hfsd.
  destruct (cfg_reconnect_req w).
  - intros H. minv H. apply ext_int_inv in H0 as (rest & _ & ->).
    match type of H with
    | ?m _ = _ => assert (grows m) as Hm by grows_use
    end.
    apply Hm in H as (l & Hl & _). exists l.
    rewrite Hl. cbn [log called]. by rewrite <- app_assoc.
  - intros H. minv H. apply smb2fs_init_first_call in H0 as (l & Hl).
    injection H as _ <-. by exists l.
Qed.

Lemma starts_offline_stream_prologue path fh :
  starts_offline (stream_prologue path fh).
Proof.
  intros w r w' Hfsd. unfold stream_prologue.
  rewrite bind_get, Hfsd. revert w r w' Hfsd.
  apply starts_offline_bind; [apply starts_offline_session_prologue|].
  intros ok. grows_use.
Qed.

Lemma starts_offline_run o : is_statfs o = false → starts_offline (run o).
Proof.
  destruct o; intros Hne; try done; cbn [run];
    unfold smb2fs_getattr, smb2fs_fgetattr, smb2fs_mkdir, smb2fs_opendir,
      smb2fs_releasedir, smb2fs_readdir, smb2fs_open, smb2fs_create,
      smb2fs_release, smb2fs_read, smb2fs_write, smb2fs_truncate,
      smb2fs_ftruncate, smb2fs_utimens, smb2fs_unlink, smb2fs_rmdir,
      smb2fs_readlink, smb2fs_rename;
    repeat first
      [ apply starts_offline_session_prologue
      | apply starts_offline_stream_prologue
      | apply starts_offline_bind; [|intros ?; grows_use] ].
Qed.

(** ** [statfs] and the missing session *)

(** C10: whenever no session exists, [smb2fs_statfs] returns [-ENODEV]
    at once, in the same world: no call is made, so no prompt and no
    connection, whatever [cfg_reconnect_req] says; unlike it, every
    other operation that finds no session begins with the reconnect
    prompt or, when reconnection is disabled, with [smb2fs_init].
    The claim speaks of the missing session only: with a session, a
    transport fault takes [smb2fs_statfs] through
    [handle_connection_fault] as it does the other operations. *)
Theorem statfs_without_session :
  (∀ path w, fsd w = None → smb2fs_statfs path w = Ret (- ENODEV) w)
  ∧ (∀ o w v w',
       is_statfs o = false → fsd w = None → run o w = Ret v w' →
       ∃ l, log w' = log w ++ first_call w :: l)
  ∧ (∀ path w s rest,
       fsd w = Some s → script w = Int (-1) :: rest →
       let remote :=
         λ ctx, c_smb2_statvfs ctx (remote_path s (statfs_path path)) in
       smb2fs_statfs path w =
       (let* ok := handle_connection_fault in
        if ok then retry_rc remote else ret (- ENODEV))
         (called (remote (smb2 s)) rest w)).
Proof.
  split_and!.
  - intros path w Hfsd. unfold smb2fs_statfs. rewrite bind_get, Hfsd. done.
  - intros o w v w' Ho Hfsd Hrun. by eapply starts_offline_run.
  - intros path w s rest Hfsd Hscript remote.
    unfold smb2fs_statfs. rewrite bind_get, Hfsd.
    by rewrite (retry_rc_step _ w s (-1) rest).
Qed.

(** [statfs] with no session, reconnection enabled and a server that
    would accept the connection. *)
Lemma statfs_without_session_witness :
  let w := example_offline true true (Int 1 :: connect_answers 3000) in
  smb2fs_statfs (Some "/") w = Ret (- ENODEV) w.
Proof. intros w. apply (proj1 statfs_without_session). reflexivity. Defined.

(** With a session it is otherwise: with reconnection enabled and a
    remote call that returns [-1], [smb2fs_statfs] asks the user, runs
    [smb2fs_init] and connects to the share. *)
Lemma statfs_reconnects_on_fault :
  ¬ (∀ path w v w',
       log w = [] → smb2fs_statfs path w = Ret v w' →
       count_calls is_reconnection (log w') = 0%nat).
Proof.
  intros H.
  set (w := example_world true true
              ([Int (-1); Int 1] ++ connect_answers 3000 ++ [Int 0])).
  assert (∃ v w', smb2fs_statfs (Some "/") w = Ret v w'
                  ∧ count_calls is_reconnection (log w') = 3%nat)
    as (v & w' & Hrun & Hcount)
    by (eexists _, _; split; vm_compute; reflexivity).
  apply H in Hrun; [|reflexivity]. congruence.
Qed.

(** ** What [smb2fs_init] leaves *)

Lemma ret_inv {A} (a b : A) w w' : ret a w = Ret b w' → b = a ∧ w' = w.
Proof. by intros [= <- <-]. Qed.

Lemma get_inv w a w' : get w = Ret a w' → a = w ∧ w' = w.
Proof. by intros [= <- <-]. Qed.

Lemma get_fsd_inv w s w' : get_fsd w = Ret s w' → fsd w = Some s ∧ w' = w.
Proof. unfold get_fsd. destruct (fsd w); [|done]. by intros [= <- <-]. Qed.

Lemma modify_inv f w a w' : modify f w = Ret a w' → w' = f w.
Proof. by intros [= _ <-]. Qed.

Lemma ext_void_inv c w a w' : ext_void c w = Ret a w' → w' = logged c w.
Proof. by intros [= _ <-]. Qed.

Lemma put_fsd_inv s w a w' :
  put_fsd s w = Ret a w' → w' = set_fsd (Some s) w.
Proof. by intros [= _ <-]. Qed.

Lemma update_fsd_inv f w a w' :
  update_fsd f w = Ret a w' →
  ∃ s, fsd w = Some s ∧ w' = set_fsd (Some (f s)) w.
Proof.
  unfold update_fsd. intros (s & w1 & [Hs ->]%get_fsd_inv & ->%put_fsd_inv)%bind_inv.
  by exists s.
Qed.

(** Everything known of a computation that has returned. *)
Ltac minv_step :=
  match goal with
  | H : ret _ _ = Ret _ _ |- _ => apply ret_inv in H as [? ?]
  | H : get _ = Ret _ _ |- _ => apply get_inv in H as [? ?]
  | H : get_fsd _ = Ret _ _ |- _ => apply get_fsd_inv in H as [? ?]
  | H : modify _ _ = Ret _ _ |- _ => apply modify_inv in H
  | H : ext_void _ _ = Ret _ _ |- _ => apply ext_void_inv in H
  | H : put_fsd _ _ = Ret _ _ |- _ => apply put_fsd_inv in H
  | H : update_fsd _ _ = Ret _ _ |- _ =>
      apply update_fsd_inv in H as (? & ? & ?)
  | H : ext_int _ _ = Ret _ _ |- _ => apply ext_int_inv in H as (? & ? & ?)
  | H : fail _ _ = Ret _ _ |- _ => discriminate H
  | H : bind _ _ _ = Ret _ _ |- _ => apply bind_inv in H as (? & ? & ? & ?)
  | H : (if ?b then _ else _) _ = Ret _ _ |- _ => destruct b eqn:?
  | H : match ?x with _ => _ end _ = Ret _ _ |- _ => destruct x eqn:?
  end.

Ltac minv_all := repeat (minv_step; subst).

Ltac world_simpl :=
  cbn [called logged set_fsd set_phr_incarnation set_cfg_reconnect_req
       set_cfg_handles_rcv set_last_server
       fsd phr_incarnation cfg_reconnect_req cfg_handles_rcv last_server
       private_data script log
       set_smb2 set_phr set_rdonly set_connected set_rootdir
       smb2 phr rdonly connected rootdir] in *.

(** What [smb2fs_destroy] leaves. *)
Lemma smb2fs_destroy_post w a w' :
  smb2fs_destroy w = Ret a w' →
  fsd w' = None
  ∧ private_data w' = private_data w
  ∧ cfg_reconnect_req w' = cfg_reconnect_req w
  ∧ cfg_handles_rcv w' = cfg_handles_rcv w
  ∧ phr_incarnation w' = phr_incarnation w.
Proof.
  unfold smb2fs_destroy. intros H. minv_all; world_simpl; done.
Qed.

(** What the socket recovery leaves. *)
Lemma fd_recovery_post url username fd w a w' :
  fd_recovery url username fd w = Ret a w' →
  (∃ s ctx, fsd w = Some s ∧ fsd w' = Some (set_smb2 ctx s))
  ∧ private_data w' = private_data w
  ∧ cfg_reconnect_req w' = cfg_reconnect_req w
  ∧ cfg_handles_rcv w' = cfg_handles_rcv w
  ∧ phr_incarnation w' = phr_incarnation w.
Proof.
  unfold fd_recovery. intros H. minv_all; world_simpl; simplify_eq/=.
  all: try (split; [eexists _, _; split; [done|reflexivity]|done]).
Qed.

(** *** Triples *)

Lemma triple_ret {A} (P : world → Prop) (a : A) (Q : A → world → Prop) :
  (∀ w, P w → Q a w) → triple P (ret a) Q.
Proof. intros H w a' w' Hw [= <- <-]. by apply H. Qed.

Lemma triple_bind {A B} P (m : M A) (k : A → M B) Q1 Q :
  triple P m Q1 → (∀ a, triple (Q1 a) (k a) Q) → triple P (bind m k) Q.
Proof.
  intros Hm Hk w b w' Hw (a & w1 & H1 & H2)%bind_inv.
  eapply Hk; [|done]. by eapply Hm.
Qed.

Section invariant.

Context (I : world → Prop) (HI : stable I).

Lemma inv_ext_void c : triple I (ext_void c) (λ _, I).
Proof. intros w a w' Hw ->%ext_void_inv. by apply HI. Qed.

Lemma inv_ext_int c : triple I (ext_int c) (λ _, I).
Proof. intros w a w' Hw (rest & _ & ->)%ext_int_inv. by apply HI. Qed.

Lemma inv_get_fsd : triple I get_fsd (λ _, I).
Proof. intros w a w' Hw [_ ->]%get_fsd_inv. done. Qed.

Lemma inv_modify f : (∀ w, I w → I (f w)) → triple I (modify f) (λ _, I).
Proof. intros Hf w a w' Hw ->%modify_inv. by apply Hf. Qed.

Lemma inv_update_fsd f :
  (∀ w s, I w → fsd w = Some s → I (set_fsd (Some (f s)) w)) →
  triple I (update_fsd f) (λ _, I).
Proof. intros Hf w a w' Hw (s & Hs & ->)%update_fsd_inv. by apply Hf. Qed.

End invariant.

(** *** The invariant of [smb2fs_init] *)

Section init_facts.

Context (md : smb2fs_mount_data) (reconnect handles : bool) (inc : Z).

#[local] Abbreviation init_session := (init_session md reconnect handles inc).
#[local] Abbreviation init_failed := (init_failed md reconnect handles).
#[local] Abbreviation init_post := (init_post md reconnect handles inc).

Lemma stable_init_session : stable init_session.
Proof. split; intros w c; intros; done. Qed.

Lemma init_session_post p w : p ≠ 0 → init_session w → init_post p w.
Proof. intros Hp [Hf Hs]. split_and!; done. Qed.

Lemma init_failed_post w : init_failed w → init_post 0 w.
Proof. intros [Hf Hs]. split_and!; done. Qed.

Lemma init_session_destroy :
  triple init_session smb2fs_destroy (λ _, init_failed).
Proof.
  intros w a w' [(Hmd & Hr & Hh) _] (Hfsd & ? & ? & ? & _)%smb2fs_destroy_post.
  split; [|done]. split_and!; congruence.
Qed.

Lemma init_session_fd_recovery url username fd :
  triple init_session (fd_recovery url username fd) (λ _, init_session).
Proof.
  intros w a w' [(Hmd & Hr & Hh) (s & Hs & Hphr & Hro)]
    ((s0 & ctx & Hs0 & Hs') & ? & ? & ? & _)%fd_recovery_post.
  split; [split_and!; congruence|].
  exists (set_smb2 ctx s0). simplify_eq. done.
Qed.

End init_facts.

(** A step that keeps the session under construction. *)
Ltac init_keep :=
  repeat first
    [ apply inv_ext_int, stable_init_session
    | apply inv_ext_void, stable_init_session
    | apply inv_get_fsd
    | apply init_session_fd_recovery
    | apply triple_ret; intros; assumption
    | apply inv_modify; intros ? [(? & ? & ?) ?]; by split
    | apply inv_update_fsd;
      intros ? ? [? (? & ? & ? & ?)] ?; split; [done|];
      eexists; split; [reflexivity|]; simplify_eq; by split
    | match goal with
      | |- triple _ (if ?b then _ else _) _ => destruct b
      | |- triple _ (match ?x with _ => _ end) _ => destruct x
      | |- triple ?I (bind _ _) _ =>
          eapply (triple_bind _ _ _ (λ _, I)); [|intros ?]
      end ].

Ltac init_use :=
  repeat first
    [ apply triple_ret; intros;
      first [ by apply init_failed_post
            | apply init_session_post; [|done];
              first [done | by apply Z.eqb_neq] ]
    | match goal with
      | |- triple _ (if ?b then _ else _) _ => destruct b eqn:?
      | |- triple _ (match ?x with _ => _ end) _ => destruct x eqn:?
      | |- triple _ (bind smb2fs_destroy _) _ =>
          eapply triple_bind; [apply init_session_destroy|intros ?]
      | |- triple ?I (bind _ _) _ =>
          eapply (triple_bind _ _ _ (λ _, I)); [solve [init_keep]|intros ?]
      end ].

(** What [smb2fs_init] leaves: the private data are untouched, the two
    switches follow the arguments of the mount, a result [NULL] comes
    with no session, and any other result with a session on a new,
    empty registry of the incarnation the counter had. *)
Lemma smb2fs_init_post fci w p w' :
  smb2fs_init fci w = Ret p w' →
  init_post (private_data w)
            (cfg_reconnect_req w || ARG_RECONNECT_REQ (private_data w))
            (cfg_handles_rcv w && negb (ARG_NO_HANDLES_RCV (private_data w)))
            (phr_incarnation w) p w'.
Proof.
  intros H. unfold smb2fs_init in H. rewrite bind_get in H. cbv zeta in H.
  set (md := private_data w) in *.
  set (r := cfg_reconnect_req w || ARG_RECONNECT_REQ md).
  set (h := cfg_handles_rcv w && negb (ARG_NO_HANDLES_RCV md)).
  set (inc := phr_incarnation w) in *.
  apply bind_inv in H as (u1 & w1 & H1 & H).
  apply bind_inv in H as (u2 & w2 & H2 & H).
  apply bind_inv in H as (p0 & w3 & H3 & H).
  assert (init_frame md r h w3) as Hframe.
  { clear H. apply ext_int_inv in H3 as (rest & _ & ->). subst r h.
    destruct (ARG_RECONNECT_REQ md); minv_all;
      destruct (ARG_NO_HANDLES_RCV md); minv_all; world_simpl;
      split_and!; world_simpl; try done;
      by destruct (cfg_reconnect_req w), (cfg_handles_rcv w). }
  clear H1 H2 H3.
  destruct (p0 =? 0) eqn:Hp0.
  { minv_all. world_simpl. apply init_failed_post. by split. }
  apply bind_inv in H as (u4 & w4 & ->%put_fsd_inv & H).
  apply bind_inv in H as (u5 & w5 & ->%modify_inv & H).
  apply bind_inv in H as (mem & w6 & (rest & _ & ->)%ext_int_inv & H).
  unfold AllocateNewRegistry in H. destruct (negb (mem =? 0)).
  2:{ minv_all. world_simpl. apply init_failed_post. by split. }
  apply bind_inv in H as (u7 & w7 & (s7 & Hs7 & ->)%update_fsd_inv & H).
  apply bind_inv in H as (u8 & w8 & H8 & H).
  assert (init_session md r h inc w8) as Hsession.
  { clear H. world_simpl. simplify_eq.
    destruct (ARG_READONLY md) eqn:Hro; minv_all; world_simpl; simplify_eq/=;
      (split; [done|]); eexists; split_and!; try done. }
  clear H8.
  match type of H with
  | ?m _ = _ => assert (triple (init_session md r h inc) m
                               (init_post md r h inc)) as Hm
  end.
  { init_use. }
  exact (Hm _ _ _ Hsession H).
Qed.

(** *** The calls of [smb2fs_init] *)

Lemma logs_plain_smb2fs_destroy : logs plain smb2fs_destroy.
Proof. unfold smb2fs_destroy. logs_use; done. Qed.

Lemma logs_plain_fd_recovery url username fd :
  logs plain (fd_recovery url username fd).
Proof. unfold fd_recovery. logs_use; done. Qed.

(** [smb2fs_init] begins with [calloc] and makes plain calls
    afterwards. *)
Lemma smb2fs_init_log fci w p w' :
  smb2fs_init fci w = Ret p w' →
  ∃ l, log w' = log w ++ c_calloc :: l ∧ Forall plain l.
Proof.
  unfold smb2fs_init. rewrite bind_get. cbv zeta. intros H.
  apply bind_inv in H as (u1 & w1 & H1 & H).
  apply bind_inv in H as (u2 & w2 & H2 & H).
  apply bind_inv in H as (p0 & w3 & (rest & _ & ->)%ext_int_inv & H).
  assert (log w2 = log w) as Hlog.
  { clear H. destruct (ARG_RECONNECT_REQ _), (ARG_NO_HANDLES_RCV _);
      minv_all; done. }
  match type of H with
  | ?m _ = _ => assert (logs plain m) as Hm
  end.
  { clear H.
    pose proof logs_plain_smb2fs_destroy.
    pose proof logs_plain_fd_recovery.
    logs_use; done. }
  apply Hm in H as (l & Hl & Hplain). exists l. split; [|done].
  rewrite Hl. cbn [log called]. by rewrite Hlog, <- app_assoc.
Qed.

(** ** Faults with reconnection disabled *)

Section fault_facts.

Context {A B : Type}.

Lemma fault_exit_ret (Q : A → Prop) (a : A) : fault_exit Q (ret a).
Proof.
  intros w a' w' Hw [= _ <-]. split; [|by left].
  exists []. by rewrite app_nil_r.
Qed.

Lemma fault_exit_fail (Q : A → Prop) f : fault_exit Q (fail f).
Proof. intros w a w' _ [=]. Qed.

Lemma fault_exit_weaken (Q Q' : A → Prop) (m : M A) :
  (∀ a, Q a → Q' a) → fault_exit Q m → fault_exit Q' m.
Proof.
  intros HQ Hm w a w' Hw Hrun.
  destruct (Hm w a w' Hw Hrun) as [Hl [?|(? & ? & ?)]];
    (split; [done|]); [by left|right; auto].
Qed.

Lemma fault_exit_bind (Q1 : A → Prop) (Q : B → Prop)
    (m : M A) (k : A → M B) :
  fault_exit Q1 m →
  (∀ a, fault_exit Q (k a)) →
  (∀ a, Q1 a → returns Q (k a)) →
  fault_exit Q (bind m k).
Proof.
  intros Hm Hk Hoff w b w' Hw (a & w1 & H1 & H2)%bind_inv.
  destruct (Hm w a w1 Hw H1) as [(l1 & Hl1 & HP1) [Hw1|(Hw1 & Hq & Ha)]].
  - destruct (Hk a w1 b w' Hw1 H2) as [(l2 & Hl2 & HP2) Hend].
    split; [|done]. exists (l1 ++ l2).
    rewrite Hl2, Hl1, app_assoc. split; [done|]. by apply Forall_app.
  - destruct (Hoff a Ha w1 b w' H2) as [-> Hb].
    split; [by exists l1|]. by right.
Qed.

Lemma returns_ret (Q : A → Prop) (a : A) : Q a → returns Q (ret a).
Proof. intros Ha w a' w' [= <- <-]. done. Qed.

End fault_facts.

(** A computation that keeps the session. *)
Abbreviation keeps m := (fault_exit (λ _, False) m).

Lemma keeps_bind {A B} (Q : B → Prop) (m : M A) (k : A → M B) :
  keeps m → (∀ a, fault_exit Q (k a)) → fault_exit Q (bind m k).
Proof. intros Hm Hk. eapply fault_exit_bind; [done..|]. by intros a []. Qed.

Lemma keeps_get : keeps get.
Proof.
  intros w a w' Hw [= _ <-]. split; [|by left].
  exists []. by rewrite app_nil_r.
Qed.

Lemma keeps_get_fsd : keeps get_fsd.
Proof.
  intros w a w' Hw [_ ->]%get_fsd_inv. split; [|by left].
  exists []. by rewrite app_nil_r.
Qed.

Lemma keeps_ext_void c : plain c → keeps (ext_void c).
Proof.
  intros Hc w a w' Hw ->%ext_void_inv. split; [|by left].
  exists [c]. split; [done|]. by apply Forall_singleton.
Qed.

Lemma keeps_put_fsd s : keeps (put_fsd s).
Proof.
  intros w a w' [_ Hq] ->%put_fsd_inv. split.
  - exists []. by rewrite app_nil_r.
  - left. split; [by eexists|done].
Qed.

Lemma keeps_ext c : plain c → keeps (ext c).
Proof.
  intros Hc w a w'. unfold ext. destruct (script w) as [|x rest]; [done|].
  intros Hw [= _ <-]. split; [|by left].
  exists [c]. split; [done|]. by apply Forall_singleton.
Qed.

Create HintDb fault_use discriminated.

#[local] Hint Resolve keeps_ext_void keeps_put_fsd keeps_ext : fault_use.
#[local] Hint Extern 0 (fault_exit _ get) => exact keeps_get : fault_use.
#[local] Hint Extern 0 (fault_exit _ get_fsd) =>
  exact keeps_get_fsd : fault_use.
#[local] Hint Extern 0 (plain _) =>
  solve [split; reflexivity | auto] : fault_use.

(** The judgement is settled along the structure of the computation:
    a step that keeps the session, or a step that may lose it to a
    fault, after which what follows is a [return]. *)
Ltac returns_use :=
  intros; cbv beta in *;
  repeat match goal with
         | H : ∃ _, _ |- _ => destruct H
         | H : _ ∧ _ |- _ => destruct H
         | H : False |- _ => destruct H
         end;
  simplify_eq/=; repeat case_match; simplify_eq/=;
  try (apply returns_ret; first [done | by eauto]).

Ltac fault_use :=
  repeat first
    [ apply fault_exit_ret | apply fault_exit_fail
    | solve [eauto 2 with fault_use]
    | match goal with
      | |- fault_exit _ (if ?b then _ else _) => destruct b
      | |- fault_exit _ (match ?x with _ => _ end) => destruct x
      | |- fault_exit _ (bind _ _) =>
          first [ apply keeps_bind; [solve [fault_use]|intros ?]
                | eapply fault_exit_bind;
                  [solve [eauto 2 with fault_use]
                  |intros ?
                  |solve [returns_use]] ]
      end ].

Lemma keeps_ext_int c : plain c → keeps (ext_int c).
Proof. intros Hc. unfold ext_int. fault_use. Qed.

Lemma keeps_ext_ptr_r2 c : plain c → keeps (ext_ptr_r2 c).
Proof. intros Hc. unfold ext_ptr_r2. fault_use. Qed.

Lemma keeps_ext_dirent c : plain c → keeps (ext_dirent c).
Proof. intros Hc. unfold ext_dirent. fault_use. Qed.

Lemma keeps_update_fsd f : keeps (update_fsd f).
Proof. unfold update_fsd. fault_use. Qed.
#[local] Hint Resolve keeps_ext_int keeps_ext_ptr_r2 keeps_ext_dirent
  keeps_update_fsd : fault_use.

Lemma fault_exit_loop {R St} (Q : R → Prop) (body : St → M (flow R St)) s :
  (∀ s, fault_exit (λ f, ∃ v, f = Return v ∧ Q v) (body s)) →
  fault_exit (λ r, ∃ v, r = inl v ∧ Q v) (loop body s).
Proof.
  intros Hs w. unfold loop.
  generalize (S (length (script w))) as n. intros n. revert s w.
  induction n as [|n IH]; intros s w a w' Hw; [done|].
  simpl. intros (f & w1 & H1 & H2)%bind_inv.
  destruct (Hs s w f w1 Hw H1)
    as [(l1 & Hl1 & HP1) [Hw1|(Hw1 & Hq & v & -> & Hv)]].
  - destruct f as [s1|s1|r].
    + destruct (IH s1 w1 a w' Hw1 H2) as [(l2 & Hl2 & HP2) Hend].
      split; [|done]. exists (l1 ++ l2).
      rewrite Hl2, Hl1, app_assoc. split; [done|]. by apply Forall_app.
    + injection H2 as _ <-. split; [by exists l1|by left].
    + injection H2 as _ <-. split; [by exists l1|by left].
  - injection H2 as <- <-. split; [by exists l1|]. right. eauto.
Qed.

(** With reconnection disabled, the fault handler gives up. *)
Lemma fault_exit_handle_connection_fault :
  fault_exit (λ ok, ok = false) handle_connection_fault.
Proof.
  intros w ok w' [[s Hfsd] [Hcfg Harg]].
  rewrite (handle_connection_fault_eq w s Hfsd), Hcfg.
  intros [= <- <-]. split.
  - eexists. split; [reflexivity|].
    repeat first [apply Forall_app; split | apply Forall_cons; split
                 | apply Forall_nil | done | case_match].
  - right. done.
Qed.
#[local] Hint Extern 0 (fault_exit _ handle_connection_fault) =>
  exact fault_exit_handle_connection_fault : fault_use.

Lemma keeps_session_prologue : keeps session_prologue.
Proof.
  intros w ok w' Hw. pose proof Hw as [[s Hfsd] _].
  rewrite (session_prologue_Some w s Hfsd). intros [= _ <-].
  split; [|by left]. exists []. by rewrite app_nil_r.
Qed.
#[local] Hint Extern 0 (fault_exit _ session_prologue) =>
  exact keeps_session_prologue : fault_use.

Lemma keeps_resolve fh : keeps (resolve fh).
Proof. unfold resolve. fault_use. Qed.

Lemma keeps_allocate ptr : keeps (allocate ptr).
Proof. unfold allocate. fault_use. Qed.

Lemma keeps_remove fh : keeps (remove fh).
Proof. unfold remove. fault_use. Qed.
#[local] Hint Resolve keeps_resolve keeps_allocate keeps_remove : fault_use.

(** A loop, then its result. *)
Ltac fault_loop Q :=
  eapply (fault_exit_bind (λ r, ∃ v, r = inl v ∧ Q v));
  [ apply fault_exit_loop; intros ?; fault_use
  | intros ?; fault_use
  | solve [returns_use] ].

Lemma fault_exit_retry_rc remote :
  (∀ ctx, plain (remote ctx)) →
  fault_exit (λ v, v = - ENODEV) (retry_rc remote).
Proof. intros Hc. unfold retry_rc. fault_loop (λ v, v = - ENODEV). Qed.

Lemma fault_exit_retry_opendir path :
  fault_exit (λ r, ∃ v, r = inl v ∧ v = - ENODEV) (retry_opendir path).
Proof. unfold retry_opendir. apply fault_exit_loop. intros ?. fault_use. Qed.

Lemma fault_exit_retry_open path flags :
  fault_exit (λ r, ∃ v, r = inl v ∧ v = - ENODEV) (retry_open path flags).
Proof. unfold retry_open. apply fault_exit_loop. intros ?. fault_use. Qed.
#[local] Hint Resolve fault_exit_retry_rc fault_exit_retry_opendir
  fault_exit_retry_open : fault_use.

Lemma fault_exit_opendir_attempt path fh :
  fault_exit (λ r, r.1 = - ENODEV) (opendir_attempt path fh).
Proof. unfold opendir_attempt. fault_use. Qed.

Lemma keeps_rmdir_scan smb2dir : keeps (rmdir_scan smb2dir).
Proof.
  unfold rmdir_scan. fault_loop (λ _ : bool, False).
Qed.
#[local] Hint Resolve fault_exit_opendir_attempt keeps_rmdir_scan
  : fault_use.

Lemma fault_exit_smb2fs_open path fh :
  fault_exit (λ r, r.1 = - ENODEV) (smb2fs_open path fh).
Proof.
  unfold smb2fs_open. fault_use.
  fault_loop (λ r : Z * Z, r.1 = - ENODEV).
Qed.
#[local] Hint Resolve fault_exit_smb2fs_open : fault_use.

Lemma keeps_stream_prologue path fh : keeps (stream_prologue path fh).
Proof.
  intros w r w' Hw. pose proof Hw as [[s Hfsd] _].
  unfold stream_prologue. rewrite bind_get, Hfsd.
  intros [= _ <-]. split; [|by left]. exists []. by rewrite app_nil_r.
Qed.

(** With reconnection disabled, the recovery of a stream stops at the
    fault handler. *)
Lemma fault_exit_stream_recovery path fh :
  fault_exit (λ r, ∃ v, r = inl v ∧ v.1 = - ENODEV)
             (stream_recovery path fh).
Proof.
  intros w r w' Hw (ok & w1 & H1 & H2)%bind_inv.
  destruct (fault_exit_handle_connection_fault w ok w1 Hw H1)
    as [Hl [[[s Hs] _]|(Hfsd & Hq & ->)]].
  - pose proof Hw as [[s0 Hs0] [Hcfg _]].
    rewrite (handle_connection_fault_eq w s0 Hs0), Hcfg in H1.
    injection H1 as _ <-. done.
  - injection H2 as <- <-. split; [done|]. right. eauto.
Qed.

Lemma keeps_service_drain : keeps service_drain.
Proof.
  unfold service_drain. fault_loop (λ _ : Z, False).
Qed.
#[local] Hint Resolve keeps_stream_prologue fault_exit_stream_recovery
  : fault_use.
#[local] Hint Extern 0 (fault_exit _ service_drain) =>
  exact keeps_service_drain : fault_use.

Lemma keeps_account rc b : keeps (account rc b).
Proof. unfold account. fault_use. Qed.
#[local] Hint Resolve keeps_account : fault_use.

Lemma fault_exit_read_body path smb2fh max st :
  fault_exit (λ f, ∃ v, f = Return v ∧ v.1 = - ENODEV)
             (read_body path smb2fh max st).
Proof. unfold read_body. fault_use. Qed.

Lemma fault_exit_write_body path smb2fh max st :
  fault_exit (λ f, ∃ v, f = Return v ∧ v.1 = - ENODEV)
             (write_body path smb2fh max st).
Proof. unfold write_body. fault_use. Qed.

Lemma fault_exit_ftruncate_body path size fh :
  fault_exit (λ f, ∃ v, f = Return v ∧ v.1 = - ENODEV)
             (ftruncate_body path size fh).
Proof. unfold ftruncate_body. fault_use. Qed.
#[local] Hint Resolve fault_exit_read_body fault_exit_write_body
  fault_exit_ftruncate_body : fault_use.

Lemma fault_exit_read_pass path offset o :
  fault_exit (λ f, ∃ v, f = Return v ∧ v.1 = - ENODEV)
             (read_pass path offset o).
Proof.
  unfold read_pass. fault_use.
  fault_loop (λ v : Z * Z, v.1 = - ENODEV).
Qed.

Lemma fault_exit_write_pass path offset o :
  fault_exit (λ f, ∃ v, f = Return v ∧ v.1 = - ENODEV)
             (write_pass path offset o).
Proof.
  unfold write_pass. fault_use.
  fault_loop (λ v : Z * Z, v.1 = - ENODEV).
Qed.
#[local] Hint Resolve fault_exit_read_pass fault_exit_write_pass
  : fault_use.

(** *** The operations, started with a session *)

Lemma fault_exit_smb2fs_statfs path : fault_exit unavailable (smb2fs_statfs path).
Proof. unfold smb2fs_statfs. fault_use. Qed.

Lemma fault_exit_smb2fs_getattr path :
  fault_exit unavailable (smb2fs_getattr path).
Proof. unfold smb2fs_getattr. fault_use. Qed.

Lemma fault_exit_smb2fs_fgetattr fh :
  fault_exit unavailable (smb2fs_fgetattr fh).
Proof. unfold smb2fs_fgetattr. fault_use. fault_loop (λ v : Z, v = - ENODEV). Qed.

Lemma fault_exit_smb2fs_mkdir path : fault_exit unavailable (smb2fs_mkdir path).
Proof. unfold smb2fs_mkdir. fault_use. Qed.

Lemma fault_exit_smb2fs_truncate path size :
  fault_exit unavailable (smb2fs_truncate path size).
Proof. unfold smb2fs_truncate. fault_use. Qed.

Lemma fault_exit_smb2fs_utimens path :
  fault_exit unavailable (smb2fs_utimens path).
Proof. unfold smb2fs_utimens. fault_use. Qed.

Lemma fault_exit_smb2fs_unlink path :
  fault_exit unavailable (smb2fs_unlink path).
Proof. unfold smb2fs_unlink. fault_use. Qed.

Lemma fault_exit_smb2fs_rmdir path : fault_exit unavailable (smb2fs_rmdir path).
Proof. unfold smb2fs_rmdir. fault_use. Qed.

Lemma fault_exit_smb2fs_readlink path :
  fault_exit unavailable (smb2fs_readlink path).
Proof. unfold smb2fs_readlink. fault_use. Qed.

Lemma fault_exit_smb2fs_rename srcpath dstpath :
  fault_exit unavailable (smb2fs_rename srcpath dstpath).
Proof. unfold smb2fs_rename. fault_use. Qed.

Lemma fault_exit_smb2fs_readdir fi :
  fault_exit unavailable (smb2fs_readdir fi).
Proof. unfold smb2fs_readdir. fault_use. fault_loop (λ _ : Z, False). Qed.

Lemma fault_exit_smb2fs_opendir path fh :
  fault_exit unavailable_fi (smb2fs_opendir path fh).
Proof. unfold smb2fs_opendir. fault_use. Qed.

Lemma fault_exit_smb2fs_releasedir fh :
  fault_exit unavailable_fi (smb2fs_releasedir fh).
Proof. unfold smb2fs_releasedir. fault_use. Qed.

Lemma fault_exit_smb2fs_create path fh :
  fault_exit unavailable_fi (smb2fs_create path fh).
Proof. unfold smb2fs_create. fault_use. Qed.

Lemma fault_exit_smb2fs_release fh :
  fault_exit unavailable_fi (smb2fs_release fh).
Proof. unfold smb2fs_release. fault_use. Qed.

Lemma fault_exit_smb2fs_read path size offset fh :
  fault_exit unavailable_fi (smb2fs_read path size offset fh).
Proof. unfold smb2fs_read. fault_use. fault_loop (λ r : Z * Z, r.1 = - ENODEV). Qed.

Lemma fault_exit_smb2fs_write path size offset fh :
  fault_exit unavailable_fi (smb2fs_write path size offset fh).
Proof. unfold smb2fs_write. fault_use. fault_loop (λ r : Z * Z, r.1 = - ENODEV). Qed.

Lemma fault_exit_smb2fs_ftruncate path size fh :
  fault_exit unavailable_fi (smb2fs_ftruncate path size fh).
Proof. unfold smb2fs_ftruncate. fault_use. fault_loop (λ r : Z * Z, r.1 = - ENODEV). Qed.

Lemma fault_exit_fst (m : M (Z * Z)) :
  fault_exit unavailable_fi m →
  fault_exit unavailable (let* r := m in ret (fst r)).
Proof.
  intros Hm. eapply fault_exit_bind; [exact Hm|intros ?; fault_use|].
  intros a Ha. by apply returns_ret.
Qed.

(** Every operation: when the session is lost on the way, the result is
    [-ENODEV]. *)
Lemma fault_exit_run o : fault_exit unavailable (run o).
Proof.
  destruct o; cbn [run];
    first [ apply fault_exit_fst | idtac ];
    auto using fault_exit_smb2fs_statfs, fault_exit_smb2fs_getattr,
      fault_exit_smb2fs_fgetattr, fault_exit_smb2fs_mkdir,
      fault_exit_smb2fs_truncate, fault_exit_smb2fs_utimens,
      fault_exit_smb2fs_unlink, fault_exit_smb2fs_rmdir,
      fault_exit_smb2fs_readlink, fault_exit_smb2fs_rename,
      fault_exit_smb2fs_readdir, fault_exit_smb2fs_opendir,
      fault_exit_smb2fs_releasedir, fault_exit_smb2fs_create,
      fault_exit_smb2fs_release, fault_exit_smb2fs_read,
      fault_exit_smb2fs_write, fault_exit_smb2fs_ftruncate,
      fault_exit_smb2fs_open.
Qed.

(** *** The operations, started with no session *)

(** [smb2fs_init] keeps reconnection disabled. *)
Lemma smb2fs_init_quiet fci w p w' :
  quiet w → smb2fs_init fci w = Ret p w' →
  quiet w' ∧ (p = 0 → fsd w' = None) ∧ (p ≠ 0 → is_Some (fsd w')).
Proof.
  intros [Hcfg Harg] ((Hmd & Hr & _) & H0 & H1)%smb2fs_init_post.
  split_and!.
  - split; [|congruence]. by rewrite Hr, Hcfg, Harg.
  - done.
  - intros (s & -> & _)%H1. by eexists.
Qed.

Lemma offline_start_session_prologue :
  offline_start false (λ _, False) session_prologue.
Proof.
  intros w ok w' Hfsd Hq. pose proof Hq as [Hcfg _].
  unfold session_prologue. rewrite bind_get, Hfsd, Hcfg.
  intros (p & w1 & Hinit & [-> ->]%ret_inv)%bind_inv.
  destruct (smb2fs_init_quiet _ _ _ _ Hq Hinit) as (Hq1 & H0 & H1).
  exists p, w1. destruct (smb2fs_init_log _ _ _ _ Hinit) as (l & Hl & HP).
  exists l. split_and!; [done..| |].
  - by intros ->.
  - intros Hp. left. split; auto.
Qed.

Lemma offline_start_bind {A B} (failed : A) (failed' : B)
    (Q1 : A → Prop) (Q : B → Prop) (m : M A) (k : A → M B) :
  offline_start failed Q1 m →
  (∀ w, k failed w = Ret failed' w) →
  (∀ a, fault_exit Q (k a)) →
  (∀ a, Q1 a → returns Q (k a)) →
  offline_start failed' Q (bind m k).
Proof.
  intros Hm Hfailed Hk Hoff w b w' Hfsd Hq (a & w2 & H1 & H2)%bind_inv.
  destruct (Hm w a w2 Hfsd Hq H1) as (p & w1 & l & Hinit & [Hl HP] & H0 & Hp).
  exists p, w1. destruct (decide (p = 0)) as [->|Hne].
  - destruct H0 as [-> ->]; [done|]. rewrite Hfailed in H2.
    injection H2 as <- <-. exists l. done.
  - destruct (Hp Hne) as [Hw2|(Hw2 & Hq2 & Ha)].
    + destruct (Hk a w2 b w' Hw2 H2) as [(l2 & Hl2 & HP2) Hend].
      exists (l ++ l2). split_and!; [done| | |done..].
      * by rewrite Hl2, Hl, <- app_assoc.
      * by apply Forall_app.
    + destruct (Hoff a Ha w2 b w' H2) as [-> Hb].
      exists l. split_and!; [done..|]. intros _. by right.
Qed.

Lemma offline_start_weaken {A} (failed : A) (Q Q' : A → Prop) (m : M A) :
  (∀ a, Q a → Q' a) → offline_start failed Q m → offline_start failed Q' m.
Proof.
  intros HQ Hm w a w' Hfsd Hq Hrun.
  destruct (Hm w a w' Hfsd Hq Hrun) as (p & w1 & l & Hinit & Hl & H0 & Hp).
  exists p, w1, l. do 3 (split; [done|]).
  intros Hne. destruct (Hp Hne) as [?|(? & ? & ?)]; [by left|right; auto].
Qed.

(** An operation that begins with the head block. *)
Ltac offline_op :=
  eapply (offline_start_bind _ _ (λ _, False));
  [ apply offline_start_session_prologue
  | intros; reflexivity
  | intros ?; fault_use
  | by intros ? [] ].

Lemma offline_start_smb2fs_getattr path :
  offline_start (- ENODEV) unavailable (smb2fs_getattr path).
Proof. unfold smb2fs_getattr. offline_op. Qed.

Lemma offline_start_smb2fs_fgetattr fh :
  offline_start (- ENODEV) unavailable (smb2fs_fgetattr fh).
Proof.
  unfold smb2fs_fgetattr. offline_op. fault_loop (λ v : Z, v = - ENODEV).
Qed.

Lemma offline_start_smb2fs_mkdir path :
  offline_start (- ENODEV) unavailable (smb2fs_mkdir path).
Proof. unfold smb2fs_mkdir. offline_op. Qed.

Lemma offline_start_smb2fs_truncate path size :
  offline_start (- ENODEV) unavailable (smb2fs_truncate path size).
Proof. unfold smb2fs_truncate. offline_op. Qed.

Lemma offline_start_smb2fs_utimens path :
  offline_start (- ENODEV) unavailable (smb2fs_utimens path).
Proof. unfold smb2fs_utimens. offline_op. Qed.

Lemma offline_start_smb2fs_unlink path :
  offline_start (- ENODEV) unavailable (smb2fs_unlink path).
Proof. unfold smb2fs_unlink. offline_op. Qed.

Lemma offline_start_smb2fs_rmdir path :
  offline_start (- ENODEV) unavailable (smb2fs_rmdir path).
Proof. unfold smb2fs_rmdir. offline_op. Qed.

Lemma offline_start_smb2fs_readlink path :
  offline_start (- ENODEV) unavailable (smb2fs_readlink path).
Proof. unfold smb2fs_readlink. offline_op. Qed.

Lemma offline_start_smb2fs_rename srcpath dstpath :
  offline_start (- ENODEV) unavailable (smb2fs_rename srcpath dstpath).
Proof. unfold smb2fs_rename. offline_op. Qed.

Lemma offline_start_smb2fs_readdir fi :
  offline_start (- ENODEV) unavailable (smb2fs_readdir fi).
Proof.
  unfold smb2fs_readdir. offline_op. fault_loop (λ _ : Z, False).
Qed.

Lemma offline_start_smb2fs_opendir path fh :
  offline_start (- ENODEV, fh) unavailable_fi (smb2fs_opendir path fh).
Proof. unfold smb2fs_opendir. offline_op. Qed.

Lemma offline_start_smb2fs_releasedir fh :
  offline_start (- ENODEV, fh) unavailable_fi (smb2fs_releasedir fh).
Proof. unfold smb2fs_releasedir. offline_op. Qed.

Lemma offline_start_smb2fs_open path fh :
  offline_start (- ENODEV, fh) unavailable_fi (smb2fs_open path fh).
Proof.
  unfold smb2fs_open. offline_op. fault_loop (λ r : Z * Z, r.1 = - ENODEV).
Qed.

Lemma offline_start_smb2fs_create path fh :
  offline_start (- ENODEV, fh) unavailable_fi (smb2fs_create path fh).
Proof. unfold smb2fs_create. offline_op. Qed.

Lemma offline_start_smb2fs_release fh :
  offline_start (- ENODEV, fh) unavailable_fi (smb2fs_release fh).
Proof. unfold smb2fs_release. offline_op. Qed.

Lemma offline_start_stream_prologue path fh :
  offline_start (inl (- ENODEV, fh)) (λ r, ∃ v, r = inl v)
                (stream_prologue path fh).
Proof.
  assert (offline_start (inl (- ENODEV, fh)) (λ r, ∃ v, r = inl v)
            (let* ok := session_prologue in
             if negb ok then ret (inl (- ENODEV, fh))
             else
               let* w' := get in
               if cfg_handles_rcv w' then
                 let* (rc_open, fh') := smb2fs_open path fh in
                 if rc_open <? 0 then ret (inl (- EIO, fh'))
                 else ret (inr fh')
               else ret (inr fh))) as H by offline_op.
  intros w r w' Hfsd Hq. unfold stream_prologue. rewrite bind_get, Hfsd.
  by apply H.
Qed.

(** A stream operation: the head block, then the transfer. *)
Ltac offline_stream :=
  eapply (offline_start_bind _ _ (λ r, ∃ v, r = inl v));
  [ apply offline_start_stream_prologue
  | intros; reflexivity
  | intros ?; eapply (fault_exit_weaken unavailable_fi); [done|]
  | intros ? [? ->]; by apply returns_ret ].

Lemma offline_start_smb2fs_read path size offset fh :
  offline_start (- ENODEV, fh) (λ _, True) (smb2fs_read path size offset fh).
Proof.
  unfold smb2fs_read. offline_stream.
  fault_use. fault_loop (λ r : Z * Z, r.1 = - ENODEV).
Qed.

Lemma offline_start_smb2fs_write path size offset fh :
  offline_start (- ENODEV, fh) (λ _, True) (smb2fs_write path size offset fh).
Proof.
  unfold smb2fs_write. offline_stream.
  fault_use. fault_loop (λ r : Z * Z, r.1 = - ENODEV).
Qed.

Lemma offline_start_smb2fs_ftruncate path size fh :
  offline_start (- ENODEV, fh) (λ _, True) (smb2fs_ftruncate path size fh).
Proof.
  unfold smb2fs_ftruncate. offline_stream.
  fault_use. fault_loop (λ r : Z * Z, r.1 = - ENODEV).
Qed.

Lemma offline_start_fst (Q : Z * Z → Prop) (m : M (Z * Z)) fh :
  offline_start (- ENODEV, fh) Q m →
  offline_start (- ENODEV) (λ _, True) (let* r := m in ret (fst r)).
Proof.
  intros Hm. eapply offline_start_bind; [exact Hm|done| |].
  - intros a. eapply (fault_exit_weaken (λ _, False)); [done|].
    apply fault_exit_ret.
  - intros a _. by apply returns_ret.
Qed.

(** Every operation but [statfs], started with no session and
    reconnection disabled: [smb2fs_init] runs, nothing follows it when
    it fails, and what follows it otherwise are plain calls. *)
Lemma offline_start_run o :
  is_statfs o = false → offline_start (- ENODEV) (λ _, True) (run o).
Proof.
  destruct o; intros Ho; try discriminate Ho; cbn [run];
    first
      [ eapply offline_start_fst;
        eauto using offline_start_smb2fs_opendir,
          offline_start_smb2fs_releasedir, offline_start_smb2fs_open,
          offline_start_smb2fs_create, offline_start_smb2fs_release,
          offline_start_smb2fs_read, offline_start_smb2fs_write,
          offline_start_smb2fs_ftruncate
      | eapply (offline_start_weaken _ unavailable); [done|];
        eauto using offline_start_smb2fs_getattr,
          offline_start_smb2fs_fgetattr, offline_start_smb2fs_mkdir,
          offline_start_smb2fs_truncate, offline_start_smb2fs_utimens,
          offline_start_smb2fs_unlink, offline_start_smb2fs_rmdir,
          offline_start_smb2fs_readlink, offline_start_smb2fs_rename,
          offline_start_smb2fs_readdir ].
Qed.

(** *** The attempt that fails *)

Lemma fails_offline_session_prologue : fails_offline false session_prologue.
Proof.
  intros w w1 Hfsd Hcfg Hinit. unfold session_prologue.
  rewrite bind_get, Hfsd, Hcfg. unfold bind. by rewrite Hinit.
Qed.

Lemma fails_offline_bind {A B} (failed : A) (failed' : B)
    (m : M A) (k : A → M B) :
  fails_offline failed m → (∀ w, k failed w = Ret failed' w) →
  fails_offline failed' (bind m k).
Proof.
  intros Hm Hk w w1 Hfsd Hcfg Hinit. unfold bind.
  by rewrite (Hm w w1 Hfsd Hcfg Hinit).
Qed.

Lemma fails_offline_stream_prologue path fh :
  fails_offline (inl (- ENODEV, fh)) (stream_prologue path fh).
Proof.
  intros w w1 Hfsd Hcfg Hinit. unfold stream_prologue.
  rewrite bind_get, Hfsd. unfold bind.
  by rewrite (fails_offline_session_prologue w w1 Hfsd Hcfg Hinit).
Qed.

Ltac fails_use :=
  first [ apply fails_offline_session_prologue
        | apply fails_offline_stream_prologue
        | eapply fails_offline_bind; [fails_use|intros; reflexivity] ].

Lemma fails_offline_run o : is_statfs o = false → fails_offline (- ENODEV) (run o).
Proof.
  destruct o; intros Ho; try discriminate Ho; cbn [run];
    unfold smb2fs_getattr, smb2fs_fgetattr, smb2fs_mkdir, smb2fs_opendir,
      smb2fs_releasedir, smb2fs_readdir, smb2fs_open, smb2fs_create,
      smb2fs_release, smb2fs_read, smb2fs_write, smb2fs_truncate,
      smb2fs_ftruncate, smb2fs_utimens, smb2fs_unlink, smb2fs_rmdir,
      smb2fs_readlink, smb2fs_rename;
    fails_use.
Qed.

(** ** Handles after a fault *)

(** A registry just made resolves no handle. *)
Lemma HandleToPointer_fresh inc handle :
  HandleToPointer (mkRegistry [] 0 0 inc []) handle = None.
Proof.
  unfold HandleToPointer, handle_slot. cbn [size].
  repeat case_bool_decide; first [done | lia].
Qed.

Lemma smb2fs_init_fresh fci w p w' :
  smb2fs_init fci w = Ret p w' →
  (cfg_handles_rcv w = false → cfg_handles_rcv w' = false)
  ∧ (p = 0 → fsd w' = None)
  ∧ (p ≠ 0 → fresh_session w').
Proof.
  intros ((_ & _ & Hh) & H0 & H1)%smb2fs_init_post. split_and!.
  - intros Hw. by rewrite Hh, Hw.
  - done.
  - intros (s & Hs & Hphr & _)%H1. by exists s, (phr_incarnation w).
Qed.

(** The loop of [handle_connection_fault] ends with a fresh session or
    with none. *)
Lemma reconnect_loop_post w ok w' :
  reconnect_loop w = Ret ok w' →
  fsd w = None →
  (cfg_handles_rcv w = false → cfg_handles_rcv w' = false)
  ∧ (if ok then fresh_session w' else fsd w' = None).
Proof.
  unfold reconnect_loop, loop.
  intros (r & w1 & Hloop & Hr)%bind_inv Hfsd.
  assert ((cfg_handles_rcv w = false → cfg_handles_rcv w1 = false)
          ∧ match r with
            | inl b => b = true ∧ fresh_session w1
            | inr _ => fsd w1 = None
            end) as [Hh Hend].
  { clear Hr. revert Hloop Hfsd.
    generalize (S (length (script w))) as n. intros n. revert w.
    induction n as [|n IH]; intros w Hloop Hfsd; [done|].
    simpl in Hloop.
    apply bind_inv in Hloop as (f & w2 & Hbody & Hnext).
    apply bind_inv in Hbody as (w0 & ? & [-> ->]%get_inv & Hbody).
    apply bind_inv in Hbody
        as (again & w3 & (rest & _ & ->)%ext_int_inv & Hbody).
    destruct (again =? 0).
    - injection Hbody as <- <-. injection Hnext as <- <-. done.
    - apply bind_inv in Hbody as (p & w4 & Hinit & Hbody).
      apply smb2fs_init_fresh in Hinit as (Hh & H0 & H1).
      destruct (p =? 0) eqn:Hp; injection Hbody as <- <-.
      + apply Z.eqb_eq in Hp. destruct (IH w4 Hnext (H0 Hp)) as [Hh' Hend].
        split; [|done]. intros Hw. apply Hh', Hh, Hw.
      + apply Z.eqb_neq in Hp. injection Hnext as <- <-.
        split; [exact Hh|]. split; [done|]. by apply H1. }
  destruct r as [b|[]]; injection Hr as <- <-.
  - destruct Hend as [-> Hend]. done.
  - done.
Qed.

(** What [handle_connection_fault] leaves: a fresh session when it
    answers [TRUE], none when it answers [FALSE]. *)
Lemma handle_connection_fault_post w ok w' :
  handle_connection_fault w = Ret ok w' →
  (cfg_handles_rcv w = false → cfg_handles_rcv w' = false)
  ∧ (if ok then fresh_session w' else fsd w' = None).
Proof.
  destruct (fsd w) as [s|] eqn:Hfsd.
  - rewrite (handle_connection_fault_eq w s Hfsd).
    destruct (cfg_reconnect_req w).
    + intros H. by apply reconnect_loop_post in H.
    + intros [= <- <-]. done.
  - unfold handle_connection_fault, bind, get_fsd. by rewrite Hfsd.
Qed.

Lemma resolve_Some fh w s r :
  fsd w = Some s → phr s = Some r →
  resolve fh w = Ret (default 0 (HandleToPointer r (wrap32 fh))) w.
Proof.
  intros Hfsd Hphr. unfold resolve.
  rewrite (bind_Ret _ _ _ _ _ (get_fsd_Some w s Hfsd)). by rewrite Hphr.
Qed.

(** The recovery of a stream without the recovery of handles. *)
Lemma stream_recovery_off path fh w ok w1 :
  handle_connection_fault w = Ret ok w1 →
  ok = false ∨ cfg_handles_rcv w1 = false →
  stream_recovery path fh w
  = Ret (inl ((if ok then - EIO else - ENODEV), fh)) w1.
Proof.
  intros Hfault Hoff. unfold stream_recovery.
  rewrite (bind_Ret _ _ _ _ _ Hfault).
  destruct ok; [|done]. destruct Hoff as [|Hoff]; [done|].
  cbn [negb]. by rewrite bind_get, Hoff.
Qed.

(** A stream operation on a handle that the registry does not
    resolve. *)
Lemma read_stale path size offset fh w s r :
  fsd w = Some s → phr s = Some r →
  HandleToPointer r (wrap32 fh) = None →
  smb2fs_read path size offset fh w = Ret (- EINVAL, fh) w.
Proof.
  intros Hfsd Hphr Hptr. unfold smb2fs_read, stream_prologue.
  mrun. rewrite Hfsd. mrun.
  unfold bind at 1. rewrite loop_unfold by (intros; script_use).
  unfold read_pass at 1. mrun.
  rewrite (bind_Ret _ _ _ _ _ (resolve_Some fh w s r Hfsd Hphr)).
  rewrite Hptr. reflexivity.
Qed.

Lemma write_stale path size offset fh w s r :
  fsd w = Some s → rdonly s = false → phr s = Some r →
  HandleToPointer r (wrap32 fh) = None →
  smb2fs_write path size offset fh w = Ret (- EINVAL, fh) w.
Proof.
  intros Hfsd Hro Hphr Hptr. unfold smb2fs_write, stream_prologue.
  mrun. rewrite Hfsd. mrun. rewrite Hro.
  unfold bind at 1. rewrite loop_unfold by (intros; script_use).
  unfold write_pass at 1. mrun.
  rewrite (bind_Ret _ _ _ _ _ (resolve_Some fh w s r Hfsd Hphr)).
  rewrite Hptr. reflexivity.
Qed.

Lemma ftruncate_stale path size fh w s r :
  fsd w = Some s → rdonly s = false → phr s = Some r →
  HandleToPointer r (wrap32 fh) = None →
  smb2fs_ftruncate path size fh w = Ret (- EINVAL, fh) w.
Proof.
  intros Hfsd Hro Hphr Hptr. unfold smb2fs_ftruncate, stream_prologue.
  mrun. rewrite Hfsd. mrun. rewrite Hro.
  unfold bind at 1. rewrite loop_unfold by (intros; script_use).
  unfold ftruncate_body at 1. mrun.
  rewrite (bind_Ret _ _ _ _ _ (resolve_Some fh w s r Hfsd Hphr)).
  rewrite Hptr. reflexivity.
Qed.

(** ** The transfer after a recovery *)

(** C3, on the mount of the example with reconnection and the recovery
    of handles enabled.  A read of ten bytes whose first [smb2_read]
    meets a transport fault: the connection is made again, the file is
    opened again and [fi->fh] becomes the new handle, which resolves to
    the new file [888]; but the read goes on with the pointer [777] of
    the session that was lost, one byte before the buffer and for
    eleven bytes, and returns [10].  A write does the same.  An
    ftruncate makes its second call on the new file. *)
Theorem stream_resumes_on_stale_pointer :
  (∃ w1 w2,
     smb2fs_open "/f" 0 (example_world true true read_script)
     = Ret (0, 4194305) w1
     ∧ smb2fs_read "/f" 10 0 4194305 w1 = Ret (10, 8388609) w2
     ∧ resolve 8388609 w2 = Ret 888 w2
     ∧ List.filter is_transfer (log w2)
       = [c_smb2_read 2000 777 0 10; c_smb2_read 3000 777 (-1) 11])
  ∧ (∃ w1 w2,
       smb2fs_open "/f" 0 (example_world true true write_script)
       = Ret (0, 4194305) w1
       ∧ smb2fs_write "/f" 10 0 4194305 w1 = Ret (10, 8388609) w2
       ∧ resolve 8388609 w2 = Ret 888 w2
       ∧ List.filter is_transfer (log w2)
         = [c_smb2_write 2000 777 0 10; c_smb2_write 3000 777 (-1) 11])
  ∧ (∃ w1 w2,
       smb2fs_open "/f" 0 (example_world true true ftruncate_script)
       = Ret (0, 4194305) w1
       ∧ smb2fs_ftruncate "/f" 5 4194305 w1 = Ret (0, 8388609) w2
       ∧ resolve 8388609 w2 = Ret 888 w2
       ∧ List.filter is_transfer (log w2)
         = [c_smb2_ftruncate 2000 777 5; c_smb2_ftruncate 3000 888 5]).
Proof.
  split_and!; eexists _, _;
    (split; [vm_compute; reflexivity|]);
    (split; [vm_compute; reflexivity|]);
    split; vm_compute; reflexivity.
Qed.

(** ** The chunks of a write *)

Lemma initial_chunk_min max : initial_chunk max = Z.min INITIAL_CHUNK max.
Proof. unfold initial_chunk. destruct (Z.ltb_spec max INITIAL_CHUNK); lia. Qed.

Lemma grow_chunk_below max chunk success :
  0 <= success → success + 1 < SUCCESS_THRESHOLD →
  grow_chunk max chunk success = (chunk, success + 1).
Proof.
  unfold grow_chunk, SUCCESS_THRESHOLD. intros H0 H1.
  rewrite wrap32_small by lia.
  destruct (Z.leb_spec 4 (success + 1)); [lia|done].
Qed.

Lemma grow_chunk_threshold max chunk success :
  0 <= chunk → chunk * 2 < 2 ^ 32 →
  success + 1 = SUCCESS_THRESHOLD →
  grow_chunk max chunk success = (Z.min (chunk * 2) max, 0).
Proof.
  unfold grow_chunk, SUCCESS_THRESHOLD. intros H0 H1 ->.
  change (wrap32 4) with 4. change (4 <=? 4) with true. cbn iota.
  rewrite wrap32_small by lia.
  destruct (Z.ltb_spec max (chunk * 2)); f_equal; lia.
Qed.

Lemma grow_chunk_four max :
  131072 <= max →
  Nat.iter 4 (λ cs, grow_chunk max cs.1 cs.2) (initial_chunk max, 0)
  = (131072, 0).
Proof.
  intros Hmax. rewrite initial_chunk_min. unfold INITIAL_CHUNK.
  rewrite Z.min_l by lia.
  cbv beta iota delta [Nat.iter nat_rect]. cbn [fst snd].
  rewrite (grow_chunk_below max 65536 0) by (unfold SUCCESS_THRESHOLD; lia).
  cbn [fst snd].
  rewrite (grow_chunk_below max 65536 (0 + 1))
    by (unfold SUCCESS_THRESHOLD; lia).
  cbn [fst snd].
  rewrite (grow_chunk_below max 65536 (0 + 1 + 1))
    by (unfold SUCCESS_THRESHOLD; lia).
  cbn [fst snd].
  rewrite (grow_chunk_threshold max 65536 (0 + 1 + 1 + 1)) by done.
  f_equal. lia.
Qed.

(** One turn of the loop of [smb2fs_write] in which there is something
    left to write. *)
Lemma write_body_step path smb2fh max st w s t1 rc t2 rest :
  fsd w = Some s → 0 < wr_size st →
  script w = Int t1 :: Int rc :: Int t2 :: rest →
  let count :=
    if chunk_size st <? wr_size st then chunk_size st else wr_size st in
  let advance fh b chunk success :=
    mkWrite fh (wrap32 (wr_size st - rc)) (wr_buffer_ref st + rc)
            (to_int (wr_result st + rc)) rc b chunk success in
  write_body path smb2fh max st w
  = (if rc <? 0 then
       let* r := stream_recovery path (wr_fh st) in
       match r with
       | inl v => ret (Return v)
       | inr fh' =>
           ret (Continue (advance fh' (wr_batch st) (chunk_size st)
                                  (success_count st)))
       end
     else if 0 <? rc then
       let* b := account rc (wr_batch st) in
       let grown := grow_chunk max (chunk_size st) (success_count st) in
       ret (Continue (advance (wr_fh st) b grown.1 grown.2))
     else
       ret (Continue (advance (wr_fh st) (wr_batch st) (chunk_size st)
                              (success_count st))))
      (called c_time rest
         (called (c_smb2_write (smb2 s) smb2fh (wr_buffer_ref st) count)
                 (Int t2 :: rest)
                 (called c_time (Int rc :: Int t2 :: rest) w))).
Proof.
  intros Hfsd Hsize Hscript count advance. unfold write_body.
  assert ((0 <? wr_size st) = true) as -> by lia. cbn [negb]. mrun.
  destruct (rc <? 0); [reflexivity|]. destruct (0 <? rc); [|reflexivity].
  cbv zeta. destruct (grow_chunk _ _ _). reflexivity.
Qed.

(** The loop of a pass of [smb2fs_write] starts with the initial chunk
    and no success counted. *)
Lemma write_pass_start path offset o w s r ptr new_offset max t fd rest :
  fsd w = Some s → phr s = Some r →
  HandleToPointer r (wrap32 (st_fh o)) = Some ptr → ptr ≠ 0 →
  0 <= new_offset → 2 < fd →
  script w = Int new_offset :: Int max :: Int t :: Int fd :: rest →
  ∀ f w', write_pass path offset o w = Ret f w' →
  ∃ w4 r4 w5,
    script w4 = rest
    ∧ loop (write_body path ptr max)
           (mkWrite (st_fh o) (st_size o) 0 0 (st_rc o) (mkBatch 0 0 t)
                    (initial_chunk max) 0) w4
      = Ret r4 w5.
Proof.
  intros Hfsd Hphr Hptr Hnz Hoff Hfd Hscript f w'.
  unfold write_pass. mrun.
  rewrite (bind_Ret _ _ _ _ _ (resolve_Some _ w s r Hfsd Hphr)).
  rewrite Hptr. change (default 0 (Some ptr)) with ptr.
  apply Z.eqb_neq in Hnz. rewrite Hnz. mrun.
  assert ((new_offset <? 0) = false) as -> by lia. mrun.
  assert ((fd <=? 2) = false) as -> by lia. cbn iota.
  intros (r4 & w5 & Hloop & _)%bind_inv.
  eexists _, r4, w5. split; [|exact Hloop]. reflexivity.
Qed.

(** ** The batching of a transfer *)

(** The drain polls [smb2_service] until an answer is not positive. *)
Lemma service_drain_polls pending z rest w s :
  fsd w = Some s → Forall (λ x, 0 < x) pending → z <= 0 →
  script w = map Int pending ++ Int z :: rest →
  ∃ w',
    service_drain w = Ret tt w'
    ∧ script w' = rest
    ∧ log w' = log w ++ replicate (S (length pending)) (c_smb2_service (smb2 s))
    ∧ fsd w' = fsd w.
Proof.
  intros Hfsd Hpos Hz. revert w Hfsd.
  induction Hpos as [|x pending Hx Hpos IH]; intros w Hfsd Hscript;
    cbn [map app] in Hscript.
  - exists (called (c_smb2_service (smb2 s)) rest w). split; [|done].
    unfold service_drain. unfold bind at 1.
    rewrite loop_unfold by (intros; script_use). mrun.
    assert ((0 <? z) = false) as -> by lia. reflexivity.
  - destruct (IH (called (c_smb2_service (smb2 s))
                         (map Int pending ++ Int z :: rest) w))
      as (w' & Hrun & Hs & Hl & Hf); [done..|].
    exists w'. split; [|split_and!; try done].
    + unfold service_drain in *. unfold bind at 1.
      rewrite loop_unfold by (intros; script_use). mrun.
      assert ((0 <? x) = true) as -> by lia. cbn iota.
      unfold bind in Hrun. exact Hrun.
    + rewrite Hl. cbn [log called length replicate].
      by rewrite <- app_assoc.
Qed.

(** Below the thresholds the counters advance and nothing is called. *)
Lemma account_below rc b w :
  0 <= service_counter b → service_counter b + 1 < 4 →
  0 <= bytes_since_service b → 0 <= rc →
  bytes_since_service b + rc < 262144 →
  account rc b w
  = Ret (mkBatch (service_counter b + 1) (bytes_since_service b + rc)
                 (last_echo b)) w.
Proof.
  intros Hc0 Hc1 Hb0 Hrc Hb1. unfold account.
  rewrite !wrap32_small by lia.
  assert ((4 <=? service_counter b + 1) = false) as -> by lia.
  assert ((262144 <=? bytes_since_service b + rc) = false) as -> by lia.
  reflexivity.
Qed.

(** At a threshold the responses are drained and the counters start
    again from zero. *)
Lemma account_threshold rc b pending z t rest w s :
  0 <= service_counter b < 2 ^ 32 - 1 →
  0 <= bytes_since_service b → 0 <= rc →
  bytes_since_service b + rc < 2 ^ 32 →
  4 <= service_counter b + 1 ∨ 262144 <= bytes_since_service b + rc →
  fsd w = Some s → Forall (λ x, 0 < x) pending → z <= 0 →
  script w = map Int pending ++ Int z :: Int t :: rest →
  ∃ w',
    account rc b w
    = Ret (mkBatch 0 0 (if 20 <=? t - last_echo b then t else last_echo b))
          w'
    ∧ script w' = rest
    ∧ log w'
      = log w
        ++ replicate (S (length pending)) (c_smb2_service (smb2 s))
        ++ c_time
        :: (if 20 <=? t - last_echo b then [c_smb2_echo (smb2 s)] else []).
Proof.
  intros Hc Hb0 Hrc Hb1 Hthr Hfsd Hpos Hz Hscript.
  destruct (service_drain_polls pending z (Int t :: rest) w s)
    as (w1 & Hdrain & Hs1 & Hl1 & Hf1); [done..|].
  rewrite Hfsd in Hf1.
  unfold account. rewrite !wrap32_small by lia.
  assert (((4 <=? service_counter b + 1)
           || (262144 <=? bytes_since_service b + rc)) = true) as ->.
  { apply orb_true_iff. destruct Hthr; [left|right]; lia. }
  rewrite (bind_Ret _ _ _ _ _ Hdrain). mrun.
  destruct (20 <=? t - last_echo b).
  - mrun. eexists. split; [reflexivity|]. split; [done|].
    cbn [log logged called]. by rewrite Hl1, <- !app_assoc.
  - eexists. split; [reflexivity|]. split; [done|].
    cbn [log logged called]. by rewrite Hl1, <- !app_assoc.
Qed.

(** One turn of the loop of [smb2fs_read] in which there is something
    left to read. *)
Lemma read_body_step path smb2fh max st w s rc rest :
  fsd w = Some s → 0 < rd_size st →
  script w = Int rc :: rest →
  let count := if max <? rd_size st then max else rd_size st in
  let advance fh b :=
    mkRead fh (wrap32 (rd_size st - rc)) (rd_buffer_ref st + rc)
           (to_int (rd_result st + rc)) rc b in
  read_body path smb2fh max st w
  = (if rc =? 0 then
       ret (Break (mkRead (rd_fh st) (rd_size st) (rd_buffer_ref st)
                          (rd_result st) rc (rd_batch st)))
     else if rc <? -1 then ret (Return (rc, rd_fh st))
     else if rc <? 0 then
       let* r := stream_recovery path (rd_fh st) in
       match r with
       | inl v => ret (Return v)
       | inr fh' => ret (Continue (advance fh' (rd_batch st)))
       end
     else
       let* b := account rc (rd_batch st) in
       ret (Continue (advance (rd_fh st) b)))
      (called (c_smb2_read (smb2 s) smb2fh (rd_buffer_ref st) count) rest w).
Proof.
  intros Hfsd Hsize Hscript count advance. unfold read_body.
  assert ((0 <? rd_size st) = true) as -> by lia. cbn [negb]. mrun.
  reflexivity.
Qed.

(** A pass of [smb2fs_read] that does not [return] has left its loop
    and drained the responses. *)
Lemma read_pass_final_drain path offset o w f w' :
  read_pass path offset o w = Ret f w' →
  (∃ v, f = Return v)
  ∨ ∃ smb2fh max t w4 st w5,
      loop (read_body path smb2fh max)
           (mkRead (st_fh o) (st_size o) 0 0 (st_rc o) (mkBatch 0 0 t)) w4
      = Ret (inr st) w5
      ∧ service_drain w5 = Ret tt w'.
Proof.
  unfold read_pass. intros H.
  apply bind_inv in H as (smb2fh & w1 & _ & H).
  destruct (smb2fh =? 0); [injection H as <- <-; eauto|].
  apply bind_inv in H as (s & w2 & _ & H).
  apply bind_inv in H as (new_offset & w3 & _ & H).
  destruct (new_offset <? 0); [injection H as <- <-; eauto|].
  apply bind_inv in H as (max & w4 & _ & H).
  apply bind_inv in H as (t & w5 & _ & H).
  apply bind_inv in H as ([v|st] & w6 & Hloop & H).
  { injection H as <- <-; eauto. }
  apply bind_inv in H as ([] & w7 & Hdrain & H).
  right. exists smb2fh, max, t, w5, st, w6. split; [done|].
  destruct (rd_rc st <? 0); injection H as <- <-; done.
Qed.

Lemma write_pass_final_drain path offset o w f w' :
  write_pass path offset o w = Ret f w' →
  (∃ v, f = Return v)
  ∨ ∃ smb2fh max t w4 st w5,
      loop (write_body path smb2fh max)
           (mkWrite (st_fh o) (st_size o) 0 0 (st_rc o) (mkBatch 0 0 t)
                    (initial_chunk max) 0) w4
      = Ret (inr st) w5
      ∧ service_drain w5 = Ret tt w'.
Proof.
  unfold write_pass. intros H.
  apply bind_inv in H as (smb2fh & w1 & _ & H).
  destruct (smb2fh =? 0); [injection H as <- <-; eauto|].
  apply bind_inv in H as (s & w2 & _ & H).
  apply bind_inv in H as (new_offset & w3 & _ & H).
  destruct (new_offset <? 0); [injection H as <- <-; eauto|].
  apply bind_inv in H as (max & w4 & _ & H).
  apply bind_inv in H as (t & w5 & _ & H).
  apply bind_inv in H as (fd & w5' & _ & H).
  destruct (fd <=? 2); [injection H as <- <-; eauto|].
  apply bind_inv in H as ([v|st] & w6 & Hloop & H).
  { injection H as <- <-; eauto. }
  apply bind_inv in H as ([] & w7 & Hdrain & H).
  right. exists smb2fh, max, t, w5', st, w6. split; [done|].
  destruct (wr_rc st <? 0); injection H as <- <-; done.
Qed.



(** * The start of the handler *)

Import Startup.

(** ** The startup string *)

Lemma leading_spaces_le s : (leading_spaces s ≤ length s)%nat.
Proof. induction s as [|c s IH]; simpl; [lia|]. destruct (isspace c); lia. Qed.

Lemma leading_spaces_stop s : at_pos s (leading_spaces s) isspace = false.
Proof.
  unfold at_pos. induction s as [|c s IH]; simpl; [done|].
  destruct (isspace c) eqn:Hc; simpl; [done|by rewrite Hc].
Qed.

Lemma leading_spaces_app ws r :
  Forall (λ c, isspace c = true) ws →
  leading_spaces (ws ++ r) = (length ws + leading_spaces r)%nat.
Proof. induction 1 as [|c ws Hc _ IH]; simpl; [done|]. by rewrite Hc, IH. Qed.

Lemma strip_trailing_le s start e : (strip_trailing s start e ≤ e)%nat.
Proof.
  induction e as [|e IH]; simpl; [lia|].
  destruct ((start <? S e)%nat && at_pos s e isspace); lia.
Qed.

Lemma strip_trailing_ge s start e :
  (start ≤ e)%nat → (start ≤ strip_trailing s start e)%nat.
Proof.
  induction e as [|e IH]; simpl; [lia|]. intros He.
  destruct (Nat.ltb_spec start (S e)); simpl; [|lia].
  destruct (at_pos s e isspace); [apply IH|]; lia.
Qed.

(** The loop does not move [end] over a character that is no white
    space. *)
Lemma strip_trailing_gt s start e :
  (start < e)%nat → at_pos s start isspace = false →
  (start < strip_trailing s start e)%nat.
Proof.
  induction e as [|e IH]; simpl; [lia|]. intros He Hstart.
  destruct (Nat.ltb_spec start (S e)); simpl; [|lia].
  destruct (at_pos s e isspace) eqn:Hsp; [|lia].
  apply IH; [|done]. destruct (decide (start = e)) as [->|]; [|lia].
  congruence.
Qed.

Lemma strip_trailing_stop s start e :
  (e = 0 ∨ e ≤ start ∨ at_pos s (e - 1) isspace = false)%nat →
  strip_trailing s start e = e.
Proof.
  destruct e as [|e]; simpl; [done|]. replace (e - 0)%nat with e by lia.
  intros [|[|Hsp]]; [done| |].
  - destruct (Nat.ltb_spec start (S e)); [lia|done].
  - by rewrite Hsp, andb_false_r.
Qed.

Lemma strip_trailing_app pre ws r start :
  Forall (λ c, isspace c = true) ws → (start ≤ length pre)%nat →
  strip_trailing (pre ++ ws ++ r) start (length pre + length ws)
  = strip_trailing (pre ++ ws ++ r) start (length pre).
Proof.
  intros Hws Hstart. revert Hws r.
  induction ws as [|c ws IH] using rev_ind; intros Hws r.
  { simpl. by rewrite Nat.add_0_r. }
  apply Forall_app in Hws as [Hws Hc]. apply Forall_inv in Hc.
  rewrite length_app. simpl.
  replace (length pre + (length ws + 1))%nat with (S (length pre + length ws))
    by lia.
  simpl.
  assert (at_pos (pre ++ (ws ++ [c]) ++ r) (length pre + length ws) isspace
          = true) as ->.
  { unfold at_pos. rewrite lookup_app_r by lia.
    replace (length pre + length ws - length pre)%nat with (length ws) by lia.
    rewrite <- app_assoc. rewrite lookup_app_r by lia.
    replace (length ws - length ws)%nat with O by lia. done. }
  destruct (Nat.ltb_spec start (S (length pre + length ws))); [|lia].
  simpl. rewrite <- app_assoc. by apply IH.
Qed.

(** X1: the span that [remove_double_quotes] keeps lies inside the
    string: [start <= end <= argstr + strlen(argstr)], so that [len] is
    never negative and the result is never longer than the
    argument. *)
Theorem remove_double_quotes_in_bounds argstr :
  ((quoted_span argstr).1 ≤ (quoted_span argstr).2 ≤ length argstr)%nat
  ∧ 0 <= quoted_len argstr <= Z.of_nat (length argstr)
  ∧ Z.of_nat (length (remove_double_quotes argstr)) = quoted_len argstr.
Proof.
  assert (((quoted_span argstr).1 ≤ (quoted_span argstr).2 ≤ length argstr)%nat)
    as Hspan.
  { unfold quoted_span.
    pose proof (leading_spaces_le argstr) as Hle.
    pose proof (leading_spaces_stop argstr) as Hstop.
    pose proof (strip_trailing_le argstr (leading_spaces argstr)
                  (length argstr)) as Hend.
    pose proof (strip_trailing_ge argstr (leading_spaces argstr)
                  (length argstr) Hle) as Hge.
    destruct (at_pos argstr (leading_spaces argstr) (Ascii.eqb dquote))
      eqn:Hq.
    - assert (leading_spaces argstr < length argstr)%nat as Hlt.
      { unfold at_pos in Hq.
        destruct (argstr !! leading_spaces argstr) eqn:Hlook; [|done].
        by apply lookup_lt_Some in Hlook. }
      pose proof (strip_trailing_gt argstr _ _ Hlt Hstop).
      destruct (Nat.ltb_spec (S (leading_spaces argstr))
                  (strip_trailing argstr (leading_spaces argstr)
                     (length argstr))); cbn [andb fst snd].
      + destruct (at_pos argstr (_ - 1) _); cbn [fst snd]; lia.
      + lia.
    - cbn [fst snd]. lia. }
  split; [done|]. unfold remove_double_quotes, quoted_len.
  split; [lia|]. rewrite length_take, length_drop. lia.
Qed.

Lemma isspace_dquote : isspace dquote = false.
Proof. reflexivity. Qed.

Lemma at_pos_middle pre c post test :
  at_pos (pre ++ c :: post) (length pre) test = test c.
Proof.
  unfold at_pos. rewrite lookup_app_r by lia.
  by replace (length pre - length pre)%nat with O by lia.
Qed.

(** The span of a string made of white space, a core that neither
    begins nor ends with white space, and white space: the loops stop
    at the two ends of the core. *)
Lemma trimmed_span ws1 c core d ws2 :
  Forall (λ c, isspace c = true) ws1 →
  Forall (λ c, isspace c = true) ws2 →
  isspace c = false → isspace d = false →
  let s := ws1 ++ (c :: core ++ [d]) ++ ws2 in
  leading_spaces s = length ws1
  ∧ strip_trailing s (length ws1) (length s)
    = (length ws1 + length (c :: core ++ [d]))%nat.
Proof.
  intros Hws1 Hws2 Hc Hd s. split.
  - unfold s. rewrite leading_spaces_app by done. simpl. rewrite Hc. lia.
  - unfold s.
    replace (length (ws1 ++ (c :: core ++ [d]) ++ ws2))
      with (length (ws1 ++ c :: core ++ [d]) + length ws2)%nat
      by (rewrite !length_app; simpl; rewrite !length_app; simpl; lia).
    replace (ws1 ++ (c :: core ++ [d]) ++ ws2)
      with ((ws1 ++ c :: core ++ [d]) ++ ws2 ++ [])
      by (by rewrite app_nil_r, <- app_assoc).
    rewrite strip_trailing_app
      by (first [done | rewrite length_app; lia]).
    rewrite strip_trailing_stop; [by rewrite length_app|].
    right. right.
    replace ((ws1 ++ c :: core ++ [d]) ++ ws2 ++ [])
      with ((ws1 ++ c :: core) ++ d :: ws2)
      by (rewrite app_nil_r, <- !app_assoc; simpl;
          by rewrite <- app_assoc).
    replace (length (ws1 ++ c :: core ++ [d]) - 1)%nat
      with (length (ws1 ++ c :: core))
      by (rewrite !length_app; simpl; rewrite length_app; simpl; lia).
    by rewrite at_pos_middle.
Qed.

(** X2: quoting round trip.  White space, an opening quote, any text,
    a closing quote and white space: the text comes back as it is,
    whatever it contains. *)
Theorem remove_double_quotes_quoted ws1 text ws2 :
  Forall (λ c, isspace c = true) ws1 →
  Forall (λ c, isspace c = true) ws2 →
  remove_double_quotes (ws1 ++ [dquote] ++ text ++ [dquote] ++ ws2) = text.
Proof.
  intros Hws1 Hws2.
  destruct (trimmed_span ws1 dquote text dquote ws2 Hws1 Hws2
              isspace_dquote isspace_dquote) as [Hstart Hend].
  set (s := ws1 ++ [dquote] ++ text ++ [dquote] ++ ws2).
  assert (s = ws1 ++ (dquote :: text ++ [dquote]) ++ ws2) as Hs
    by (unfold s; simpl; by rewrite <- app_assoc).
  rewrite <- Hs in Hstart, Hend.
  assert (quoted_span s = (S (length ws1), S (length ws1 + length text)))
    as Hspan.
  { unfold quoted_span. rewrite Hstart, Hend.
    assert (at_pos s (length ws1) (Ascii.eqb dquote) = true) as ->
      by (unfold s; cbn [app]; by rewrite at_pos_middle).
    simpl length. rewrite length_app. simpl length.
    destruct (Nat.ltb_spec (S (length ws1))
                (length ws1 + S (length text + 1))); [|lia].
    cbn [andb].
    assert (at_pos s (length ws1 + S (length text + 1) - 1)
                   (Ascii.eqb dquote) = true) as ->.
    { replace s with ((ws1 ++ dquote :: text) ++ dquote :: ws2)
        by (unfold s; rewrite <- app_assoc; simpl; done).
      replace (length ws1 + S (length text + 1) - 1)%nat
        with (length (ws1 ++ dquote :: text))
        by (rewrite length_app; simpl; lia).
      by rewrite at_pos_middle. }
    f_equal. lia. }
  unfold remove_double_quotes, quoted_len. rewrite Hspan. cbn [fst snd].
  replace (Z.to_nat (Z.of_nat (S (length ws1 + length text))
                     - Z.of_nat (S (length ws1))))
    with (length text) by lia.
  replace s with ((ws1 ++ [dquote]) ++ text ++ dquote :: ws2)
    by (unfold s; by rewrite <- app_assoc).
  replace (S (length ws1)) with (length (ws1 ++ [dquote]))
    by (rewrite length_app; simpl; lia).
  rewrite drop_app_length. by rewrite take_app_length.
Qed.

(** X3: text that is not quoted is trimmed, and nothing else: with a
    first character that is neither white space nor a quote and a last
    character that is no white space, the text between the white space
    comes back as it is, a quote at its end included. *)
Theorem remove_double_quotes_trims ws1 c text d ws2 :
  Forall (λ c, isspace c = true) ws1 →
  Forall (λ c, isspace c = true) ws2 →
  isspace c = false → c ≠ dquote → isspace d = false →
  remove_double_quotes (ws1 ++ (c :: text ++ [d]) ++ ws2)
  = c :: text ++ [d].
Proof.
  intros Hws1 Hws2 Hc Hq Hd.
  destruct (trimmed_span ws1 c text d ws2 Hws1 Hws2 Hc Hd) as [Hstart Hend].
  set (s := ws1 ++ (c :: text ++ [d]) ++ ws2) in *.
  assert (quoted_span s
          = (length ws1, (length ws1 + length (c :: text ++ [d]))%nat))
    as Hspan.
  { unfold quoted_span. rewrite Hstart, Hend.
    assert (at_pos s (length ws1) (Ascii.eqb dquote) = false) as ->; [|done].
    unfold s. simpl. rewrite at_pos_middle.
    apply Ascii.eqb_neq. congruence. }
  unfold remove_double_quotes, quoted_len. rewrite Hspan. cbn [fst snd].
  replace (Z.to_nat (Z.of_nat (length ws1 + length (c :: text ++ [d]))
                     - Z.of_nat (length ws1)))
    with (length (c :: text ++ [d])) by lia.
  unfold s. rewrite drop_app_length. by rewrite take_app_length.
Qed.

Lemma remove_double_quotes_quoted_witness :
  remove_double_quotes
    (String.list_ascii_of_string
       (" " +:+ String dquote "smb://h/s x" +:+ String dquote "  "))
  = String.list_ascii_of_string "smb://h/s x".
Proof.
  apply (remove_double_quotes_quoted
           [" "%char] (String.list_ascii_of_string "smb://h/s x")
           [" "%char; " "%char]);
    repeat constructor.
Defined.

Lemma remove_double_quotes_trims_witness :
  remove_double_quotes
    (String.list_ascii_of_string (" ab" +:+ String dquote " "))
  = String.list_ascii_of_string ("ab" +:+ String dquote "").
Proof.
  apply (remove_double_quotes_trims
           [" "%char] "a"%char ["b"%char] dquote [" "%char]);
    first [ discriminate | repeat constructor ].
Defined.

(** ** The handler process *)

(** X4: every run of [smb2fs_main].  The packet is either replied by
    the handler or handed to filesysbox, never both and never neither;
    the result is [RETURN_OK] exactly when the event loop has run;
    and what was obtained is released once: the file system when it
    was set up, the device name when it was duplicated, the argument
    string when it was allocated, the [RDArgs] object when [ReadArgs]
    was called, the arguments when they were read.  [ReadArgs] gets
    the startup string without its quotes, ended by a newline. *)
Theorem smb2fs_main_balance startup s rc s' :
  trace s = [] →
  smb2fs_main startup s = Some (rc, s') →
  (calls is_ReplyPkt s' + calls is_FbxSetupFS s' = 1)%nat
  ∧ (rc = RETURN_OK ∧ calls is_FbxEventLoop s' = 1%nat
     ∨ rc = RETURN_ERROR ∧ calls is_FbxEventLoop s' = 0%nat)
  ∧ calls is_FbxCleanupFS s' = calls is_FbxEventLoop s'
  ∧ calls is_free_device s' = calls is_malloc s'
  ∧ calls is_free_argstr s' = calls is_AllocDosObject s'
  ∧ calls is_FreeDosObject s' = calls is_ReadArgs s'
  ∧ calls is_FreeArgs s' = calls is_FbxSetupFS s'
  ∧ (∀ source,
       s_ReadArgs source ∈ trace s' →
       source = remove_double_quotes startup ++ ["010"%char]).
Proof.
  destruct s as [ans tr]. simpl. intros -> Hrun.
  unfold smb2fs_main, read_startup_args, ask, cleanup, free_startup_args,
    tell_if, tell in Hrun. simpl in Hrun.
  repeat (case_match; simplify_eq/=);
    unfold calls; simpl;
    (split_and!;
     [lia | first [left; split; [reflexivity|lia] | right; split; [reflexivity|lia]]
     | lia | lia | lia | lia | lia
     | intros source Hin;
       repeat (apply elem_of_cons in Hin as [Hin|Hin];
               [by simplify_eq|]);
       by apply elem_of_nil in Hin ]).
Qed.

(** A startup string in quotes, arguments that [ReadArgs] accepts and
    a file system that is set up. *)
Lemma smb2fs_main_balance_witness :
  let startup := String.list_ascii_of_string
                   (String dquote "smb://h/s" +:+ String dquote "") in
  ∃ s',
    smb2fs_main startup (mkSys [1; 2; 3; 3; 4] []) = Some (RETURN_OK, s')
    ∧ trace s'
      = [s_strdup; s_malloc 13; s_AllocDosObject;
         s_ReadArgs (String.list_ascii_of_string "smb://h/s"
                     ++ ["010"%char]);
         s_free_argstr; s_FbxSetupFS; s_FbxEventLoop; s_FbxCleanupFS;
         s_FreeArgs; s_FreeDosObject; s_free_device]
    ∧ (calls is_ReplyPkt s' + calls is_FbxSetupFS s' = 1)%nat.
Proof.
  intros startup. eexists. split; [vm_compute; reflexivity|].
  split; [reflexivity|].
  eapply (smb2fs_main_balance startup (mkSys [1; 2; 3; 3; 4] []));
    [reflexivity|vm_compute; reflexivity].
Defined.

(** * The figures of [statfs] *)

Import StatfsFill.

(** The loop after [k] turns. *)
Lemma scale_blocks_shift fuel frsize blocks bfree bavail :
  0 <= frsize < 2 ^ 32 → 0 <= blocks →
  ∃ k : nat,
    (k ≤ fuel)%nat
    ∧ scale_blocks fuel frsize blocks bfree bavail
      = (wrap32 (frsize ≪ Z.of_nat k), blocks ≫ Z.of_nat k,
         bfree ≫ Z.of_nat k, bavail ≫ Z.of_nat k)
    ∧ (∀ j : nat, (j < k)%nat → INT32_MAX < blocks ≫ Z.of_nat j)
    ∧ (k = fuel ∨ blocks ≫ Z.of_nat k <= INT32_MAX).
Proof.
  revert frsize blocks bfree bavail.
  induction fuel as [|fuel IH]; intros frsize blocks bfree bavail Hf Hb.
  { exists O. split; [lia|]. simpl. rewrite !Z.shiftr_0_r, Z.shiftl_0_r.
    rewrite wrap32_small by done. split; [done|]. split; [lia|by left]. }
  simpl. destruct (Z.ltb_spec INT32_MAX blocks) as [Hbig|Hsmall].
  - destruct (IH (wrap32 (frsize ≪ 1)) (blocks ≫ 1) (bfree ≫ 1)
                 (bavail ≫ 1)) as (k & Hk & Heq & Hprev & Hend).
    { apply wrap32_range. }
    { apply Z.shiftr_nonneg. lia. }
    exists (S k). split; [lia|].
    rewrite Heq. rewrite !Z.shiftr_shiftr by lia.
    replace (1 + Z.of_nat k) with (Z.of_nat (S k)) by lia.
    split; [|split].
    + assert (wrap32 (wrap32 (frsize ≪ 1) ≪ Z.of_nat k)
              = wrap32 (frsize ≪ Z.of_nat (S k))) as ->; [|done].
      unfold wrap32. rewrite !Z.shiftl_mul_pow2 by lia.
      replace (Z.of_nat (S k)) with (1 + Z.of_nat k) by lia.
      rewrite Z.pow_add_r by lia.
      rewrite Z.mul_mod_idemp_l by lia. f_equal. lia.
    + intros [|j] Hj; [by rewrite Z.shiftr_0_r|].
      replace (Z.of_nat (S j)) with (1 + Z.of_nat j) by lia.
      rewrite <- Z.shiftr_shiftr by lia. apply Hprev. lia.
    + destruct Hend as [->|Hend]; [by left|right].
      rewrite Z.shiftr_shiftr in Hend by lia.
      by replace (Z.of_nat (S k)) with (1 + Z.of_nat k) by lia.
  - exists O. split; [lia|]. rewrite !Z.shiftr_0_r, Z.shiftl_0_r.
    rewrite wrap32_small by done. split; [done|]. split; [lia|by right].
Qed.

(** The figures stored are the figures of the server shifted by one
    and the same number of bits. *)
Lemma statfs_fill_shift rdonly sfs :
  0 <= f_frsize sfs < 2 ^ 32 → 0 <= f_blocks sfs < 2 ^ 64 →
  ∃ k : Z,
    0 <= k <= 33
    ∧ sfs_frsize (statfs_fill rdonly sfs) = wrap32 (f_frsize sfs ≪ k)
    ∧ sfs_blocks (statfs_fill rdonly sfs) = f_blocks sfs ≫ k
    ∧ sfs_bfree (statfs_fill rdonly sfs) = f_bfree sfs ≫ k
    ∧ sfs_bavail (statfs_fill rdonly sfs) = f_bavail sfs ≫ k
    ∧ f_blocks sfs ≫ k <= INT32_MAX
    ∧ (0 < k → INT32_MAX < f_blocks sfs ≫ (k - 1)).
Proof.
  intros Hf Hb.
  destruct (scale_blocks_shift 64 (f_frsize sfs) (f_blocks sfs)
              (f_bfree sfs) (f_bavail sfs) Hf ltac:(lia))
    as (k & Hk & Heq & Hprev & Hend).
  assert (f_blocks sfs ≫ 33 < 2 ^ 31) as H33.
  { rewrite Z.shiftr_div_pow2 by lia.
    apply Z.div_lt_upper_bound; [lia|].
    change (2 ^ 33 * 2 ^ 31) with (2 ^ 64). lia. }
  assert (k ≤ 33)%nat as Hk33.
  { destruct (decide (k ≤ 33)%nat) as [|Hgt]; [done|].
    specialize (Hprev 33%nat ltac:(lia)). unfold INT32_MAX in Hprev.
    change (Z.of_nat 33) with 33 in Hprev. lia. }
  exists (Z.of_nat k). unfold statfs_fill. rewrite Heq. cbn.
  split_and!; try done; try lia.
  intros Hpos. specialize (Hprev (k - 1)%nat ltac:(lia)).
    by replace (Z.of_nat (k - 1)) with (Z.of_nat k - 1) in Hprev by lia.
Qed.

(** X5: the block count stored by [statfs] fits a signed 32-bit
    integer; a count that fits already is stored as it is, with the
    fragment size of the server; otherwise the count is halved, and the
    fragment size doubled, just as often as needed (the count stored
    is at least [2^30]); and as long as the fragment size does not
    overflow its 32 bits the size of the volume is kept up to less than
    one fragment. *)
Theorem statfs_blocks_fit rdonly sfs :
  0 <= f_frsize sfs < 2 ^ 32 → 0 <= f_blocks sfs < 2 ^ 64 →
  let out := statfs_fill rdonly sfs in
  0 <= sfs_blocks out <= INT32_MAX
  ∧ (f_blocks sfs <= INT32_MAX →
     sfs_blocks out = f_blocks sfs ∧ sfs_frsize out = f_frsize sfs
     ∧ sfs_bfree out = f_bfree sfs ∧ sfs_bavail out = f_bavail sfs)
  ∧ (INT32_MAX < f_blocks sfs → 2 ^ 30 <= sfs_blocks out)
  ∧ ∃ k,
      0 <= k <= 33
      ∧ sfs_blocks out = f_blocks sfs / 2 ^ k
      ∧ sfs_frsize out = (f_frsize sfs * 2 ^ k) mod 2 ^ 32
      ∧ (f_frsize sfs * 2 ^ k < 2 ^ 32 →
         0 <= f_frsize sfs * f_blocks sfs - sfs_frsize out * sfs_blocks out
           <= sfs_frsize out - f_frsize sfs).
Proof.
  intros Hf Hb out.
  destruct (statfs_fill_shift rdonly sfs Hf Hb)
    as (k & Hk & Hfr & Hbl & Hbf & Hba & Hfit & Hmin).
  fold out in Hfr, Hbl, Hbf, Hba.
  rewrite Z.shiftr_div_pow2 in Hbl, Hfit by lia.
  assert (0 < 2 ^ k) as Hpow by (apply Z.pow_pos_nonneg; lia).
  assert (0 <= f_blocks sfs / 2 ^ k) as Hnn by (apply Z.div_pos; lia).
  split; [lia|]. split; [|split].
  - intros Hsmall.
    assert (k = 0) as ->.
    { destruct (decide (k = 0)) as [|Hne]; [done|].
      specialize (Hmin ltac:(lia)).
      rewrite Z.shiftr_div_pow2 in Hmin by lia.
      assert (f_blocks sfs / 2 ^ (k - 1) <= f_blocks sfs).
      { apply Z.div_le_upper_bound; [apply Z.pow_pos_nonneg; lia|].
        pose proof (Z.pow_pos_nonneg 2 (k - 1) ltac:(lia) ltac:(lia)). nia. }
      lia. }
    rewrite Z.shiftr_0_r in Hbf, Hba. rewrite Z.shiftl_0_r in Hfr.
    rewrite wrap32_small in Hfr by done.
    change (2 ^ 0) with 1 in Hbl. rewrite Z.div_1_r in Hbl. done.
  - intros Hbig.
    assert (0 < k) as Hpos.
    { destruct (decide (k = 0)) as [->|]; [|lia].
      change (2 ^ 0) with 1 in Hfit. rewrite Z.div_1_r in Hfit. lia. }
    specialize (Hmin Hpos). rewrite Z.shiftr_div_pow2 in Hmin by lia.
    rewrite Hbl.
    replace (2 ^ k) with (2 ^ (k - 1) * 2)
      by (replace k with (Z.succ (k - 1)) at 2 by lia;
          rewrite Z.pow_succ_r by lia; lia).
    rewrite <- Z.div_div by (try apply Z.pow_pos_nonneg; lia).
    unfold INT32_MAX in Hmin.
    apply Z.div_le_lower_bound; lia.
  - exists k. split; [done|]. split; [done|].
    rewrite Hfr. unfold wrap32. rewrite Z.shiftl_mul_pow2 by lia.
    split; [done|]. intros Hno.
    rewrite Z.mod_small by nia. rewrite Hbl.
    pose proof (Z.div_mod (f_blocks sfs) (2 ^ k) ltac:(lia)) as Hdm.
    pose proof (Z.mod_pos_bound (f_blocks sfs) (2 ^ k) Hpow) as Hr.
    nia.
Qed.

Lemma statfs_blocks_fit_witness :
  let sfs := mkSmb2Statvfs 4096 4096 (2 ^ 33 + 5) (2 ^ 32) (2 ^ 31)
                           0 0 0 0 300 in
  let out := statfs_fill false sfs in
  sfs_blocks out = 2 ^ 30 ∧ sfs_frsize out = 32768
  ∧ 0 <= sfs_blocks out <= INT32_MAX.
Proof.
  intros sfs out.
  split; [reflexivity|]. split; [reflexivity|].
  apply (statfs_blocks_fit false sfs); simpl; lia.
Defined.

(** X6: the order of the figures is kept: free blocks that do not
    exceed the blocks of the volume, and available blocks that do not
    exceed the free blocks, still do not as stored; and the longest
    name reported is at most 255. *)
Theorem statfs_order_kept rdonly sfs :
  0 <= f_frsize sfs < 2 ^ 32 → 0 <= f_blocks sfs < 2 ^ 64 →
  let out := statfs_fill rdonly sfs in
  (f_bfree sfs <= f_blocks sfs → sfs_bfree out <= sfs_blocks out)
  ∧ (f_bavail sfs <= f_bfree sfs → sfs_bavail out <= sfs_bfree out)
  ∧ (0 <= f_bavail sfs → 0 <= sfs_bavail out)
  ∧ sfs_namemax out <= 255
  ∧ (f_namemax sfs <= 255 → sfs_namemax out = f_namemax sfs).
Proof.
  intros Hf Hb out.
  destruct (statfs_fill_shift rdonly sfs Hf Hb)
    as (k & Hk & Hfr & Hbl & Hbf & Hba & Hfit & Hmin).
  fold out in Hfr, Hbl, Hbf, Hba. rewrite Hbl, Hbf, Hba.
  rewrite !Z.shiftr_div_pow2 by lia.
  assert (0 < 2 ^ k) as Hpow by (apply Z.pow_pos_nonneg; lia).
  split_and!.
  - intros H. by apply Z.div_le_mono.
  - intros H. by apply Z.div_le_mono.
  - intros H. by apply Z.div_pos.
  - unfold out, statfs_fill.
    destruct (scale_blocks _ _ _ _ _) as [[[? ?] ?] ?]. cbn.
    destruct (Z.ltb_spec 255 (f_namemax sfs)); lia.
  - intros H. unfold out, statfs_fill.
    destruct (scale_blocks _ _ _ _ _) as [[[? ?] ?] ?]. cbn.
    destruct (Z.ltb_spec 255 (f_namemax sfs)); lia.
Qed.

Lemma statfs_order_kept_witness :
  let sfs := mkSmb2Statvfs 4096 4096 (2 ^ 33 + 5) (2 ^ 32) (2 ^ 31)
                           0 0 0 0 300 in
  let out := statfs_fill false sfs in
  sfs_bfree out <= sfs_blocks out ∧ sfs_namemax out <= 255.
Proof.
  intros sfs out.
  destruct (statfs_order_kept false sfs) as (H1 & _ & _ & H2 & _);
    [simpl; lia..|].
  split; [apply H1; simpl; lia|exact H2].
Defined.

(** * More about the operations *)

Import FsMore.

(** ** Read-only mounts *)

(** X7: on a read-only mount every modifying operation returns
    [-EROFS] at once: no call is made and nothing changes. *)
Theorem rdonly_refuses o w s :
  modifies o = true → fsd w = Some s → rdonly s = true →
  run o w = Ret (- EROFS) w.
Proof.
  intros Ho Hfsd Hro.
  destruct o; try discriminate Ho; cbn [run];
    unfold smb2fs_mkdir, smb2fs_create, smb2fs_write, smb2fs_truncate,
      smb2fs_ftruncate, smb2fs_utimens, smb2fs_unlink, smb2fs_rmdir,
      smb2fs_rename, stream_prologue;
    mrun; rewrite ?Hfsd; cbn [negb]; mrun; rewrite Hro; reflexivity.
Qed.

Lemma rdonly_refuses_witness :
  let w := mkWorld (Some (set_rdonly true example_session)) 2 true true
                   "server" (example_mount true true) [] [] in
  run (op_unlink "/x") w = Ret (- EROFS) w.
Proof.
  intros w.
  by apply (rdonly_refuses (op_unlink "/x") w
              (set_rdonly true example_session)).
Defined.

(** ** Handles *)

Lemma HandleToPointer_live r handle ptr :
  HandleToPointer r handle = Some ptr → live r handle ptr.
Proof.
  unfold HandleToPointer, live.
  destruct (handle_slot r handle) as [index|]; [|done].
  destruct (pointers r !! index) as [[p|]|] eqn:Hp; try done.
  intros [= <-]. by exists index.
Qed.

(** A handle that has been released does not resolve. *)
Lemma HandleToPointer_RemoveHandle r handle ptr :
  HandleToPointer r handle = Some ptr →
  HandleToPointer (RemoveHandle r handle) handle = None.
Proof.
  intros (index & Hslot & Hp)%HandleToPointer_live.
  unfold RemoveHandle. rewrite Hslot, Hp. cbn [mjoin option_join].
  unfold HandleToPointer.
  erewrite handle_slot_frame; [|reflexivity|reflexivity|exact Hslot].
  cbn [pointers]. apply lookup_lt_Some in Hp.
  by rewrite list_lookup_insert_eq.
Qed.

Lemma handle_not_resolved fh w s r :
  fsd w = Some s → phr s = Some r →
  HandleToPointer r (wrap32 fh) = None →
  smb2fs_fgetattr fh w = Ret (- EINVAL) w
  ∧ smb2fs_readdir (Some fh) w = Ret (- EINVAL) w
  ∧ smb2fs_readdir None w = Ret (- EINVAL) w
  ∧ smb2fs_releasedir fh w = Ret (- EINVAL, fh) w
  ∧ smb2fs_release fh w = Ret (- EINVAL, fh) w
  ∧ (∀ path size offset,
       smb2fs_read path size offset fh w = Ret (- EINVAL, fh) w)
  ∧ (rdonly s = false →
     ∀ path size offset,
       smb2fs_write path size offset fh w = Ret (- EINVAL, fh) w
       ∧ smb2fs_ftruncate path size fh w = Ret (- EINVAL, fh) w).
Proof.
  intros Hfsd Hphr Hnone.
  pose proof (resolve_Some fh w s r Hfsd Hphr) as Hres.
  rewrite Hnone in Hres. cbn [default from_option] in Hres.
  split_and!.
  - unfold smb2fs_fgetattr. mrun. cbn [negb]. unfold bind at 1.
    rewrite loop_unfold by (intros; script_use).
    cbn beta. by mrun.
  - unfold smb2fs_readdir. mrun. cbn [negb]. by mrun.
  - unfold smb2fs_readdir. by mrun.
  - unfold smb2fs_releasedir. mrun. cbn [negb]. by mrun.
  - unfold smb2fs_release. mrun. cbn [negb]. by mrun.
  - intros. by eapply read_stale.
  - intros Hro path size offset.
    split; [by eapply write_stale|by eapply ftruncate_stale].
Qed.

(** X8: a handle-based operation whose handle does not resolve in the
    registry of the session (the handle [0], for one) returns
    [-EINVAL] at once, with no call and no change; so does [readdir]
    without a file-info structure. *)
Theorem unresolved_handle_rejected fh w s r :
  fsd w = Some s → phr s = Some r →
  HandleToPointer r (wrap32 fh) = None →
  smb2fs_fgetattr fh w = Ret (- EINVAL) w
  ∧ smb2fs_readdir (Some fh) w = Ret (- EINVAL) w
  ∧ smb2fs_readdir None w = Ret (- EINVAL) w
  ∧ smb2fs_releasedir fh w = Ret (- EINVAL, fh) w
  ∧ smb2fs_release fh w = Ret (- EINVAL, fh) w
  ∧ (∀ path size offset,
       smb2fs_read path size offset fh w = Ret (- EINVAL, fh) w)
  ∧ (rdonly s = false →
     ∀ path size offset,
       smb2fs_write path size offset fh w = Ret (- EINVAL, fh) w
       ∧ smb2fs_ftruncate path size fh w = Ret (- EINVAL, fh) w).
Proof. apply handle_not_resolved. Qed.


Lemma unresolved_handle_rejected_witness :
  smb2fs_release 0 (example_world true true [])
  = Ret (- EINVAL, 0) (example_world true true []).
Proof.
  by apply (unresolved_handle_rejected 0 (example_world true true [])
              example_session (mkRegistry [] 0 0 1 [])).
Defined.

Lemma remove_Some fh w s r :
  fsd w = Some s → phr s = Some r →
  remove fh w
  = Ret tt (set_fsd (Some (set_phr (Some (RemoveHandle r (wrap32 fh))) s)) w).
Proof.
  intros Hfsd Hphr. unfold remove.
  rewrite (bind_Ret _ _ _ _ _ (get_fsd_Some w s Hfsd)). by rewrite Hphr.
Qed.

(** X9: [release] and [releasedir] on a handle that resolves: the file
    or the directory is closed, once; [fi->fh] becomes [0]; the handle
    is dead, so that a second release, or a read, on it returns
    [-EINVAL] with no call; and the other handles resolve as
    before. *)
Theorem release_retires_handle fh w s r p :
  fsd w = Some s → phr s = Some r →
  HandleToPointer r (wrap32 fh) = Some p → p ≠ 0 →
  let s' := set_phr (Some (RemoveHandle r (wrap32 fh))) s in
  let closed c := set_fsd (Some s') (logged c w) in
  smb2fs_release fh w = Ret (0, 0) (closed (c_smb2_close (smb2 s) p))
  ∧ smb2fs_releasedir fh w = Ret (0, 0) (closed (c_smb2_closedir (smb2 s) p))
  ∧ ∀ c,
      smb2fs_release fh (closed c) = Ret (- EINVAL, fh) (closed c)
      ∧ smb2fs_releasedir fh (closed c) = Ret (- EINVAL, fh) (closed c)
      ∧ smb2fs_readdir (Some fh) (closed c) = Ret (- EINVAL) (closed c)
      ∧ (∀ path size offset,
           smb2fs_read path size offset fh (closed c)
           = Ret (- EINVAL, fh) (closed c))
      ∧ (∀ fh' p',
           wrap32 fh' ≠ wrap32 fh →
           HandleToPointer r (wrap32 fh') = Some p' →
           resolve fh' (closed c) = Ret p' (closed c)).
Proof.
  intros Hfsd Hphr Hptr Hnz s' closed.
  pose proof (resolve_Some fh w s r Hfsd Hphr) as Hres.
  rewrite Hptr in Hres. change (default 0 (Some p)) with p in Hres.
  apply Z.eqb_neq in Hnz.
  split_and!.
  - unfold smb2fs_release. mrun. cbn [negb]. mrun. rewrite Hnz. mrun.
    rewrite (bind_Ret _ _ _ _ _
               (remove_Some fh (logged _ w) s r Hfsd Hphr)).
    reflexivity.
  - unfold smb2fs_releasedir. mrun. cbn [negb]. mrun. rewrite Hnz. mrun.
    rewrite (bind_Ret _ _ _ _ _
               (remove_Some fh (logged _ w) s r Hfsd Hphr)).
    reflexivity.
  - intros c.
    assert (fsd (closed c) = Some s') as Hfsd' by reflexivity.
    assert (phr s' = Some (RemoveHandle r (wrap32 fh))) as Hphr'
      by reflexivity.
    pose proof (HandleToPointer_RemoveHandle r (wrap32 fh) p Hptr) as Hdead.
    destruct (handle_not_resolved fh (closed c) s' _ Hfsd' Hphr' Hdead)
      as (_ & Hreaddir & _ & Hreleasedir & Hrelease & Hread & _).
    split_and!; try done.
    intros fh' p' Hne Hp'.
    rewrite (resolve_Some fh' (closed c) s' _ Hfsd' Hphr').
    apply HandleToPointer_live in Hp'.
    by rewrite (live_HandleToPointer _ _ _
                  (live_RemoveHandle r (wrap32 fh) (wrap32 fh') p'
                     ltac:(congruence) Hp')).
Qed.

(** The file [777] open with the handle [4194305]. *)
Lemma release_retires_handle_witness :
  let s := mkFs 2000 (Some (mkRegistry [Some 777] 1 1 1 [])) false true None in
  let w := mkWorld (Some s) 2 true true "server" (example_mount true true)
                   [] [] in
  ∃ w',
    smb2fs_release 4194305 w = Ret (0, 0) w'
    ∧ log w' = [c_smb2_close 2000 777]
    ∧ smb2fs_release 4194305 w' = Ret (- EINVAL, 4194305) w'.
Proof.
  intros s w.
  destruct (release_retires_handle 4194305 w s (mkRegistry [Some 777] 1 1 1 [])
              777 eq_refl eq_refl eq_refl ltac:(lia)) as (H1 & _ & H2).
  eexists. split; [exact H1|]. split; [reflexivity|].
  apply (H2 (c_smb2_close 2000 777)).
Defined.

(** ** Opening *)

(** One call of [smb2_open_r2] that meets no fault. *)
Lemma retry_open_once path flags w s p r2 rest :
  fsd w = Some s → script w = PtrR2 p r2 :: rest → is_fault_r2 r2 = false →
  retry_open path flags w
  = Ret (inr p) (called (c_smb2_open_r2 (smb2 s) path flags) rest w).
Proof.
  intros Hfsd Hscript Hr2. unfold retry_open.
  rewrite loop_unfold by (intros; script_use).
  mrun. cbn beta iota. by rewrite Hr2.
Qed.

(** [AllocateHandleForPointer] in the session. *)
Lemma allocate_Some ptr w s r mem rest :
  fsd w = Some s → phr s = Some r →
  script w = allocation r mem rest →
  let ok := if needs_growth r then negb (mem =? 0) else true in
  let handle := (AllocateHandleForPointer ok r ptr).1 in
  let r' := (AllocateHandleForPointer ok r ptr).2 in
  ∃ w',
    allocate ptr w = Ret handle w'
    ∧ fsd w' = Some (set_phr (Some r') s)
    ∧ script w' = rest
    ∧ log w' = log w ++ (if needs_growth r then [c_registry_grow] else []).
Proof.
  intros Hfsd Hphr Hscript ok handle r'. unfold allocate.
  rewrite (bind_Ret _ _ _ _ _ (get_fsd_Some w s Hfsd)), Hphr.
  unfold allocation in Hscript. subst ok handle r'.
  destruct (needs_growth r).
  - mrun. destruct (AllocateHandleForPointer _ r ptr) as [h r1].
    eexists. split; [reflexivity|]. done.
  - mrun. change (negb (1 =? 0)) with true.
    destruct (AllocateHandleForPointer _ r ptr) as [h r1].
    eexists. split; [reflexivity|]. split; [done|]. split; [done|].
    cbn. by rewrite app_nil_r.
Qed.

Lemma wrap32_wrap32 z : wrap32 (wrap32 z) = wrap32 z.
Proof. unfold wrap32. by rewrite Z.mod_mod. Qed.

(** The handle of a successful allocation resolves, and so do the
    handles that resolved before. *)
Lemma allocate_resolves ptr w s r mem rest :
  fsd w = Some s → phr s = Some r → wf r →
  script w = allocation r mem rest →
  ∃ handle w',
    allocate ptr w = Ret handle w'
    ∧ script w' = rest
    ∧ log w' = log w ++ (if needs_growth r then [c_registry_grow] else [])
    ∧ (∃ s', fsd w' = Some s' ∧ smb2 s' = smb2 s ∧ rdonly s' = rdonly s
             ∧ rootdir s' = rootdir s)
    ∧ (handle ≠ 0 → resolve handle w' = Ret ptr w')
    ∧ (∀ fh' p',
         HandleToPointer r (wrap32 fh') = Some p' →
         resolve fh' w' = Ret p' w').
Proof.
  intros Hfsd Hphr Hwf Hscript.
  destruct (allocate_Some ptr w s r mem rest Hfsd Hphr Hscript)
    as (w' & Hrun & Hfsd' & Hscript' & Hlog').
  set (ok := if needs_growth r then negb (mem =? 0) else true) in *.
  destruct (AllocateHandleForPointer ok r ptr) as [handle r'] eqn:Halloc.
  cbn [fst snd] in *.
  exists handle, w'. split_and!; try done.
  - eexists. split; [exact Hfsd'|]. by destruct s.
  - intros Hnz.
    rewrite (resolve_Some handle w' _ r' Hfsd' eq_refl).
    destruct (AllocateHandleForPointer_live ok r ptr handle r' Hwf Halloc Hnz)
      as (index & Hh & Hslot & Hp).
    assert (wrap32 handle = handle) as ->
      by (rewrite Hh; apply wrap32_wrap32).
    by rewrite (live_HandleToPointer r' handle ptr
                  ltac:(by exists index)).
  - intros fh' p' Hp'%HandleToPointer_live.
    rewrite (resolve_Some fh' w' _ r' Hfsd' eq_refl).
    pose proof (live_AllocateHandleForPointer ok r ptr _ _ Hwf Hp') as Hl.
    rewrite Halloc in Hl. cbn [fst snd] in Hl.
    by rewrite (live_HandleToPointer _ _ _ Hl).
Qed.

(** X10: [open] and [opendir] that succeed store a handle that
    resolves to what was opened, and leave the other handles as they
    were; when the registry has no room the result is [-ENOMEM] and the
    handle [0].  [open] asks for read-write access on a read-write
    mount and for read-only access on a read-only one. *)
Theorem open_handle_resolves path fh w s r ptr r2 mem rest :
  fsd w = Some s → phr s = Some r → wf r →
  ptr ≠ 0 → is_fault_r2 r2 = false →
  script w = PtrR2 ptr r2 :: allocation r mem rest →
  let grow := if needs_growth r then [c_registry_grow] else [] in
  (∃ handle w',
     smb2fs_open path fh w
     = Ret ((if handle =? 0 then - ENOMEM else 0), handle) w'
     ∧ script w' = rest
     ∧ log w'
       = log w ++ [c_smb2_open_r2 (smb2 s) (remote_path s path)
                                  (if rdonly s then O_RDONLY else O_RDWR)]
               ++ grow
     ∧ (handle ≠ 0 → resolve handle w' = Ret ptr w')
     ∧ (∀ fh' p',
          HandleToPointer r (wrap32 fh') = Some p' →
          resolve fh' w' = Ret p' w'))
  ∧ (∃ handle w',
       smb2fs_opendir path fh w
       = Ret ((if handle =? 0 then - ENOMEM else 0), handle) w'
       ∧ script w' = rest
       ∧ log w'
         = log w ++ [c_smb2_opendir_r2 (smb2 s) (remote_path s path)]
                 ++ grow
       ∧ (handle ≠ 0 → resolve handle w' = Ret ptr w')
       ∧ (∀ fh' p',
            HandleToPointer r (wrap32 fh') = Some p' →
            resolve fh' w' = Ret p' w')).
Proof.
  intros Hfsd Hphr Hwf Hnz Hr2 Hscript grow.
  apply Z.eqb_neq in Hnz. split.
  - set (c := c_smb2_open_r2 (smb2 s) (remote_path s path)
                (if rdonly s then O_RDONLY else O_RDWR)).
    destruct (allocate_resolves ptr (called c (allocation r mem rest) w)
                s r mem rest Hfsd Hphr Hwf eq_refl)
      as (handle & w' & Hrun & Hscript' & Hlog' & _ & Hnew & Hold).
    exists handle, w'. split_and!; try done.
    + unfold smb2fs_open. mrun. cbn [negb]. mrun.
      unfold bind at 1. rewrite loop_unfold
        by (intros; apply progresses_consumes, consumes_bind_l;
            [apply consumes_retry_open|intros; script_use]).
      cbn beta zeta. cbn [fst].
      unfold bind at 1 2.
      rewrite (retry_open_once _ _ w s ptr r2 _ Hfsd Hscript Hr2).
      cbn beta iota. rewrite Hnz. cbn [negb].
      unfold ret at 1. cbn beta iota. unfold ret at 1. cbn beta iota.
      fold c.
      rewrite (bind_Ret _ _ _ _ _ Hrun). by destruct (handle =? 0).
    + rewrite Hlog'. cbn [log called]. by rewrite <- app_assoc.
  - set (c := c_smb2_opendir_r2 (smb2 s) (remote_path s path)).
    destruct (allocate_resolves ptr (called c (allocation r mem rest) w)
                s r mem rest Hfsd Hphr Hwf eq_refl)
      as (handle & w' & Hrun & Hscript' & Hlog' & _ & Hnew & Hold).
    exists handle, w'. split_and!; try done.
    + unfold smb2fs_opendir. mrun. cbn [negb]. mrun.
      rewrite (opendir_attempt_step _ fh w s ptr r2 _ Hfsd Hscript).
      rewrite Hnz. fold c. rewrite (bind_Ret _ _ _ _ _ Hrun).
      by destruct (handle =? 0).
    + rewrite Hlog'. cbn [log called]. by rewrite <- app_assoc.
Qed.

(** The first file of a session, opened as [777]. *)
Lemma open_handle_resolves_witness :
  let w := example_world false true [PtrR2 777 0; Int 1] in
  ∃ w',
    smb2fs_open "/f" 0 w = Ret (0, 4194305) w'
    ∧ log w' = [c_smb2_open_r2 2000 "sub/f" O_RDWR; c_registry_grow]
    ∧ resolve 4194305 w' = Ret 777 w'.
Proof.
  intros w.
  assert (Hwf : wf (mkRegistry [] 0 0 1 []))
    by (apply (wf_AllocateNewRegistry true 1); [lia|reflexivity]).
  destruct (open_handle_resolves "/f" 0 w example_session
              (mkRegistry [] 0 0 1 []) 777 0 1 []
              eq_refl eq_refl Hwf ltac:(lia) eq_refl eq_refl)
    as [(handle & w' & Hrun & _ & Hlog & Hnew & _) _].
  assert (Hval : ∃ w0, smb2fs_open "/f" 0 w = Ret (0, 4194305) w0)
    by (eexists; vm_compute; reflexivity).
  destruct Hval as [w0 Hval]. rewrite Hval in Hrun.
  assert (handle = 4194305) as ->.
  { injection Hrun as H1 H2 H3. by destruct (handle =? 0). }
  exists w'. split; [by rewrite Hval, Hrun|]. split; [rewrite Hlog; vm_compute; reflexivity|].
  by apply Hnew.
Defined.

Ltac open_turn H :=
  unfold bind at 1; rewrite loop_unfold
    by (intros; apply progresses_consumes, consumes_bind_l;
        [apply consumes_retry_open|intros; script_use]);
  cbn beta zeta; cbn [fst];
  unfold bind at 1 2; rewrite H; cbn beta iota.

(** X11: an [open] that the server refuses without a connection fault
    is tried a second time with read-only access on a read-write mount,
    and only once on a read-only mount; when no attempt is left the
    result is [-ENOENT], the handle of the caller is untouched and the
    registry is not asked for a handle. *)
Theorem open_falls_back path fh w s r2 r2' next rest :
  fsd w = Some s → is_fault_r2 r2 = false → is_fault_r2 r2' = false →
  let ctx := smb2 s in
  let p := remote_path s path in
  (rdonly s = true → script w = PtrR2 0 r2 :: rest →
   smb2fs_open path fh w
   = Ret (- ENOENT, fh) (called (c_smb2_open_r2 ctx p O_RDONLY) rest w))
  ∧ (rdonly s = false → script w = PtrR2 0 r2 :: PtrR2 next r2' :: rest →
     smb2fs_open path fh w
     = (if next =? 0 then ret (- ENOENT, fh)
        else
          let* handle := allocate next in
          if handle =? 0 then ret (- ENOMEM, handle) else ret (0, handle))
         (called (c_smb2_open_r2 ctx p O_RDONLY) rest
            (called (c_smb2_open_r2 ctx p O_RDWR)
               (PtrR2 next r2' :: rest) w))).
Proof.
  intros Hfsd Hr2 Hr2' ctx p. subst ctx p. split; intros Hro Hscript.
  - unfold smb2fs_open. mrun. cbn [negb]. mrun. rewrite Hro. cbn iota.
    open_turn (retry_open_once (remote_path s path) O_RDONLY w s 0 r2 rest Hfsd Hscript Hr2).
    reflexivity.
  - unfold smb2fs_open. mrun. cbn [negb]. mrun. rewrite Hro. cbn iota.
    open_turn (retry_open_once (remote_path s path) O_RDWR w s 0 r2 (PtrR2 next r2' :: rest) Hfsd Hscript Hr2).
    change (negb (0 =? 0)) with false. cbn iota.
    change (Z.land O_RDWR O_ACCMODE =? O_RDWR) with true. cbn iota.
    unfold ret at 1. cbn beta iota.
    change (Z.lor (Z.land O_RDWR (Z.lnot O_ACCMODE)) O_RDONLY) with O_RDONLY.
    pose proof (retry_open_once (remote_path s path) O_RDONLY
                  (called (c_smb2_open_r2 (smb2 s) (remote_path s path) O_RDWR)
                     (PtrR2 next r2' :: rest) w)
                  s next r2' rest Hfsd eq_refl Hr2') as Hsecond.
    rewrite loop_unfold
      by (intros; apply progresses_consumes, consumes_bind_l;
          [apply consumes_retry_open|intros; script_use]).
    cbn beta zeta. cbn [fst]. unfold bind at 1 2. rewrite Hsecond.
    cbn beta iota. destruct (next =? 0); reflexivity.
Qed.

(** Both attempts refused with access denied. *)
Lemma open_falls_back_witness :
  let w := example_world false true [PtrR2 0 (-13); PtrR2 0 (-13)] in
  ∃ w',
    smb2fs_open "/f" 7 w = Ret (- ENOENT, 7) w'
    ∧ log w' = [c_smb2_open_r2 2000 "sub/f" O_RDWR;
                c_smb2_open_r2 2000 "sub/f" O_RDONLY].
Proof.
  intros w.
  destruct (open_falls_back "/f" 7 w example_session (-13) (-13) 0 []
              eq_refl eq_refl eq_refl) as [_ H].
  eexists. split; [apply H; reflexivity|]. reflexivity.
Defined.

(** ** Directories *)

Lemma ext_dirent_Dirent c w name rest :
  script w = Dirent name :: rest →
  ext_dirent c w = Ret (Some name) (called c rest w).
Proof. intros H. unfold ext_dirent, bind, ext. by rewrite H. Qed.

Lemma ext_dirent_end c w rest :
  script w = Int 0 :: rest → ext_dirent c w = Ret None (called c rest w).
Proof. intros H. unfold ext_dirent, bind, ext. by rewrite H. Qed.

Lemma readdir_loop s smb2dir rest names : ∀ w,
  fsd w = Some s →
  script w = map Dirent names ++ Int 0 :: rest →
  ∃ w',
    loop (R := Z)
         (λ _ : unit,
            let* s := get_fsd in
            let* ent := ext_dirent (c_smb2_readdir (smb2 s) smb2dir) in
            match ent with
            | None => ret (Break tt)
            | Some name => ext_void (c_filler name);; ret (Continue tt)
            end)
         tt w = Ret (inr tt) w'
    ∧ fsd w' = Some s ∧ script w' = rest
    ∧ log w'
      = log w
        ++ flat_map (λ name, [c_smb2_readdir (smb2 s) smb2dir; c_filler name])
                    names
        ++ [c_smb2_readdir (smb2 s) smb2dir].
Proof.
  induction names as [|name names IH]; intros w Hfsd Hscript;
    cbn [map app] in Hscript;
    rewrite loop_unfold by (intros; script_use).
  - mrun. rewrite (bind_Ret _ _ _ _ _ (ext_dirent_end _ w _ Hscript)).
    mrun. eexists. split; [reflexivity|]. by cbn.
  - mrun. rewrite (bind_Ret _ _ _ _ _ (ext_dirent_Dirent _ w _ _ Hscript)).
    mrun.
    match goal with
    | |- ∃ w', loop _ _ ?w1 = _ ∧ _ =>
        destruct (IH w1) as (w' & Hrun & Hfsd' & Hscript' & Hlog');
          [done|done|]
    end.
    exists w'. split_and!; try done.
    rewrite Hlog'. cbn [log called logged flat_map app].
    by rewrite <- !app_assoc.
Qed.

(** X12: [readdir] on a handle that resolves hands every entry the
    server gives to [filler], in the order of the server, one
    [smb2_readdir] before each and a last one that meets the end of
    the directory; the result is [0] and the session is kept. *)
Theorem readdir_lists_entries fh w s r smb2dir names rest :
  fsd w = Some s → phr s = Some r →
  HandleToPointer r (wrap32 fh) = Some smb2dir → smb2dir ≠ 0 →
  script w = map Dirent names ++ Int 0 :: rest →
  ∃ w',
    smb2fs_readdir (Some fh) w = Ret 0 w'
    ∧ fsd w' = Some s ∧ script w' = rest
    ∧ log w'
      = log w
        ++ flat_map (λ name, [c_smb2_readdir (smb2 s) smb2dir; c_filler name])
                    names
        ++ [c_smb2_readdir (smb2 s) smb2dir].
Proof.
  intros Hfsd Hphr Hptr Hnz Hscript.
  pose proof (resolve_Some fh w s r Hfsd Hphr) as Hres.
  rewrite Hptr in Hres. change (default 0 (Some smb2dir)) with smb2dir in Hres.
  apply Z.eqb_neq in Hnz.
  destruct (readdir_loop s smb2dir rest names w Hfsd Hscript)
    as (w' & Hrun & Hfsd' & Hscript' & Hlog').
  exists w'. split; [|done].
  unfold smb2fs_readdir. mrun. cbn [negb]. mrun. rewrite Hnz.
  by rewrite (bind_Ret _ _ _ _ _ Hrun).
Qed.

(** A directory with two entries. *)
Lemma readdir_lists_entries_witness :
  let s := mkFs 2000 (Some (mkRegistry [Some 777] 1 1 1 [])) false true None in
  let w := mkWorld (Some s) 2 true true "server" (example_mount true true)
                   [Dirent "a"; Dirent "b"; Int 0] [] in
  ∃ w',
    smb2fs_readdir (Some 4194305) w = Ret 0 w'
    ∧ log w' = [c_smb2_readdir 2000 777; c_filler "a";
                c_smb2_readdir 2000 777; c_filler "b";
                c_smb2_readdir 2000 777].
Proof.
  intros s w.
  destruct (readdir_lists_entries 4194305 w s (mkRegistry [Some 777] 1 1 1 [])
              777 ["a"; "b"] [] eq_refl eq_refl eq_refl ltac:(lia) eq_refl)
    as (w' & Hrun & _ & _ & Hlog).
  exists w'. split; [exact Hrun|exact Hlog].
Defined.

Lemma rmdir_scan_dots s smb2dir names : ∀ w,
  fsd w = Some s → Forall (λ name, is_dot name = true) names →
  (∀ rest, script w = map Dirent names ++ Int 0 :: rest →
     ∃ w', rmdir_scan smb2dir w = Ret false w'
           ∧ fsd w' = Some s ∧ script w' = rest
           ∧ log w' = log w ++ replicate (S (length names))
                                 (c_smb2_readdir (smb2 s) smb2dir))
  ∧ (∀ name rest, is_dot name = false →
       script w = map Dirent names ++ Dirent name :: rest →
       ∃ w', rmdir_scan smb2dir w = Ret true w'
             ∧ fsd w' = Some s ∧ script w' = rest
             ∧ log w' = log w ++ replicate (S (length names))
                                   (c_smb2_readdir (smb2 s) smb2dir)).
Proof.
  induction names as [|dot names IH]; intros w Hfsd Hdots.
  - split; [intros rest|intros name rest Hname]; intros Hscript;
      cbn [map app] in Hscript; unfold rmdir_scan; unfold bind at 1;
      rewrite loop_unfold by (intros; script_use); mrun.
    + rewrite (bind_Ret _ _ _ _ _ (ext_dirent_end _ w _ Hscript)).
      mrun. eexists. split; [reflexivity|]. by cbn.
    + rewrite (bind_Ret _ _ _ _ _ (ext_dirent_Dirent _ w _ _ Hscript)).
      unfold is_dot in Hname. apply orb_false_iff in Hname as [-> ->].
      cbn [negb andb]. mrun. eexists. split; [reflexivity|]. by cbn.
  - apply Forall_cons in Hdots as [Hdot Hdots].
    assert (negb (String.eqb dot ".") && negb (String.eqb dot "..") = false)
      as Hskip.
    { unfold is_dot in Hdot. by destruct (String.eqb dot "."), (String.eqb dot ".."). }
    split; [intros rest|intros name rest Hname]; intros Hscript;
      cbn [map app] in Hscript.
    + destruct (IH (called (c_smb2_readdir (smb2 s) smb2dir)
                      (map Dirent names ++ Int 0 :: rest) w) Hfsd Hdots)
        as [H _].
      destruct (H rest eq_refl) as (w' & Hrun & Hfsd' & Hscript' & Hlog').
      exists w'. split_and!; try done.
      * rewrite <- Hrun. unfold rmdir_scan. unfold bind at 1.
        rewrite loop_unfold by (intros; script_use). mrun.
        rewrite (bind_Ret _ _ _ _ _ (ext_dirent_Dirent _ w _ _ Hscript)).
        rewrite Hskip. by mrun.
      * rewrite Hlog'. cbn [log called length replicate].
        by rewrite <- app_assoc.
    + destruct (IH (called (c_smb2_readdir (smb2 s) smb2dir)
                      (map Dirent names ++ Dirent name :: rest) w) Hfsd Hdots)
        as [_ H].
      destruct (H name rest Hname eq_refl)
        as (w' & Hrun & Hfsd' & Hscript' & Hlog').
      exists w'. split_and!; try done.
      * rewrite <- Hrun. unfold rmdir_scan. unfold bind at 1.
        rewrite loop_unfold by (intros; script_use). mrun.
        rewrite (bind_Ret _ _ _ _ _ (ext_dirent_Dirent _ w _ _ Hscript)).
        rewrite Hskip. by mrun.
      * rewrite Hlog'. cbn [log called length replicate].
        by rewrite <- app_assoc.
Qed.

Lemma retry_opendir_once path w s smb2dir r2 rest :
  fsd w = Some s → script w = PtrR2 smb2dir r2 :: rest → smb2dir ≠ 0 →
  retry_opendir path w
  = Ret (inr smb2dir) (called (c_smb2_opendir_r2 (smb2 s) path) rest w).
Proof.
  intros Hfsd Hscript Hnz%Z.eqb_neq. unfold retry_opendir.
  rewrite loop_unfold by (intros; script_use). mrun. cbn beta iota.
  rewrite Hnz. by mrun.
Qed.

(** X13: [rmdir] looks into the directory before it removes it.  The
    entries [.] and [..] are passed over; at the first other entry the
    scan stops, the directory is closed and the result is
    [-ENOTEMPTY], with no [smb2_rmdir]; when the scan meets the end of
    the directory it is closed and [smb2_rmdir] is called, whose
    failure, other than [-1], is the result. *)
Theorem rmdir_checks_emptiness path w s smb2dir r2 dots :
  fsd w = Some s → rdonly s = false → smb2dir ≠ 0 →
  Forall (λ name, is_dot name = true) dots →
  let ctx := smb2 s in
  let p := remote_path s path in
  let scan :=
    c_smb2_opendir_r2 ctx p
    :: replicate (S (length dots)) (c_smb2_readdir ctx smb2dir)
    ++ [c_smb2_closedir ctx smb2dir] in
  (∀ name rest,
     is_dot name = false →
     script w = PtrR2 smb2dir r2 :: map Dirent dots ++ Dirent name :: rest →
     ∃ w', smb2fs_rmdir path w = Ret (- ENOTEMPTY) w'
           ∧ fsd w' = Some s ∧ script w' = rest
           ∧ log w' = log w ++ scan)
  ∧ (∀ rc rest,
       rc ≠ -1 →
       script w
       = PtrR2 smb2dir r2 :: map Dirent dots ++ Int 0 :: Int rc :: rest →
       ∃ w', smb2fs_rmdir path w = Ret (if rc <? 0 then rc else 0) w'
             ∧ fsd w' = Some s ∧ script w' = rest
             ∧ log w' = log w ++ scan ++ [c_smb2_rmdir ctx p]).
Proof.
  intros Hfsd Hrw Hnz Hdots ctx p scan. subst ctx p scan.
  set (w1 rest := called (c_smb2_opendir_r2 (smb2 s) (remote_path s path))
                         rest w).
  split.
  - intros name rest Hname Hscript.
    destruct (rmdir_scan_dots s smb2dir dots
                (w1 (map Dirent dots ++ Dirent name :: rest)) Hfsd Hdots)
      as [_ H].
    destruct (H name rest Hname eq_refl)
      as (w' & Hrun & Hfsd' & Hscript' & Hlog').
    eexists. split; [|split; [|split]].
    + unfold smb2fs_rmdir. mrun. cbn [negb]. mrun. rewrite Hrw.
      rewrite (bind_Ret _ _ _ _ _
                 (retry_opendir_once _ w s smb2dir r2 _ Hfsd Hscript Hnz)).
      fold (w1 (map Dirent dots ++ Dirent name :: rest)).
      rewrite (bind_Ret _ _ _ _ _ Hrun). mrun. reflexivity.
    + done.
    + done.
    + cbn [log logged]. rewrite Hlog'. cbn [w1 log called].
      by rewrite <- !app_assoc.
  - intros rc rest Hrc Hscript.
    destruct (rmdir_scan_dots s smb2dir dots
                (w1 (map Dirent dots ++ Int 0 :: Int rc :: rest)) Hfsd Hdots)
      as [H _].
    destruct (H (Int rc :: rest) eq_refl)
      as (w' & Hrun & Hfsd' & Hscript' & Hlog').
    eexists. split; [|split; [|split]].
    + unfold smb2fs_rmdir. mrun. cbn [negb]. mrun. rewrite Hrw.
      rewrite (bind_Ret _ _ _ _ _
                 (retry_opendir_once _ w s smb2dir r2 _ Hfsd Hscript Hnz)).
      fold (w1 (map Dirent dots ++ Int 0 :: Int rc :: rest)).
      rewrite (bind_Ret _ _ _ _ _ Hrun). mrun.
      rewrite (retry_rc_step _ (logged _ w') s rc rest Hfsd' Hscript').
      destruct (rc <? -1) eqn:H1.
      * assert ((rc <? 0) = true) as -> by lia. reflexivity.
      * destruct (rc <? 0) eqn:H0; [lia|]. reflexivity.
    + done.
    + done.
    + cbn [log logged called]. rewrite Hlog'. cbn [w1 log called].
      rewrite <- !app_assoc. cbn [app]. by rewrite <- ?app_assoc.
Qed.

(** A directory that holds the file [f]. *)
Lemma rmdir_checks_emptiness_witness :
  let w := example_world false true
             [PtrR2 555 0; Dirent "."; Dirent ".."; Dirent "f"; Dirent "g"] in
  ∃ w',
    smb2fs_rmdir "/d" w = Ret (- ENOTEMPTY) w'
    ∧ script w' = [Dirent "g"]
    ∧ log w' = [c_smb2_opendir_r2 2000 "sub/d"; c_smb2_readdir 2000 555;
                c_smb2_readdir 2000 555; c_smb2_readdir 2000 555;
                c_smb2_closedir 2000 555].
Proof.
  intros w.
  destruct (rmdir_checks_emptiness "/d" w example_session 555 0 ["."; ".."]
              eq_refl eq_refl ltac:(lia)
              ltac:(repeat constructor)) as [H _].
  destruct (H "f" [Dirent "g"] eq_refl eq_refl)
    as (w' & Hrun & _ & Hscript & Hlog).
  exists w'. split; [exact Hrun|]. split; [exact Hscript|exact Hlog].
Defined.

(** ** Transfers *)

Lemma to_int_small z : - 2 ^ 31 <= z < 2 ^ 31 → to_int z = z.
Proof.
  intros H. unfold to_int, wrap32.
  destruct (Z.ltb_spec (z mod 2 ^ 32) (2 ^ 31)) as [Hlt|Hge].
  - destruct (Z.le_gt_cases 0 z) as [Hz|Hz].
    + apply Z.mod_small. lia.
    + exfalso.
      assert (z mod 2 ^ 32 = z + 2 ^ 32); [|lia].
      symmetry. apply (Z.mod_unique _ _ (-1)); lia.
  - destruct (Z.le_gt_cases 0 z) as [Hz|Hz].
    + rewrite Z.mod_small in Hge by lia. lia.
    + assert (z mod 2 ^ 32 = z + 2 ^ 32) as ->; [|lia].
      symmetry. apply (Z.mod_unique _ _ (-1)); lia.
Qed.

(** X14: a write that the server answers with [0] makes no progress:
    after any number of such answers the loop of [smb2fs_write] is
    where it was, with the same bytes left, the same position and the
    same chunk, and it has asked the server the same write each
    time.  (The loop of [smb2fs_read] ends at such an answer.) *)
Theorem write_zero_no_progress path smb2fh max st s times :
  0 < wr_size st < 2 ^ 32 → - 2 ^ 31 <= wr_result st < 2 ^ 31 →
  let count :=
    if chunk_size st <? wr_size st then chunk_size st else wr_size st in
  let stalled :=
    mkWrite (wr_fh st) (wr_size st) (wr_buffer_ref st) (wr_result st) 0
            (wr_batch st) (chunk_size st) (success_count st) in
  ∀ w rest,
    fsd w = Some s → times ≠ [] →
    script w
    = flat_map (λ t : Z * Z, [Int t.1; Int 0; Int t.2]) times ++ rest →
    ∃ w',
      loop (write_body path smb2fh max) st w
      = loop (write_body path smb2fh max) stalled w'
      ∧ fsd w' = Some s ∧ script w' = rest
      ∧ log w'
        = log w
          ++ flat_map (λ _, [c_time;
                             c_smb2_write (smb2 s) smb2fh (wr_buffer_ref st)
                                          count;
                             c_time]) times.
Proof.
  intros Hsize Hresult count stalled.
  assert (Hturn : ∀ st0 w t1 t2 rest,
             wr_size st0 = wr_size st → wr_buffer_ref st0 = wr_buffer_ref st →
             wr_result st0 = wr_result st → wr_fh st0 = wr_fh st →
             wr_batch st0 = wr_batch st → chunk_size st0 = chunk_size st →
             success_count st0 = success_count st →
             fsd w = Some s → script w = Int t1 :: Int 0 :: Int t2 :: rest →
             loop (write_body path smb2fh max) st0 w
             = loop (write_body path smb2fh max) stalled
                 (called c_time rest
                    (called (c_smb2_write (smb2 s) smb2fh (wr_buffer_ref st)
                                          count)
                       (Int t2 :: rest)
                       (called c_time (Int 0 :: Int t2 :: rest) w)))).
  { intros st0 w t1 t2 rest H1 H2 H3 H4 H5 H6 H7 Hfsd Hscript.
    rewrite loop_unfold by (intros; script_use). unfold bind at 1.
    rewrite (write_body_step path smb2fh max st0 w s t1 0 t2 rest Hfsd
               ltac:(lia) Hscript).
    cbn iota beta. unfold ret at 1. cbn iota beta.
    rewrite H1, H2, H3, H4, H5, H6, H7, !Z.sub_0_r, !Z.add_0_r.
    rewrite wrap32_small, to_int_small by lia. reflexivity. }
  induction times as [|[t1 t2] times IH]; intros w rest Hfsd Hne Hscript;
    [done|].
  cbn [flat_map app fst snd] in Hscript.
  destruct times as [|t times].
  - eexists. split; [by apply (Hturn st w t1 t2 rest)|].
    split_and!; [done|done|].
    cbn [log called flat_map app]. by rewrite <- !app_assoc.
  - set (w1 := called c_time (flat_map (λ t : Z * Z, [Int t.1; Int 0; Int t.2])
                                (t :: times) ++ rest)
                 (called (c_smb2_write (smb2 s) smb2fh (wr_buffer_ref st) count)
                    (Int t2 :: flat_map (λ t : Z * Z, [Int t.1; Int 0; Int t.2])
                                (t :: times) ++ rest)
                    (called c_time
                       (Int 0 :: Int t2
                        :: flat_map (λ t : Z * Z, [Int t.1; Int 0; Int t.2])
                             (t :: times) ++ rest) w))).
    destruct (IH w1 rest) as (w' & Hrun & Hfsd' & Hscript' & Hlog');
      [done|done|done|].
    exists w'. split_and!; try done.
    + rewrite (Hturn st w t1 t2 _ eq_refl eq_refl eq_refl eq_refl eq_refl
                 eq_refl eq_refl Hfsd Hscript).
      fold w1. rewrite <- Hrun.
      destruct t as [t1' t2']. cbn [flat_map app fst snd].
      rewrite (Hturn stalled w1 t1' t2' _ eq_refl eq_refl eq_refl eq_refl
                 eq_refl eq_refl eq_refl Hfsd eq_refl).
      by rewrite (Hturn st w1 t1' t2' _ eq_refl eq_refl eq_refl eq_refl
                    eq_refl eq_refl eq_refl Hfsd eq_refl).
    + rewrite Hlog'. cbn [w1 log called flat_map app].
      by rewrite <- !app_assoc.
Qed.

(** Ten bytes that the server does not take, twice. *)
Lemma write_zero_no_progress_witness :
  let st := mkWrite 4194305 10 0 0 0 (mkBatch 0 0 100) 65536 0 in
  let w := example_world false true
             [Int 100; Int 0; Int 100; Int 101; Int 0; Int 101] in
  ∃ w',
    loop (write_body "/f" 777 65536) st w
    = loop (write_body "/f" 777 65536) st w'
    ∧ script w' = []
    ∧ log w' = [c_time; c_smb2_write 2000 777 0 10; c_time;
                c_time; c_smb2_write 2000 777 0 10; c_time].
Proof.
  intros st w.
  destruct (write_zero_no_progress "/f" 777 65536 st example_session
              [(100, 100); (101, 101)] ltac:(cbn; lia) ltac:(cbn; lia)
              w [] eq_refl ltac:(discriminate) eq_refl)
    as (w' & Hrun & _ & Hscript & Hlog).
  exists w'. split; [exact Hrun|]. split; [exact Hscript|exact Hlog].
Defined.

Lemma total_nonneg rcs : Forall (λ rc, 0 < rc) rcs → 0 <= total rcs.
Proof.
  induction 1 as [|rc rcs Hrc _ IH]; [done|].
  change (total (rc :: rcs)) with (rc + total rcs). lia.
Qed.

Lemma read_loop_chunks path smb2fh max s rest rcs : ∀ st w,
  fsd w = Some s → Forall (λ rc, 0 < rc) rcs →
  0 <= service_counter (rd_batch st) →
  service_counter (rd_batch st) + Z.of_nat (length rcs) < 4 →
  0 <= bytes_since_service (rd_batch st) →
  bytes_since_service (rd_batch st) + total rcs < 262144 →
  total rcs < rd_size st < 2 ^ 32 →
  - 2 ^ 31 <= rd_result st → rd_result st + total rcs < 2 ^ 31 →
  script w = map Int rcs ++ Int 0 :: rest →
  ∃ st' w',
    loop (read_body path smb2fh max) st w = Ret (inr st') w'
    ∧ rd_result st' = rd_result st + total rcs
    ∧ rd_rc st' = 0 ∧ rd_fh st' = rd_fh st
    ∧ fsd w' = Some s ∧ script w' = rest
    ∧ log w'
      = log w ++ read_requests (smb2 s) smb2fh max (rd_buffer_ref st)
                               (rd_size st) rcs.
Proof.
  induction rcs as [|rc rcs IH];
    intros st w Hfsd Hpos Hc0 Hc1 Hb0 Hb1 Hsize Hr0 Hr1 Hscript;
    [change (total []) with 0 in *
    |change (total (rc :: rcs)) with (rc + total rcs) in *];
    cbn [map app length] in *;
    rewrite loop_unfold by (intros; script_use); unfold bind at 1.
  - rewrite (read_body_step path smb2fh max st w s 0 rest Hfsd
               ltac:(lia) Hscript).
    cbn beta iota. unfold ret at 1. cbn beta iota.
    eexists _, _. split; [reflexivity|].
    cbn [rd_result rd_rc rd_fh fsd called script log read_requests].
    split_and!; try done. lia.
  - apply Forall_cons in Hpos as [Hrc Hpos].
    pose proof (total_nonneg rcs Hpos) as Htotal.
    rewrite (read_body_step path smb2fh max st w s rc _ Hfsd
               ltac:(lia) Hscript).
    assert ((rc =? 0) = false) as -> by lia.
    assert ((rc <? -1) = false) as -> by lia.
    assert ((rc <? 0) = false) as -> by lia.
    cbn beta iota.
    rewrite (bind_Ret _ _ _ _ _
               (account_below rc (rd_batch st) _ Hc0 ltac:(lia) Hb0
                  ltac:(lia) ltac:(lia))).
    unfold ret at 1. cbn beta iota.
    rewrite wrap32_small, to_int_small by lia.
    match goal with
    | |- ∃ st' w', loop _ ?st1 ?w1 = _ ∧ _ =>
        destruct (IH st1 w1) as (st' & w' & Hrun & H1 & H2 & H3 & H4 & H5 & H6)
    end.
    all: cbn [rd_batch rd_size rd_result service_counter bytes_since_service
              fsd called script].
    all: try done; try lia.
    exists st', w'. split; [exact Hrun|].
    cbn [rd_result rd_fh rd_buffer_ref rd_size] in *.
    split_and!; try done; try lia.
    rewrite H6. cbn [log called read_requests].
    by rewrite <- app_assoc.
Qed.

(** X15: a read that meets the end of the file returns the bytes read
    so far, [0] when there are none.  After the seek, every
    [smb2_read] asks for what is left of the request, at most the
    maximum read size, at the position the blocks before it have
    reached; the answer [0] ends the transfer, the responses are
    drained once and [fi->fh] is unchanged.  (Fewer than four blocks
    and less than 256 KiB, so that no drain falls inside the loop.) *)
Theorem read_until_eof path size offset fh w s r ptr new_offset max t rcs z
    rest :
  fsd w = Some s → phr s = Some r →
  HandleToPointer r (wrap32 fh) = Some ptr → ptr ≠ 0 →
  0 <= new_offset →
  Forall (λ rc, 0 < rc) rcs → (length rcs < 4)%nat →
  total rcs < 262144 → total rcs < size < 2 ^ 32 → z <= 0 →
  script w
  = Int new_offset :: Int max :: Int t :: map Int rcs ++ Int 0 :: Int z :: rest →
  ∃ w',
    smb2fs_read path size offset fh w = Ret (total rcs, fh) w'
    ∧ fsd w' = Some s ∧ script w' = rest
    ∧ log w'
      = log w
        ++ [c_smb2_lseek (smb2 s) ptr offset;
            c_smb2_get_max_read_size (smb2 s); c_time]
        ++ read_requests (smb2 s) ptr max 0 size rcs
        ++ [c_smb2_service (smb2 s)].
Proof.
  intros Hfsd Hphr Hptr Hnz Hoff Hpos Hlen Hbytes Hsize Hz Hscript.
  pose proof (total_nonneg rcs Hpos) as Htotal.
  set (w3 := called c_time (map Int rcs ++ Int 0 :: Int z :: rest)
               (called (c_smb2_get_max_read_size (smb2 s))
                  (Int t :: map Int rcs ++ Int 0 :: Int z :: rest)
                  (called (c_smb2_lseek (smb2 s) ptr offset)
                     (Int max :: Int t :: map Int rcs ++ Int 0 :: Int z :: rest)
                     w))).
  destruct (read_loop_chunks path ptr max s (Int z :: rest) rcs
              (mkRead fh size 0 0 0 (mkBatch 0 0 t)) w3)
    as (st' & w4 & Hloop & Hres & Hrc & Hfh & Hfsd4 & Hscript4 & Hlog4);
    cbn [rd_batch rd_size rd_result service_counter bytes_since_service];
    try done; try lia.
  destruct (service_drain_polls [] z rest w4 s Hfsd4 ltac:(constructor) Hz
              Hscript4) as (w5 & Hdrain & Hscript5 & Hlog5 & Hfsd5).
  exists w5. split; [|split_and!].
  - unfold smb2fs_read, stream_prologue.
    mrun. rewrite Hfsd. mrun.
    unfold bind at 1. rewrite loop_unfold by (intros; script_use).
    unfold read_pass at 1. mrun.
    rewrite (bind_Ret _ _ _ _ _ (resolve_Some fh w s r Hfsd Hphr)).
    rewrite Hptr. change (default 0 (Some ptr)) with ptr.
    apply Z.eqb_neq in Hnz. rewrite Hnz. mrun.
    assert ((new_offset <? 0) = false) as -> by lia. mrun.
    cbn iota. mrun.
    rewrite Hrc. change (0 <? 0) with false. cbn iota. mrun.
    unfold ret. cbn [st_result st_fh]. rewrite Hres, Hfh. reflexivity.
  - by rewrite Hfsd5.
  - done.
  - rewrite Hlog5, Hlog4. cbn [w3 log called length replicate rd_buffer_ref
                                rd_size].
    by rewrite <- !app_assoc.
Qed.

(** Two blocks before the end of the file. *)
Lemma read_until_eof_witness :
  let s := mkFs 2000 (Some (mkRegistry [Some 777] 1 1 1 [])) false true None in
  let w := mkWorld (Some s) 2 true true "server" (example_mount true true)
                   [Int 0; Int 65536; Int 50; Int 4096; Int 100; Int 0; Int 0]
                   [] in
  ∃ w',
    smb2fs_read "/f" 100000 0 4194305 w = Ret (4196, 4194305) w'
    ∧ log w' = [c_smb2_lseek 2000 777 0; c_smb2_get_max_read_size 2000;
                c_time; c_smb2_read 2000 777 0 65536;
                c_smb2_read 2000 777 4096 65536;
                c_smb2_read 2000 777 4196 65536;
                c_smb2_service 2000].
Proof.
  intros s w.
  destruct (read_until_eof "/f" 100000 0 4194305 w s
              (mkRegistry [Some 777] 1 1 1 []) 777 0 65536 50 [4096; 100] 0 []
              eq_refl eq_refl eq_refl ltac:(lia) ltac:(lia)
              ltac:(repeat constructor) ltac:(cbn; lia) ltac:(cbn; lia)
              ltac:(cbn; lia) ltac:(lia) eq_refl)
    as (w' & Hrun & _ & _ & Hlog).
  exists w'. split; [exact Hrun|exact Hlog].
Defined.

Lemma write_loop_chunks path smb2fh max s rest chunks : ∀ st w,
  fsd w = Some s → Forall (λ rc, 0 < rc) (written chunks) →
  0 <= service_counter (wr_batch st) →
  service_counter (wr_batch st) + Z.of_nat (length chunks) < 4 →
  0 <= bytes_since_service (wr_batch st) →
  bytes_since_service (wr_batch st) + total (written chunks) < 262144 →
  0 <= success_count st →
  success_count st + Z.of_nat (length chunks) < SUCCESS_THRESHOLD →
  total (written chunks) = wr_size st → wr_size st < 2 ^ 32 →
  - 2 ^ 31 <= wr_result st → wr_result st + total (written chunks) < 2 ^ 31 →
  0 <= wr_rc st →
  script w = write_answers chunks ++ rest →
  ∃ st' w',
    loop (write_body path smb2fh max) st w = Ret (inr st') w'
    ∧ wr_result st' = wr_result st + total (written chunks)
    ∧ 0 <= wr_rc st' ∧ wr_fh st' = wr_fh st
    ∧ fsd w' = Some s ∧ script w' = rest
    ∧ log w'
      = log w ++ write_requests (smb2 s) smb2fh (chunk_size st)
                                (wr_buffer_ref st) (wr_size st)
                                (written chunks).
Proof.
  induction chunks as [|[[t1 rc] t2] chunks IH];
    intros st w Hfsd Hpos Hc0 Hc1 Hb0 Hb1 Hs0 Hs1 Hsize Hmax Hr0 Hr1 Hrc
      Hscript;
    [change (total (written [])) with 0 in *
    |change (total (written ((t1, rc, t2) :: chunks)))
       with (rc + total (written chunks)) in *;
     change (written ((t1, rc, t2) :: chunks))
       with (rc :: written chunks) in * ];
    cbn [write_answers flat_map app length fst snd] in *;
    rewrite loop_unfold by (intros; script_use); unfold bind at 1.
  - unfold write_body at 1. rewrite <- Hsize.
    change (negb (0 <? 0)) with true. cbn iota. unfold ret at 1.
    cbn beta iota. eexists _, _. split; [reflexivity|].
    cbn [write_requests written map]. rewrite app_nil_r.
    split_and!; try done. lia.
  - apply Forall_cons in Hpos as [Hrc1 Hpos].
    pose proof (total_nonneg _ Hpos) as Htotal.
    fold (write_answers chunks) in Hscript.
    rewrite (write_body_step path smb2fh max st w s t1 rc t2 _ Hfsd
               ltac:(lia) Hscript).
    assert ((rc <? 0) = false) as -> by lia.
    assert ((0 <? rc) = true) as -> by lia.
    cbn beta iota.
    rewrite (bind_Ret _ _ _ _ _
               (account_below rc (wr_batch st) _ Hc0 ltac:(lia) Hb0
                  ltac:(lia) ltac:(lia))).
    rewrite grow_chunk_below by lia.
    unfold ret at 1. cbn beta iota. cbn [fst snd].
    rewrite wrap32_small, to_int_small by lia.
    match goal with
    | |- ∃ st' w', loop _ ?st1 ?w1 = _ ∧ _ =>
        destruct (IH st1 w1) as (st' & w' & Hrun & H1 & H2 & H3 & H4 & H5 & H6)
    end.
    all: cbn [wr_batch wr_size wr_result wr_rc success_count service_counter
              bytes_since_service fsd called script].
    all: try done; try lia.
    exists st', w'. split; [exact Hrun|].
    cbn [wr_result wr_fh wr_buffer_ref wr_size chunk_size] in *.
    split_and!; try done; try lia.
    rewrite H6. cbn [log called write_requests].
    by rewrite <- !app_assoc.
Qed.

(** X16: a write whose blocks the server takes returns the size of the
    request.  After the seek and the check of the descriptor, every
    [smb2_write] offers what is left, at most the chunk the transfer
    started with, at the position the blocks before it have reached;
    the responses are drained once at the end and [fi->fh] is
    unchanged.  (Fewer than four blocks and less than 256 KiB, so that
    the chunk does not grow and no drain falls inside the loop.) *)
Theorem write_all_taken path size offset fh w s r ptr new_offset max t fd
    chunks z rest :
  fsd w = Some s → rdonly s = false → phr s = Some r →
  HandleToPointer r (wrap32 fh) = Some ptr → ptr ≠ 0 →
  0 <= new_offset → 2 < fd →
  Forall (λ rc, 0 < rc) (written chunks) → (length chunks < 4)%nat →
  total (written chunks) < 262144 → total (written chunks) = size →
  z <= 0 →
  script w
  = Int new_offset :: Int max :: Int t :: Int fd
    :: write_answers chunks ++ Int z :: rest →
  ∃ w',
    smb2fs_write path size offset fh w = Ret (size, fh) w'
    ∧ fsd w' = Some s ∧ script w' = rest
    ∧ log w'
      = log w
        ++ [c_smb2_lseek (smb2 s) ptr offset;
            c_smb2_get_max_write_size (smb2 s); c_time;
            c_smb2_get_fd (smb2 s)]
        ++ write_requests (smb2 s) ptr (initial_chunk max) 0 size
                          (written chunks)
        ++ [c_smb2_service (smb2 s)].
Proof.
  intros Hfsd Hrw Hphr Hptr Hnz Hoff Hfd Hpos Hlen Hbytes Hsize Hz Hscript.
  pose proof (total_nonneg _ Hpos) as Htotal.
  set (w4 := called (c_smb2_get_fd (smb2 s))
               (write_answers chunks ++ Int z :: rest)
               (called c_time
                  (Int fd :: write_answers chunks ++ Int z :: rest)
                  (called (c_smb2_get_max_write_size (smb2 s))
                     (Int t :: Int fd
                      :: write_answers chunks ++ Int z :: rest)
                     (called (c_smb2_lseek (smb2 s) ptr offset)
                        (Int max :: Int t :: Int fd
                         :: write_answers chunks ++ Int z :: rest)
                        w)))).
  destruct (write_loop_chunks path ptr max s (Int z :: rest) chunks
              (mkWrite fh size 0 0 0 (mkBatch 0 0 t) (initial_chunk max) 0)
              w4)
    as (st' & w5 & Hloop & Hres & Hrc & Hfh & Hfsd5 & Hscript5 & Hlog5);
    cbn [wr_batch wr_size wr_result wr_rc success_count service_counter
         bytes_since_service];
    unfold SUCCESS_THRESHOLD; try done; try lia.
  destruct (service_drain_polls [] z rest w5 s Hfsd5 ltac:(constructor) Hz
              Hscript5) as (w6 & Hdrain & Hscript6 & Hlog6 & Hfsd6).
  exists w6. split; [|split_and!].
  - unfold smb2fs_write, stream_prologue.
    mrun. rewrite Hfsd. mrun. rewrite Hrw.
    unfold bind at 1. rewrite loop_unfold by (intros; script_use).
    unfold write_pass at 1. mrun.
    rewrite (bind_Ret _ _ _ _ _ (resolve_Some fh w s r Hfsd Hphr)).
    rewrite Hptr. change (default 0 (Some ptr)) with ptr.
    apply Z.eqb_neq in Hnz. rewrite Hnz. mrun.
    assert ((new_offset <? 0) = false) as -> by lia. mrun.
    assert ((fd <=? 2) = false) as -> by lia. cbn iota. mrun.
    cbn iota. mrun.
    assert ((wr_rc st' <? 0) = false) as -> by lia. cbn iota. mrun.
    unfold ret. cbn [st_result st_fh]. rewrite Hres, Hfh.
    cbn [wr_result wr_fh]. by rewrite Z.add_0_l, Hsize.
  - by rewrite Hfsd6.
  - done.
  - rewrite Hlog6, Hlog5. cbn [w4 log called length replicate wr_buffer_ref
                                wr_size chunk_size].
    by rewrite <- !app_assoc.
Qed.

(** Three blocks, the last one short. *)
Lemma write_all_taken_witness :
  let s := mkFs 2000 (Some (mkRegistry [Some 777] 1 1 1 [])) false true None in
  let w := mkWorld (Some s) 2 true true "server" (example_mount true true)
                   ([Int 0; Int 1048576; Int 50; Int 5]
                    ++ [Int 50; Int 65536; Int 50]
                    ++ [Int 51; Int 65536; Int 51]
                    ++ [Int 52; Int 1000; Int 52] ++ [Int 0])
                   [] in
  ∃ w',
    smb2fs_write "/f" 132072 0 4194305 w = Ret (132072, 4194305) w'
    ∧ log w' = [c_smb2_lseek 2000 777 0; c_smb2_get_max_write_size 2000;
                c_time; c_smb2_get_fd 2000;
                c_time; c_smb2_write 2000 777 0 65536; c_time;
                c_time; c_smb2_write 2000 777 65536 65536; c_time;
                c_time; c_smb2_write 2000 777 131072 1000; c_time;
                c_smb2_service 2000].
Proof.
  intros s w.
  destruct (write_all_taken "/f" 132072 0 4194305 w s
              (mkRegistry [Some 777] 1 1 1 []) 777 0 1048576 50 5
              [(50, 65536, 50); (51, 65536, 51); (52, 1000, 52)] 0 []
              eq_refl eq_refl eq_refl eq_refl ltac:(lia) ltac:(lia) ltac:(lia)
              ltac:(repeat constructor) ltac:(cbn; lia) ltac:(cbn; lia)
              eq_refl ltac:(lia) eq_refl)
    as (w' & Hrun & _ & _ & Hlog).
  exists w'. split; [exact Hrun|exact Hlog].
Defined.

(** ** The connection *)

Ltac irun :=
  repeat first
    [ progress mrun
    | progress unfold update_fsd, put_fsd
    | erewrite bind_Ret by (apply get_fsd_Some; reflexivity) ].

Lemma init_switches (a b : bool) (w : world) :
  ∃ w0,
    (∀ (A : Type) (k : M A),
       ((if a then modify (set_cfg_reconnect_req true) else ret ());;
        (if b then modify (set_cfg_handles_rcv false) else ret ());; k) w
       = k w0)
    ∧ script w0 = script w ∧ log w0 = log w.
Proof. destruct a, b; eexists; (split; [intros; reflexivity|done]). Qed.

Lemma fd_recovery_in_vain w pw p mem ctx parsed dom connect fd ctx2 hard
    again rest :
  let md := private_data w in
  let url := parsed_url md in
  let user := match ARG_USER md with Some u => Some u | None => url_user url end in
  ARG_PASSWORD md = Some pw →
  p ≠ 0 → mem ≠ 0 → ctx ≠ 0 → parsed ≠ 0 → 0 <= connect → fd <= 2 →
  ctx2 ≠ 0 → hard ≠ 0 → again < 0 →
  script w = map Int [p; mem; ctx; parsed; dom; connect; fd; ctx2; hard; again]
             ++ rest →
  ∃ w' l,
    (∀ fci, smb2fs_init fci w = Ret (- ENODEV) w')
    ∧ fsd w' = Some (mkFs ctx2
                          (Some (mkRegistry [] 0 0 (phr_incarnation w) []))
                          (ARG_READONLY md) false None)
    ∧ script w' = rest
    ∧ log w' = log w ++ l
    ∧ List.filter (λ c, negb (is_time c)) l
      = [c_calloc; c_AllocateNewRegistry (phr_incarnation w);
         c_smb2_init_context; c_smb2_parse_url ctx (ARG_URL md);
         c_smb2_set_security_mode ctx]
        ++ match (match ARG_DOMAIN md with
                  | Some d => Some d
                  | None => url_domain url
                  end) with
           | Some d => [c_smb2_set_domain ctx d]
           | None => []
           end
        ++ [c_smb2_set_password ctx; c_smb2_get_domain ctx]
        ++ (if dom =? 0 then [] else [c_smb2_get_domain ctx])
        ++ [c_smb2_connect_share ctx (url_server url) (url_share url) user;
            c_smb2_get_fd ctx; c_smb2_destroy_context ctx;
            c_smb2_init_context; c_smb2_set_timeout ctx2 0;
            c_smb2_connect_share ctx2 "192.168.1.52" "AmigaShare"
                                 (Some "Davide");
            c_smb2_disconnect_share ctx2; c_Delay 5;
            c_smb2_connect_share ctx2 (url_server url) (url_share url) user;
            c_smb2_get_error ctx2]
    ∧ count_calls is_time l = 17%nat.
Proof.
  intros md url user Hpw Hp Hmem Hctx Hparsed Hconnect Hfd Hctx2 Hhard Hagain
    Hscript.
  cbn [map app] in Hscript.
  apply Z.eqb_neq in Hp, Hmem, Hctx, Hparsed, Hctx2, Hhard.
  subst md url user.
  assert ((connect <? 0) = false) as Hc by lia.
  assert ((fd <=? 2) = true) as Hf by lia.
  assert ((again <? 0) = true) as Ha by lia.
  destruct (init_switches (ARG_RECONNECT_REQ (private_data w))
              (ARG_NO_HANDLES_RCV (private_data w)) w)
    as (w0 & Hswitch & Hscript0 & Hlog0).
  rewrite <- Hscript0 in Hscript. rewrite <- Hlog0. clear Hscript0 Hlog0.
  destruct (ARG_READONLY (private_data w)) eqn:Hro,
    (match ARG_DOMAIN (private_data w) with
     | Some d => Some d
     | None => url_domain (parsed_url (private_data w))
     end) as [d|] eqn:Hdomain,
    (dom =? 0) eqn:Hdom.
  all: eexists; eexists; split;
    [ intros fci; unfold smb2fs_init; rewrite bind_get; cbv zeta;
      rewrite Hswitch;
      irun; rewrite Hp; irun; rewrite Hmem; cbn [negb AllocateNewRegistry];
      irun; rewrite ?Hro; irun; rewrite Hctx; irun; rewrite Hparsed; irun;
      rewrite Hpw, bool_decide_eq_false_2 by done; cbn [andb]; irun;
      rewrite ?Hdomain; irun; rewrite Hdom; irun; rewrite Hc; irun;
      rewrite Hf;
      unfold fd_recovery; irun;
      cbn [smb2 set_smb2 set_phr set_rdonly]; rewrite Hctx; cbn [negb];
      irun; rewrite Hctx2; irun; rewrite Hhard; irun; rewrite Hf; irun;
      rewrite Ha; irun; rewrite Hf; irun; reflexivity
    | split; [reflexivity|]; split; [reflexivity|]; split;
      [ cbn [log called logged set_fsd set_phr_incarnation
               set_cfg_reconnect_req set_cfg_handles_rcv set_last_server
               smb2 set_smb2 set_phr set_rdonly];
        rewrite <- ?app_assoc; reflexivity
      | split; reflexivity ] ].
Qed.

(** X17: when the descriptor of the connection stays at [2] or below
    after the two recoveries, [smb2fs_init] returns [-ENODEV] from a
    function whose callers test the result against [NULL]: the session
    stays installed, not connected, on the context made by the
    recovery; only the first context is destroyed, neither the URL nor
    the registry nor [fsd] is released; and the block at the head of
    the operations goes on as after a successful connection.  Apart
    from seventeen readings of the clock for the debug output, the
    calls made are those listed, in this order: the domain is asked
    for after the password is set, a second time when the first answer
    [dom] is not [NULL], and the last call fetches the error text of
    the connection that failed. *)
Theorem init_invalid_descriptor fci w pw p mem ctx parsed dom connect fd ctx2
    hard again rest :
  let md := private_data w in
  let url := parsed_url md in
  let user := match ARG_USER md with Some u => Some u | None => url_user url end in
  ARG_PASSWORD md = Some pw →
  p ≠ 0 → mem ≠ 0 → ctx ≠ 0 → parsed ≠ 0 → 0 <= connect → fd <= 2 →
  ctx2 ≠ 0 → hard ≠ 0 → again < 0 →
  script w = map Int [p; mem; ctx; parsed; dom; connect; fd; ctx2; hard; again]
             ++ rest →
  ∃ w' l,
    smb2fs_init fci w = Ret (- ENODEV) w'
    ∧ fsd w' = Some (mkFs ctx2
                          (Some (mkRegistry [] 0 0 (phr_incarnation w) []))
                          (ARG_READONLY md) false None)
    ∧ script w' = rest
    ∧ log w' = log w ++ l
    ∧ List.filter (λ c, negb (is_time c)) l
      = [c_calloc; c_AllocateNewRegistry (phr_incarnation w);
         c_smb2_init_context; c_smb2_parse_url ctx (ARG_URL md);
         c_smb2_set_security_mode ctx]
        ++ match (match ARG_DOMAIN md with
                  | Some d => Some d
                  | None => url_domain url
                  end) with
           | Some d => [c_smb2_set_domain ctx d]
           | None => []
           end
        ++ [c_smb2_set_password ctx; c_smb2_get_domain ctx]
        ++ (if dom =? 0 then [] else [c_smb2_get_domain ctx])
        ++ [c_smb2_connect_share ctx (url_server url) (url_share url) user;
            c_smb2_get_fd ctx; c_smb2_destroy_context ctx;
            c_smb2_init_context; c_smb2_set_timeout ctx2 0;
            c_smb2_connect_share ctx2 "192.168.1.52" "AmigaShare"
                                 (Some "Davide");
            c_smb2_disconnect_share ctx2; c_Delay 5;
            c_smb2_connect_share ctx2 (url_server url) (url_share url) user;
            c_smb2_get_error ctx2]
    ∧ count_calls is_time l = 17%nat
    ∧ (fsd w = None → cfg_reconnect_req w = false →
       session_prologue w = Ret true w').
Proof.
  intros md url user Hpw Hp Hmem Hctx Hparsed Hconnect Hfd Hctx2 Hhard Hagain
    Hscript.
  destruct (fd_recovery_in_vain w pw p mem ctx parsed dom connect fd ctx2 hard
              again rest Hpw Hp Hmem Hctx Hparsed Hconnect Hfd Hctx2 Hhard
              Hagain Hscript)
    as (w' & l & Hrun & Hsession & Hrest & Hcalls & Hothers & Hclock).
  exists w', l.
  split; [exact (Hrun fci)|]. split; [exact Hsession|].
  split; [exact Hrest|]. split; [exact Hcalls|].
  split; [exact Hothers|]. split; [exact Hclock|].
  intros Hoff Hcfg. unfold session_prologue. rewrite bind_get, Hoff, Hcfg.
  rewrite (bind_Ret _ _ _ _ _ (Hrun false)). reflexivity.
Qed.

(** The descriptor [0], no domain, a recovery that cannot reach the
    server of the source, and a second connection that fails. *)
Lemma init_invalid_descriptor_witness :
  let w := example_offline false true
             (map Int [1000; 1; 2000; 1; 0; 0; 0; 3000; -1; -1]) in
  ∃ w',
    session_prologue w = Ret true w'
    ∧ fsd w' = Some (mkFs 3000 (Some (mkRegistry [] 0 0 2 [])) false false None)
    ∧ script w' = []
    ∧ List.filter (λ c, negb (is_time c)) (log w')
      = [c_calloc; c_AllocateNewRegistry 2; c_smb2_init_context;
         c_smb2_parse_url 2000 "smb://guest@server/share/sub";
         c_smb2_set_security_mode 2000; c_smb2_set_password 2000;
         c_smb2_get_domain 2000;
         c_smb2_connect_share 2000 "server" "share" (Some "guest");
         c_smb2_get_fd 2000; c_smb2_destroy_context 2000;
         c_smb2_init_context; c_smb2_set_timeout 3000 0;
         c_smb2_connect_share 3000 "192.168.1.52" "AmigaShare" (Some "Davide");
         c_smb2_disconnect_share 3000; c_Delay 5;
         c_smb2_connect_share 3000 "server" "share" (Some "guest");
         c_smb2_get_error 3000].
Proof.
  intros w.
  destruct (init_invalid_descriptor false w "secret" 1000 1 2000 1 0 0 0 3000
              (-1) (-1) [] eq_refl ltac:(lia) ltac:(lia) ltac:(lia) ltac:(lia)
              ltac:(lia) ltac:(lia) ltac:(lia) ltac:(lia) ltac:(lia) eq_refl)
    as (w' & l & _ & Hsession & Hrest & Hcalls & Hothers & _ & Hprologue).
  exists w'. split; [exact (Hprologue eq_refl eq_refl)|].
  split; [exact Hsession|]. split; [exact Hrest|].
  rewrite Hcalls. exact Hothers.
Defined.

(** *** The counter of the incarnations *)

Lemma stable_counter c : stable (λ w, phr_incarnation w = c).
Proof. split; intros w ?; intros; done. Qed.

Lemma counter_smb2fs_destroy c :
  triple (λ w, phr_incarnation w = c) smb2fs_destroy
         (λ _ w, phr_incarnation w = c).
Proof. intros w a w' Hw (_ & _ & _ & _ & H)%smb2fs_destroy_post. congruence. Qed.

Lemma counter_fd_recovery c url username fd :
  triple (λ w, phr_incarnation w = c) (fd_recovery url username fd)
         (λ _ w, phr_incarnation w = c).
Proof. intros w a w' Hw (_ & _ & _ & _ & H)%fd_recovery_post. congruence. Qed.

Ltac counter_keep :=
  repeat first
    [ apply inv_ext_int, stable_counter
    | apply inv_ext_void, stable_counter
    | apply inv_get_fsd
    | apply counter_smb2fs_destroy
    | apply counter_fd_recovery
    | apply triple_ret; intros; assumption
    | apply inv_modify; intros ? ?; assumption
    | apply inv_update_fsd; intros ? ? ? ?; assumption
    | match goal with
      | |- triple _ (if ?b then _ else _) _ => destruct b
      | |- triple _ (match ?x with _ => _ end) _ => destruct x
      | |- triple ?I (bind _ _) _ =>
          eapply (triple_bind _ _ _ (λ _, I)); [|intros ?]
      end ].

(** A run of [smb2fs_init] that obtains the memory of [fsd] moves the
    counter by one; one that does not leaves it. *)
Lemma smb2fs_init_counter fci w p w' :
  smb2fs_init fci w = Ret p w' →
  (phr_incarnation w' = phr_incarnation w ∧ p = 0)
  ∨ phr_incarnation w' = wrap32 (phr_incarnation w + 1).
Proof.
  intros H. unfold smb2fs_init in H. rewrite bind_get in H. cbv zeta in H.
  apply bind_inv in H as (u1 & w1 & H1 & H).
  apply bind_inv in H as (u2 & w2 & H2 & H).
  apply bind_inv in H as (p0 & w3 & H3 & H).
  assert (phr_incarnation w3 = phr_incarnation w) as Hinc.
  { clear H. apply ext_int_inv in H3 as (rest & _ & ->).
    destruct (ARG_RECONNECT_REQ _); minv_all;
      destruct (ARG_NO_HANDLES_RCV _); minv_all; done. }
  clear H1 H2 H3.
  destruct (p0 =? 0) eqn:Hp0.
  { left. minv_all. world_simpl. done. }
  right.
  apply bind_inv in H as (u4 & w4 & ->%put_fsd_inv & H).
  apply bind_inv in H as (u5 & w5 & ->%modify_inv & H).
  set (c := wrap32 (phr_incarnation w + 1)) in *.
  match type of H with
  | ?m _ = _ =>
      assert (triple (λ w, phr_incarnation w = c) m
                     (λ _ w, phr_incarnation w = c)) as Hm
  end.
  { unfold AllocateNewRegistry. counter_keep. }
  eapply Hm; [|exact H]. reflexivity.
Qed.

(** X18: what a run of [smb2fs_init] leaves.  The two switches are
    sticky: [RECONNECTREQ] can only turn the reconnection prompt on and
    [NOHANDLESRCV] can only turn the handle recovery off.  A result
    [NULL] comes with no session.  Any other result comes with a
    session whose registry is new and empty, of the incarnation the
    counter had, read-only as the mount asks; and the counter has
    moved by one, so that the next session has another incarnation. *)
Theorem init_outcome fci w p w' :
  smb2fs_init fci w = Ret p w' →
  let md := private_data w in
  private_data w' = md
  ∧ cfg_reconnect_req w' = cfg_reconnect_req w || ARG_RECONNECT_REQ md
  ∧ cfg_handles_rcv w' = cfg_handles_rcv w && negb (ARG_NO_HANDLES_RCV md)
  ∧ (p = 0 → fsd w' = None)
  ∧ (p ≠ 0 →
     phr_incarnation w' = wrap32 (phr_incarnation w + 1)
     ∧ ∃ s, fsd w' = Some s
            ∧ phr s = Some (mkRegistry [] 0 0 (phr_incarnation w) [])
            ∧ rdonly s = ARG_READONLY md).
Proof.
  intros H md.
  destruct (smb2fs_init_post fci w p w' H) as ((Hmd & Hr & Hh) & H0 & H1).
  split; [exact Hmd|]. split; [exact Hr|]. split; [exact Hh|].
  split; [exact H0|]. intros Hp. split; [|exact (H1 Hp)].
  destruct (smb2fs_init_counter fci w p w' H) as [[_ Hz]|Hc]; [lia|exact Hc].
Qed.

(** A connection made with no session, from the counter [2]. *)
Lemma init_outcome_witness :
  let w := example_offline false true (connect_answers 2000) in
  ∃ w',
    smb2fs_init false w = Ret 1000 w'
    ∧ phr_incarnation w' = 3
    ∧ cfg_reconnect_req w' = false ∧ cfg_handles_rcv w' = true
    ∧ ∃ s, fsd w' = Some s ∧ phr s = Some (mkRegistry [] 0 0 2 []).
Proof.
  intros w.
  assert (∃ w', smb2fs_init false w = Ret 1000 w') as [w' Hrun]
    by (eexists; vm_compute; reflexivity).
  destruct (init_outcome false w 1000 w' Hrun)
    as (_ & Hr & Hh & _ & H1).
  destruct (H1 ltac:(lia)) as (Hc & s & Hs & Hphr & _).
  exists w'. split; [exact Hrun|]. split; [exact Hc|].
  split; [exact Hr|]. split; [exact Hh|].
  exists s. split; [exact Hs|exact Hphr].
Defined.

(** *** The password *)

Lemma prompt_cancelled w p mem ctx parsed rest :
  let md := private_data w in
  ARG_PASSWORD md = None → url_password (parsed_url md) = None →
  ARG_NOPASSWORDREQ md = false →
  p ≠ 0 → mem ≠ 0 → ctx ≠ 0 → parsed ≠ 0 →
  script w = map Int [p; mem; ctx; parsed; 0] ++ rest →
  ∃ w',
    (∀ fci, smb2fs_init fci w = Ret 0 w')
    ∧ fsd w' = None ∧ script w' = rest
    ∧ log w'
      = log w
        ++ [c_calloc; c_AllocateNewRegistry (phr_incarnation w);
            c_smb2_init_context; c_smb2_parse_url ctx (ARG_URL md);
            c_request_password; c_request_error;
            c_smb2_destroy_context ctx;
            c_FreeRegistry (phr_incarnation w); c_free_fsd].
Proof.
  intros md Hpw Hurl Hreq Hp Hmem Hctx Hparsed Hscript.
  cbn [map app] in Hscript.
  apply Z.eqb_neq in Hp, Hmem, Hctx, Hparsed.
  subst md.
  destruct (ARG_RECONNECT_REQ (private_data w)) eqn:Hrec,
    (ARG_NO_HANDLES_RCV (private_data w)) eqn:Hnohandles,
    (ARG_READONLY (private_data w)) eqn:Hro.
  all: eexists; split;
    [ intros fci; unfold smb2fs_init; rewrite bind_get; cbv zeta;
      rewrite Hrec, Hnohandles;
      irun; rewrite Hp; irun; rewrite Hmem; cbn [negb AllocateNewRegistry];
      irun; rewrite Hro; irun; rewrite Hctx; irun; rewrite Hparsed; irun;
      rewrite Hpw, Hurl, Hreq, bool_decide_eq_true_2 by done;
      cbn [andb negb]; irun; change (0 =? 0) with true; cbn iota; irun;
      unfold smb2fs_destroy; irun;
      cbn [fsd set_fsd called logged set_last_server set_phr_incarnation
             set_cfg_reconnect_req set_cfg_handles_rcv
             smb2 connected rootdir phr set_smb2 set_phr set_rdonly
             incarnation];
      rewrite Hctx; cbn [negb]; irun; reflexivity
    | split_and!;
      [ reflexivity | reflexivity
      | cbn [log called logged set_fsd set_phr_incarnation
               set_cfg_reconnect_req set_cfg_handles_rcv set_last_server];
        rewrite <- ?app_assoc; reflexivity ] ].
Qed.

(** X19: the password.  [smb2fs_init] asks for one only when neither
    the arguments nor the URL give it and [NOPASSWORDREQ] is not set.
    When the user gives none, the result is [NULL]: the session is
    taken down, no connection is attempted, and the URL that was
    parsed is not destroyed. *)
Theorem password_prompt w :
  let md := private_data w in
  let given :=
    match ARG_PASSWORD md with
    | Some pw => Some pw
    | None => url_password (parsed_url md)
    end in
  (is_Some given ∨ ARG_NOPASSWORDREQ md = true →
   ∀ fci p w',
     smb2fs_init fci w = Ret p w' →
     ∃ l, log w' = log w ++ l ∧ Forall (λ c, c ≠ c_request_password) l)
  ∧ (given = None → ARG_NOPASSWORDREQ md = false →
     ∀ p mem ctx parsed rest,
       p ≠ 0 → mem ≠ 0 → ctx ≠ 0 → parsed ≠ 0 →
       script w = map Int [p; mem; ctx; parsed; 0] ++ rest →
       ∃ w',
         (∀ fci, smb2fs_init fci w = Ret 0 w')
         ∧ fsd w' = None ∧ script w' = rest
         ∧ log w'
           = log w
             ++ [c_calloc; c_AllocateNewRegistry (phr_incarnation w);
                 c_smb2_init_context; c_smb2_parse_url ctx (ARG_URL md);
                 c_request_password; c_request_error;
                 c_smb2_destroy_context ctx;
                 c_FreeRegistry (phr_incarnation w); c_free_fsd]).
Proof.
  intros md given. split.
  - intros Hgiven fci p w' H.
    assert (bool_decide (given = None) && negb (ARG_NOPASSWORDREQ md) = false)
      as Hquiet.
    { destruct Hgiven as [[pw Hpw]| ->].
      - rewrite Hpw. by rewrite bool_decide_eq_false_2.
      - apply andb_false_r. }
    unfold smb2fs_init in H. rewrite bind_get in H. cbv zeta in H.
    fold md in H. fold given in H. rewrite Hquiet in H.
    match type of H with
    | ?m _ = _ => assert (logs (λ c, c ≠ c_request_password) m) as Hm
    end.
    { assert (logs (λ c, c ≠ c_request_password) smb2fs_destroy)
        by (unfold smb2fs_destroy; logs_use; done).
      assert (∀ url username fd,
                logs (λ c, c ≠ c_request_password)
                     (fd_recovery url username fd))
        by (intros; unfold fd_recovery; logs_use; done).
      logs_use; done. }
    exact (Hm _ _ _ H).
  - intros Hnone Hreq p mem ctx parsed rest Hp Hmem Hctx Hparsed Hscript.
    subst given.
    destruct (ARG_PASSWORD md) as [pw|] eqn:Hpw; [discriminate Hnone|].
    exact (prompt_cancelled w p mem ctx parsed rest Hpw Hnone Hreq Hp Hmem
             Hctx Hparsed Hscript).
Qed.

(** A mount that gives the password. *)
Lemma password_prompt_witness :
  let w := example_offline false true (connect_answers 2000) in
  ∃ w' l,
    smb2fs_init false w = Ret 1000 w'
    ∧ log w' = log w ++ l ∧ Forall (λ c, c ≠ c_request_password) l.
Proof.
  intros w.
  destruct (password_prompt w) as [H _].
  assert (∃ w', smb2fs_init false w = Ret 1000 w') as [w' Hrun]
    by (eexists; vm_compute; reflexivity).
  destruct (H (or_introl (ex_intro _ "secret" eq_refl)) false 1000 w' Hrun)
    as (l & Hlog & Hl).
  exists w', l. split; [exact Hrun|]. split; [exact Hlog|exact Hl].
Defined.

(** *** The end of a session *)

(** X20: [smb2fs_destroy] always returns, takes no answer, and leaves
    no session.  With a session, the share is disconnected when it was
    connected, and the context, the root directory, the registry and
    [fsd] are each released once, those that exist; with none, nothing
    is done, so that a second call in a row is harmless. *)
Theorem destroy_releases_once w :
  ∃ w',
    smb2fs_destroy w = Ret tt w'
    ∧ fsd w' = None ∧ script w' = script w
    ∧ smb2fs_destroy w' = Ret tt w'
    ∧ match fsd w with
      | None => w' = w
      | Some s =>
          log w'
          = log w
            ++ (if smb2 s =? 0 then []
                else (if connected s then [c_smb2_disconnect_share (smb2 s)]
                      else [])
                     ++ [c_smb2_destroy_context (smb2 s)])
            ++ match rootdir s with
               | Some _ => [c_free_rootdir]
               | None => []
               end
            ++ match phr s with
               | Some r => [c_FreeRegistry (incarnation r)]
               | None => []
               end
            ++ [c_free_fsd]
      end.
Proof.
  unfold smb2fs_destroy. rewrite bind_get.
  destruct (fsd w) as [s|] eqn:Hfsd.
  - destruct (smb2 s =? 0), (connected s), (rootdir s), (phr s);
      cbn [negb]; mrun; eexists; (split; [reflexivity|]);
      rewrite bind_get; cbn [fsd set_fsd logged script log];
      rewrite ?app_nil_r, <- ?app_assoc; done.
  - exists w. rewrite bind_get, Hfsd. done.
Qed.

(** *** The reconnection prompt *)

Lemma smb2fs_init_no_memory fci w rest :
  script w = Int 0 :: rest →
  ∃ w',
    smb2fs_init fci w = Ret 0 w'
    ∧ fsd w' = None ∧ script w' = rest
    ∧ log w' = log w ++ [c_calloc; c_request_error]
    ∧ last_server w' = last_server w
    ∧ (cfg_reconnect_req w = true → cfg_reconnect_req w' = true).
Proof.
  intros Hscript. unfold smb2fs_init. rewrite bind_get. cbv zeta.
  destruct (ARG_RECONNECT_REQ (private_data w)),
    (ARG_NO_HANDLES_RCV (private_data w)).
  all: irun; change (0 =? 0) with true; cbn iota; irun.
  all: eexists; split; [reflexivity|].
  all: cbn [fsd script log last_server cfg_reconnect_req logged set_fsd called
              set_cfg_reconnect_req set_cfg_handles_rcv].
  all: by rewrite <- ?app_assoc.
Qed.

Lemma reconnect_loop_refused n : ∀ w rest,
  fsd w = None →
  script w = concat (replicate n [Int 1; Int 0]) ++ Int 0 :: rest →
  ∃ w',
    reconnect_loop w = Ret false w'
    ∧ fsd w' = None ∧ script w' = rest
    ∧ log w'
      = log w
        ++ concat (replicate n [c_request_reconnect (last_server w);
                                c_calloc; c_request_error])
        ++ [c_request_reconnect (last_server w)].
Proof.
  induction n as [|n IH]; intros w rest Hfsd Hscript;
    cbn [replicate concat app] in Hscript;
    unfold reconnect_loop; unfold bind at 1;
    rewrite loop_unfold by (intros; script_use); mrun.
  - change (0 =? 0) with true. cbn iota. mrun.
    eexists. split; [reflexivity|]. by cbn.
  - change (1 =? 0) with false. cbn iota. mrun.
    set (w1 := called (c_request_reconnect (last_server w))
                 (Int 0 :: concat (replicate n [Int 1; Int 0])
                          ++ Int 0 :: rest) w).
    destruct (smb2fs_init_no_memory false w1 _ eq_refl)
      as (w2 & Hinit & Hfsd2 & Hscript2 & Hlog2 & Hsrv2 & _).
    rewrite (bind_Ret _ _ _ _ _ Hinit).
    change (0 =? 0) with true. cbn iota. mrun.
    destruct (IH w2 rest Hfsd2 Hscript2)
      as (w' & Hrun & Hfsd' & Hscript' & Hlog').
    exists w'. split; [|split_and!; try done].
    + unfold reconnect_loop in Hrun. exact Hrun.
    + rewrite Hlog', Hlog2, Hsrv2. cbn [w1 log called last_server
                                          replicate concat app].
      by rewrite <- !app_assoc.
Qed.

(** X21: with [RECONNECTREQ], the fault handler asks the user before
    every attempt to connect, and again after every attempt that
    fails, without a limit; when the user refuses, the answer is
    [FALSE], with no session and no further attempt.  (The attempts
    fail at [calloc].) *)
Theorem reconnect_asks_again n w s rest :
  fsd w = Some s → cfg_reconnect_req w = true →
  script w = concat (replicate n [Int 1; Int 0]) ++ Int 0 :: rest →
  ∃ w',
    handle_connection_fault w = Ret false w'
    ∧ fsd w' = None ∧ script w' = rest
    ∧ log w'
      = log (torn_down s w)
        ++ concat (replicate n [c_request_reconnect (last_server w);
                                c_calloc; c_request_error])
        ++ [c_request_reconnect (last_server w)].
Proof.
  intros Hfsd Hcfg Hscript.
  rewrite (handle_connection_fault_eq w s Hfsd), Hcfg.
  exact (reconnect_loop_refused n (torn_down s w) rest eq_refl Hscript).
Qed.

(** Two attempts before the refusal. *)
Lemma reconnect_asks_again_witness :
  let w := example_world true true [Int 1; Int 0; Int 1; Int 0; Int 0] in
  ∃ w',
    handle_connection_fault w = Ret false w'
    ∧ fsd w' = None
    ∧ log w' = [c_smb2_get_error 2000; c_request_error;
                c_smb2_destroy_context 2000; c_free_rootdir; c_free_fsd;
                c_request_reconnect "server"; c_calloc; c_request_error;
                c_request_reconnect "server"; c_calloc; c_request_error;
                c_request_reconnect "server"].
Proof.
  intros w.
  destruct (reconnect_asks_again 2 w example_session [] eq_refl eq_refl
              eq_refl) as (w' & Hrun & Hfsd & _ & Hlog).
  exists w'. split; [exact Hrun|]. split; [exact Hfsd|exact Hlog].
Defined.

(** *** A connection that succeeds *)

(** X22: a connection that succeeds (a password is given, the
    descriptor is above [2]).  [smb2fs_init] returns the address of
    [fsd], with the session connected on the context it made, a new
    registry, the root directory computed from the path of the URL
    (none when that path is empty or only names the root), and
    [last_server] set to the server of the URL.  The timeout is
    disabled, the two socket options are set when the descriptor is
    not negative, the volume name is set only when the host passes its
    connection information (the first initialization), from [VOLUME]
    or else from the server and the share, and the URL is destroyed
    last.  For the debug output the domain is asked for after the
    password is set, a second time when the first answer [dom] is not
    [NULL], and the clock is read before and after the descriptor is
    first fetched. *)
Theorem init_connects fci w pw p mem ctx parsed dom connect fd sock copy
    rest :
  let md := private_data w in
  let url := parsed_url md in
  let user := match ARG_USER md with Some u => Some u | None => url_user url end in
  ARG_PASSWORD md = Some pw →
  p ≠ 0 → mem ≠ 0 → ctx ≠ 0 → parsed ≠ 0 → 0 <= connect → 2 < fd →
  sock < 0 ∨ 2 < sock → copy ≠ 0 →
  script w
  = map Int [p; mem; ctx; parsed; dom; connect; fd; sock]
    ++ match rootdir_of (url_path url) with
       | Some _ => [Int copy]
       | None => []
       end
    ++ rest →
  ∃ w',
    smb2fs_init fci w = Ret p w'
    ∧ fsd w' = Some (mkFs ctx (Some (mkRegistry [] 0 0 (phr_incarnation w) []))
                          (ARG_READONLY md) true (rootdir_of (url_path url)))
    ∧ script w' = rest
    ∧ last_server w' = strlcpy (url_server url) 128
    ∧ log w'
      = log w
        ++ [c_calloc; c_AllocateNewRegistry (phr_incarnation w);
            c_smb2_init_context; c_smb2_parse_url ctx (ARG_URL md);
            c_smb2_set_security_mode ctx]
        ++ match (match ARG_DOMAIN md with
                  | Some d => Some d
                  | None => url_domain url
                  end) with
           | Some d => [c_smb2_set_domain ctx d]
           | None => []
           end
        ++ [c_smb2_set_password ctx; c_smb2_get_domain ctx]
        ++ (if dom =? 0 then [] else [c_smb2_get_domain ctx])
        ++ [c_smb2_connect_share ctx (url_server url) (url_share url) user;
            c_time; c_smb2_get_fd ctx; c_time;
            c_smb2_set_timeout ctx 0; c_smb2_get_fd ctx]
        ++ (if 0 <=? sock then [c_setsockopt sock; c_setsockopt sock] else [])
        ++ match rootdir_of (url_path url) with
           | Some pathbuf => [c_strdup pathbuf]
           | None => []
           end
        ++ (if fci then
              [c_set_volume_name
                 (match ARG_VOLUME md with
                  | Some v => v
                  | None => url_server url +:+ "-" +:+ url_share url
                  end)]
            else [])
        ++ [c_smb2_destroy_url].
Proof.
  intros md url user Hpw Hp Hmem Hctx Hparsed Hconnect Hfd Hsock Hcopy Hscript.
  cbn [map app] in Hscript.
  apply Z.eqb_neq in Hp, Hmem, Hctx, Hparsed, Hcopy.
  subst md url user.
  assert ((connect <? 0) = false) as Hc by lia.
  assert ((fd <=? 2) = false) as Hf by lia.
  assert ((0 <=? sock) && (sock <=? 2) = false) as Hs.
  { destruct Hsock; [apply andb_false_iff; left|apply andb_false_iff; right];
      lia. }
  destruct (init_switches (ARG_RECONNECT_REQ (private_data w))
              (ARG_NO_HANDLES_RCV (private_data w)) w)
    as (w0 & Hswitch & Hscript0 & Hlog0).
  rewrite <- Hscript0 in Hscript. rewrite <- Hlog0. clear Hscript0 Hlog0.
  unfold smb2fs_init. rewrite bind_get. cbv zeta. rewrite Hswitch.
  clear Hswitch.
  destruct (match ARG_DOMAIN (private_data w) with
            | Some d => Some d
            | None => url_domain (parsed_url (private_data w))
            end) as [d|] eqn:Hdomain,
    (rootdir_of (url_path (parsed_url (private_data w)))) as [pathbuf|]
      eqn:Hroot,
    (0 <=? sock) eqn:Hsign, fci, (ARG_READONLY (private_data w)) eqn:Hro,
    (dom =? 0) eqn:Hdom.
  all: cbn [app] in Hscript.
  all: eexists; split;
    [ irun; rewrite Hp; irun; rewrite Hmem; cbn [negb AllocateNewRegistry];
      irun; rewrite ?Hro; irun; rewrite Hctx; irun; rewrite Hparsed; irun;
      rewrite Hpw, bool_decide_eq_false_2 by done; cbn [andb]; irun;
      rewrite ?Hdomain; irun; rewrite Hdom; irun; rewrite Hc; irun;
      rewrite Hf; irun; rewrite Hf; irun;
      cbn [smb2 set_smb2 set_phr set_rdonly]; irun;
      rewrite Hsign, Hs; irun; rewrite ?Hroot; irun; rewrite ?Hcopy; irun;
      reflexivity
    | split_and!;
      [ reflexivity | reflexivity | reflexivity
      | cbn [log called logged set_fsd set_phr_incarnation
               set_cfg_reconnect_req set_cfg_handles_rcv set_last_server
               smb2 set_smb2 set_phr set_rdonly set_connected set_rootdir];
        rewrite <- ?app_assoc; reflexivity ] ].
Qed.

(** A reconnection: the volume name is left alone. *)
Lemma init_connects_witness :
  let w := example_offline false true (connect_answers 2000) in
  ∃ w',
    smb2fs_init false w = Ret 1000 w'
    ∧ fsd w' = Some (mkFs 2000 (Some (mkRegistry [] 0 0 2 [])) false true
                          (Some "/sub"))
    ∧ log w' = [c_calloc; c_AllocateNewRegistry 2; c_smb2_init_context;
                c_smb2_parse_url 2000 "smb://guest@server/share/sub";
                c_smb2_set_security_mode 2000; c_smb2_set_password 2000;
                c_smb2_get_domain 2000;
                c_smb2_connect_share 2000 "server" "share" (Some "guest");
                c_time; c_smb2_get_fd 2000; c_time;
                c_smb2_set_timeout 2000 0;
                c_smb2_get_fd 2000; c_setsockopt 5; c_setsockopt 5;
                c_strdup "/sub"; c_smb2_destroy_url].
Proof.
  intros w.
  destruct (init_connects false w "secret" 1000 1 2000 1 0 0 5 5 1 []
              eq_refl ltac:(lia) ltac:(lia) ltac:(lia) ltac:(lia) ltac:(lia)
              ltac:(lia) ltac:(lia) ltac:(lia) eq_refl)
    as (w' & Hrun & Hfsd & _ & _ & Hlog).
  exists w'. split; [exact Hrun|]. split; [exact Hfsd|exact Hlog].
Defined.

(** * The root directory *)

Import PathStack.

Lemma string_app_cons a s t : String a s +:+ t = String a (s +:+ t).
Proof. reflexivity. Qed.

Lemma string_app_nil_l t : "" +:+ t = t.
Proof. reflexivity. Qed.

Ltac string_simpl :=
  rewrite ?string_app_cons, ?string_app_nil_l; cbn [String.length].

Lemma string_length_app s t :
  String.length (s +:+ t) = (String.length s + String.length t)%nat.
Proof.
  induction s as [|a s IH]; string_simpl; [done|]. by rewrite IH.
Qed.

Lemma string_app_assoc s t u : (s +:+ t) +:+ u = s +:+ (t +:+ u).
Proof.
  induction s as [|a s IH]; string_simpl; [done|]. by rewrite IH.
Qed.

Lemma string_app_nil_r s : s +:+ "" = s.
Proof.
  induction s as [|a s IH]; string_simpl; [done|]. by rewrite IH.
Qed.

Lemma substring_0_app s t : String.substring 0 (String.length s) (s +:+ t) = s.
Proof.
  induction s as [|a s IH]; string_simpl; cbn [String.substring];
    [by destruct t|]. by rewrite IH.
Qed.

Lemma substring_0_all s n :
  (String.length s <= n)%nat → String.substring 0 n s = s.
Proof.
  revert n. induction s as [|a s IH]; intros n Hn; cbn [String.substring].
  - by destruct n.
  - destruct n as [|n]; cbn [String.length] in Hn; [lia|].
    rewrite IH; [done|lia].
Qed.

Lemma substring_skip s t n :
  String.substring (String.length s) n (s +:+ t) = String.substring 0 n t.
Proof.
  induction s as [|a s IH]; string_simpl; cbn [String.substring]; done.
Qed.

Lemma string_drop_app s t : string_drop (String.length s) (s +:+ t) = t.
Proof.
  unfold string_drop. rewrite substring_skip, string_length_app.
  apply substring_0_all. lia.
Qed.

Lemma index_of_app seg t :
  index_of slash seg = None →
  index_of slash (seg +:+ String slash t) = Some (String.length seg).
Proof.
  induction seg as [|a seg IH]; string_simpl; cbn [index_of].
  - by rewrite Ascii.eqb_refl.
  - destruct (Ascii.eqb a slash); [done|].
    destruct (index_of slash seg) eqn:Hseg; [done|]. intros _.
    by rewrite IH.
Qed.

Lemma rindex_of_None seg :
  index_of slash seg = None → rindex_of slash seg = None.
Proof.
  induction seg as [|a seg IH]; cbn [index_of rindex_of]; [done|].
  destruct (Ascii.eqb a slash); [done|].
  destruct (index_of slash seg); [done|]. intros _. by rewrite IH.
Qed.

Lemma rindex_of_app s seg :
  index_of slash seg = None →
  rindex_of slash (s +:+ String slash seg) = Some (String.length s).
Proof.
  intros Hseg%rindex_of_None.
  induction s as [|a s IH]; string_simpl; cbn [rindex_of].
  - rewrite Hseg. by rewrite Ascii.eqb_refl.
  - by rewrite IH.
Qed.

(** [SplitName] at a piece that a slash follows, and at the last
    piece. *)
Lemma SplitName_middle pre seg rest :
  piece seg →
  SplitName (pre +:+ seg +:+ String slash rest) slash (String.length pre)
            NAMEBUF_SIZE
  = (seg, Z.of_nat (String.length pre + String.length seg + 1)).
Proof.
  intros [Hslash Hlen]. unfold SplitName.
  rewrite string_drop_app, index_of_app by done.
  assert ((String.length seg <=? NAMEBUF_SIZE - 1)%nat = true) as ->
    by (apply Nat.leb_le; lia).
  by rewrite substring_0_app.
Qed.

Lemma SplitName_last pre seg :
  piece seg →
  SplitName (pre +:+ seg) slash (String.length pre) NAMEBUF_SIZE = (seg, -1).
Proof.
  intros [Hslash Hlen]. unfold SplitName.
  rewrite string_drop_app, Hslash.
  rewrite substring_0_all by lia. done.
Qed.

Lemma strlcat_fits dst src :
  (String.length dst + String.length src < MAXPATHLEN)%nat →
  strlcat dst src MAXPATHLEN = dst +:+ src.
Proof.
  intros Hfits. unfold strlcat.
  assert ((MAXPATHLEN <=? String.length dst)%nat = false) as ->
    by (apply Nat.leb_gt; lia).
  rewrite substring_0_all by lia. done.
Qed.

Lemma render_app stack seg :
  render (stack ++ [seg]) = render stack +:+ String slash seg.
Proof.
  induction stack as [|a stack IH]; cbn [render app].
  - string_simpl. by rewrite string_app_nil_r.
  - rewrite IH. string_simpl. by rewrite string_app_assoc.
Qed.

Lemma render_length_app stack seg :
  String.length (render (stack ++ [seg]))
  = (String.length (render stack) + 1 + String.length seg)%nat.
Proof. rewrite render_app, string_length_app. cbn [String.length]. lia. Qed.

Lemma removelast_snoc {A} (l : list A) x : removelast (l ++ [x]) = l.
Proof. induction l as [|a [|b l] IH]; cbn in *; [done..|]. by rewrite IH. Qed.

(** The names retained are pieces, and their text is not longer than
    the text read with one more piece. *)
Lemma keep_pieces stack seg :
  Forall piece stack → piece seg → Forall piece (keep stack seg).
Proof.
  intros Hstack Hseg. unfold keep.
  destruct (String.eqb seg ""); [done|].
  destruct (String.eqb seg "."); [done|].
  destruct (String.eqb seg "..").
  - destruct stack as [|a stack0]; [by constructor|].
    destruct (exists_last (l := a :: stack0) ltac:(done)) as (names & x & Heq).
    rewrite Heq in *. rewrite removelast_snoc.
    by apply Forall_app in Hstack as [? _].
  - apply Forall_app. split; [done|]. by constructor.
Qed.

Lemma keep_length stack seg :
  (String.length (render (keep stack seg))
   <= String.length (render stack) + 1 + String.length seg)%nat.
Proof.
  unfold keep.
  destruct (String.eqb seg ""); [lia|].
  destruct (String.eqb seg "."); [lia|].
  destruct (String.eqb seg "..").
  - destruct stack as [|a stack0].
    + cbn [render]. string_simpl. rewrite string_app_nil_r. lia.
    + destruct (exists_last (l := a :: stack0) ltac:(done))
        as (names & x & Heq).
      rewrite Heq. rewrite removelast_snoc, render_length_app. lia.
  - rewrite render_length_app. lia.
Qed.

(** One turn of the loop, on the names retained. *)
Lemma normalize_step_keep patharg pos stack seg pos' :
  SplitName patharg slash pos NAMEBUF_SIZE = (seg, pos') →
  Forall piece stack →
  (String.length (render stack) + 1 + String.length seg < MAXPATHLEN)%nat →
  normalize_step patharg pos (render stack) = (render (keep stack seg), pos').
Proof.
  intros Hsplit Hstack Hfits. unfold normalize_step, keep. rewrite Hsplit.
  destruct (String.eqb seg ""); [done|].
  destruct (String.eqb seg "."); [done|].
  assert (strlcat (strlcat (render stack) "/" MAXPATHLEN) seg MAXPATHLEN
          = render (stack ++ [seg])) as Happend.
  { rewrite (strlcat_fits (render stack) "/") by (cbn [String.length]; lia).
    rewrite strlcat_fits
      by (rewrite string_length_app; cbn [String.length]; lia).
    rewrite render_app, string_app_assoc. by string_simpl. }
  cbv zeta. rewrite Happend.
  destruct (String.eqb seg "..") eqn:Hdots; [|done].
  destruct stack as [|a stack0]; [done|].
  destruct (exists_last (l := a :: stack0) ltac:(done)) as (names & x & Heq).
  rewrite Heq in *. apply Forall_app in Hstack as [_ Hx].
  apply Forall_inv in Hx as [Hx _].
  rewrite removelast_snoc, (render_app names x), rindex_of_app by done.
  by rewrite substring_0_app.
Qed.

Lemma normalize_loop_keep segs : ∀ pre stack fuel,
  segs ≠ [] → Forall piece segs → Forall piece stack →
  (String.length (render stack) <= String.length pre)%nat →
  (String.length (pre +:+ join segs) + 1 < MAXPATHLEN)%nat →
  (length segs <= fuel)%nat →
  normalize_loop fuel (pre +:+ join segs) (String.length pre) (render stack)
  = render (fold_left keep segs stack).
Proof.
  induction segs as [|seg segs IH]; intros pre stack fuel Hne Hsegs Hstack
    Hlen Hfits Hfuel; [done|].
  apply Forall_cons in Hsegs as [Hseg Hsegs].
  destruct fuel as [|fuel]; [cbn [length] in Hfuel; lia|].
  cbn [normalize_loop fold_left].
  destruct segs as [|seg' segs].
  - cbn [join] in *. rewrite string_length_app in Hfits.
    rewrite (normalize_step_keep _ _ stack seg (-1)
               (SplitName_last pre seg Hseg) Hstack); [done|lia].
  - change (join (seg :: seg' :: segs))
      with (seg +:+ String slash (join (seg' :: segs))) in *.
    rewrite (normalize_step_keep _ _ stack seg _
               (SplitName_middle pre seg _ Hseg) Hstack).
    2:{ rewrite !string_length_app in Hfits. cbn [String.length] in Hfits.
        lia. }
    assert ((Z.of_nat (String.length pre + String.length seg + 1) =? -1)
            = false) as -> by (apply Z.eqb_neq; lia).
    rewrite Nat2Z.id.
    set (pre' := pre +:+ seg +:+ "/").
    assert (String.length pre' = String.length pre + String.length seg + 1)%nat
      as Hpre'.
    { unfold pre'. rewrite !string_length_app. cbn [String.length]. lia. }
    assert (pre +:+ seg +:+ String slash (join (seg' :: segs))
            = pre' +:+ join (seg' :: segs)) as Hpath.
    { unfold pre'. rewrite !string_app_assoc. by string_simpl. }
    rewrite Hpath in *. rewrite <- Hpre'.
    apply IH; try done.
    + by apply keep_pieces.
    + pose proof (keep_length stack seg). lia.
    + cbn [length] in *. lia.
Qed.

Lemma join_length segs :
  (length segs <= S (String.length (join segs)))%nat.
Proof.
  induction segs as [|seg [|seg' segs] IH]; cbn [length join] in *; [lia..|].
  rewrite !string_length_app. cbn [String.length]. lia.
Qed.

(** X23: the root directory of the mount, for a path of the URL made
    of the pieces [segs] with a slash between two of them (each
    shorter than [namebuf], the whole shorter than [pathbuf]): the
    loop retains the pieces as a stack.  Empty pieces and [.] are
    passed over, [..] removes the name retained last, and, when none is
    retained, is itself retained as a name. *)
Theorem normalize_path_stack segs :
  segs ≠ [] → Forall piece segs →
  (String.length (join segs) + 1 < MAXPATHLEN)%nat →
  normalize_path (join segs) = render (fold_left keep segs []).
Proof.
  intros Hne Hsegs Hfits. unfold normalize_path.
  apply (normalize_loop_keep segs "" [] _ Hne Hsegs).
  - constructor.
  - cbn [render String.length]. lia.
  - by string_simpl.
  - apply join_length.
Qed.

(** The path [a/./b//../c]. *)
Lemma normalize_path_stack_witness :
  normalize_path "a/./b//../c" = "/a/c"
  ∧ rootdir_of (Some "a/./b//../c") = Some "/a/c".
Proof.
  assert (normalize_path "a/./b//../c" = "/a/c") as H.
  { apply (normalize_path_stack ["a"; "."; "b"; ""; ".."; "c"]).
    - discriminate.
    - repeat constructor.
    - apply Nat.ltb_lt. reflexivity. }
  split; [exact H|]. unfold rootdir_of. cbn [String.eqb Ascii.eqb].
  cbv zeta. rewrite H. reflexivity.
Defined.

(** ** The path handed to the server *)

Lemma substring_0_length s n :
  String.length (String.substring 0 n s) = Nat.min n (String.length s).
Proof.
  revert n. induction s as [|a s IH]; intros [|n];
    cbn [String.substring String.length]; try done.
  by rewrite IH.
Qed.

Lemma substring_0_app_short a b n :
  (n <= String.length a)%nat →
  String.substring 0 n (a +:+ b) = String.substring 0 n a.
Proof.
  revert n. induction a as [|c a IH]; intros n Hn; string_simpl;
    cbn [String.length] in Hn.
  - assert (n = 0)%nat as -> by lia. by destruct b.
  - destruct n as [|n]; cbn [String.substring]; [done|].
    rewrite IH; [done|lia].
Qed.

Lemma substring_0_app_long a b n :
  (String.length a <= n)%nat →
  String.substring 0 n (a +:+ b)
  = a +:+ String.substring 0 (n - String.length a) b.
Proof.
  revert n. induction a as [|c a IH]; intros n Hn; string_simpl;
    cbn [String.length] in *.
  - by rewrite Nat.sub_0_r.
  - destruct n as [|n]; [lia|]. cbn [String.substring Nat.sub].
    rewrite IH; [done|lia].
Qed.

Lemma strlcat_strlcpy root path :
  strlcat (strlcpy root MAXPATHLEN) path MAXPATHLEN
  = String.substring 0 (MAXPATHLEN - 1) (root +:+ path).
Proof.
  unfold strlcat, strlcpy.
  pose proof (substring_0_length root (MAXPATHLEN - 1)) as Hlen.
  assert (0 < MAXPATHLEN)%nat as Hpos by (unfold MAXPATHLEN; lia).
  assert ((MAXPATHLEN <=? String.length
                            (String.substring 0 (MAXPATHLEN - 1) root))%nat
          = false) as -> by (apply Nat.leb_gt; lia).
  rewrite Hlen.
  destruct (Nat.le_gt_cases (String.length root) (MAXPATHLEN - 1))
    as [Hshort|Hlong].
  - rewrite Nat.min_r by done.
    rewrite (substring_0_all root) by done.
    by rewrite substring_0_app_long.
  - rewrite Nat.min_l by lia. rewrite Nat.sub_diag.
    rewrite (substring_0_app_short root path) by lia.
    assert (String.substring 0 0 path = "") as -> by by destruct path.
    by rewrite string_app_nil_r.
Qed.

(** X24: the path handed to the server.  With a root directory it is
    the root directory followed by the path of the caller, cut without
    notice at the 1023 characters of [pathbuf], with one slash removed
    at its head; it is never longer than 1023 characters.  With no
    root directory the path of the caller is not cut. *)
Theorem remote_path_cut s path :
  match rootdir s with
  | Some root =>
      remote_path s path
      = skip_slash (String.substring 0 (MAXPATHLEN - 1) (root +:+ path))
      ∧ (String.length (remote_path s path) < MAXPATHLEN)%nat
      ∧ ((String.length root + String.length path < MAXPATHLEN)%nat →
         remote_path s path = skip_slash (root +:+ path))
  | None => remote_path s path = skip_slash path
  end.
Proof.
  unfold remote_path. destruct (rootdir s) as [root|]; [|done].
  rewrite strlcat_strlcpy. fold (skip_slash
    (String.substring 0 (MAXPATHLEN - 1) (root +:+ path))).
  split; [done|]. split.
  - pose proof (substring_0_length (root +:+ path) (MAXPATHLEN - 1)) as Hlen.
    assert (0 < MAXPATHLEN)%nat as Hpos by (unfold MAXPATHLEN; lia).
    destruct (String.substring 0 (MAXPATHLEN - 1) (root +:+ path))
      as [|a rest]; cbn [skip_slash String.length] in *; [lia|].
    repeat case_match; cbn [String.length]; lia.
  - intros Hfits. rewrite substring_0_all; [done|].
    rewrite string_length_app. lia.
Qed.

(** The file [/f] of a mount with the root directory [/sub]. *)
Lemma remote_path_cut_witness :
  remote_path example_session "/f" = "sub/f".
Proof.
  pose proof (remote_path_cut example_session "/f") as H.
  change (rootdir example_session) with (Some "/sub") in H.
  destruct H as (_ & _ & H).
  rewrite H; [reflexivity|]. apply Nat.ltb_lt. reflexivity.
Defined.

(** ** Outcomes outside the two tiers *)

(** X25: [utimens] and [create] have rules of their own.  [utimens]
    makes its call once and returns every negative result as it is,
    [-1] included: there is no connection-fault path, and the session
    is untouched.  [create] asks for a new file with read-write
    access; when the server refuses it without a connection fault the
    result is [-1], whatever the status, and no handle is made. *)
Theorem utimens_create_outcomes path w s :
  fsd w = Some s → rdonly s = false →
  let ctx := smb2 s in
  let p := remote_path s path in
  (∀ rc rest,
     script w = Int rc :: rest →
     smb2fs_utimens path w
     = Ret (if rc <? 0 then rc else 0) (called (c_smb2_utimens ctx p) rest w))
  ∧ (∀ fh r2 rest,
       script w = PtrR2 0 r2 :: rest → is_fault_r2 r2 = false →
       smb2fs_create path fh w
       = Ret (-1, fh)
             (called (c_smb2_open_r2 ctx p (Z.lor (Z.lor O_CREAT O_EXCL) O_RDWR))
                     rest w)).
Proof.
  intros Hfsd Hrw ctx p. subst ctx p. split.
  - intros rc rest Hscript. unfold smb2fs_utimens.
    mrun. cbn [negb]. mrun. rewrite Hrw. mrun. by destruct (rc <? 0).
  - intros fh r2 rest Hscript Hr2. unfold smb2fs_create.
    mrun. cbn [negb]. mrun. rewrite Hrw.
    by rewrite (bind_Ret _ _ _ _ _
                  (retry_open_once _ _ w s 0 r2 rest Hfsd Hscript Hr2)).
Qed.

(** A connection fault met by [utimens]. *)
Lemma utimens_create_outcomes_witness :
  let w := example_world false true [Int (-1)] in
  ∃ w',
    smb2fs_utimens "/f" w = Ret (-1) w'
    ∧ fsd w' = Some example_session
    ∧ log w' = [c_smb2_utimens 2000 "sub/f"].
Proof.
  intros w.
  destruct (utimens_create_outcomes "/f" w example_session eq_refl eq_refl)
    as [H _].
  eexists. split; [exact (H (-1) [] eq_refl)|]. split; reflexivity.
Defined.

Lemma no_fstat_handle_connection_fault :
  logs (λ c, is_fstat c = false) handle_connection_fault.
Proof.
  assert (logs (λ c, is_fstat c = false) smb2fs_destroy)
    by (unfold smb2fs_destroy; logs_use; done).
  assert (∀ url username fd,
            logs (λ c, is_fstat c = false) (fd_recovery url username fd))
    by (intros; unfold fd_recovery; logs_use; done).
  assert (∀ fci, logs (λ c, is_fstat c = false) (smb2fs_init fci))
    by (intros; unfold smb2fs_init; logs_use; done).
  unfold handle_connection_fault, reconnect_loop. logs_use; done.
Qed.

(** X26: [fgetattr] does not survive a connection fault, with or
    without the recovery of handles.  Its loop resolves [fi->fh] again
    after the fault handler has made a new session, whose registry is
    empty: the result is [-EINVAL] when the connection has been
    re-established and [-ENODEV] when it has not, and [smb2_fstat] is
    not called a second time.  A result below [-1] is returned as it
    is, and any other result gives [0]. *)
Theorem fgetattr_after_fault fh w s r ptr rc rest :
  fsd w = Some s → phr s = Some r →
  HandleToPointer r (wrap32 fh) = Some ptr → ptr ≠ 0 →
  script w = Int rc :: rest →
  let w1 := called (c_smb2_fstat (smb2 s) ptr) rest w in
  (rc < -1 → smb2fs_fgetattr fh w = Ret rc w1)
  ∧ (0 <= rc → smb2fs_fgetattr fh w = Ret 0 w1)
  ∧ (rc = -1 →
     ∀ ok w2,
       handle_connection_fault w1 = Ret ok w2 →
       smb2fs_fgetattr fh w = Ret (if ok then - EINVAL else - ENODEV) w2
       ∧ (∃ l, log w2 = log w1 ++ l ∧ Forall (λ c, is_fstat c = false) l)
       ∧ (if ok then fresh_session w2 else fsd w2 = None)).
Proof.
  intros Hfsd Hphr Hptr Hnz Hscript w1.
  pose proof (resolve_Some fh w s r Hfsd Hphr) as Hres.
  rewrite Hptr in Hres. change (default 0 (Some ptr)) with ptr in Hres.
  apply Z.eqb_neq in Hnz.
  assert (smb2fs_fgetattr fh w
          = (if rc <? -1 then ret rc
             else if rc <? 0 then
               let* ok := handle_connection_fault in
               if ok then smb2fs_fgetattr fh else ret (- ENODEV)
             else ret 0) w1) as Hstep.
  { unfold smb2fs_fgetattr at 1. mrun. cbn [negb]. mrun.
    unfold bind at 1. rewrite loop_unfold by (intros; script_use).
    mrun. rewrite Hnz. mrun. fold w1.
    destruct (rc <? -1); [reflexivity|].
    destruct (rc <? 0); [|reflexivity].
    mrun. unfold bind.
    destruct (handle_connection_fault w1) as [[] w2|] eqn:Hfault;
      [|reflexivity|reflexivity].
    destruct (handle_connection_fault_post _ _ _ Hfault)
      as [_ (s2 & inc & Hfsd2 & Hphr2)].
    unfold smb2fs_fgetattr.
    rewrite (bind_Ret _ _ _ _ _ (session_prologue_Some w2 s2 Hfsd2)).
    reflexivity. }
  rewrite Hstep. split_and!.
  - intros Hrc. by assert ((rc <? -1) = true) as -> by lia.
  - intros Hrc. assert ((rc <? -1) = false) as -> by lia.
    by assert ((rc <? 0) = false) as -> by lia.
  - intros -> ok w2 Hfault.
    change (-1 <? -1) with false. change (-1 <? 0) with true. cbn iota.
    rewrite (bind_Ret _ _ _ _ _ Hfault).
    pose proof (handle_connection_fault_post _ _ _ Hfault) as [_ Hpost].
    split; [|split; [|exact Hpost]].
    + destruct ok; [|reflexivity].
      destruct Hpost as (s2 & inc & Hfsd2 & Hphr2).
      unfold smb2fs_fgetattr.
      rewrite (bind_Ret _ _ _ _ _ (session_prologue_Some w2 s2 Hfsd2)).
      pose proof (resolve_Some fh w2 s2 _ Hfsd2 Hphr2) as Hres2.
      rewrite HandleToPointer_fresh in Hres2.
      change (default 0 None) with 0 in Hres2.
      cbn [negb]. unfold bind at 1.
      rewrite loop_unfold by (intros; script_use). by mrun.
    + exact (no_fstat_handle_connection_fault _ _ _ Hfault).
Qed.

(** A fault, and a reconnection that the user accepts and that
    succeeds. *)
Lemma fgetattr_after_fault_witness :
  let s := mkFs 2000 (Some (mkRegistry [Some 777] 1 1 1 [])) false true None in
  let w := mkWorld (Some s) 2 true true "server" (example_mount true true)
                   (Int (-1) :: Int 1 :: connect_answers 3000) [] in
  ∃ w2,
    smb2fs_fgetattr 4194305 w = Ret (- EINVAL) w2
    ∧ fresh_session w2.
Proof.
  intros s w.
  destruct (fgetattr_after_fault 4194305 w s (mkRegistry [Some 777] 1 1 1 [])
              777 (-1) (Int 1 :: connect_answers 3000)
              eq_refl eq_refl eq_refl ltac:(lia) eq_refl) as (_ & _ & H).
  assert (∃ w2, handle_connection_fault
                  (called (c_smb2_fstat 2000 777)
                          (Int 1 :: connect_answers 3000) w)
                = Ret true w2) as [w2 Hfault]
    by (eexists; vm_compute; reflexivity).
  destruct (H eq_refl true w2 Hfault) as (Hrun & _ & Hfresh).
  exists w2. split; [exact Hrun|exact Hfresh].
Defined.

(** ** A transfer that starts without a session *)

Lemma session_prologue_made w w1 :
  fsd w = None → session_prologue w = Ret true w1 →
  fresh_session w1.
Proof.
  intros Hfsd. unfold session_prologue. rewrite bind_get, Hfsd.
  assert (∀ w0, (let* p := smb2fs_init false in ret (negb (p =? 0))) w0
                = Ret true w1 → fresh_session w1) as Hinit.
  { intros w0 (p & w' & Hrun & [= Hp <-])%bind_inv.
    apply smb2fs_init_fresh in Hrun as (_ & _ & H). apply H.
    apply negb_true_iff, Z.eqb_neq in Hp. done. }
  destruct (cfg_reconnect_req w); [|apply Hinit].
  intros (again & w0 & _ & H)%bind_inv.
  destruct (again =? 0); [discriminate H|]. by apply Hinit in H.
Qed.

Lemma stream_prologue_online path fh w :
  is_Some (fsd w) → stream_prologue path fh w = Ret (inr fh) w.
Proof.
  intros [s Hs]. unfold stream_prologue. by rewrite bind_get, Hs.
Qed.

Lemma stream_prologue_offline path fh w w1 :
  fsd w = None → session_prologue w = Ret true w1 →
  stream_prologue path fh w
  = (if cfg_handles_rcv w1 then
       let* (rc_open, fh') := smb2fs_open path fh in
       if rc_open <? 0 then ret (inl (- EIO, fh')) else ret (inr fh')
     else ret (inr fh)) w1.
Proof.
  intros Hfsd Hsession. unfold stream_prologue.
  rewrite bind_get, Hfsd, (bind_Ret _ _ _ _ _ Hsession). cbn [negb].
  by rewrite bind_get.
Qed.

(** X27: a read, a write or an ftruncate that finds no session makes
    one (after the prompt, when it is enabled) before anything else.
    With the recovery of handles it then opens the path again: when
    that fails the result is [-EIO]; when it succeeds the operation
    goes on exactly as if it had been called, in the new session,
    with the handle that [open] has just stored in [fi->fh].  Without
    the recovery of handles the handle of the caller is looked up in
    the new, empty registry, and the result is [-EINVAL] ([-EROFS]
    for a write or an ftruncate on a read-only mount). *)
Theorem stream_starts_offline path fh w w1 :
  fsd w = None → session_prologue w = Ret true w1 →
  (cfg_handles_rcv w1 = true →
   ∀ rc_open fh' w2,
     smb2fs_open path fh w1 = Ret (rc_open, fh') w2 →
     (rc_open < 0 →
      ∀ size offset,
        smb2fs_read path size offset fh w = Ret (- EIO, fh') w2
        ∧ smb2fs_write path size offset fh w = Ret (- EIO, fh') w2
        ∧ smb2fs_ftruncate path size fh w = Ret (- EIO, fh') w2)
     ∧ (0 <= rc_open → is_Some (fsd w2) →
        ∀ size offset,
          smb2fs_read path size offset fh w
          = smb2fs_read path size offset fh' w2
          ∧ smb2fs_write path size offset fh w
            = smb2fs_write path size offset fh' w2
          ∧ smb2fs_ftruncate path size fh w
            = smb2fs_ftruncate path size fh' w2))
  ∧ (cfg_handles_rcv w1 = false →
     ∃ s, fsd w1 = Some s
          ∧ ∀ size offset,
              smb2fs_read path size offset fh w = Ret (- EINVAL, fh) w1
              ∧ smb2fs_write path size offset fh w
                = Ret ((if rdonly s then - EROFS else - EINVAL), fh) w1
              ∧ smb2fs_ftruncate path size fh w
                = Ret ((if rdonly s then - EROFS else - EINVAL), fh) w1).
Proof.
  intros Hfsd Hsession.
  pose proof (stream_prologue_offline path fh w w1 Hfsd Hsession) as Hpro.
  split; intros Hrcv; rewrite Hrcv in Hpro.
  - intros rc_open fh' w2 Hopen.
    rewrite (bind_Ret _ _ _ _ _ Hopen) in Hpro. split.
    + intros Hrc size offset.
      assert ((rc_open <? 0) = true) as Hlt by lia. rewrite Hlt in Hpro.
      unfold smb2fs_read, smb2fs_write, smb2fs_ftruncate.
      by rewrite !(bind_Ret _ _ _ _ _ Hpro).
    + intros Hrc Hsome size offset.
      assert ((rc_open <? 0) = false) as Hlt by lia. rewrite Hlt in Hpro.
      pose proof (stream_prologue_online path fh' w2 Hsome) as Hon.
      unfold smb2fs_read, smb2fs_write, smb2fs_ftruncate.
      by rewrite !(bind_Ret _ _ _ _ _ Hpro), !(bind_Ret _ _ _ _ _ Hon).
  - destruct (session_prologue_made w w1 Hfsd Hsession)
      as (s & inc & Hs & Hphr).
    exists s. split; [exact Hs|]. intros size offset.
    pose proof (HandleToPointer_fresh inc (wrap32 fh)) as Hnone.
    pose proof (stream_prologue_online path fh w1 ltac:(by eexists)) as Hon.
    assert (smb2fs_read path size offset fh w
            = smb2fs_read path size offset fh w1) as ->.
    { unfold smb2fs_read.
      by rewrite (bind_Ret _ _ _ _ _ Hpro), (bind_Ret _ _ _ _ _ Hon). }
    assert (smb2fs_write path size offset fh w
            = smb2fs_write path size offset fh w1) as ->.
    { unfold smb2fs_write.
      by rewrite (bind_Ret _ _ _ _ _ Hpro), (bind_Ret _ _ _ _ _ Hon). }
    assert (smb2fs_ftruncate path size fh w
            = smb2fs_ftruncate path size fh w1) as ->.
    { unfold smb2fs_ftruncate.
      by rewrite (bind_Ret _ _ _ _ _ Hpro), (bind_Ret _ _ _ _ _ Hon). }
    split; [exact (read_stale path size offset fh w1 s _ Hs Hphr Hnone)|].
    destruct (rdonly s) eqn:Hro.
    + unfold smb2fs_write, smb2fs_ftruncate.
      rewrite !(bind_Ret _ _ _ _ _ Hon). mrun. by rewrite Hro.
    + split.
      * exact (write_stale path size offset fh w1 s _ Hs Hro Hphr Hnone).
      * exact (ftruncate_stale path size fh w1 s _ Hs Hro Hphr Hnone).
Qed.

(** A read on a handle of a lost session: the connection is made, the
    file is opened again as [888], with the handle [8388609]. *)
Lemma stream_starts_offline_witness :
  let w := example_offline false true
             (connect_answers 3000 ++ [PtrR2 888 0; Int 1]
              ++ [Int 0; Int 65536; Int 50; Int 0; Int 0]) in
  ∃ w2,
    smb2fs_read "/f" 10 0 4194305 w = smb2fs_read "/f" 10 0 8388609 w2
    ∧ resolve 8388609 w2 = Ret 888 w2.
Proof.
  intros w.
  set (w1 := match session_prologue w with
             | Ret _ w' => w'
             | Fail _ => w
             end).
  assert (session_prologue w = Ret true w1) as Hsession
    by (vm_compute; reflexivity).
  destruct (stream_starts_offline "/f" 4194305 w w1 eq_refl Hsession)
    as [H _].
  set (w2 := match smb2fs_open "/f" 4194305 w1 with
             | Ret _ w' => w'
             | Fail _ => w
             end).
  assert (smb2fs_open "/f" 4194305 w1 = Ret (0, 8388609) w2) as Hopen
    by (vm_compute; reflexivity).
  destruct (H ltac:(vm_compute; reflexivity) 0 8388609 w2 Hopen) as [_ Hgo].
  exists w2. split; [|vm_compute; reflexivity].
  apply (Hgo ltac:(lia) ltac:(by eexists) 10 0).
Defined.

(** * Faults in the middle of a transfer, and the handles of a lost session *)

(** The loop goes on from where its turns have taken it. *)
Lemma loop_turns {R St} (body : St → M (flow R St)) s w s' w' :
  (∀ s, progresses (body s)) →
  turns body s w s' w' → loop body s w = loop body s' w'.
Proof.
  intros Hbody. induction 1 as [|s w s1 w1 s' w' Hturn _ IH]; [done|].
  rewrite loop_unfold by done. unfold bind. rewrite Hturn. exact IH.
Qed.

(** A first pass of [smb2fs_read] whose loop ends in a [return]. *)
Lemma read_loop_returns path size offset fh w s r ptr new_offset max t rest
    v w1 :
  fsd w = Some s → phr s = Some r →
  HandleToPointer r (wrap32 fh) = Some ptr → ptr ≠ 0 → 0 <= new_offset →
  script w = Int new_offset :: Int max :: Int t :: rest →
  loop (read_body path ptr max) (mkRead fh size 0 0 0 (mkBatch 0 0 t))
       (called c_time rest
          (called (c_smb2_get_max_read_size (smb2 s)) (Int t :: rest)
             (called (c_smb2_lseek (smb2 s) ptr offset)
                     (Int max :: Int t :: rest) w)))
  = Ret (inl v) w1 →
  smb2fs_read path size offset fh w = Ret v w1.
Proof.
  intros Hfsd Hphr Hptr Hnz Hoff Hscript Hloop.
  unfold smb2fs_read, stream_prologue.
  mrun. rewrite Hfsd. mrun.
  unfold bind at 1. rewrite loop_unfold by (intros; script_use).
  unfold read_pass at 1. mrun.
  rewrite (bind_Ret _ _ _ _ _ (resolve_Some fh w s r Hfsd Hphr)).
  rewrite Hptr. change (default 0 (Some ptr)) with ptr.
  apply Z.eqb_neq in Hnz. rewrite Hnz. mrun.
  assert ((new_offset <? 0) = false) as -> by lia. mrun.
  reflexivity.
Qed.

(** A turn of the loop of [smb2fs_read] that meets a fault from which
    the stream does not recover. *)
Lemma read_turn_fault path ptr max st w s rest v w1 :
  fsd w = Some s → 0 < rd_size st → script w = Int (-1) :: rest →
  stream_recovery path (rd_fh st)
    (called (c_smb2_read (smb2 s) ptr (rd_buffer_ref st)
                         (if max <? rd_size st then max else rd_size st))
            rest w)
  = Ret (inl v) w1 →
  loop (read_body path ptr max) st w = Ret (inl v) w1.
Proof.
  intros Hfsd Hsize Hscript Hrecovery.
  rewrite loop_unfold by (intros; script_use). unfold bind at 1.
  rewrite (read_body_step path ptr max st w s (-1) rest) by done.
  change (-1 =? 0) with false.
  change (-1 <? -1) with false. change (-1 <? 0) with true. cbn iota.
  rewrite (bind_Ret _ _ _ _ _ Hrecovery). reflexivity.
Qed.

Lemma write_loop_returns path size offset fh w s r ptr new_offset max t fd
    rest v w1 :
  fsd w = Some s → rdonly s = false → phr s = Some r →
  HandleToPointer r (wrap32 fh) = Some ptr → ptr ≠ 0 → 0 <= new_offset →
  2 < fd →
  script w = Int new_offset :: Int max :: Int t :: Int fd :: rest →
  loop (write_body path ptr max)
       (mkWrite fh size 0 0 0 (mkBatch 0 0 t) (initial_chunk max) 0)
       (called (c_smb2_get_fd (smb2 s)) rest
          (called c_time (Int fd :: rest)
             (called (c_smb2_get_max_write_size (smb2 s))
                     (Int t :: Int fd :: rest)
                (called (c_smb2_lseek (smb2 s) ptr offset)
                        (Int max :: Int t :: Int fd :: rest) w))))
  = Ret (inl v) w1 →
  smb2fs_write path size offset fh w = Ret v w1.
Proof.
  intros Hfsd Hro Hphr Hptr Hnz Hoff Hfd Hscript Hloop.
  unfold smb2fs_write, stream_prologue.
  mrun. rewrite Hfsd. mrun. rewrite Hro.
  unfold bind at 1. rewrite loop_unfold by (intros; script_use).
  unfold write_pass at 1. mrun.
  rewrite (bind_Ret _ _ _ _ _ (resolve_Some fh w s r Hfsd Hphr)).
  rewrite Hptr. change (default 0 (Some ptr)) with ptr.
  apply Z.eqb_neq in Hnz. rewrite Hnz. mrun.
  assert ((new_offset <? 0) = false) as -> by lia. mrun.
  assert ((fd <=? 2) = false) as -> by lia. cbn iota. mrun.
  reflexivity.
Qed.

Lemma write_turn_fault path ptr max st w s t1 rc t2 rest v w1 :
  fsd w = Some s → 0 < wr_size st → rc < 0 →
  script w = Int t1 :: Int rc :: Int t2 :: rest →
  stream_recovery path (wr_fh st)
    (called c_time rest
       (called (c_smb2_write (smb2 s) ptr (wr_buffer_ref st)
                             (if chunk_size st <? wr_size st
                              then chunk_size st else wr_size st))
               (Int t2 :: rest)
               (called c_time (Int rc :: Int t2 :: rest) w)))
  = Ret (inl v) w1 →
  loop (write_body path ptr max) st w = Ret (inl v) w1.
Proof.
  intros Hfsd Hsize Hrc Hscript Hrecovery.
  rewrite loop_unfold by (intros; script_use). unfold bind at 1.
  rewrite (write_body_step path ptr max st w s t1 rc t2 rest) by done.
  assert ((rc <? 0) = true) as -> by lia.
  rewrite (bind_Ret _ _ _ _ _ Hrecovery). reflexivity.
Qed.

Lemma ftruncate_call_fault path size fh w s r ptr rest v w1 :
  fsd w = Some s → rdonly s = false → phr s = Some r →
  HandleToPointer r (wrap32 fh) = Some ptr → ptr ≠ 0 →
  script w = Int (-1) :: rest →
  stream_recovery path fh (called (c_smb2_ftruncate (smb2 s) ptr size) rest w)
  = Ret (inl v) w1 →
  smb2fs_ftruncate path size fh w = Ret v w1.
Proof.
  intros Hfsd Hro Hphr Hptr Hnz Hscript Hrecovery.
  unfold smb2fs_ftruncate, stream_prologue.
  mrun. rewrite Hfsd. mrun. rewrite Hro.
  unfold bind at 1. rewrite loop_unfold by (intros; script_use).
  unfold ftruncate_body at 1. mrun.
  rewrite (bind_Ret _ _ _ _ _ (resolve_Some fh w s r Hfsd Hphr)).
  rewrite Hptr. change (default 0 (Some ptr)) with ptr.
  apply Z.eqb_neq in Hnz. rewrite Hnz. mrun.
  change (-1 <? -1) with false. change (-1 <? 0) with true. cbn iota.
  mrun. reflexivity.
Qed.

(** The recovery of a stream when the recovery of handles is disabled
    at the time of the fault. *)
Lemma stream_recovery_disabled path fh w ok w1 :
  cfg_handles_rcv w = false →
  handle_connection_fault w = Ret ok w1 →
  stream_recovery path fh w
  = Ret (inl ((if ok then - EIO else - ENODEV), fh)) w1.
Proof.
  intros Hrcv Hfault. apply stream_recovery_off; [done|].
  right. by apply (handle_connection_fault_post _ _ _ Hfault).
Qed.

(** A handle that one registry resolves is not resolved by a registry
    whose incarnation differs from the first in the bits kept in a
    handle. *)
Lemma HandleToPointer_other_incarnation r0 r handle ptr :
  HandleToPointer r0 handle = Some ptr →
  incarnation_field (incarnation r) ≠ incarnation_field (incarnation r0) →
  HandleToPointer r handle = None.
Proof.
  unfold HandleToPointer, handle_slot. intros H0 Hne.
  repeat case_bool_decide; try done. congruence.
Qed.

(** C6, amended: with the recovery of handles disabled, the read or
    the write that meets the transport fault, at whatever turn of its
    loop, and the ftruncate that meets it, return [-EIO] when the
    fault handler has re-established the connection (and [-ENODEV]
    when it has not).  A later stream operation on a handle of the
    session that was lost returns [-EINVAL], not [-EIO], whenever the
    registry of the session does not resolve the handle: in the
    session the fault handler leaves, whose registry is new and
    resolves no handle; and, whatever handles that registry has given
    out since, as long as its incarnation differs from the incarnation
    of the registry that resolved the handle in the bits a handle
    keeps (the low [INCARNATION_BITS]). *)
Theorem stale_handles_without_recovery :
  (∀ path size offset fh w s r ptr new_offset max t rest0 st wk sk rest
     ok w1,
     fsd w = Some s → phr s = Some r →
     HandleToPointer r (wrap32 fh) = Some ptr → ptr ≠ 0 →
     0 <= new_offset →
     script w = Int new_offset :: Int max :: Int t :: rest0 →
     turns (read_body path ptr max) (mkRead fh size 0 0 0 (mkBatch 0 0 t))
           (called c_time rest0
              (called (c_smb2_get_max_read_size (smb2 s)) (Int t :: rest0)
                 (called (c_smb2_lseek (smb2 s) ptr offset)
                         (Int max :: Int t :: rest0) w)))
           st wk →
     cfg_handles_rcv wk = false → fsd wk = Some sk → 0 < rd_size st →
     script wk = Int (-1) :: rest →
     handle_connection_fault
       (called (c_smb2_read (smb2 sk) ptr (rd_buffer_ref st)
                            (if max <? rd_size st then max else rd_size st))
               rest wk)
     = Ret ok w1 →
     smb2fs_read path size offset fh w
     = Ret ((if ok then - EIO else - ENODEV), rd_fh st) w1)
  ∧ (∀ path size offset fh w s r ptr new_offset max t fd rest0 st wk sk
       t1 rc t2 rest ok w1,
       fsd w = Some s → rdonly s = false → phr s = Some r →
       HandleToPointer r (wrap32 fh) = Some ptr → ptr ≠ 0 →
       0 <= new_offset → 2 < fd →
       script w = Int new_offset :: Int max :: Int t :: Int fd :: rest0 →
       turns (write_body path ptr max)
             (mkWrite fh size 0 0 0 (mkBatch 0 0 t) (initial_chunk max) 0)
             (called (c_smb2_get_fd (smb2 s)) rest0
                (called c_time (Int fd :: rest0)
                   (called (c_smb2_get_max_write_size (smb2 s))
                           (Int t :: Int fd :: rest0)
                      (called (c_smb2_lseek (smb2 s) ptr offset)
                              (Int max :: Int t :: Int fd :: rest0) w))))
             st wk →
       cfg_handles_rcv wk = false → fsd wk = Some sk → 0 < wr_size st →
       rc < 0 →
       script wk = Int t1 :: Int rc :: Int t2 :: rest →
       handle_connection_fault
         (called c_time rest
            (called (c_smb2_write (smb2 sk) ptr (wr_buffer_ref st)
                                  (if chunk_size st <? wr_size st
                                   then chunk_size st else wr_size st))
                    (Int t2 :: rest)
                    (called c_time (Int rc :: Int t2 :: rest) wk)))
       = Ret ok w1 →
       smb2fs_write path size offset fh w
       = Ret ((if ok then - EIO else - ENODEV), wr_fh st) w1)
  ∧ (∀ path size fh w s r ptr rest ok w1,
       cfg_handles_rcv w = false →
       fsd w = Some s → rdonly s = false → phr s = Some r →
       HandleToPointer r (wrap32 fh) = Some ptr → ptr ≠ 0 →
       script w = Int (-1) :: rest →
       handle_connection_fault
         (called (c_smb2_ftruncate (smb2 s) ptr size) rest w)
       = Ret ok w1 →
       smb2fs_ftruncate path size fh w
       = Ret ((if ok then - EIO else - ENODEV), fh) w1)
  ∧ (∀ w w1,
       handle_connection_fault w = Ret true w1 →
       ∃ s1,
         fsd w1 = Some s1
         ∧ ∀ path size offset fh,
             smb2fs_read path size offset fh w1 = Ret (- EINVAL, fh) w1
             ∧ (rdonly s1 = false →
                smb2fs_write path size offset fh w1
                = Ret (- EINVAL, fh) w1
                ∧ smb2fs_ftruncate path size fh w1
                  = Ret (- EINVAL, fh) w1))
  ∧ (∀ path size offset fh w s r r0 ptr,
       fsd w = Some s → phr s = Some r →
       HandleToPointer r0 (wrap32 fh) = Some ptr →
       incarnation_field (incarnation r)
       ≠ incarnation_field (incarnation r0) →
       smb2fs_read path size offset fh w = Ret (- EINVAL, fh) w
       ∧ (rdonly s = false →
          smb2fs_write path size offset fh w = Ret (- EINVAL, fh) w
          ∧ smb2fs_ftruncate path size fh w = Ret (- EINVAL, fh) w)).
Proof.
  split_and!.
  - intros path size offset fh w s r ptr new_offset max t rest0 st wk sk rest
      ok w1 Hfsd Hphr Hptr Hnz Hoff Hscript Hturns Hrcv Hsk Hsize Hfault
      Hhandler.
    eapply read_loop_returns; [done..|].
    assert (∀ st, progresses (read_body path ptr max st)) as Hbody
      by (intros; script_use).
    rewrite (loop_turns _ _ _ _ _ Hbody Hturns).
    eapply read_turn_fault; [done..|].
    by apply stream_recovery_disabled.
  - intros path size offset fh w s r ptr new_offset max t fd rest0 st wk sk
      t1 rc t2 rest ok w1 Hfsd Hro Hphr Hptr Hnz Hoff Hfd Hscript Hturns Hrcv
      Hsk Hsize Hrc Hfault Hhandler.
    eapply write_loop_returns; [done..|].
    assert (∀ st, progresses (write_body path ptr max st)) as Hbody
      by (intros; script_use).
    rewrite (loop_turns _ _ _ _ _ Hbody Hturns).
    eapply write_turn_fault; [done..|].
    by apply stream_recovery_disabled.
  - intros path size fh w s r ptr rest ok w1 Hrcv Hfsd Hro Hphr Hptr Hnz
      Hscript Hhandler.
    eapply ftruncate_call_fault; [done..|].
    by apply stream_recovery_disabled.
  - intros w w1 (_ & s1 & inc & Hs1 & Hphr)%handle_connection_fault_post.
    exists s1. split; [done|]. intros path size offset fh.
    pose proof (HandleToPointer_fresh inc (wrap32 fh)) as Hfresh.
    split; [by eapply read_stale|].
    intros Hro. split; [by eapply write_stale|by eapply ftruncate_stale].
  - intros path size offset fh w s r r0 ptr Hfsd Hphr Hptr Hinc.
    pose proof (HandleToPointer_other_incarnation r0 r _ _ Hptr Hinc)
      as Hstale.
    split; [by eapply read_stale|].
    intros Hro. split; [by eapply write_stale|by eapply ftruncate_stale].
Qed.

(** A read of 100000 bytes on the file [777], with the recovery of
    handles disabled.  The first block brings 4096 bytes, the second
    meets the fault; the user agrees to reconnect and the connection
    succeeds. *)
Lemma stale_handles_without_recovery_witness :
  let s := mkFs 2000 (Some (mkRegistry [Some 777] 1 1 1 [])) false true None in
  let w := mkWorld (Some s) 2 true false "server" (example_mount true false)
                   ([Int 0; Int 65536; Int 50; Int 4096; Int (-1); Int 1]
                    ++ connect_answers 3000)
                   [] in
  ∃ w1,
    smb2fs_read "/f" 100000 0 4194305 w = Ret (- EIO, 4194305) w1
    ∧ List.filter is_transfer (log w1)
      = [c_smb2_read 2000 777 0 65536; c_smb2_read 2000 777 4096 65536]
    ∧ smb2fs_read "/f" 100000 0 4194305 w1 = Ret (- EINVAL, 4194305) w1.
Proof.
  intros s w.
  set (rest := Int 1 :: connect_answers 3000).
  set (w3 := called c_time (Int 4096 :: Int (-1) :: rest)
               (called (c_smb2_get_max_read_size 2000)
                       (Int 50 :: Int 4096 :: Int (-1) :: rest)
                  (called (c_smb2_lseek 2000 777 0)
                          (Int 65536 :: Int 50 :: Int 4096 :: Int (-1) :: rest)
                          w))).
  set (st := mkRead 4194305 95904 4096 4096 4096 (mkBatch 1 4096 50)).
  set (wk := called (c_smb2_read 2000 777 0 65536) (Int (-1) :: rest) w3).
  set (wf := called (c_smb2_read 2000 777 4096 65536) rest wk).
  set (w1 := match handle_connection_fault wf with
             | Ret _ w' => w'
             | Fail _ => w
             end).
  assert (handle_connection_fault wf = Ret true w1) as Hhandler
    by (vm_compute; reflexivity).
  assert (turns (read_body "/f" 777 65536)
                (mkRead 4194305 100000 0 0 0 (mkBatch 0 0 50)) w3 st wk)
    as Hturns.
  { eapply turns_more; [|apply turns_none]. vm_compute. reflexivity. }
  exists w1. split; [|split; vm_compute; reflexivity].
  exact (proj1 stale_handles_without_recovery "/f" 100000 0 4194305 w s
           (mkRegistry [Some 777] 1 1 1 []) 777 0 65536 50
           (Int 4096 :: Int (-1) :: rest) st wk s rest true w1
           eq_refl eq_refl eq_refl ltac:(lia) ltac:(lia) eq_refl Hturns
           eq_refl eq_refl ltac:(cbn; lia) eq_refl Hhandler).
Defined.

(** C6 as it stands fails for the operations that follow the fault: on
    a handle of the session that was lost, a read returns [-EINVAL],
    not [-EIO]. *)
Lemma stale_handle_is_invalid :
  ¬ (∀ w w1 path size offset fh,
       cfg_handles_rcv w = false →
       handle_connection_fault w = Ret true w1 →
       ∃ w2, smb2fs_read path size offset fh w1 = Ret (- EIO, fh) w2).
Proof.
  intros H.
  assert (∃ w1,
            handle_connection_fault
              (example_world true false (Int 1 :: connect_answers 3000))
            = Ret true w1
            ∧ smb2fs_read "/f" 10 0 4194305 w1
              = Ret (- EINVAL, 4194305) w1) as (w1 & Hfault & Hread)
    by (eexists; split; [vm_compute; reflexivity|]; vm_compute; reflexivity).
  destruct (H (example_world true false (Int 1 :: connect_answers 3000))
              w1 "/f" 10 0 4194305 eq_refl Hfault) as (w2 & Hw2).
  rewrite Hread in Hw2. discriminate Hw2.
Qed.

(** The condition on the incarnations is needed: the field of a handle
    keeps [INCARNATION_BITS] bits, so the registry of incarnation
    [1025] takes the handle [4194305], given out by the registry of
    incarnation [1], for one of its own. *)
Lemma stale_handle_resolves_again :
  HandleToPointer (mkRegistry [Some 777] 1 1 1 []) 4194305 = Some 777
  ∧ HandleToPointer (mkRegistry [Some 888] 1 1 1025 []) 4194305 = Some 888.
Proof. split; vm_compute; reflexivity. Qed.

(** * The faults with reconnection disabled *)

(** With reconnection disabled the fault handler tears the session
    down and gives up. *)
Lemma handle_connection_fault_disabled w s :
  fsd w = Some s → cfg_reconnect_req w = false →
  handle_connection_fault w = Ret false (torn_down s w).
Proof.
  intros Hfsd Hcfg. by rewrite (handle_connection_fault_eq w s Hfsd), Hcfg.
Qed.

Lemma stream_recovery_gives_up path fh w s :
  fsd w = Some s → cfg_reconnect_req w = false →
  stream_recovery path fh w = Ret (inl (- ENODEV, fh)) (torn_down s w).
Proof.
  intros Hfsd Hcfg.
  apply (stream_recovery_off path fh w false);
    [by apply handle_connection_fault_disabled|by left].
Qed.

Lemma fgetattr_gives_up fh w s r ptr rest :
  fsd w = Some s → cfg_reconnect_req w = false → phr s = Some r →
  HandleToPointer r (wrap32 fh) = Some ptr → ptr ≠ 0 →
  script w = Int (-1) :: rest →
  smb2fs_fgetattr fh w
  = Ret (- ENODEV) (torn_down s (called (c_smb2_fstat (smb2 s) ptr) rest w)).
Proof.
  intros Hfsd Hcfg Hphr Hptr Hnz Hscript.
  pose proof (handle_connection_fault_disabled
                (called (c_smb2_fstat (smb2 s) ptr) rest w) s Hfsd Hcfg)
    as Hhandler.
  unfold smb2fs_fgetattr. mrun. cbn [negb].
  unfold bind at 1. rewrite loop_unfold by (intros; script_use). mrun.
  rewrite (bind_Ret _ _ _ _ _ (resolve_Some fh w s r Hfsd Hphr)).
  rewrite Hptr. change (default 0 (Some ptr)) with ptr.
  apply Z.eqb_neq in Hnz. rewrite Hnz. mrun.
  change (-1 <? -1) with false. change (-1 <? 0) with true. cbn iota.
  mrun. reflexivity.
Qed.

Lemma retry_opendir_gives_up path w s r2 rest :
  fsd w = Some s → cfg_reconnect_req w = false →
  script w = PtrR2 0 r2 :: rest → is_fault_r2 r2 = true →
  retry_opendir path w
  = Ret (inl (- ENODEV))
        (torn_down s (called (c_smb2_opendir_r2 (smb2 s) path) rest w)).
Proof.
  intros Hfsd Hcfg Hscript Hr2.
  pose proof (handle_connection_fault_disabled
                (called (c_smb2_opendir_r2 (smb2 s) path) rest w) s Hfsd Hcfg)
    as Hhandler.
  unfold retry_opendir. rewrite loop_unfold by (intros; script_use).
  mrun. cbn beta iota. change (0 =? 0) with true. cbn iota. rewrite Hr2.
  mrun. reflexivity.
Qed.

Lemma retry_open_gives_up path flags w s p r2 rest :
  fsd w = Some s → cfg_reconnect_req w = false →
  script w = PtrR2 p r2 :: rest → is_fault_r2 r2 = true →
  retry_open path flags w
  = Ret (inl (- ENODEV))
        (torn_down s (called (c_smb2_open_r2 (smb2 s) path flags) rest w)).
Proof.
  intros Hfsd Hcfg Hscript Hr2.
  pose proof (handle_connection_fault_disabled
                (called (c_smb2_open_r2 (smb2 s) path flags) rest w) s
                Hfsd Hcfg) as Hhandler.
  unfold retry_open. rewrite loop_unfold by (intros; script_use).
  mrun. cbn beta iota. rewrite Hr2. mrun. reflexivity.
Qed.

Lemma opendir_gives_up path fh w s r2 rest :
  fsd w = Some s → cfg_reconnect_req w = false →
  script w = PtrR2 0 r2 :: rest → is_fault_r2 r2 = true →
  smb2fs_opendir path fh w
  = Ret (- ENODEV, fh)
        (torn_down s (called (c_smb2_opendir_r2 (smb2 s) (remote_path s path))
                             rest w)).
Proof.
  intros Hfsd Hcfg Hscript Hr2.
  unfold smb2fs_opendir. mrun. cbn [negb]. mrun. unfold opendir_attempt.
  rewrite (bind_Ret _ _ _ _ _
             (retry_opendir_gives_up _ w s r2 rest Hfsd Hcfg Hscript Hr2)).
  reflexivity.
Qed.

Lemma open_gives_up path fh w s p r2 rest :
  fsd w = Some s → cfg_reconnect_req w = false →
  script w = PtrR2 p r2 :: rest → is_fault_r2 r2 = true →
  smb2fs_open path fh w
  = Ret (- ENODEV, fh)
        (torn_down s
           (called (c_smb2_open_r2 (smb2 s) (remote_path s path)
                                   (if rdonly s then O_RDONLY else O_RDWR))
                   rest w)).
Proof.
  intros Hfsd Hcfg Hscript Hr2.
  unfold smb2fs_open. mrun. cbn [negb]. mrun.
  unfold bind at 1.
  rewrite loop_unfold
    by (intros; apply progresses_consumes, consumes_bind_l;
        [apply consumes_retry_open|intros; script_use]).
  unfold bind at 1 2. cbn [fst].
  rewrite (retry_open_gives_up _ _ w s p r2 rest Hfsd Hcfg Hscript Hr2).
  reflexivity.
Qed.

Lemma open_gives_up_again path fh w s r2 p r2' rest :
  fsd w = Some s → cfg_reconnect_req w = false → rdonly s = false →
  script w = PtrR2 0 r2 :: PtrR2 p r2' :: rest →
  is_fault_r2 r2 = false → is_fault_r2 r2' = true →
  smb2fs_open path fh w
  = Ret (- ENODEV, fh)
        (torn_down s
           (called (c_smb2_open_r2 (smb2 s) (remote_path s path) O_RDONLY)
                   rest
              (called (c_smb2_open_r2 (smb2 s) (remote_path s path) O_RDWR)
                      (PtrR2 p r2' :: rest) w))).
Proof.
  intros Hfsd Hcfg Hro Hscript Hr2 Hr2'.
  unfold smb2fs_open. mrun. cbn [negb]. mrun. rewrite Hro. cbn iota.
  open_turn (retry_open_once (remote_path s path) O_RDWR w s 0 r2
               (PtrR2 p r2' :: rest) Hfsd Hscript Hr2).
  change (negb (0 =? 0)) with false. cbn iota.
  change (Z.land O_RDWR O_ACCMODE =? O_RDWR) with true. cbn iota.
  unfold ret at 1. cbn beta iota.
  change (Z.lor (Z.land O_RDWR (Z.lnot O_ACCMODE)) O_RDONLY) with O_RDONLY.
  pose proof (retry_open_gives_up (remote_path s path) O_RDONLY
                (called (c_smb2_open_r2 (smb2 s) (remote_path s path) O_RDWR)
                   (PtrR2 p r2' :: rest) w)
                s p r2' rest Hfsd Hcfg eq_refl Hr2') as Hsecond.
  rewrite loop_unfold
    by (intros; apply progresses_consumes, consumes_bind_l;
        [apply consumes_retry_open|intros; script_use]).
  cbn beta zeta. cbn [fst]. unfold bind at 1 2. rewrite Hsecond.
  reflexivity.
Qed.

Lemma create_gives_up path fh w s p r2 rest :
  fsd w = Some s → cfg_reconnect_req w = false → rdonly s = false →
  script w = PtrR2 p r2 :: rest → is_fault_r2 r2 = true →
  smb2fs_create path fh w
  = Ret (- ENODEV, fh)
        (torn_down s
           (called (c_smb2_open_r2 (smb2 s) (remote_path s path)
                                   (Z.lor (Z.lor O_CREAT O_EXCL) O_RDWR))
                   rest w)).
Proof.
  intros Hfsd Hcfg Hro Hscript Hr2.
  unfold smb2fs_create. mrun. cbn [negb]. mrun. rewrite Hro.
  rewrite (bind_Ret _ _ _ _ _
             (retry_open_gives_up _ _ w s p r2 rest Hfsd Hcfg Hscript Hr2)).
  reflexivity.
Qed.

Lemma rmdir_gives_up_opening path w s r2 rest :
  fsd w = Some s → cfg_reconnect_req w = false → rdonly s = false →
  script w = PtrR2 0 r2 :: rest → is_fault_r2 r2 = true →
  smb2fs_rmdir path w
  = Ret (- ENODEV)
        (torn_down s (called (c_smb2_opendir_r2 (smb2 s) (remote_path s path))
                             rest w)).
Proof.
  intros Hfsd Hcfg Hro Hscript Hr2.
  unfold smb2fs_rmdir. mrun. cbn [negb]. mrun. rewrite Hro.
  rewrite (bind_Ret _ _ _ _ _
             (retry_opendir_gives_up _ w s r2 rest Hfsd Hcfg Hscript Hr2)).
  reflexivity.
Qed.

Lemma rmdir_scan_dots_switch s smb2dir names rest : ∀ w,
  fsd w = Some s → Forall (λ name, is_dot name = true) names →
  script w = map Dirent names ++ Int 0 :: rest →
  ∃ w', rmdir_scan smb2dir w = Ret false w'
        ∧ cfg_reconnect_req w' = cfg_reconnect_req w.
Proof.
  induction names as [|dot names IH]; intros w Hfsd Hdots Hscript;
    cbn [map app] in Hscript.
  - unfold rmdir_scan; unfold bind at 1.
    rewrite loop_unfold by (intros; script_use). mrun.
    rewrite (bind_Ret _ _ _ _ _ (ext_dirent_end _ w _ Hscript)).
    mrun. eexists. split; reflexivity.
  - apply Forall_cons in Hdots as [Hdot Hdots].
    assert (negb (String.eqb dot ".") && negb (String.eqb dot "..") = false)
      as Hskip.
    { unfold is_dot in Hdot.
      by destruct (String.eqb dot "."), (String.eqb dot ".."). }
    destruct (IH (called (c_smb2_readdir (smb2 s) smb2dir)
                    (map Dirent names ++ Int 0 :: rest) w) Hfsd Hdots eq_refl)
      as (w' & Hrun & Hcfg).
    exists w'. split; [|exact Hcfg].
    rewrite <- Hrun. unfold rmdir_scan. unfold bind at 1.
    rewrite loop_unfold by (intros; script_use). mrun.
    rewrite (bind_Ret _ _ _ _ _ (ext_dirent_Dirent _ w _ _ Hscript)).
    rewrite Hskip. by mrun.
Qed.

Lemma rmdir_gives_up_removing path w s smb2dir r2 dots rest :
  fsd w = Some s → cfg_reconnect_req w = false → rdonly s = false →
  smb2dir ≠ 0 → Forall (λ name, is_dot name = true) dots →
  script w = PtrR2 smb2dir r2 :: map Dirent dots ++ Int 0 :: Int (-1) :: rest →
  ∃ wf,
    smb2fs_rmdir path w = Ret (- ENODEV) (torn_down s wf)
    ∧ script wf = rest
    ∧ log wf
      = log w
        ++ c_smb2_opendir_r2 (smb2 s) (remote_path s path)
        :: replicate (S (length dots)) (c_smb2_readdir (smb2 s) smb2dir)
        ++ [c_smb2_closedir (smb2 s) smb2dir;
            c_smb2_rmdir (smb2 s) (remote_path s path)].
Proof.
  intros Hfsd Hcfg Hro Hnz Hdots Hscript.
  set (w1 := called (c_smb2_opendir_r2 (smb2 s) (remote_path s path))
                    (map Dirent dots ++ Int 0 :: Int (-1) :: rest) w).
  destruct (rmdir_scan_dots s smb2dir dots w1 Hfsd Hdots) as [H _].
  destruct (H (Int (-1) :: rest) eq_refl)
    as (w2 & Hscan & Hfsd2 & Hscript2 & Hlog2).
  assert (cfg_reconnect_req w2 = false) as Hcfg2.
  { destruct (rmdir_scan_dots_switch s smb2dir dots (Int (-1) :: rest) w1
                Hfsd Hdots eq_refl) as (w2' & Hscan' & Hcfg').
    rewrite Hscan in Hscan'. injection Hscan' as <-. by rewrite Hcfg'. }
  set (w3 := logged (c_smb2_closedir (smb2 s) smb2dir) w2).
  exists (called (c_smb2_rmdir (smb2 s) (remote_path s path)) rest w3).
  split; [|split].
  - unfold smb2fs_rmdir. mrun. cbn [negb]. mrun. rewrite Hro.
    rewrite (bind_Ret _ _ _ _ _
               (retry_opendir_once _ w s smb2dir r2 _ Hfsd Hscript Hnz)).
    fold w1. rewrite (bind_Ret _ _ _ _ _ Hscan). mrun. fold w3.
    rewrite (retry_rc_step _ w3 s (-1) rest) by done.
    change (-1 <? -1) with false. change (-1 <? 0) with true. cbn iota.
    unfold bind.
    rewrite (handle_connection_fault_disabled _ s); [done| |];
      subst w3; cbn; assumption.
  - reflexivity.
  - cbn [log called logged w3]. rewrite Hlog2. subst w1. cbn [log called].
    rewrite <- !app_assoc. cbn [app]. by rewrite <- ?app_assoc.
Qed.

(** [smb2fs_utimens] has no path to the fault handler. *)
Lemma utimens_keeps_session path w s rc rest :
  fsd w = Some s → rdonly s = false → rc < 0 →
  script w = Int rc :: rest →
  smb2fs_utimens path w
  = Ret rc (called (c_smb2_utimens (smb2 s) (remote_path s path)) rest w).
Proof.
  intros Hfsd Hro Hrc Hscript.
  unfold smb2fs_utimens. mrun. cbn [negb]. mrun. rewrite Hro. mrun.
  by assert ((rc <? 0) = true) as -> by lia.
Qed.




(** * The final drain *)

(** A first pass of [smb2fs_read] whose loop is left without a
    [return]. *)
Lemma read_loop_left path size offset fh w s r ptr new_offset max t rest
    st w5 w' :
  fsd w = Some s → phr s = Some r →
  HandleToPointer r (wrap32 fh) = Some ptr → ptr ≠ 0 → 0 <= new_offset →
  script w = Int new_offset :: Int max :: Int t :: rest →
  loop (read_body path ptr max) (mkRead fh size 0 0 0 (mkBatch 0 0 t))
       (called c_time rest
          (called (c_smb2_get_max_read_size (smb2 s)) (Int t :: rest)
             (called (c_smb2_lseek (smb2 s) ptr offset)
                     (Int max :: Int t :: rest) w)))
  = Ret (inr st) w5 →
  service_drain w5 = Ret tt w' → 0 <= rd_rc st →
  smb2fs_read path size offset fh w = Ret (rd_result st, rd_fh st) w'.
Proof.
  intros Hfsd Hphr Hptr Hnz Hoff Hscript Hloop Hdrain Hrc.
  unfold smb2fs_read, stream_prologue.
  mrun. rewrite Hfsd. mrun.
  unfold bind at 1. rewrite loop_unfold by (intros; script_use).
  unfold read_pass at 1. mrun.
  rewrite (bind_Ret _ _ _ _ _ (resolve_Some fh w s r Hfsd Hphr)).
  rewrite Hptr. change (default 0 (Some ptr)) with ptr.
  apply Z.eqb_neq in Hnz. rewrite Hnz. mrun.
  assert ((new_offset <? 0) = false) as -> by lia. mrun.
  cbn iota. mrun.
  assert ((rd_rc st <? 0) = false) as -> by lia. reflexivity.
Qed.

Lemma write_loop_left path size offset fh w s r ptr new_offset max t fd rest
    st w5 w' :
  fsd w = Some s → rdonly s = false → phr s = Some r →
  HandleToPointer r (wrap32 fh) = Some ptr → ptr ≠ 0 → 0 <= new_offset →
  2 < fd →
  script w = Int new_offset :: Int max :: Int t :: Int fd :: rest →
  loop (write_body path ptr max)
       (mkWrite fh size 0 0 0 (mkBatch 0 0 t) (initial_chunk max) 0)
       (called (c_smb2_get_fd (smb2 s)) rest
          (called c_time (Int fd :: rest)
             (called (c_smb2_get_max_write_size (smb2 s))
                     (Int t :: Int fd :: rest)
                (called (c_smb2_lseek (smb2 s) ptr offset)
                        (Int max :: Int t :: Int fd :: rest) w))))
  = Ret (inr st) w5 →
  service_drain w5 = Ret tt w' → 0 <= wr_rc st →
  smb2fs_write path size offset fh w = Ret (wr_result st, wr_fh st) w'.
Proof.
  intros Hfsd Hro Hphr Hptr Hnz Hoff Hfd Hscript Hloop Hdrain Hrc.
  unfold smb2fs_write, stream_prologue.
  mrun. rewrite Hfsd. mrun. rewrite Hro.
  unfold bind at 1. rewrite loop_unfold by (intros; script_use).
  unfold write_pass at 1. mrun.
  rewrite (bind_Ret _ _ _ _ _ (resolve_Some fh w s r Hfsd Hphr)).
  rewrite Hptr. change (default 0 (Some ptr)) with ptr.
  apply Z.eqb_neq in Hnz. rewrite Hnz. mrun.
  assert ((new_offset <? 0) = false) as -> by lia. mrun.
  assert ((fd <=? 2) = false) as -> by lia. cbn iota. mrun.
  cbn iota. mrun.
  assert ((wr_rc st <? 0) = false) as -> by lia. reflexivity.
Qed.

(** C8, amended: in the loops of [smb2fs_read] and [smb2fs_write] a
    transfer that succeeds is accounted; the accounting adds one unit
    and the bytes transferred and, as soon as the units are 4 or the
    bytes 262144, polls [smb2_service] until an answer is not positive
    and sets both counters back to zero.  A loop that is left without
    a [return] (nothing is left to transfer or, in [smb2fs_read], a
    transfer brings no bytes) is followed by one more poll of
    [smb2_service] in the same way, whatever the counters, before the
    operation returns.  A loop that is left by a [return] (in
    [smb2fs_read] an answer below [-1]; in both, a fault from which
    the stream does not recover) ends the operation in the world of
    that [return]: the final poll is not made. *)
Theorem transfers_are_batched :
  (∀ path smb2fh max st w s rc rest,
     fsd w = Some s → 0 < rd_size st → 0 < rc →
     script w = Int rc :: rest →
     read_body path smb2fh max st w
     = (let* b := account rc (rd_batch st) in
        ret (Continue (mkRead (rd_fh st) (wrap32 (rd_size st - rc))
                              (rd_buffer_ref st + rc)
                              (to_int (rd_result st + rc)) rc b)))
         (called (c_smb2_read (smb2 s) smb2fh (rd_buffer_ref st)
                              (if max <? rd_size st then max
                               else rd_size st))
                 rest w))
  ∧ (∀ path smb2fh max st w s t1 rc t2 rest,
       fsd w = Some s → 0 < wr_size st → 0 < rc →
       script w = Int t1 :: Int rc :: Int t2 :: rest →
       write_body path smb2fh max st w
       = (let* b := account rc (wr_batch st) in
          let grown := grow_chunk max (chunk_size st) (success_count st) in
          ret (Continue (mkWrite (wr_fh st) (wrap32 (wr_size st - rc))
                                 (wr_buffer_ref st + rc)
                                 (to_int (wr_result st + rc)) rc b
                                 grown.1 grown.2)))
           (called c_time rest
              (called (c_smb2_write (smb2 s) smb2fh (wr_buffer_ref st)
                                    (if chunk_size st <? wr_size st
                                     then chunk_size st else wr_size st))
                      (Int t2 :: rest)
                      (called c_time (Int rc :: Int t2 :: rest) w))))
  ∧ (∀ rc b w,
       0 <= service_counter b → service_counter b + 1 < 4 →
       0 <= bytes_since_service b → 0 <= rc →
       bytes_since_service b + rc < 262144 →
       account rc b w
       = Ret (mkBatch (service_counter b + 1) (bytes_since_service b + rc)
                      (last_echo b)) w)
  ∧ (∀ rc b pending z t rest w s,
       0 <= service_counter b < 2 ^ 32 - 1 →
       0 <= bytes_since_service b → 0 <= rc →
       bytes_since_service b + rc < 2 ^ 32 →
       4 <= service_counter b + 1 ∨ 262144 <= bytes_since_service b + rc →
       fsd w = Some s → Forall (λ x, 0 < x) pending → z <= 0 →
       script w = map Int pending ++ Int z :: Int t :: rest →
       ∃ w',
         account rc b w
         = Ret (mkBatch 0 0
                        (if 20 <=? t - last_echo b then t else last_echo b))
               w'
         ∧ script w' = rest
         ∧ log w'
           = log w
             ++ replicate (S (length pending)) (c_smb2_service (smb2 s))
             ++ c_time
             :: (if 20 <=? t - last_echo b then [c_smb2_echo (smb2 s)]
                 else []))
  ∧ (∀ pending z rest w s,
       fsd w = Some s → Forall (λ x, 0 < x) pending → z <= 0 →
       script w = map Int pending ++ Int z :: rest →
       ∃ w',
         service_drain w = Ret tt w'
         ∧ script w' = rest
         ∧ log w'
           = log w ++ replicate (S (length pending))
                                (c_smb2_service (smb2 s))
         ∧ fsd w' = fsd w)
  ∧ (∀ path offset o w f w',
       read_pass path offset o w = Ret f w' →
       (∃ v, f = Return v)
       ∨ ∃ smb2fh max t w4 st w5,
           loop (read_body path smb2fh max)
                (mkRead (st_fh o) (st_size o) 0 0 (st_rc o) (mkBatch 0 0 t))
                w4
           = Ret (inr st) w5
           ∧ service_drain w5 = Ret tt w')
  ∧ (∀ path offset o w f w',
       write_pass path offset o w = Ret f w' →
       (∃ v, f = Return v)
       ∨ ∃ smb2fh max t w4 st w5,
           loop (write_body path smb2fh max)
                (mkWrite (st_fh o) (st_size o) 0 0 (st_rc o) (mkBatch 0 0 t)
                         (initial_chunk max) 0) w4
           = Ret (inr st) w5
           ∧ service_drain w5 = Ret tt w')
  ∧ (∀ path smb2fh max st w,
       rd_size st <= 0 → read_body path smb2fh max st w = Ret (Break st) w)
  ∧ (∀ path smb2fh max st w s rc rest,
       fsd w = Some s → 0 < rd_size st → script w = Int rc :: rest →
       let w1 :=
         called (c_smb2_read (smb2 s) smb2fh (rd_buffer_ref st)
                             (if max <? rd_size st then max else rd_size st))
                rest w in
       (rc = 0 →
        read_body path smb2fh max st w
        = Ret (Break (mkRead (rd_fh st) (rd_size st) (rd_buffer_ref st)
                             (rd_result st) 0 (rd_batch st))) w1)
       ∧ (rc < -1 →
          read_body path smb2fh max st w = Ret (Return (rc, rd_fh st)) w1)
       ∧ (rc = -1 →
          ∀ v w2,
            stream_recovery path (rd_fh st) w1 = Ret (inl v) w2 →
            read_body path smb2fh max st w = Ret (Return v) w2))
  ∧ (∀ path smb2fh max st w,
       wr_size st <= 0 → write_body path smb2fh max st w = Ret (Break st) w)
  ∧ (∀ path smb2fh max st w s t1 rc t2 rest v w2,
       fsd w = Some s → 0 < wr_size st → rc < 0 →
       script w = Int t1 :: Int rc :: Int t2 :: rest →
       stream_recovery path (wr_fh st)
         (called c_time rest
            (called (c_smb2_write (smb2 s) smb2fh (wr_buffer_ref st)
                                  (if chunk_size st <? wr_size st
                                   then chunk_size st else wr_size st))
                    (Int t2 :: rest)
                    (called c_time (Int rc :: Int t2 :: rest) w)))
       = Ret (inl v) w2 →
       write_body path smb2fh max st w = Ret (Return v) w2)
  ∧ (∀ path size offset fh w s r ptr new_offset max t rest,
       fsd w = Some s → phr s = Some r →
       HandleToPointer r (wrap32 fh) = Some ptr → ptr ≠ 0 →
       0 <= new_offset →
       script w = Int new_offset :: Int max :: Int t :: rest →
       let w4 :=
         called c_time rest
           (called (c_smb2_get_max_read_size (smb2 s)) (Int t :: rest)
              (called (c_smb2_lseek (smb2 s) ptr offset)
                      (Int max :: Int t :: rest) w)) in
       let start := mkRead fh size 0 0 0 (mkBatch 0 0 t) in
       (∀ st w5 w',
          loop (read_body path ptr max) start w4 = Ret (inr st) w5 →
          service_drain w5 = Ret tt w' → 0 <= rd_rc st →
          smb2fs_read path size offset fh w
          = Ret (rd_result st, rd_fh st) w')
       ∧ (∀ v w5,
            loop (read_body path ptr max) start w4 = Ret (inl v) w5 →
            smb2fs_read path size offset fh w = Ret v w5))
  ∧ (∀ path size offset fh w s r ptr new_offset max t fd rest,
       fsd w = Some s → rdonly s = false → phr s = Some r →
       HandleToPointer r (wrap32 fh) = Some ptr → ptr ≠ 0 →
       0 <= new_offset → 2 < fd →
       script w = Int new_offset :: Int max :: Int t :: Int fd :: rest →
       let w4 :=
         called (c_smb2_get_fd (smb2 s)) rest
           (called c_time (Int fd :: rest)
              (called (c_smb2_get_max_write_size (smb2 s))
                      (Int t :: Int fd :: rest)
                 (called (c_smb2_lseek (smb2 s) ptr offset)
                         (Int max :: Int t :: Int fd :: rest) w))) in
       let start :=
         mkWrite fh size 0 0 0 (mkBatch 0 0 t) (initial_chunk max) 0 in
       (∀ st w5 w',
          loop (write_body path ptr max) start w4 = Ret (inr st) w5 →
          service_drain w5 = Ret tt w' → 0 <= wr_rc st →
          smb2fs_write path size offset fh w
          = Ret (wr_result st, wr_fh st) w')
       ∧ (∀ v w5,
            loop (write_body path ptr max) start w4 = Ret (inl v) w5 →
            smb2fs_write path size offset fh w = Ret v w5)).
Proof.
  split_and!.
  - intros path smb2fh max st w s rc rest Hfsd Hsize Hrc Hscript.
    rewrite (read_body_step path smb2fh max st w s rc rest) by done.
    assert ((rc =? 0) = false) as -> by lia.
    assert ((rc <? -1) = false) as -> by lia.
    assert ((rc <? 0) = false) as -> by lia. reflexivity.
  - intros path smb2fh max st w s t1 rc t2 rest Hfsd Hsize Hrc Hscript.
    rewrite (write_body_step path smb2fh max st w s t1 rc t2 rest) by done.
    assert ((rc <? 0) = false) as -> by lia.
    assert ((0 <? rc) = true) as -> by lia. reflexivity.
  - exact account_below.
  - exact account_threshold.
  - exact service_drain_polls.
  - exact read_pass_final_drain.
  - exact write_pass_final_drain.
  - intros path smb2fh max st w Hsize. unfold read_body.
    by assert ((0 <? rd_size st) = false) as -> by lia.
  - intros path smb2fh max st w s rc rest Hfsd Hsize Hscript w1.
    rewrite (read_body_step path smb2fh max st w s rc rest) by done.
    fold w1. split_and!.
    + by intros ->.
    + intros Hrc. assert ((rc =? 0) = false) as -> by lia.
      by assert ((rc <? -1) = true) as -> by lia.
    + intros -> v w2 Hrecovery.
      change (-1 =? 0) with false. change (-1 <? -1) with false.
      change (-1 <? 0) with true. cbn iota.
      by rewrite (bind_Ret _ _ _ _ _ Hrecovery).
  - intros path smb2fh max st w Hsize. unfold write_body.
    by assert ((0 <? wr_size st) = false) as -> by lia.
  - intros path smb2fh max st w s t1 rc t2 rest v w2 Hfsd Hsize Hrc Hscript
      Hrecovery.
    rewrite (write_body_step path smb2fh max st w s t1 rc t2 rest) by done.
    assert ((rc <? 0) = true) as -> by lia.
    by rewrite (bind_Ret _ _ _ _ _ Hrecovery).
  - intros path size offset fh w s r ptr new_offset max t rest Hfsd Hphr Hptr
      Hnz Hoff Hscript w4 start. subst w4 start. split.
    + intros st w5 w' Hloop Hdrain Hrc.
      by apply (read_loop_left path size offset fh w s r ptr new_offset max t
                  rest st w5 w').
    + intros v w5 Hloop.
      by apply (read_loop_returns path size offset fh w s r ptr new_offset
                  max t rest v w5).
  - intros path size offset fh w s r ptr new_offset max t fd rest Hfsd Hro
      Hphr Hptr Hnz Hoff Hfd Hscript w4 start. subst w4 start. split.
    + intros st w5 w' Hloop Hdrain Hrc.
      by apply (write_loop_left path size offset fh w s r ptr new_offset max
                  t fd rest st w5 w').
    + intros v w5 Hloop.
      by apply (write_loop_returns path size offset fh w s r ptr new_offset
                  max t fd rest v w5).
Qed.

(** The fourth block of 65536 bytes, with two responses pending. *)
Lemma transfers_are_batched_witness :
  let w := example_world true true [Int 1; Int 1; Int 0; Int 130] in
  ∃ w',
    account 65536 (mkBatch 3 196608 100) w = Ret (mkBatch 0 0 130) w'
    ∧ script w' = []
    ∧ log w' = [c_smb2_service 2000; c_smb2_service 2000;
                c_smb2_service 2000; c_time; c_smb2_echo 2000].
Proof.
  apply (proj1 (proj2 (proj2 (proj2 transfers_are_batched)))
           65536 (mkBatch 3 196608 100) [1; 1] 0 130 []
           (example_world true true [Int 1; Int 1; Int 0; Int 130])
           example_session);
    cbn [service_counter bytes_since_service];
    first [ lia | reflexivity | by left
          | repeat constructor; lia ].
Defined.

(** C8 as it stands fails when the loop ends by an error: a read on
    the file [777] whose fourth [smb2_read] answers [-13], after three
    blocks of ten bytes, returns [-13] and [smb2_service] has not been
    called: neither the counters nor the end of the loop led to a
    poll. *)
Lemma read_error_skips_drain :
  (let s :=
     mkFs 2000 (Some (mkRegistry [Some 777] 1 1 1 [])) false true None in
   let w :=
     mkWorld (Some s) 2 true true "server" (example_mount true true)
             [Int 0; Int 65536; Int 50; Int 10; Int 10; Int 10; Int (-13)]
             [] in
   ∃ w',
     smb2fs_read "/f" 100000 0 4194305 w = Ret (-13, 4194305) w'
     ∧ log w' = [c_smb2_lseek 2000 777 0; c_smb2_get_max_read_size 2000;
                 c_time; c_smb2_read 2000 777 0 65536;
                 c_smb2_read 2000 777 10 65536;
                 c_smb2_read 2000 777 20 65536;
                 c_smb2_read 2000 777 30 65536])
  ∧ ¬ (∀ path size offset fh w v w',
         log w = [] → smb2fs_read path size offset fh w = Ret v w' →
         count_calls is_transfer (log w') ≠ 0%nat →
         count_calls is_service (log w') ≠ 0%nat).
Proof.
  split.
  - eexists. split; vm_compute; reflexivity.
  - intros H.
    set (s := mkFs 2000 (Some (mkRegistry [Some 777] 1 1 1 [])) false true
                   None).
    set (w := mkWorld (Some s) 2 true true "server" (example_mount true true)
                [Int 0; Int 65536; Int 50; Int 10; Int 10; Int 10; Int (-13)]
                []).
    set (w' := match smb2fs_read "/f" 100000 0 4194305 w with
               | Ret _ w' => w'
               | Fail _ => w
               end).
    assert (smb2fs_read "/f" 100000 0 4194305 w = Ret (-13, 4194305) w')
      as Hrun by (vm_compute; reflexivity).
    apply (H "/f" 100000 0 4194305 w _ w' eq_refl Hrun);
      vm_compute; [discriminate|reflexivity].
Qed.
